(* ===== verification/_CoqProject ===== *)
-Q . S2P
Prelude.v
Str.v
Regex.v
Errors.v
Digits.v
WalletErrors.v
Base58.v
Crypto.v
Address.v
Message.v
TxProof.v
AddressBook.v
Config.v
WalletTypes.v
BulkValidate.v
Hasher.v
VerifyProof.v
WalletApi.v
Scan.v
Wallet.v
Broker.v
Grinbox.v
Mwcmqs.v
Controller.v
Json.v
Keybase.v
Parser.v
Commands.v
Channels.v
Startup.v
Executor.v
Api.v
Service.v
Exchange.v
Console.v
