(* ===== verification/Prelude.v ===== *)
(** * mwc713: a verification library

    mwc713 is a command line wallet for MWC: it keeps a wallet of the library
    [grin_wallet_libwallet] open, sends and receives slates (transactions under
    construction) over several channels, and offers an http interface.  This
    library models the program in [src/src] as executable definitions and proves
    what its parts do.

    ** The parts and how they interact

    - Texts and keys.  [Str] is Rust's [str] as bytes, [Regex] the patterns,
      [Digits] positional numerals.  [Base58] is [common/base58.rs], [Crypto] is
      [common/crypto.rs] (hex, keys, signatures), [Errors] is
      [common/error_kind.rs],
      [WalletErrors] is [wallet/error.rs] and [api/error.rs], [Json] the values of [serde_json].
    - Addresses and contacts.  [Address] is [contacts/types.rs], [AddressBook]
      the book of [contacts/types.rs] over the database of
      [contacts/backend.rs], with the [contacts] command of [main.rs].
    - Messages.  [Message] is [common/message.rs]; [TxProof] is
      [wallet/types/tx_proof.rs], which turns a signed and sealed message into a
      slate with a proof; [VerifyProof] is [verify_tx_proof] of
      [wallet/api/api.rs] and [wallet/wallet.rs].
    - The wallet.  [WalletTypes] is the data of the wallet library that is
      read; [WalletApi] is [wallet/api/api.rs], the functions on the shared
      instance with its mutex; [Scan] is [wallet/api/restore.rs];
      [BulkValidate] is [calc_best_merge] and [txs_bulk_validate] of
      [wallet/api/api.rs]; [Hasher] is [common/hasher.rs]; [Wallet] is
      [wallet/wallet.rs], the object that is locked or open and that everything
      else works on.
    - Configuration.  [Config] is [common/config.rs] and the [config] command.
    - Channels.  [Broker] has the traits of [broker/types.rs] as classes and the
      life of a subscription as its handler sees it.  [Grinbox]
      ([broker/grinbox.rs], [broker/protocol.rs]), [Mwcmqs]
      ([broker/mwcmq.rs]) and [Keybase] ([broker/keybase.rs]) post slates and
      listen; [Controller] is the handler of [main.rs] that gives what arrives to
      the wallet and answers through a publisher.  [Channels] has the ends the
      program makes of them, as the implementation of what the commands use, and
      what [listen], [stop] and the threads do to the slots in any order.  [Exchange]
      puts a listener, its controller and the controller's publisher on one
      broker, which makes two wallets that answer each other.
    - Http.  [Executor] is [api/handlers/executor.rs], [Api] is [api/auth.rs],
      [api/router.rs], [api/handlers/owner.rs] and [api/handlers/foreign.rs];
      [Service] puts them into the process: the containers and routers of
      [api/router.rs], the servers [main] starts, and requests beside the prompt.
    - The console.  [Console] is [common/macros.rs] and [common/mod.rs]: the run
      mode, and what a message does to the screen and to the log
      ([Console.messages_seen]); the wrapper of the http client.
    - Commands.  [Parser] is [cli/parser.rs]: the declaration of every command and
      what clap makes of a line.  [Commands] is [do_command] of [main.rs] with
      the functions it calls: each command over the state of the process, which
      is the configuration, the files, the wallet ([Wallet]), the book
      ([AddressBook]), the receive account ([Controller]), the slots of the three
      listeners and the flag that keeps a line out of the history.  [Startup] is
      [main]: the first wallet, what starts by itself, the daemon, and the prompt
      over the lines typed.

    A publisher and a handler are known to their clients by the classes
    [Publisher] and [SubscriptionHandler] only; the database by [KvStore]; the
    crates by [CryptoLib], [RegexEngine], [Serde], [JsonText], [SlateLib],
    [WalletLib], [ProofLib], [LifeCycle], [ConfigEnv], [KeybaseCli], [ScanLib],
    [HttpLib], [ApiJson], [Clap], [ShellLib] and [Terminal]; the commands see
    the channels through [Brokers] and know of them what [BrokerLaws] says; a
    server sees its router through [Gotham].  Each class of laws has an instance (the modules
    [Toy...]), and every property with hypotheses is applied to it.

    ** How code becomes a definition

    A call that may fail is an [outcome]: a value, an error, a panic, or a call
    that never comes back ([Hang]).  Code with state is [stM], state passing
    over [outcome]; what a panic or an error has changed before stays changed.
    Mutexes, flags shared by threads, the console, files, pauses and the requests
    sent to a server are part of the state.  What other threads, servers and
    child processes do is an argument (a list of rounds, turns or connections,
    or a class over a state of its own), so a theorem holds for all of it.
    Integers are [Z] with the width of their type written out where it is left
    ([arith]): with overflow checks a panic, without them a wrap-around.
    [HashMap] and [HashSet] have no order: where the code walks through one, the
    order is a parameter.

    ** What the theorems show

    - Delivery: a slate that one wallet posts is what the handler of the other
      is given, for each channel ([Grinbox.grinbox_delivery],
      [Mwcmqs.mwcmqs_delivery], [Keybase.keybase_delivery]), and it comes from
      the address named with it ([TxProof.response_authentic], which also says
      that a message naming no destination passes; [Mwcmqs.mwcmqs_authentic]); sealed messages open again
      ([Message.encrypted_message_roundtrip]).  Two wallets end to end: a
      payment that one sends through Grinbox is received, answered and finalized
      ([Exchange.grinbox_exchange]).
    - Proofs: what a proof file that is accepted commits its parties to
      ([VerifyProof.verify_tx_proof_sound]), how it is completed
      ([WalletApi.finalize_tx_correct]) and kept ([TxProof.proof_storage]).
    - Codecs: [Base58] against the positional numerals, hex, addresses and their
      texts, with the exact inputs that panic.
    - Listeners: the calls on a handler follow the life of a subscription
      ([Grinbox.subscription_lifecycle], [Keybase.keybase_lifecycle]); stopping
      ([Mwcmqs.mwcmqs_stop], [Keybase.keybase_stops]); the delays between
      attempts ([Grinbox.reconnect_delays]).
    - The wallet: locking and unlocking, with what each failure leaves
      ([Wallet.unlock_correct]), refusal while locked, invoices only up
      to the amount allowed, balances, the lock discipline of the interface and
      where it is broken, bulk validation, scanning.
    - The http interface: who gets in, that every handler that returns is
      answered, which requests never are, and what each outcome of sending does
      to the outputs and the mutex.
    - The process: what a server serves whatever is typed meanwhile
      ([Service.service_access]), the one request after which the wallet answers
      nobody ([Service.service_stuck]), and the broker a server goes on posting
      through ([Service.relisten_not_served]).
    - The slots: one broker each, and what [listen] and [stop] leave running,
      proved from the laws of [BrokerLaws] and for its implementation
      ([Channels.listeners_machine]); the listener that no command reaches any
      more ([Channels.listener_forgotten]).
    - The commands: which lines go into the history
      ([Commands.history_secrets]), that an accepted line conforms to the
      declaration of its command and what the handlers of five commands then do
      with its values ([Commands.accepted_lines]), which channels are started
      and stopped, in order ([Commands.listener_commands]), what they keep the wallet from
      ([Commands.session_gates]), and what an answered slate, or a failure, leaves
      in the response file ([Commands.receive_response]).
    - A session: what its history can have in it ([Startup.session_history]),
      which starts go no further ([Startup.startup_exits]), how the prompt ends
      ([Startup.prompt_ends]), and when the daemon does
      ([Startup.daemon_leaves_listener]).
    - The book and the configuration: what is stored is what is read, and what
      a write that fails leaves ([AddressBook.address_book_map],
      [Config.do_config_persists]).

    ** Bounds and fuel

    Recursion that is not structural has fuel.  The encoder, decoder and digit
    loops are given the length of their input, and the theorems show that this
    suffices; [Scan.scan_loop] needs at most as many pages as the highest index;
    [calc_best_merge] is bounded by the number of outputs.  The loops of the
    listeners run over the list of what happens to them and say [Hang] when it is
    over and they still listen.  The buffers of the source (132 bytes for
    Base58) keep their sizes.

    ** Not modelled

    - The re-exports of the [mod.rs] files, and a standard output that fails.
    - The tables that the wallet library prints, colours, log lines, and the
      updater thread of the library.  A line the commands print is given by the
      text it begins with.
    - Of the file system: failures half-way through a write, except that of the
      configuration ([Config.Config_to_file]), and of making the home directory.
      The colours and completion of the prompt's editor.
    - Of the database of contacts: opening it, starting to walk through it (the
      code unwraps that) and reading an entry are taken not to fail.  Batches,
      writes, deletions and commits can fail ([AddressBook.address_book_map]). *)

From stdpp Require Export base option list list_numbers strings gmap.
From Stdlib Require Export ZArith Lia.

(** ** Outcomes of Rust code

    [Ok] and [Err] are the two sides of a [Result]; [Panic] is an unwinding
    panic (a failed [unwrap], an index out of range, a checked overflow);
    [Hang] is a call that never returns (a lock taken twice by one thread, or
    a loop that runs out of the fuel the model gives it). *)

Inductive outcome (E A : Type) : Type :=
| Ok (a : A)
| Err (e : E)
| Panic
| Hang.
Arguments Ok {E A} a.
Arguments Err {E A} e.
Arguments Panic {E A}.
Arguments Hang {E A}.

#[export] Instance outcome_ret E : MRet (outcome E) := fun A a => Ok a.
#[export] Instance outcome_bind E : MBind (outcome E) := fun A B f m =>
  match m with
  | Ok a => f a
  | Err e => Err e
  | Panic => Panic
  | Hang => Hang
  end.
#[export] Instance outcome_fmap E : FMap (outcome E) := fun A B f m =>
  match m with
  | Ok a => Ok (f a)
  | Err e => Err e
  | Panic => Panic
  | Hang => Hang
  end.
Arguments outcome_bind _ _ _ _ !_ /.
Arguments outcome_fmap _ _ _ _ !_ /.

#[export] Instance outcome_eq_dec E A `{EqDecision E, EqDecision A} :
  EqDecision (outcome E A).
Proof. solve_decision. Defined.

(** [r.map_err(f)]. *)
Definition map_err {E E' A} (f : E → E') (m : outcome E A) : outcome E' A :=
  match m with
  | Ok a => Ok a
  | Err e => Err (f e)
  | Panic => Panic
  | Hang => Hang
  end.

(** [o.ok_or(e)]. *)
Definition ok_or {E A} (e : E) (o : option A) : outcome E A :=
  match o with Some a => Ok a | None => Err e end.

(** [o.unwrap()] and [r.unwrap()] (also [expect]). *)
Definition unwrap {E A} (o : option A) : outcome E A :=
  match o with Some a => Ok a | None => Panic end.
Definition unwrap_result {E E' A} (m : outcome E' A) : outcome E A :=
  match m with Ok a => Ok a | Hang => Hang | _ => Panic end.

(** Whether a call returned normally with [Ok]. *)
Definition is_ok {E A} (m : outcome E A) : bool :=
  match m with Ok _ => true | _ => false end.

(** A call that returns: neither a panic nor a hang. *)
Definition returns {E A} (m : outcome E A) : Prop :=
  match m with Ok _ | Err _ => True | _ => False end.

Lemma bind_Ok {E A B} (m : outcome E A) (f : A → outcome E B) b :
  m ≫= f = Ok b ↔ ∃ a, m = Ok a ∧ f a = Ok b.
Proof.
  split.
  - destruct m; simpl; intros; try discriminate; eauto.
  - intros (a & -> & Hf). exact Hf.
Qed.

Lemma bind_Err {E A B} (m : outcome E A) (f : A → outcome E B) e :
  m ≫= f = Err e ↔ m = Err e ∨ ∃ a, m = Ok a ∧ f a = Err e.
Proof.
  split.
  - destruct m; simpl; intros; simplify_eq; eauto.
  - intros [->|(a & -> & Hf)]; [done | exact Hf].
Qed.

Lemma map_err_Ok {E E' A} (f : E → E') (m : outcome E A) a :
  map_err f m = Ok a ↔ m = Ok a.
Proof. destruct m; simpl; split; congruence. Qed.

Lemma bind_assoc {E A B C} (m : outcome E A) (f : A → outcome E B) (g : B → outcome E C) :
  (m ≫= f) ≫= g = m ≫= (λ a, f a ≫= g).
Proof. by destruct m. Qed.

(** A loop that has panicked stays so. *)
Lemma foldl_panic {E A B} (g : A → B → outcome E A) l :
  foldl (λ r b, r ≫= λ a, g a b) Panic l = Panic.
Proof. by induction l. Qed.

(** ** Stateful Rust code: state passing over [outcome]

    A panic or a hang keeps the state it happened in. *)

Definition stM (S E A : Type) : Type := S → outcome E A * S.
#[export] Instance stM_ret S E : MRet (stM S E) := fun A a s => (Ok a, s).
#[export] Instance stM_bind S E : MBind (stM S E) := fun A B f m s =>
  match m s with
  | (Ok a, s') => f a s'
  | (Err e, s') => (Err e, s')
  | (Panic, s') => (Panic, s')
  | (Hang, s') => (Hang, s')
  end.

Definition st_lift {S E A} (m : outcome E A) : stM S E A := fun s => (m, s).
Definition st_get {S E} : stM S E S := fun s => (Ok s, s).
Definition st_put {S E} (s : S) : stM S E () := fun _ => (Ok (), s).
Definition st_modify {S E} (f : S → S) : stM S E () := fun s => (Ok (), f s).
Definition st_err {S E A} (e : E) : stM S E A := fun s => (Err e, s).

(** [match r { Ok(x) => ok(x), Err(e) => err(e) }]: an error becomes a value,
    a panic or a hang still propagates. *)
Definition st_match {S E A B} (m : stM S E A) (ok : A → stM S E B) (err : E → stM S E B) : stM S E B :=
  fun s => match m s with
  | (Ok a, s') => ok a s'
  | (Err e, s') => err e s'
  | (Panic, s') => (Panic, s')
  | (Hang, s') => (Hang, s')
  end.

Definition st_map_err {S E A} (f : E → E) (m : stM S E A) : stM S E A :=
  fun s => let '(r, s') := m s in (map_err f r, s').

(** ** Machine integers

    An unsigned [w]-bit integer is a [Z]; arithmetic that leaves its range
    panics when overflow checks are compiled in and wraps around when not. *)

Definition in_width (w z : Z) : bool := (0 <=? z)%Z && (z <? 2 ^ w)%Z.
Definition arith {E} (checks : bool) (w z : Z) : outcome E Z :=
  if in_width w z then Ok z else if checks then Panic else Ok (z mod 2 ^ w)%Z.

Lemma in_width_spec w z : in_width w z = true ↔ (0 <= z < 2 ^ w)%Z.
Proof. unfold in_width. rewrite andb_true_iff, Z.leb_le, Z.ltb_lt. done. Qed.

Lemma arith_in_range {E} checks w z : (0 <= z < 2 ^ w)%Z → @arith E checks w z = Ok z.
Proof. intros H%in_width_spec. unfold arith. by rewrite H. Qed.

(** ** Tactics and hints *)

Create HintDb mwc.
#[export] Hint Resolve arith_in_range : mwc.

(** Splits the hypotheses that say a chain of calls returned [Ok]. *)
Ltac ok_inv :=
  repeat match goal with
  | H : _ ≫= _ = Ok _ |- _ => apply bind_Ok in H; destruct H as (? & ? & H)
  | H : map_err _ _ = Ok _ |- _ => apply map_err_Ok in H
  | H : mret _ = Ok _ |- _ => injection H as H
  | H : Ok _ = Ok _ |- _ => injection H as H
  | H : Err _ = Ok _ |- _ => discriminate H
  | H : Panic = Ok _ |- _ => discriminate H
  | H : Hang = Ok _ |- _ => discriminate H
  end.

(** Case analysis on the innermost condition of the goal. *)
Ltac case_goal :=
  match goal with
  | |- context [match ?x with _ => _ end] =>
      lazymatch x with
      | context [match _ with _ => _ end] => fail
      | _ => let H := fresh "Hcase" in destruct x eqn:H
      end
  end.
