(* ===== verification/Str.v ===== *)
(** * Rust strings

    A [&str] or [String] is the list of its UTF-8 bytes.  This file models the
    parts of the standard library's [str] the program uses (slicing with its
    char-boundary panics, [find], [split], [replace], [trim],
    [from_str_radix], decimal [Display]) and the lemmas about them that the
    components share. *)

From S2P Require Import Prelude.
From Stdlib Require Export Ascii.

Abbreviation str := (list ascii).
Definition lit (s : string) : str := String.list_ascii_of_string s.
Definition code (c : ascii) : Z := Z.of_N (N_of_ascii c).
Definition chr (z : Z) : ascii := ascii_of_N (Z.to_N z).
(** The double quote. *)
Definition dq : ascii := chr 34.
Definition quoted (s : str) : str := dq :: s ++ [dq].

Lemma code_range c : (0 <= code c < 256)%Z.
Proof. unfold code. pose proof (N_ascii_bounded c). lia. Qed.

Lemma chr_code c : chr (code c) = c.
Proof. unfold chr, code. by rewrite N2Z.id, ascii_N_embedding. Qed.

Lemma code_chr z : (0 <= z < 256)%Z → code (chr z) = z.
Proof. intros H. unfold chr, code. rewrite N_ascii_embedding; lia. Qed.

(** ** Characters *)

Definition between (lo hi : ascii) (c : ascii) : bool :=
  (code lo <=? code c)%Z && (code c <=? code hi)%Z.
Definition is_digit (c : ascii) : bool := between "0" "9" c.
Definition is_lower (c : ascii) : bool := between "a" "z" c.
Definition is_upper (c : ascii) : bool := between "A" "Z" c.
Definition mem (c : ascii) (s : str) : bool := existsb (Ascii.eqb c) s.

Lemma mem_elem_of c s : mem c s = true ↔ c ∈ s.
Proof.
  unfold mem. rewrite existsb_exists. setoid_rewrite Ascii.eqb_eq.
  setoid_rewrite <- list_elem_of_In. naive_solver.
Qed.

(** ** Slicing

    A byte index that is not on a char boundary (it points at a UTF-8
    continuation byte) or past the end panics, as does a range whose start is
    past its end. *)

Definition is_continuation (c : ascii) : bool := (Z.land (code c) 192 =? 128)%Z.
Definition is_char_boundary (s : str) (i : nat) : bool :=
  match s !! i with
  | Some c => (i =? 0) || negb (is_continuation c)
  | None => i =? length s
  end.

Definition slice {E} (s : str) (i j : nat) : outcome E str :=
  if (i <=? j) && is_char_boundary s i && is_char_boundary s j
  then Ok (take (j - i) (drop i s)) else Panic.
Definition slice_from {E} (s : str) (i : nat) : outcome E str := slice s i (length s).
Definition slice_to {E} (s : str) (j : nat) : outcome E str := slice s 0 j.

(** ** Searching and splitting *)

Fixpoint starts_with (p s : str) : bool :=
  match p, s with
  | [], _ => true
  | c :: p', d :: s' => Ascii.eqb c d && starts_with p' s'
  | _ :: _, [] => false
  end.

(** [s.find(c)] for a character. *)
Fixpoint find_char (c : ascii) (s : str) : option nat :=
  match s with
  | [] => None
  | d :: s' => if Ascii.eqb c d then Some 0 else S <$> find_char c s'
  end.

(** [s.contains(p)] (also [s.find(p).is_some()]). *)
Fixpoint contains (p s : str) : bool :=
  starts_with p s || match s with [] => false | _ :: s' => contains p s' end.

(** [s.chars().take_while(|x| *x == c).count()] for an ASCII [c]. *)
Fixpoint count_front (c : ascii) (s : str) : nat :=
  match s with d :: s' => if Ascii.eqb c d then S (count_front c s') else 0 | [] => 0 end.

(** [s.split(c)] for a one-byte separator: always at least one piece. *)
Fixpoint split (c : ascii) (s : str) : list str :=
  match s with
  | [] => [[]]
  | d :: s' =>
      if Ascii.eqb c d then [] :: split c s'
      else match split c s' with
           | [] => [[d]]
           | w :: ws => (d :: w) :: ws
           end
  end.

(** [str::replace(s, p, r)] for a non-empty pattern: leftmost matches that do
    not overlap.  [skip] counts the bytes of the current match still to drop. *)
Fixpoint replace_aux (p r s : str) (skip : nat) : str :=
  match s with
  | [] => []
  | c :: s' =>
      match skip with
      | S k => replace_aux p r s' k
      | 0 => if starts_with p s then r ++ replace_aux p r s' (length p - 1)
             else c :: replace_aux p r s' 0
      end
  end.
Definition replace (s p r : str) : str := replace_aux p r s 0.

(** [v.join(sep)]. *)
Fixpoint join (sep : str) (v : list str) : str :=
  match v with
  | [] => []
  | [w] => w
  | w :: ws => w ++ sep ++ join sep ws
  end.

(** ** [trim]: strips Unicode White_Space from both ends *)

Definition ascii_ws (c : ascii) : bool :=
  let n := code c in ((9 <=? n) && (n <=? 13) || (n =? 32))%Z.

(** The number of bytes of the white-space character at the front, if any. *)
Definition ws_front (s : str) : option nat :=
  match code <$> s with
  | a :: rest =>
      if ((9 <=? a) && (a <=? 13) || (a =? 32))%Z then Some 1 else
      match rest with
      | b :: rest' =>
          if ((a =? 194) && ((b =? 133) || (b =? 160)))%Z then Some 2 else
          match rest' with
          | c :: _ =>
              if (((a =? 225) && (b =? 154) && (c =? 128))
                  || ((a =? 226) && (b =? 128) && ((128 <=? c) && (c <=? 138) || (c =? 168) || (c =? 169) || (c =? 175)))
                  || ((a =? 226) && (b =? 129) && (c =? 159))
                  || ((a =? 227) && (b =? 128) && (c =? 128)))%Z
              then Some 3 else None
          | [] => None
          end
      | [] => None
      end
  | [] => None
  end.

Fixpoint trim_start_aux (fuel : nat) (s : str) : str :=
  match fuel with
  | 0 => s
  | S f => match ws_front s with Some n => trim_start_aux f (drop n s) | None => s end
  end.
Definition trim_start (s : str) : str := trim_start_aux (length s) s.

(** The byte length of the white-space character that ends [s], if any. *)
Definition ws_back (s : str) : option nat :=
  let n := length s in
  if match ws_front (drop (n - 1) s) with Some 1 => 1 <=? n | _ => false end then Some 1
  else if match ws_front (drop (n - 2) s) with Some 2 => 2 <=? n | _ => false end then Some 2
  else if match ws_front (drop (n - 3) s) with Some 3 => 3 <=? n | _ => false end then Some 3
  else None.
Fixpoint trim_end_aux (fuel : nat) (s : str) : str :=
  match fuel with
  | 0 => s
  | S f => match ws_back s with Some n => trim_end_aux f (take (length s - n) s) | None => s end
  end.
Definition trim_end (s : str) : str := trim_end_aux (length s) s.
Definition trim (s : str) : str := trim_end (trim_start s).

(** ** Numbers *)

(** [c.to_digit(radix)]. *)
Definition to_digit (radix : Z) (c : ascii) : option Z :=
  let d := (if is_digit c then code c - 48
            else if is_lower c then code c - 87
            else if is_upper c then code c - 55 else radix)%Z in
  if (d <? radix)%Z then Some d else None.

Fixpoint parse_digits (radix max acc : Z) (s : str) : option Z :=
  match s with
  | [] => Some acc
  | c :: s' =>
      match to_digit radix c with
      | None => None
      | Some d =>
          let acc' := (acc * radix + d)%Z in
          if (max <? acc')%Z then None else parse_digits radix max acc' s'
      end
  end.

(** [uN::from_str_radix(s, radix)]: an optional leading [+], then at least one
    digit; [None] is the [ParseIntError]. *)
Definition from_str_radix (w radix : Z) (s : str) : option Z :=
  let digits := match s with c :: s' => if Ascii.eqb c "+" then s' else s | [] => [] end in
  match digits with
  | [] => None
  | _ => parse_digits radix (2 ^ w - 1) 0 digits
  end.

(** [s.parse::<i64>()]. *)
Definition parse_i64 (s : str) : option Z :=
  match s with
  | "-"%char :: ds =>
      match ds with
      | [] => None
      | _ => Z.opp <$> parse_digits 10 (2 ^ 63) 0 ds
      end
  | _ => match from_str_radix 63 10 s with Some z => Some z | None => None end
  end.

(** [format!("{}", n)] of an unsigned integer. *)
Fixpoint dec_digits (fuel : nat) (n : Z) (acc : str) : str :=
  match fuel with
  | 0 => acc
  | S f =>
      let acc' := chr (48 + n mod 10) :: acc in
      if (n <? 10)%Z then acc' else dec_digits f (n / 10) acc'
  end.
Definition to_dec (n : Z) : str := dec_digits (S (Z.to_nat (Z.log2 n))) n [].

(** ** UTF-8

    [String::from_utf8] accepts exactly the well-formed sequences: no overlong
    forms, no surrogates, nothing above U+10FFFF. *)

Definition cont (z : Z) : bool := ((128 <=? z) && (z <=? 191))%Z.
Fixpoint utf8_run (s : list Z) (fuel : nat) : bool :=
  match fuel with
  | 0 => match s with [] => true | _ => false end
  | S f =>
    match s with
    | [] => true
    | a :: s1 =>
      if (a <? 128)%Z then utf8_run s1 f else
      match s1 with
      | [] => false
      | b :: s2 =>
        if ((194 <=? a) && (a <=? 223))%Z then cont b && utf8_run s2 f else
        match s2 with
        | [] => false
        | c :: s3 =>
          if ((224 <=? a) && (a <=? 239))%Z then
            ((if a =? 224 then (160 <=? b) && (b <=? 191)
              else if a =? 237 then (128 <=? b) && (b <=? 159) else cont b)%Z)
            && cont c && utf8_run s3 f
          else
          match s3 with
          | [] => false
          | d :: s4 =>
            ((240 <=? a) && (a <=? 244))%Z &&
            ((if a =? 240 then (144 <=? b) && (b <=? 191)
              else if a =? 244 then (128 <=? b) && (b <=? 143) else cont b)%Z)
            && cont c && cont d && utf8_run s4 f
          end
        end
      end
    end
  end.
Definition utf8_valid (s : str) : bool := utf8_run (code <$> s) (length s).

(** ** Lemmas *)

Lemma starts_with_app p s : starts_with p (p ++ s) = true.
Proof. induction p as [|c p IH]; simpl; [done|]. by rewrite Ascii.eqb_refl, IH. Qed.

Lemma starts_with_spec p s : starts_with p s = true ↔ ∃ r, s = p ++ r.
Proof.
  split; [|intros [r ->]; apply starts_with_app].
  revert s. induction p as [|c p IH]; intros [|d s]; simpl; try done; [by exists [] | by eexists |].
  intros [->%Ascii.eqb_eq [r ->]%IH]%andb_true_iff. by exists r.
Qed.

(** Strings of 7-bit characters: every index up to the end is a boundary. *)
Definition is_ascii (c : ascii) : bool := (code c <? 128)%Z.

Lemma ascii_not_continuation c : is_ascii c = true → is_continuation c = false.
Proof.
  unfold is_ascii, is_continuation. rewrite Z.ltb_lt, Z.eqb_neq. intros Hc Hl.
  assert (Z.testbit (Z.land (code c) 192) 7 = false) as Ht.
  { rewrite Z.land_spec, (Z.testbit_eqb (code c)) by lia.
    pose proof (code_range c). rewrite Z.div_small by (change (2 ^ 7)%Z with 128%Z; lia). done. }
  rewrite Hl in Ht. discriminate Ht.
Qed.

Lemma ascii_boundary s i :
  Forall (λ c, is_ascii c = true) s → i ≤ length s → is_char_boundary s i = true.
Proof.
  intros Hs Hi. unfold is_char_boundary. destruct (s !! i) as [c|] eqn:Hc.
  - apply Forall_lookup with (i := i) (x := c) in Hs; [|done].
    by rewrite (ascii_not_continuation _ Hs), orb_true_r.
  - apply lookup_ge_None in Hc. apply Nat.eqb_eq. lia.
Qed.

Lemma slice_ascii {E} s i j :
  Forall (λ c, is_ascii c = true) s → i ≤ j ≤ length s →
  slice s i j = Ok (E := E) (take (j - i) (drop i s)).
Proof.
  intros Hs Hij. unfold slice. rewrite !ascii_boundary by (done || lia).
  by rewrite (proj2 (Nat.leb_le _ _)) by lia.
Qed.

(** [&s[n..]] drops an ASCII prefix of [n] bytes. *)
Lemma slice_from_prefix {E} p s :
  Forall (λ c, is_ascii c = true) (p ++ s) →
  slice_from (p ++ s) (length p) = Ok (E := E) s.
Proof.
  intros Hs. unfold slice_from.
  rewrite slice_ascii by (done || rewrite length_app; lia).
  rewrite drop_app_length, take_ge; [done|]. rewrite length_app. lia.
Qed.

Lemma split_nonempty c s : split c s ≠ [].
Proof. destruct s; simpl; [done|]. repeat case_match; done. Qed.

(** [split] only cuts: joining the pieces gives the string back, and no piece
    holds the separator. *)
Lemma split_join c s : join [c] (split c s) = s.
Proof.
  induction s as [|d s IH]; simpl; [done|].
  destruct (Ascii.eqb_spec c d) as [<-|Hne].
  - pose proof (split_nonempty c s). destruct (split c s) as [|w ws]; [done|].
    simpl in *. by rewrite IH.
  - pose proof (split_nonempty c s). destruct (split c s) as [|w [|w' ws]]; [done| |];
      simpl in *; by rewrite <- IH.
Qed.

Lemma split_no_sep c s : Forall (λ w, c ∉ w) (split c s).
Proof.
  induction s as [|d s IH]; simpl.
  - by repeat constructor; set_solver.
  - destruct (Ascii.eqb_spec c d) as [<-|Hne].
    + constructor; [set_solver | done].
    + destruct (split c s) as [|w ws]; [by repeat constructor; set_solver|].
      inversion IH; subst. constructor; [set_solver | done].
Qed.

(** A string without the separator is one piece; a separator starts a new one. *)
Lemma split_none c s : c ∉ s → split c s = [s].
Proof.
  induction s as [|d s IH]; simpl; [done|]. intros Hc.
  destruct (Ascii.eqb_spec c d) as [<-|Hne]; [set_solver|].
  by rewrite IH by set_solver.
Qed.

Lemma split_app c s t : c ∉ s → split c (s ++ c :: t) = s :: split c t.
Proof.
  induction s as [|d s IH]; simpl; intros Hc.
  - by rewrite Ascii.eqb_refl.
  - destruct (Ascii.eqb_spec c d) as [<-|Hne]; [set_solver|].
    by rewrite IH by set_solver.
Qed.

Lemma find_char_None c s : find_char c s = None ↔ c ∉ s.
Proof.
  induction s as [|d s IH]; simpl; [set_solver|].
  destruct (Ascii.eqb_spec c d) as [<-|Hne]; [set_solver|].
  rewrite fmap_None, IH. set_solver.
Qed.

Lemma find_char_app c s t : c ∉ s → find_char c (s ++ c :: t) = Some (length s).
Proof.
  induction s as [|d s IH]; simpl; intros Hc; [by rewrite Ascii.eqb_refl|].
  destruct (Ascii.eqb_spec c d) as [<-|Hne]; [set_solver|].
  by rewrite IH by set_solver.
Qed.

(** *** Decimal printing and parsing *)

Lemma is_digit_chr d : (0 <= d < 10)%Z → is_digit (chr (48 + d)) = true.
Proof.
  intros H. unfold is_digit, between. rewrite code_chr by lia.
  change (code "0") with 48%Z. change (code "9") with 57%Z.
  apply andb_true_iff. rewrite !Z.leb_le. lia.
Qed.

Lemma to_digit_chr d : (0 <= d < 10)%Z → to_digit 10 (chr (48 + d)) = Some d.
Proof.
  intros H. unfold to_digit. rewrite is_digit_chr, code_chr by lia.
  replace (48 + d - 48)%Z with d by lia.
  by rewrite (proj2 (Z.ltb_lt d 10)) by lia.
Qed.

Lemma dec_digits_parse max f n acc :
  0 < f → (0 <= n < 2 ^ Z.of_nat f)%Z → (n <= max)%Z →
  parse_digits 10 max 0 (dec_digits f n acc) = parse_digits 10 max n acc.
Proof.
  revert n acc. induction f as [|f IH]; intros n acc Hf Hn Hmax; [lia|].
  pose proof (Z.mod_pos_bound n 10 ltac:(lia)) as Hmod.
  pose proof (Z.div_mod n 10 ltac:(lia)) as Hdiv. cbn [dec_digits].
  destruct (Z.ltb_spec n 10) as [Hlt|Hge].
  - cbn [parse_digits]. rewrite to_digit_chr by lia.
    rewrite Z.mod_small, (proj2 (Z.ltb_ge max _)) by lia. f_equal; lia.
  - destruct f as [|f]; [simpl in Hn; lia|].
    rewrite Nat2Z.inj_succ, Z.pow_succ_r in Hn by lia.
    rewrite IH by (lia || (split; [apply Z.div_pos; lia | apply Z.div_lt_upper_bound; lia])).
    cbn [parse_digits]. rewrite to_digit_chr by lia.
    replace (n / 10 * 10 + n mod 10)%Z with n by lia.
    by rewrite (proj2 (Z.ltb_ge max n)) by lia.
Qed.

Lemma dec_digits_is_digit f n acc :
  (0 <= n)%Z → Forall (λ c, is_digit c = true) acc →
  Forall (λ c, is_digit c = true) (dec_digits f n acc).
Proof.
  revert n acc. induction f as [|f IH]; intros n acc Hn Hacc; cbn [dec_digits]; [done|].
  pose proof (Z.mod_pos_bound n 10 ltac:(lia)).
  assert (Forall (λ c, is_digit c = true) (chr (48 + n mod 10) :: acc))
    by (constructor; [apply is_digit_chr; lia | done]).
  case_match; [done|]. apply IH; [apply Z.div_pos; lia | done].
Qed.

Lemma dec_digits_nonempty f n acc : acc ≠ [] → dec_digits f n acc ≠ [].
Proof.
  revert n acc. induction f as [|f IH]; intros n acc H; cbn [dec_digits]; [done|].
  case_match; [done|]. by apply IH.
Qed.

Lemma to_dec_is_digit n : (0 <= n)%Z → Forall (λ c, is_digit c = true) (to_dec n).
Proof. intros H. by apply dec_digits_is_digit. Qed.

Lemma to_dec_nonempty n : to_dec n ≠ [].
Proof.
  unfold to_dec. cbn [dec_digits]. case_match; [done|]. by apply dec_digits_nonempty.
Qed.

Lemma digit_not_plus c : is_digit c = true → Ascii.eqb c "+" = false.
Proof. intros H. apply Ascii.eqb_neq. by intros ->. Qed.

(** Printing an integer that fits and parsing it back is the identity. *)
Lemma from_str_radix_to_dec w n :
  (0 <= w)%Z → (0 <= n < 2 ^ w)%Z → from_str_radix w 10 (to_dec n) = Some n.
Proof.
  intros Hw Hn. unfold from_str_radix.
  pose proof (to_dec_is_digit n ltac:(lia)) as Hd. pose proof (to_dec_nonempty n) as Hne.
  assert (parse_digits 10 (2 ^ w - 1) 0 (to_dec n) = Some n) as Hp.
  { unfold to_dec. rewrite dec_digits_parse; [done | lia | | lia].
    split; [lia|]. rewrite Nat2Z.inj_succ, Z2Nat.id by apply Z.log2_nonneg.
    destruct (Z.eq_dec n 0) as [->|]; [done|]. apply Z.log2_spec. lia. }
  destruct (to_dec n) as [|c s]; [done|].
  inversion Hd; subst. by rewrite digit_not_plus.
Qed.

(** ASCII text that [trim] leaves alone. *)
Definition visible (c : ascii) : bool := is_ascii c && negb (ascii_ws c).

Lemma ws_front_visible c s : visible c = true → ws_front (c :: s) = None.
Proof.
  unfold visible, is_ascii, ascii_ws, ws_front. cbn [fmap list_fmap]. intros H.
  apply andb_true_iff in H as [Ha Hw]. apply negb_true_iff in Hw. rewrite Hw.
  apply Z.ltb_lt in Ha.
  destruct (code <$> s) as [|b [|d r]]; [done|..];
    rewrite !(proj2 (Z.eqb_neq (code c) _)) by lia; done.
Qed.

Lemma ws_back_visible s : Forall (λ c, visible c = true) s → ws_back s = None.
Proof.
  intros Hs. assert (∀ k, ws_front (drop k s) = None) as H.
  { intros k. pose proof (Forall_drop _ k _ Hs) as Hd. destruct (drop k s); [done|].
    apply ws_front_visible. by inversion Hd. }
  unfold ws_back. by rewrite !H.
Qed.

Lemma trim_visible s : Forall (λ c, visible c = true) s → trim s = s.
Proof.
  intros Hs. unfold trim, trim_start, trim_end.
  assert (∀ n, trim_start_aux n s = s) as ->.
  { intros [|n]; [done|]. cbn [trim_start_aux].
    destruct Hs as [|c s Hc _]; [done|]. by rewrite ws_front_visible. }
  destruct (length s); [done|]. cbn [trim_end_aux]. by rewrite ws_back_visible.
Qed.

Lemma utf8_run_ascii s n : Forall (λ c, is_ascii c = true) s → length s ≤ n → utf8_run (code <$> s) n = true.
Proof.
  intros Hs. revert n. induction Hs as [|c s Hc _ IH]; intros [|n] Hn; cbn in *; try done; [lia|].
  unfold is_ascii in Hc. rewrite Hc. apply IH. lia.
Qed.

Lemma utf8_valid_ascii s : Forall (λ c, is_ascii c = true) s → utf8_valid s = true.
Proof. intros Hs. by apply utf8_run_ascii. Qed.

(** [trim] only removes characters. *)
Lemma Forall_trim P (s : str) : Forall P s → Forall P (trim s).
Proof.
  intros Hs. unfold trim.
  assert (∀ n s, Forall P s → Forall P (trim_start_aux n s)) as H1.
  { induction n as [|n IH]; intros t Ht; cbn [trim_start_aux]; [done|].
    destruct (ws_front t); [|done]. by apply IH, Forall_drop. }
  assert (∀ n s, Forall P s → Forall P (trim_end_aux n s)) as H2.
  { induction n as [|n IH]; intros t Ht; cbn [trim_end_aux]; [done|].
    destruct (ws_back t); [|done]. by apply IH, Forall_take. }
  apply H2, H1, Hs.
Qed.

Lemma to_digit_range radix c d : (radix ≤ 36)%Z → to_digit radix c = Some d → (0 <= d < radix)%Z.
Proof.
  unfold to_digit, is_digit, is_lower, is_upper, between. intros Hr H.
  repeat case_match; simplify_eq; rewrite ?andb_true_iff, ?andb_false_iff, ?Z.leb_le, ?Z.leb_gt, ?Z.ltb_lt, ?N.leb_le in *;
    change (code "0") with 48%Z in *; change (code "9") with 57%Z in *;
    change (code "a") with 97%Z in *; change (code "z") with 122%Z in *;
    change (code "A") with 65%Z in *; change (code "Z") with 90%Z in *; lia.
Qed.

Lemma parse_digits_range radix max acc s z :
  (0 <= radix <= 36)%Z → (0 <= acc <= max)%Z → parse_digits radix max acc s = Some z → (0 <= z <= max)%Z.
Proof.
  revert acc. induction s as [|c s IH]; intros acc Hr Hacc; cbn [parse_digits]; [by intros [= <-]|].
  destruct (to_digit radix c) as [d|] eqn:Hd; [|done]. apply to_digit_range in Hd; [|lia].
  cbn zeta. destruct (Z.ltb_spec max (acc * radix + d)); [done|]. apply IH; [done|]. nia.
Qed.

Lemma from_str_radix_range w radix s z :
  (0 <= radix <= 36)%Z → (0 <= w)%Z → from_str_radix w radix s = Some z → (0 <= z < 2 ^ w)%Z.
Proof.
  intros Hr Hw. pose proof (Z.pow_pos_nonneg 2 w ltac:(lia) Hw) as Hp. unfold from_str_radix.
  set (ds := match s with [] => [] | c :: s' => _ end). clearbody ds. destruct ds as [|c ds]; [done|].
  intros H. apply parse_digits_range in H; lia.
Qed.

(** ** Splitting what was joined *)

Lemma split_join_pieces c ws : ws ≠ [] → Forall (λ w, c ∉ w) ws → split c (join [c] ws) = ws.
Proof.
  intros Hne Hws. induction Hws as [|w ws Hw Hws IH]; [done|]. destruct ws as [|w' ws].
  - cbn [join]. by apply split_none.
  - change (join [c] (w :: w' :: ws)) with (w ++ c :: join [c] (w' :: ws)). rewrite split_app by done. by rewrite IH.
Qed.

Lemma elem_of_join c sep ws : c ∈ join sep ws → c ∈ sep ∨ ∃ w, w ∈ ws ∧ c ∈ w.
Proof.
  induction ws as [|w [|w' ws] IH]; cbn [join]; [by intros ?%elem_of_nil|set_solver|].
  rewrite !elem_of_app. intros [H|[H|H]]; [right; exists w; set_solver|by left|].
  destruct (IH H) as [?|(v & Hv & ?)]; [by left|]. right. exists v. set_solver.
Qed.

(** ** Escapes

    A table of characters and the texts that stand for them, each a percent
    sign and two other characters, as in a form's body. *)

Definition escapes : Type := list (ascii * str).
Definition escape (T : escapes) (c : ascii) : str :=
  match list_find (λ e, e.1 = c) T with Some (_, e) => e.2 | None => [c] end.
Definition percent_encode (T : escapes) (s : str) : str := concat (escape T <$> s).
Definition percent_code (p : str) : Prop :=
  ∃ u v, p = ["%"%char; u; v] ∧ u ≠ "%"%char ∧ v ≠ "%"%char.

Lemma replace_skip p r x s : replace_aux p r (x ++ s) (length x) = replace_aux p r s 0.
Proof. induction x as [|c x IH]; [by destruct s|]. exact IH. Qed.

Lemma replace_here p r s : p ≠ [] → replace (p ++ s) p r = r ++ replace s p r.
Proof.
  destruct p as [|c p]; [done|]. intros _. unfold replace. cbn [app replace_aux].
  change (c :: p ++ s) with ((c :: p) ++ s). rewrite starts_with_app. cbn [length]. rewrite Nat.sub_1_r. cbn [Nat.pred].
  by rewrite replace_skip.
Qed.

Lemma replace_other p r c s : starts_with p (c :: s) = false → replace (c :: s) p r = c :: replace s p r.
Proof. intros H. unfold replace. cbn [replace_aux]. by rewrite H. Qed.

Lemma escape_cons T c p d : escape ((c, p) :: T) d = if decide (c = d) then p else escape T d.
Proof.
  unfold escape. cbn. destruct (decide (c = d)); [done|]. by destruct (list_find _ T) as [[? ?]|].
Qed.

Lemma escape_cases T d : escape T d = [d] ∨ (d, escape T d) ∈ T.
Proof.
  unfold escape. destruct (list_find _ T) as [[i e]|] eqn:E; [right|by left].
  apply list_find_Some in E as (Hi & Hd & _). apply list_elem_of_lookup_2 in Hi. destruct e; cbn in *. by subst.
Qed.

Lemma starts_with_ne c d p s : c ≠ d → starts_with (c :: p) (d :: s) = false.
Proof. intros H. cbn [starts_with]. by rewrite (proj2 (Ascii.eqb_neq c d) H). Qed.
Lemma starts_with_eq c p s : starts_with (c :: p) (c :: s) = starts_with p s.
Proof. cbn [starts_with]. by rewrite Ascii.eqb_refl. Qed.

Lemma replace_code p r q s : percent_code p → percent_code q → p ≠ q → replace (q ++ s) p r = q ++ replace s p r.
Proof.
  intros (u & v & -> & Hu & Hv) (u' & v' & -> & Hu' & Hv') Hne. cbn [app].
  rewrite replace_other; [by rewrite (replace_other _ _ u'), (replace_other _ _ v') by (apply starts_with_ne; congruence)|].
  rewrite starts_with_eq. destruct (decide (u = u')) as [<-|]; [|by apply starts_with_ne].
  rewrite starts_with_eq. destruct (decide (v = v')) as [<-|]; [done | by apply starts_with_ne].
Qed.

(** Undoing one escape leaves those of the rest of the table. *)
Lemma decode_step c p T s :
  percent_code p → Forall (λ e, percent_code e.2 ∧ e.2 ≠ p) T → "%"%char ∉ s →
  replace (percent_encode ((c, p) :: T) s) p [c] = percent_encode T s ∨ c ∈ T.*1.
Proof.
  intros Hp HT. destruct (decide (c ∈ T.*1)) as [|Hc]; [by right|]. intros Hs. left.
  assert (Hne : p ≠ []) by (by destruct Hp as (? & ? & -> & _)).
  induction s as [|d s IH]; [done|]. apply not_elem_of_cons in Hs as [Hd Hs].
  change (percent_encode ?U (d :: s)) with (escape U d ++ percent_encode U s). rewrite escape_cons.
  destruct (decide (c = d)) as [<-|Hcd].
  - rewrite replace_here, IH by done. destruct (escape_cases T c) as [->|H]; [done|].
    exfalso. apply Hc. by apply (list_elem_of_fmap_2 fst) in H.
  - destruct (escape_cases T d) as [->|H].
    + rewrite <- IH by done. cbn [app]. apply replace_other. destruct Hp as (u & v & -> & _). by apply starts_with_ne.
    + rewrite Forall_forall in HT. destruct (HT _ H) as [Hq Hqp]. rewrite replace_code, IH by done. done.
Qed.

Lemma percent_encode_nil s : percent_encode [] s = s.
Proof. induction s as [|c s IH]; [done|]. change (percent_encode [] (c :: s)) with (c :: percent_encode [] s). by rewrite IH. Qed.

(** Replacing one character by a code is encoding with a table of one. *)
Lemma replace_encode c p s : replace s [c] p = percent_encode [(c, p)] s.
Proof.
  induction s as [|d s IH]; [done|]. change (percent_encode ?U (d :: s)) with (escape U d ++ percent_encode U s).
  rewrite escape_cons, <- IH. destruct (decide (c = d)) as [<-|Hne].
  - change (c :: s) with ([c] ++ s). by rewrite replace_here.
  - rewrite replace_other by (by apply starts_with_ne). done.
Qed.

Lemma elem_of_percent_encode T s d : d ∈ percent_encode T s → d ∈ s ∨ ∃ e, e ∈ T ∧ d ∈ e.2.
Proof.
  induction s as [|c s IH]; [by intros ?%elem_of_nil|].
  change (percent_encode T (c :: s)) with (escape T c ++ percent_encode T s). rewrite elem_of_app.
  intros [H|H]; [|destruct (IH H); [left; set_solver|by right]].
  destruct (escape_cases T c) as [E|E]; [rewrite E in H; left; set_solver|]. right. by exists (c, escape T c).
Qed.

Lemma percent_encode_app T s t : percent_encode T (s ++ t) = percent_encode T s ++ percent_encode T t.
Proof. unfold percent_encode. by rewrite fmap_app, concat_app. Qed.

Lemma percent_encode_absent c p s : c ∉ s → percent_encode [(c, p)] s = s.
Proof.
  induction s as [|d s IH]; [done|]. intros [Hd Hs]%not_elem_of_cons.
  change (percent_encode ?U (d :: s)) with (escape U d ++ percent_encode U s).
  rewrite escape_cons, decide_False by done. by rewrite IH.
Qed.
