(* ===== verification/Regex.v ===== *)
(** * Regular expressions

    The addresses are read with the [regex] crate.  Its patterns are a small
    syntax with named groups, and what a match is, is the relation [rmatch];
    the crate itself is the class [RegexEngine], whose laws say that
    [captures] on an anchored pattern reports a match of the whole text when
    there is one.  [Backtrack] is an engine that satisfies the laws. *)

From S2P Require Import Prelude Str.

Inductive re : Type :=
| REps
| RChr (p : ascii → bool)
| RSeq (r1 r2 : re)
| RAlt (r1 r2 : re)
| RStar (r : re)
| RCap (name : str) (r : re).

Definition ROpt (r : re) : re := RAlt r REps.
Definition RPlus (r : re) : re := RSeq r (RStar r).
Fixpoint RLit (s : str) : re :=
  match s with [] => REps | c :: s' => RSeq (RChr (Ascii.eqb c)) (RLit s') end.
Fixpoint RTimes (n : nat) (r : re) : re :=
  match n with 0 => REps | S n' => RSeq r (RTimes n' r) end.
(** [r{n,n+m}]. *)
Fixpoint RUpTo (m : nat) (r : re) : re :=
  match m with 0 => REps | S m' => ROpt (RSeq r (RUpTo m' r)) end.
Definition RBetween (n m : nat) (r : re) : re := RSeq (RTimes n r) (RUpTo m r).

(** The named groups of a match with the text they matched. *)
Abbreviation captures_t := (list (str * str)).

Inductive rmatch : re → str → captures_t → Prop :=
| M_eps : rmatch REps [] []
| M_chr p c : p c = true → rmatch (RChr p) [c] []
| M_seq r1 r2 s1 s2 k1 k2 :
    rmatch r1 s1 k1 → rmatch r2 s2 k2 → rmatch (RSeq r1 r2) (s1 ++ s2) (k1 ++ k2)
| M_alt_l r1 r2 s k : rmatch r1 s k → rmatch (RAlt r1 r2) s k
| M_alt_r r1 r2 s k : rmatch r2 s k → rmatch (RAlt r1 r2) s k
| M_star_nil r : rmatch (RStar r) [] []
| M_star r s1 s2 k1 k2 :
    s1 ≠ [] → rmatch r s1 k1 → rmatch (RStar r) s2 k2 → rmatch (RStar r) (s1 ++ s2) (k1 ++ k2)
| M_cap n r s k : rmatch r s k → rmatch (RCap n r) s ((n, s) :: k).
#[export] Hint Constructors rmatch : mwc.

(** [Regex::new(re)] with [^...$] around the pattern, then [captures(s)]. *)
Class RegexEngine : Type := captures : re → str → option captures_t.
Class RegexLaws (R : RegexEngine) : Prop := {
  captures_sound r s k : captures r s = Some k → rmatch r s k;
  captures_complete r s k : rmatch r s k → is_Some (captures r s);
}.

(** [captures.name(n)]. *)
Fixpoint group (n : str) (k : captures_t) : option str :=
  match k with
  | (m, s) :: k' => if bool_decide (m = n) then Some s else group n k'
  | [] => None
  end.

Section laws.
Context {R : RegexEngine} {RL : RegexLaws R}.

(** A pattern that matches a text in one way only. *)
Lemma captures_unique r s k :
  rmatch r s k → (∀ k', rmatch r s k' → k' = k) → captures r s = Some k.
Proof.
  intros Hm Hu. destruct (captures_complete r s k Hm) as [k' Hk]. rewrite Hk. f_equal.
  by apply Hu, captures_sound.
Qed.

Lemma captures_none r s : (∀ k, ¬ rmatch r s k) → captures r s = None.
Proof.
  intros Hn. destruct (captures r s) as [k|] eqn:E; [|done].
  by destruct (Hn k (captures_sound _ _ _ E)).
Qed.
End laws.

(** ** Matches of the derived forms *)

Lemma rmatch_chr_inv p s k : rmatch (RChr p) s k ↔ ∃ c, s = [c] ∧ p c = true ∧ k = [].
Proof.
  split; [inversion 1; subst; eauto|]. intros (c & -> & H & ->). by constructor.
Qed.

Lemma rmatch_seq_inv r1 r2 s k :
  rmatch (RSeq r1 r2) s k ↔
  ∃ s1 s2 k1 k2, s = s1 ++ s2 ∧ k = k1 ++ k2 ∧ rmatch r1 s1 k1 ∧ rmatch r2 s2 k2.
Proof.
  split; [inversion 1; subst; eauto 10|]. intros (s1 & s2 & k1 & k2 & -> & -> & H1 & H2).
  by constructor.
Qed.

Lemma rmatch_eps_inv s k : rmatch REps s k ↔ s = [] ∧ k = [].
Proof. split; [inversion 1; by subst|]. intros [-> ->]. constructor. Qed.

Lemma rmatch_opt_inv r s k : rmatch (ROpt r) s k ↔ rmatch r s k ∨ (s = [] ∧ k = []).
Proof.
  unfold ROpt. rewrite <- rmatch_eps_inv. split; [inversion 1; subst; eauto|].
  intros [H|H]; [by apply M_alt_l | by apply M_alt_r].
Qed.

Lemma rmatch_cap_inv n r s k : rmatch (RCap n r) s k ↔ ∃ k', k = (n, s) :: k' ∧ rmatch r s k'.
Proof. split; [inversion 1; subst; eauto|]. intros (k' & -> & H). by constructor. Qed.

Lemma rmatch_lit_inv w s k : rmatch (RLit w) s k ↔ s = w ∧ k = [].
Proof.
  revert s k. induction w as [|c w IH]; intros s k; cbn [RLit]; [apply rmatch_eps_inv|].
  rewrite rmatch_seq_inv. split.
  - intros (s1 & s2 & k1 & k2 & -> & -> & H1 & [-> ->]%IH).
    apply rmatch_chr_inv in H1 as (d & -> & Hd & ->). apply Ascii.eqb_eq in Hd as <-. done.
  - intros [-> ->]. exists [c], w, [], []. split_and!; [done..| |by apply IH].
    apply rmatch_chr_inv. exists c. split_and!; [done| |done]. by apply Ascii.eqb_refl.
Qed.

(** All characters in the class [p]. *)
Definition all (p : ascii → bool) (s : str) : Prop := Forall (λ c, p c = true) s.

Lemma rmatch_times_inv p n s k :
  rmatch (RTimes n (RChr p)) s k ↔ length s = n ∧ all p s ∧ k = [].
Proof.
  revert s k. induction n as [|n IH]; intros s k; cbn [RTimes].
  - rewrite rmatch_eps_inv. split; [intros [-> ->]; split_and!; [done | constructor | done]|].
    intros (Hl & _ & ->). by destruct s.
  - rewrite rmatch_seq_inv. split.
    + intros (s1 & s2 & k1 & k2 & -> & -> & (c & -> & Hc & ->)%rmatch_chr_inv & (<- & H & ->)%IH).
      split_and!; [done | by constructor | done].
    + intros (Hl & Hs & ->). destruct Hs as [|c s Hc Hs]; [done|]. injection Hl as Hl.
      exists [c], s, [], []. split_and!; [done..|by constructor | by apply IH].
Qed.

Lemma rmatch_upto_inv p m s k :
  rmatch (RUpTo m (RChr p)) s k ↔ length s ≤ m ∧ all p s ∧ k = [].
Proof.
  revert s k. induction m as [|m IH]; intros s k; cbn [RUpTo].
  - rewrite rmatch_eps_inv. split; [intros [-> ->]; split_and!; [done | constructor | done]|].
    intros (Hl & _ & ->). destruct s; [done | cbn in Hl; lia].
  - rewrite rmatch_opt_inv, rmatch_seq_inv. split.
    + intros [(s1 & s2 & k1 & k2 & -> & -> & (c & -> & Hc & ->)%rmatch_chr_inv & (Hl & H & ->)%IH)|[-> ->]].
      * split_and!; [cbn; lia | by constructor | done].
      * split_and!; [cbn; lia | constructor | done].
    + intros (Hl & Hs & ->). destruct Hs as [|c s Hc Hs]; [by right|]. left. cbn in Hl.
      exists [c], s, [], []. split_and!; [done..|by constructor | apply IH; split_and!; [lia | done | done]].
Qed.

Lemma rmatch_between_inv p n m s k :
  rmatch (RBetween n m (RChr p)) s k ↔ n ≤ length s ≤ n + m ∧ all p s ∧ k = [].
Proof.
  unfold RBetween. rewrite rmatch_seq_inv. split.
  - intros (s1 & s2 & k1 & k2 & -> & -> & (H1 & H2 & ->)%rmatch_times_inv & (H3 & H4 & ->)%rmatch_upto_inv).
    rewrite length_app. split_and!; [lia | lia | by apply Forall_app | done].
  - intros (Hl & Hs & ->). exists (take n s), (drop n s), [], [].
    rewrite rmatch_times_inv, rmatch_upto_inv, take_drop, length_take, length_drop.
    split_and!; [done | done | lia | by apply Forall_take | done | lia | by apply Forall_drop | done].
Qed.

Lemma rmatch_star_cases r s k :
  rmatch (RStar r) s k →
  (s = [] ∧ k = []) ∨
  ∃ s1 s2 k1 k2, s = s1 ++ s2 ∧ k = k1 ++ k2 ∧ s1 ≠ [] ∧ rmatch r s1 k1 ∧ rmatch (RStar r) s2 k2.
Proof. inversion 1; subst; [by left | right; eauto 10]. Qed.

Lemma rmatch_star_inv p s k : rmatch (RStar (RChr p)) s k ↔ all p s ∧ k = [].
Proof.
  split.
  - remember (RStar (RChr p)) as r eqn:Hr. induction 1 as [| | | | | |r s1 s2 k1 k2 _ H1 _ _ IH|]; try done.
    + split; [constructor | done].
    + injection Hr as ->. apply rmatch_chr_inv in H1 as (c & -> & Hc & ->).
      destruct IH as [IH ->]; [done|]. split; [by constructor | done].
  - intros [Hs ->]. induction Hs as [|c s Hc _ IH]; [constructor|].
    apply (M_star _ [c] s [] []); [done | by constructor | done].
Qed.

Lemma rmatch_plus_inv p s k : rmatch (RPlus (RChr p)) s k ↔ s ≠ [] ∧ all p s ∧ k = [].
Proof.
  unfold RPlus. rewrite rmatch_seq_inv. split.
  - intros (s1 & s2 & k1 & k2 & -> & -> & (c & -> & Hc & ->)%rmatch_chr_inv & (H & ->)%rmatch_star_inv).
    split_and!; [done | by constructor | done].
  - intros (Hne & Hs & ->). destruct Hs as [|c s Hc Hs]; [done|].
    exists [c], s, [], []. split_and!; [done..|by constructor | by apply rmatch_star_inv].
Qed.

(** ** An engine *)

Module Backtrack.
Abbreviation ways := (list (captures_t * str)).

(** Zero or more matches of [body]; [fuel] bounds the iterations, each of
    which consumes a character. *)
Definition star (body : str → ways) : nat → str → ways :=
  fix star fuel s :=
    match fuel with
    | 0 => [([], s)]
    | S f =>
        ('(k1, s1) ← body s;
         if length s1 <? length s
         then '(k2, s2) ← star f s1; [(k1 ++ k2, s2)] else [])
        ++ [([], s)]
    end.

(** All ways to match a prefix of [s], with the captures and the rest. *)
Fixpoint run (r : re) (s : str) : ways :=
  match r with
  | REps => [([], s)]
  | RChr p => match s with c :: s' => if p c then [([], s')] else [] | [] => [] end
  | RSeq r1 r2 => '(k1, s1) ← run r1 s; '(k2, s2) ← run r2 s1; [(k1 ++ k2, s2)]
  | RAlt r1 r2 => run r1 s ++ run r2 s
  | RStar r => star (run r) (length s) s
  | RCap n r => '(k, s') ← run r s; [((n, take (length s - length s') s) :: k, s')]
  end.

#[export] Instance engine : RegexEngine := λ r s,
  fst <$> head (filter (λ p, p.2 = []) (run r s)).

Lemma elem_of_bind_pair {A} (f : captures_t → str → list A) (l : list (captures_t * str)) x :
  x ∈ ('(k, s) ← l; f k s) ↔ ∃ k s, (k, s) ∈ l ∧ x ∈ f k s.
Proof.
  rewrite list_elem_of_bind. split; [intros ([k s] & H1 & H2); eauto | intros (k & s & ? & ?)].
  by exists (k, s).
Qed.

Definition ok (r : re) : Prop := ∀ s k s',
  (k, s') ∈ run r s ↔ ∃ s1, s = s1 ++ s' ∧ rmatch r s1 k.

Lemma star_ok r : ok r → ∀ f s k s', length s ≤ f →
  (k, s') ∈ star (run r) f s ↔ ∃ s1, s = s1 ++ s' ∧ rmatch (RStar r) s1 k.
Proof.
  intros Hr f. induction f as [|f IH]; intros s k s' Hf; cbn [star].
  - rewrite list_elem_of_singleton. destruct s; [|cbn in Hf; lia]. split.
    + intros [= -> ->]. exists []. split; [done | constructor].
    + intros (s1 & Hs & Hm). symmetry in Hs. apply app_eq_nil in Hs as [-> ->].
      apply rmatch_star_cases in Hm as [[_ ->]|(s1 & s2 & k1 & k2 & E & _ & Hne & _)]; [done|].
      symmetry in E. by apply app_eq_nil in E as [-> _].
  - rewrite elem_of_app, elem_of_bind_pair, list_elem_of_singleton. split.
    + intros [(k1 & s1 & H1 & H2)|[= -> ->]].
      * apply Hr in H1 as (t & -> & Hm). rewrite length_app in H2.
        destruct (Nat.ltb_spec (length s1) (length t + length s1)) as [Hlt|]; [|by apply not_elem_of_nil in H2].
        apply elem_of_bind_pair in H2 as (k2 & s2 & H2 & [= -> ->]%list_elem_of_singleton).
        apply IH in H2 as (t' & -> & Hm'); [|rewrite length_app in Hf; lia].
        exists (t ++ t'). split; [by rewrite app_assoc|].
        apply M_star; [intros ->; cbn in Hlt; lia | done | done].
      * exists []. split; [done | constructor].
    + intros (s1 & -> & [[-> ->]|(t1 & t2 & k1 & k2 & -> & -> & Hne & H1 & H2)]%rmatch_star_cases); [by right|].
      left. exists k1, (t2 ++ s'). rewrite <- app_assoc. split.
      * apply Hr. eauto.
      * assert (0 < length t1) by (destruct t1; [done | cbn; lia]).
        rewrite !length_app, (proj2 (Nat.ltb_lt _ _)) by lia.
        apply elem_of_bind_pair. exists k2, s'. split; [|by apply list_elem_of_singleton].
        apply IH; [rewrite !length_app in *; lia | eauto].
Qed.

Lemma run_ok r : ok r.
Proof.
  induction r as [|p|r1 IH1 r2 IH2|r1 IH1 r2 IH2|r IH|n r IH]; intros s k s'; cbn [run].
  - rewrite list_elem_of_singleton. split.
    + intros [= -> ->]. exists []. split; [done | constructor].
    + intros (s1 & -> & [-> ->]%rmatch_eps_inv). done.
  - split.
    + destruct s as [|c s]; [by intros ?%not_elem_of_nil|]. destruct (p c) eqn:Hp;
        [|by intros ?%not_elem_of_nil]. intros [= -> ->]%list_elem_of_singleton.
      exists [c]. split; [done | by constructor].
    + intros (s1 & -> & (c & -> & Hc & ->)%rmatch_chr_inv). cbn. rewrite Hc.
      by apply list_elem_of_singleton.
  - rewrite elem_of_bind_pair. split.
    + intros (k1 & s1 & (t1 & -> & H1)%IH1 & (k2 & s2 & (t2 & -> & H2)%IH2 & [= -> ->]%list_elem_of_singleton)%elem_of_bind_pair).
      exists (t1 ++ t2). split; [by rewrite app_assoc | by constructor].
    + intros (t & -> & (t1 & t2 & k1 & k2 & -> & -> & H1 & H2)%rmatch_seq_inv).
      rewrite <- app_assoc. exists k1, (t2 ++ s'). split; [apply IH1; eauto|].
      apply elem_of_bind_pair. exists k2, s'. split; [apply IH2; eauto | by apply list_elem_of_singleton].
  - rewrite elem_of_app, (IH1 s k s'), (IH2 s k s'). split.
    + intros [(t & -> & H)|(t & -> & H)]; exists t; eauto with mwc.
    + intros (t & -> & H). inversion H; subst; eauto.
  - by apply star_ok.
  - rewrite elem_of_bind_pair. split.
    + intros (k1 & s1 & (t & -> & H)%IH & [= -> ->]%list_elem_of_singleton).
      exists t. split; [done|]. rewrite length_app, Nat.add_sub, take_app_length. by constructor.
    + intros (t & -> & (k1 & -> & H)%rmatch_cap_inv). exists k1, s'. split; [apply IH; eauto|].
      rewrite length_app, Nat.add_sub, take_app_length. by apply list_elem_of_singleton.
Qed.

#[export] Instance laws : RegexLaws engine.
Proof.
  split.
  - unfold captures, engine. intros r s k H.
    destruct (filter _ _) as [|[k' s'] l] eqn:E; [done|]. injection H as ->.
    assert ((k, s') ∈ filter (λ p : captures_t * str, p.2 = []) (run r s)) as Hin
      by (rewrite E; left).
    apply list_elem_of_filter in Hin as [Hs Hin]. cbn in Hs. subst s'.
    apply run_ok in Hin as (s1 & -> & Hm). by rewrite app_nil_r.
  - unfold captures, engine. intros r s k H.
    assert ((k, []) ∈ filter (λ p : captures_t * str, p.2 = []) (run r s)) as Hin.
    { apply list_elem_of_filter. split; [done|]. apply run_ok. exists s. by rewrite app_nil_r. }
    destruct (filter _ _); [by apply not_elem_of_nil in Hin | eauto].
Qed.
End Backtrack.
