(* ===== verification/Errors.v ===== *)
(** * Errors

    [common/error_kind.rs]: the program's [ErrorKind], its [Display] text, and
    the [failure::Error] the functions return, which is an [ErrorKind] or an
    error of another crate carried by its text. *)

From S2P Require Import Prelude Str.

Inductive ErrorKind : Type :=
| Secp
| ModelNotFound
| WalletSeedCouldNotBeOpened
| TransactionHasNoProof
| InvalidTxId (_ : str)
| InvalidAmount (_ : str)
| CustomWithNoOutputs
| NonCustomWithOutputs
| InvalidStrategy
| InvalidMinConfirmations (_ : str)
| InvalidPaginationLength (_ : str)
| InvalidTxIdNumber (_ : str)
| InvalidTxUuid (_ : str)
| InvalidPaginationStart (_ : str)
| InvalidNumOutputs (_ : str)
| InvalidSlateVersion (_ : str)
| WalletUnlockFailed
| ZeroConfNotAllowed
| NoWallet
| ClosedListener (_ : str)
| InvalidRespose (_ : str)
| AlreadyListening (_ : str)
| ContactAlreadyExists (_ : str)
| ContactNotFound (_ : str)
| InvalidBase58Character (c : ascii) (i : nat)
| InvalidBase58Length
| InvalidBase58Checksum
| InvalidBase58Version
| InvalidBase58Key
| NumberParsingError
| UnknownAddressType (_ : str)
| GrinboxAddressParsingError (_ : str)
| KeybaseAddressParsingError (_ : str)
| HttpsAddressParsingError (_ : str)
| KeybaseMessageSendError
| GrinWalletReceiveError
| GrinWalletVerifySlateMessagesError
| GrinWalletFinalizeError
| GrinWalletPostError
| KeybaseNotFound
| GrinboxWebsocketAbnormalTermination
| DoesNotAcceptInvoices
| InvoiceAmountTooBig (_ : Z)
| HasListener
| WalletAlreadyUnlocked
| Encryption
| Decryption
| HttpRequest
| GenericError (_ : str)
| VerifyProof
| FileNotFound (_ : str)
| FileUnableToDelete (_ : str)
| FileUnableToCreate (_ : str)
| TxProofParseAddress (_ : str)
| TxProofParsePublicKey
| TxProofParseSignature (_ : str)
| TxProofVerifySignature
| TxProofParseEncryptedMessage
| TxProofVerifyDestination
| TxProofDecryptionKey
| TxProofDecryptMessage
| TxProofParseSlate.

#[export] Instance ErrorKind_eq_dec : EqDecision ErrorKind.
Proof. solve_decision. Defined.

(** The texts of the [#[fail(display = ...)]] attributes. *)
Definition ErrorKind_display (k : ErrorKind) : str :=
  match k with
  | Secp => lit "secp error"
  | ModelNotFound => lit "model not found!"
  | WalletSeedCouldNotBeOpened => lit "could not open wallet seed!"
  | TransactionHasNoProof => lit "transaction doesn't have a proof!"
  | InvalidTxId a => lit "invalid transaction id given: `" ++ a ++ lit "`"
  | InvalidAmount a => lit "invalid amount given: `" ++ a ++ lit "`"
  | CustomWithNoOutputs => lit "--outputs must be specified when selection strategy is 'custom'"
  | NonCustomWithOutputs => lit "--outputs must not be specified unless selection strategy is 'custom'"
  | InvalidStrategy => lit "invalid selection strategy, use either 'smallest', 'all', or 'custom'"
  | InvalidMinConfirmations a => lit "invalid number of minimum confirmations given: `" ++ a ++ lit "`"
  | InvalidPaginationLength a => lit "invalid pagination length: `" ++ a ++ lit "`"
  | InvalidTxIdNumber a => lit "invalid transaction id number: `" ++ a ++ lit "`"
  | InvalidTxUuid a => lit "invalid transaction UUID: `" ++ a ++ lit "`"
  | InvalidPaginationStart a => lit "invalid pagination start: `" ++ a ++ lit "`"
  | InvalidNumOutputs a => lit "invalid number of outputs given: `" ++ a ++ lit "`"
  | InvalidSlateVersion a => lit "invalid slate version given: `" ++ a ++ lit "`"
  | WalletUnlockFailed => lit "could not unlock wallet! are you using the correct passphrase?"
  | ZeroConfNotAllowed => lit "Zero-conf Transactions are not allowed. Must have at least 1 confirmation."
  | NoWallet => lit "could not open wallet! use `unlock` or `init`."
  | ClosedListener a => a ++ lit " listener is closed! consider using `listen` first."
  | InvalidRespose a => a ++ lit " Sender returned invalid response."
  | AlreadyListening a => lit "listener for " ++ a ++ lit " already started!"
  | ContactAlreadyExists a => lit "contact named `" ++ a ++ lit "` already exists!"
  | ContactNotFound a => lit "could not find contact named `" ++ a ++ lit "`!"
  | InvalidBase58Character _ _ => lit "invalid character!"
  | InvalidBase58Length => lit "invalid length!"
  | InvalidBase58Checksum => lit "invalid checksum!"
  | InvalidBase58Version => lit "invalid network!"
  | InvalidBase58Key => lit "invalid key!"
  | NumberParsingError => lit "could not parse number from string!"
  | UnknownAddressType a => lit "unknown address type `" ++ a ++ lit "`!"
  | GrinboxAddressParsingError a => lit "could not parse `" ++ a ++ lit "` to a mwcmq address!"
  | KeybaseAddressParsingError a => lit "could not parse `" ++ a ++ lit "` to a keybase address!"
  | HttpsAddressParsingError a => lit "could not parse `" ++ a ++ lit "` to a https address!"
  | KeybaseMessageSendError => lit "could not send keybase message!"
  | GrinWalletReceiveError => lit "failed receiving slate!"
  | GrinWalletVerifySlateMessagesError => lit "failed verifying slate messages!"
  | GrinWalletFinalizeError => lit "failed finalizing slate!"
  | GrinWalletPostError => lit "failed posting transaction!"
  | KeybaseNotFound => lit "keybase not found! consider installing keybase locally first."
  | GrinboxWebsocketAbnormalTermination => lit "mwcmq websocket terminated unexpectedly!"
  | DoesNotAcceptInvoices => lit "rejecting invoice as auto invoice acceptance is turned off!"
  | InvoiceAmountTooBig a => lit "rejecting invoice as amount '" ++ to_dec a ++ lit "' is too big!"
  | HasListener => lit "please stop the listeners before doing this operation"
  | WalletAlreadyUnlocked => lit "wallet already unlocked"
  | Encryption => lit "unable to encrypt message"
  | Decryption => lit "unable to decrypt message"
  | HttpRequest => lit "http request error"
  | GenericError a => a
  | VerifyProof => lit "unable to verify proof"
  | FileNotFound a => lit "file '" ++ a ++ lit "' not found"
  | FileUnableToDelete a => lit "unable to delete the file '" ++ a ++ lit "'"
  | FileUnableToCreate a => lit "unable to create the file '" ++ a ++ lit "'"
  | TxProofParseAddress a => lit "Tx Proof unable to parse address '" ++ a ++ lit "'"
  | TxProofParsePublicKey => lit "Tx Proof unable to parse an address as a public key"
  | TxProofParseSignature a => lit "Tx Proof unable to parse signature '" ++ a ++ lit "'"
  | TxProofVerifySignature => lit "Tx Proof unable to verify signature"
  | TxProofParseEncryptedMessage => lit "Tx Proof unable to parse ecrypted message"
  | TxProofVerifyDestination => lit "Tx Proof unable to verify destination address"
  | TxProofDecryptionKey => lit "Tx Proof unable to build a key"
  | TxProofDecryptMessage => lit "Tx Proof unable to decrypt the message"
  | TxProofParseSlate => lit "Tx Proof unable to build a slate from the message"
  end.

(** [failure::Error]. *)
Inductive Error : Type :=
| Kind (k : ErrorKind)
| External (descr : str).

#[export] Instance Error_eq_dec : EqDecision Error.
Proof. solve_decision. Defined.

Definition Error_display (e : Error) : str :=
  match e with Kind k => ErrorKind_display k | External d => d end.

Abbreviation result A := (outcome Error A).

(** [Err(ErrorKind::K)?] and [Err(ErrorKind::K.into())]. *)
Definition fail {A} (k : ErrorKind) : result A := Err (Kind k).

(** The result of a crate's function. *)
Definition of_lib {A} (r : A + Error) : result A := match r with inl a => Ok a | inr e => Err e end.
