(* ===== verification/Digits.v ===== *)
(** * Positional numerals

    Big-endian digit lists in a base [b]: value, bounds, uniqueness of the
    representation without leading zeros, and the digits of a number.  Both
    directions of Base58 are stated with these. *)

From S2P Require Import Prelude.

Fixpoint leading_zeros (ds : list Z) : nat :=
  match ds with d :: ds' => if (d =? 0)%Z then S (leading_zeros ds') else 0 | [] => 0 end.
Definition strip_zeros (ds : list Z) : list Z := drop (leading_zeros ds) ds.
Definition canonical (ds : list Z) : Prop := leading_zeros ds = 0.

Definition of_digits (b : Z) (ds : list Z) : Z := fold_left (fun acc d => acc * b + d)%Z ds 0%Z.
Definition digit_ok (b d : Z) : Prop := (0 <= d < b)%Z.

Fixpoint digits_aux (fuel : nat) (b v : Z) (acc : list Z) : list Z :=
  match fuel with
  | 0 => acc
  | S f => if (v =? 0)%Z then acc else digits_aux f b (v / b) (v mod b :: acc)%Z
  end.
(** The digits of [v] in base [b], without leading zeros. *)
Definition digits_of (b v : Z) : list Z := digits_aux (S (Z.to_nat (Z.log2 v))) b v [].

Lemma leading_zeros_le ds : leading_zeros ds ≤ length ds.
Proof. induction ds as [|d ds IH]; simpl; [lia|]. case_match; simpl; lia. Qed.

Lemma strip_zeros_app ds : ds = replicate (leading_zeros ds) 0%Z ++ strip_zeros ds.
Proof.
  unfold strip_zeros. induction ds as [|d ds IH]; simpl; [done|].
  destruct (Z.eqb_spec d 0) as [->|]; simpl; [by rewrite <- IH | done].
Qed.

Lemma strip_zeros_canonical ds : canonical (strip_zeros ds).
Proof.
  unfold canonical, strip_zeros. induction ds as [|d ds IH]; simpl; [done|].
  destruct (Z.eqb_spec d 0) as [->|H]; simpl; [done|].
  by rewrite (proj2 (Z.eqb_neq d 0)).
Qed.

Lemma leading_zeros_replicate n ds :
  leading_zeros (replicate n 0%Z ++ ds) = n + leading_zeros ds.
Proof. induction n; simpl; lia. Qed.

Section positional.
Context (b : Z) (Hb : (2 <= b)%Z).
Local Open Scope Z_scope.
Implicit Types ds : list Z.

Lemma of_digits_acc ds acc :
  fold_left (fun acc d => acc * b + d) ds acc = acc * b ^ Z.of_nat (length ds) + of_digits b ds.
Proof.
  unfold of_digits. revert acc. induction ds as [|d ds IH]; intros acc; cbn [fold_left length].
  - change (Z.of_nat 0) with 0. lia.
  - rewrite IH. change (0 * b + d) with d. rewrite (IH d), Nat2Z.inj_succ, Z.pow_succ_r by lia. ring.
Qed.

Lemma of_digits_cons d ds : of_digits b (d :: ds) = d * b ^ Z.of_nat (length ds) + of_digits b ds.
Proof. unfold of_digits at 1. cbn [fold_left]. by rewrite of_digits_acc. Qed.

Lemma of_digits_app xs ys :
  of_digits b (xs ++ ys) = of_digits b xs * b ^ Z.of_nat (length ys) + of_digits b ys.
Proof. unfold of_digits at 1. by rewrite fold_left_app, of_digits_acc. Qed.

Lemma of_digits_snoc ds d : of_digits b (ds ++ [d]) = of_digits b ds * b + d.
Proof. rewrite of_digits_app, of_digits_cons. cbn. lia. Qed.

Lemma of_digits_zeros n ds : of_digits b (replicate n 0 ++ ds) = of_digits b ds.
Proof. induction n as [|n IH]; [done|]. cbn [replicate app]. rewrite of_digits_cons, IH. ring. Qed.

Lemma of_digits_strip ds : of_digits b (strip_zeros ds) = of_digits b ds.
Proof. rewrite (strip_zeros_app ds) at 2. by rewrite of_digits_zeros. Qed.

Lemma pow_pos n : 0 < b ^ Z.of_nat n.
Proof. apply Z.pow_pos_nonneg; lia. Qed.

Lemma of_digits_bound ds :
  Forall (digit_ok b) ds → 0 <= of_digits b ds < b ^ Z.of_nat (length ds).
Proof.
  induction 1 as [|d ds [Hd Hd'] _ IH]; [by cbn|].
  rewrite of_digits_cons. cbn [length]. rewrite Nat2Z.inj_succ, Z.pow_succ_r by lia.
  pose proof (pow_pos (length ds)). nia.
Qed.

Lemma of_digits_inj xs ys :
  Forall (digit_ok b) xs → Forall (digit_ok b) ys →
  length xs = length ys → of_digits b xs = of_digits b ys → xs = ys.
Proof.
  intros Hxs. revert ys. induction Hxs as [|x xs Hx Hxs IH]; intros [|y ys] Hys Hlen Hval;
    try done. inversion Hys as [|?? Hy Hys']; subst.
  rewrite !of_digits_cons in Hval. injection Hlen as Hlen. rewrite Hlen in Hval.
  pose proof (of_digits_bound _ Hxs) as Bx. pose proof (of_digits_bound _ Hys') as By.
  rewrite Hlen in Bx. unfold digit_ok in *.
  assert (x = y) as -> by nia. f_equal. apply IH; [done..|lia].
Qed.

Lemma of_digits_lower d ds :
  Forall (digit_ok b) (d :: ds) → d ≠ 0 → b ^ Z.of_nat (length ds) <= of_digits b (d :: ds).
Proof.
  intros Hok Hd. inversion Hok as [|?? Hd' Hds]; subst. unfold digit_ok in *.
  rewrite of_digits_cons. pose proof (of_digits_bound _ Hds). nia.
Qed.

Lemma canonical_length xs ys :
  Forall (digit_ok b) xs → Forall (digit_ok b) ys →
  canonical xs → of_digits b xs <= of_digits b ys → (length xs ≤ length ys)%nat.
Proof.
  intros Hxs Hys Hc Hle. destruct xs as [|x xs]; simpl; [lia|].
  unfold canonical in Hc. cbn in Hc. destruct (Z.eqb_spec x 0) as [|Hx]; [done|].
  pose proof (of_digits_lower _ _ Hxs Hx). pose proof (of_digits_bound _ Hys).
  destruct (Nat.lt_ge_cases (length xs) (length ys)) as [|Hge]; [lia|].
  assert (b ^ Z.of_nat (length ys) <= b ^ Z.of_nat (length xs))
    by (apply Z.pow_le_mono_r; lia). lia.
Qed.

(** A number has one representation without leading zeros. *)
Lemma canonical_unique xs ys :
  Forall (digit_ok b) xs → Forall (digit_ok b) ys → canonical xs → canonical ys →
  of_digits b xs = of_digits b ys → xs = ys.
Proof.
  intros Hxs Hys Cx Cy Hval. apply of_digits_inj; [done..| |done].
  apply Nat.le_antisymm; apply canonical_length; (done || lia).
Qed.

Lemma digits_aux_spec f v acc :
  0 <= v < 2 ^ Z.of_nat f → Forall (digit_ok b) acc → (v = 0 → canonical acc) →
  Forall (digit_ok b) (digits_aux f b v acc) ∧ canonical (digits_aux f b v acc) ∧
  of_digits b (digits_aux f b v acc) = v * b ^ Z.of_nat (length acc) + of_digits b acc.
Proof.
  revert v acc. induction f as [|f IH]; intros v acc Hv Hacc Hcan; cbn [digits_aux].
  - assert (v = 0) as -> by (cbn in Hv; lia). split_and!; [done | auto | lia].
  - destruct (Z.eqb_spec v 0) as [->|Hne]; [split_and!; [done | auto | lia]|].
    pose proof (Z.mod_pos_bound v b ltac:(lia)) as Hm. pose proof (Z.div_mod v b ltac:(lia)) as Hd.
    rewrite Nat2Z.inj_succ, Z.pow_succ_r in Hv by lia.
    assert (0 <= v / b < 2 ^ Z.of_nat f).
    { split; [apply Z.div_pos; lia|]. apply Z.div_lt_upper_bound; [lia|]. nia. }
    destruct (IH (v / b) (v mod b :: acc)) as (H1 & H2 & H3); [done | by constructor | |].
    + intros H0. unfold canonical. cbn. by rewrite (proj2 (Z.eqb_neq _ _)) by lia.
    + split_and!; [done..|]. rewrite H3, of_digits_cons. cbn [length].
      rewrite Nat2Z.inj_succ, Z.pow_succ_r by lia. rewrite Hd at 3. ring.
Qed.

Lemma digits_of_spec v :
  0 <= v →
  Forall (digit_ok b) (digits_of b v) ∧ canonical (digits_of b v) ∧ of_digits b (digits_of b v) = v.
Proof.
  intros Hv. destruct (digits_aux_spec (S (Z.to_nat (Z.log2 v))) v []) as (H1 & H2 & H3);
    [|done..|].
  - split; [lia|]. rewrite Nat2Z.inj_succ, Z2Nat.id by apply Z.log2_nonneg.
    destruct (Z.eq_dec v 0) as [->|]; [done|]. apply Z.log2_spec. lia.
  - split_and!; [done..|]. unfold digits_of. rewrite H3. cbn. lia.
Qed.

(** Stripping the leading zeros gives the digits of the value. *)
Lemma strip_zeros_digits_of ds :
  Forall (digit_ok b) ds → strip_zeros ds = digits_of b (of_digits b ds).
Proof.
  intros Hds. pose proof (of_digits_bound _ Hds) as [H0 _].
  destruct (digits_of_spec _ H0) as (H1 & H2 & H3).
  apply canonical_unique; [by apply Forall_drop | done | apply strip_zeros_canonical | done |].
  by rewrite of_digits_strip.
Qed.

Lemma of_digits_zero_all ds :
  Forall (digit_ok b) ds → of_digits b ds = 0 → ds = replicate (length ds) 0.
Proof.
  intros Hds H0. apply of_digits_inj; [done | | by rewrite length_replicate |].
  - apply Forall_replicate. unfold digit_ok. lia.
  - rewrite <- (app_nil_r (replicate _ _)), of_digits_zeros. done.
Qed.
End positional.
