(* ===== verification/WalletErrors.v ===== *)
(** * The error type of the wallet

    [wallet/error.rs] and [api/error.rs]: the kinds of error taken over from the
    wallet library with their texts, what an error shows with and without a
    backtrace, the conversions, and the error behind the answer 500. *)

From S2P Require Import Prelude Str Digits.
Local Open Scope Z_scope.

(** The errors of the crates below, with what the conversions use of them. *)
Class ErrorTypes : Type := {
  LibTxKind : Type;
  KeychainError : Type;
  TransactionError : Type;
  SecpError : Type;
  SerError : Type;
  CommittedError : Type;
  LibTxError : Type;
  libtx_kind : LibTxError -> LibTxKind;
  StoreError : Type;
  store_error_text : StoreError -> str;
}.

Section errors.
Context {ET : ErrorTypes}.

Inductive ErrorKind : Type :=
| NotEnoughFunds (available : Z) (available_disp : str) (needed : Z) (needed_disp : str)
| Fee (_ : str)
| LibTX (_ : LibTxKind)
| Keychain (_ : KeychainError)
| Transaction (_ : TransactionError)
| ClientCallback (_ : str)
| Secp (_ : SecpError)
| CallbackImpl (_ : str)
| Backend (_ : str)
| Mnemonic
| Encryption
| Restore
| Format
| Deser (_ : SerError)
| IO
| Node
| WalletComms (_ : str)
| Hyper
| Uri
| Signature (_ : str)
| DuplicateTransactionId
| WalletSeedExists
| WalletSeedDoesntExist
| WalletSeedDecryption
| TransactionDoesntExist (_ : str)
| TransactionNotCancellable (_ : str)
| TransactionCancellationError (_ : str)
| TransactionDumpError (_ : str)
| TransactionAlreadyConfirmed
| TransactionAlreadyReceived (_ : str)
| TransactionBuildingNotCompleted (_ : Z)
| InvalidBIP32Depth
| AccountLabelAlreadyExists (_ : str)
| UnknownAccountLabel (_ : str)
| Committed (_ : CommittedError)
| SlateVersionParse
| SlateDeser
| SlateVersion (_ : Z)
| GenericError (_ : str).

(** The texts of the [#[fail(display = ...)]] attributes. *)
Definition ErrorKind_display (k : ErrorKind) : str :=
  match k with
  | NotEnoughFunds _ available_disp _ needed_disp =>
      lit "Not enough funds. Required: " ++ needed_disp ++ lit ", Available: " ++ available_disp
  | Fee a => lit "Fee Error: " ++ a
  | LibTX _ => lit "LibTx Error"
  | Keychain _ => lit "Keychain error"
  | Transaction _ => lit "Transaction error"
  | ClientCallback a => lit "Client Callback Error: " ++ a
  | Secp _ => lit "Secp error"
  | CallbackImpl _ => lit "Trait Implementation error"
  | Backend a => lit "Wallet store error: " ++ a
  | Mnemonic => lit "BIP39 Mnemonic (word list) Error"
  | Encryption => lit "Enc/Decryption error (check password?)"
  | Restore => lit "Restore Error"
  | Format => lit "JSON format error"
  | Deser _ => lit "Ser/Deserialization error"
  | IO => lit "I/O error"
  | Node => lit "Node API error"
  | WalletComms a => lit "Wallet Communication Error: " ++ a
  | Hyper => lit "Hyper error"
  | Uri => lit "Uri parsing error"
  | Signature a => lit "Signature error: " ++ a
  | DuplicateTransactionId => lit "Duplicate transaction ID error"
  | WalletSeedExists => lit "Wallet seed exists error"
  | WalletSeedDoesntExist => lit "Wallet seed doesn't exist error"
  | WalletSeedDecryption => lit "Wallet seed decryption error"
  | TransactionDoesntExist a => lit "Transaction " ++ a ++ lit " doesn't exist"
  | TransactionNotCancellable a => lit "Transaction " ++ a ++ lit " cannot be cancelled"
  | TransactionCancellationError a => lit "Cancellation Error: " ++ a
  | TransactionDumpError a => lit "Tx dump Error: " ++ a
  | TransactionAlreadyConfirmed => lit "Transaction already confirmed error"
  | TransactionAlreadyReceived a => lit "Transaction " ++ a ++ lit " has already been received"
  | TransactionBuildingNotCompleted a => lit "Transaction building not completed: " ++ to_dec a
  | InvalidBIP32Depth => lit "Invalid BIP32 Depth (must be 1 or greater)"
  | AccountLabelAlreadyExists a => lit "Account Label '" ++ a ++ lit "' already exists"
  | UnknownAccountLabel a => lit "Unknown Account Label '" ++ a ++ lit "'"
  | Committed _ => lit "Committed Error"
  | SlateVersionParse => lit "Can't parse slate version"
  | SlateDeser => lit "Can't Deserialize slate"
  | SlateVersion a => lit "Unknown Slate Version: " ++ to_dec a
  | GenericError a => lit "Generic error: " ++ a
  end.

(** An error: its kind, and the backtrace if one was taken where it was made. *)
Record Error : Type := { inner_kind : ErrorKind; inner_backtrace : option str }.
Definition kind (e : Error) : ErrorKind := inner_kind e.
Definition backtrace (e : Error) : option str := inner_backtrace e.

(** [env::var("RUST_BACKTRACE")] is [rust_backtrace]. *)
Definition Error_fmt (rust_backtrace : option str) (e : Error) : str :=
  let show_bt := match rust_backtrace with Some r => bool_decide (r = lit "1") | None => false end in
  let backtrace := default (lit "Unknown") (backtrace e) in
  let inner_output := ErrorKind_display (kind e) in
  let backtrace_output := chr 10 :: lit " Backtrace: " ++ backtrace in
  if show_bt then inner_output ++ backtrace_output else inner_output.

(** *** Conversions

    [Context::new] takes a backtrace if the process is set to. *)
Class Context_ : Type := taken : option str.
Context {C : Context_}.
Definition from_kind (k : ErrorKind) : Error := {| inner_kind := k; inner_backtrace := taken |}.
Definition from_context (k : ErrorKind) (bt : option str) : Error := {| inner_kind := k; inner_backtrace := bt |}.
Definition from_io : Error := from_kind IO.
Definition from_keychain (error : KeychainError) : Error := from_kind (Keychain error).
Definition from_libtx (error : LibTxError) : Error := from_kind (LibTX (libtx_kind error)).
Definition from_transaction (error : TransactionError) : Error := from_kind (Transaction error).
Definition from_ser (error : SerError) : Error := from_kind (Deser error).
Definition from_secp (error : SecpError) : Error := from_kind (Secp error).
Definition from_committed (error : CommittedError) : Error := from_kind (Committed error).
Definition from_store (error : StoreError) : Error := from_kind (Backend (store_error_text error)).

(** ** What is shown *)

(** The text of an error is that of its kind; only the value 1 adds the
    backtrace, and the text goes on being the beginning then. *)
Lemma Error_fmt_kind bt e :
  exists rest, Error_fmt bt e = ErrorKind_display (kind e) ++ rest /\ (rest <> [] <-> bt = Some (lit "1")).
Proof.
  unfold Error_fmt. destruct bt as [r|]; [case_bool_decide as Hr; [subst r|]|].
  - eexists. split; [reflexivity|]. done.
  - exists []. rewrite app_nil_r. split; [done|]. split; [done|congruence].
  - exists []. rewrite app_nil_r. split; [done|]. split; done.
Qed.
End errors.

(** ** [ApiError] *)

Section api_error.
(** An error of [failure]. *)
Context {F : Type}.
Variable failure_text : F -> str.
Record ApiError : Type := { inner : F }.
Definition ApiError_new (inner : F) : ApiError := {| inner := inner |}.
Definition ApiError_fmt (e : ApiError) : str := failure_text (inner e).
End api_error.
