(* ===== verification/Base58.v ===== *)
(** * Base58 and Base58Check

    [common/base58.rs].  The encoder and the decoder are modelled with their
    buffers, indices and loops; [Base58.base58_ref] is the specification they
    are proved against: one ['1'] per leading zero byte, then the base-58
    digits of the remaining big-endian number. *)

From S2P Require Import Prelude Str Errors Digits.
Local Open Scope Z_scope.

Definition ALPHABET : str := lit "123456789ABCDEFGHJKLMNPQRSTUVWXYZabcdefghijkmnopqrstuvwxyz".

Definition B58_DIGITS_MAP : list Z := [
   -1; -1; -1; -1; -1; -1; -1; -1; -1; -1; -1; -1; -1; -1; -1; -1; -1; -1; -1; -1; -1; -1; -1; -1;
   -1; -1; -1; -1; -1; -1; -1; -1; -1; -1; -1; -1; -1; -1; -1; -1; -1; -1; -1; -1; -1; -1; -1; -1;
   -1; 0; 1; 2; 3; 4; 5; 6; 7; 8; -1; -1; -1; -1; -1; -1; -1; 9; 10; 11; 12; 13; 14; 15;
   16; -1; 17; 18; 19; 20; 21; -1; 22; 23; 24; 25; 26; 27; 28; 29; 30; 31; 32; -1; -1; -1; -1; -1;
   -1; 33; 34; 35; 36; 37; 38; 39; 40; 41; 42; 43; -1; 44; 45; 46; 47; 48; 49; 50; 51; 52; 53; 54;
   55; 56; 57; -1; -1; -1; -1; -1].

(** ** Encoding *)

(** The inner loop of [to_base58]:
    [while j > high || carry != 0 { ... }], one byte multiplied in.  The
    carry is a [u32]; a digit is stored as a [u8]. *)
Fixpoint encode_carry (fuel high : nat) (buffer : list Z) (carry : Z) (j : nat) :
    result (list Z * nat) :=
  if (high <? j)%nat || negb (carry =? 0) then
    match fuel with
    | O => Hang
    | S fuel' =>
        match buffer !! j with
        | None => Panic
        | Some d =>
            let carry := (carry + 256 * d) mod 2 ^ 32 in
            let buffer := <[j := (carry mod 58) mod 2 ^ 8]> buffer in
            let carry := carry / 58 in
            let j := if (0 <? j)%nat then (j - 1)%nat else j in
            encode_carry fuel' high buffer carry j
        end
    end
  else Ok (buffer, j).

(** The outer loop: [while i < self.len()], over the bytes after the zeros. *)
Fixpoint encode_bytes (bytes : list Z) (size high : nat) (buffer : list Z) : result (list Z) :=
  match bytes with
  | [] => Ok buffer
  | b :: bytes' =>
      '(buffer, j) ← encode_carry (S size) high buffer b (size - 1);
      encode_bytes bytes' size j buffer
  end.

(** [ALPHABET[buffer[j] as usize] as char]. *)
Definition alphabet_char (d : Z) : result ascii := unwrap (ALPHABET !! Z.to_nat d).

Definition to_base58 (self : str) : result str :=
  let bytes := code <$> self in
  let zcount := leading_zeros bytes in
  let size := (((length self - zcount) * 138) `div` 100 + 1)%nat in
  buffer ← encode_bytes (drop zcount bytes) size (size - 1) (replicate size 0);
  let j := leading_zeros buffer in
  chars ← mapM alphabet_char (drop j buffer);
  Ok (replicate zcount "1"%char ++ chars).

(** ** Decoding *)

(** [while j != 0 { j -= 1; ... }]: multiply the number in [out] by 58 and add [c]. *)
Fixpoint decode_digit (out : list Z) (c : Z) (j : nat) : result (list Z * Z) :=
  match j with
  | O => Ok (out, c)
  | S j' =>
      match out !! j' with
      | None => Panic
      | Some w =>
          let t := w * 58 + c in
          decode_digit (<[j' := Z.land t 0xffffffff]> out)
                       (Z.shiftr (Z.land t 0x3f00000000) 32) j'
      end
  end.

(** One iteration of the loop over the characters; [i] is the index. *)
Definition decode_char (zeromask : Z) (out : list Z) (ch : ascii) (i : nat) : result (list Z) :=
  if negb (Z.land (code ch) 0x80 =? 0) then fail (InvalidBase58Character ch i) else
  match B58_DIGITS_MAP !! Z.to_nat (code ch) with
  | None => Panic
  | Some d =>
      if d =? -1 then fail (InvalidBase58Character ch i) else
      '(out, c) ← decode_digit out d (length out);
      if negb (c =? 0) then fail InvalidBase58Length else
      match out with
      | [] => Panic
      | w0 :: _ => if negb (Z.land w0 zeromask =? 0) then fail InvalidBase58Length else Ok out
      end
  end.

Fixpoint decode_chars (zeromask : Z) (rest : str) (i : nat) (out : list Z) : result (list Z) :=
  match rest with
  | [] => Ok out
  | ch :: rest' =>
      out ← decode_char zeromask out ch i;
      decode_chars zeromask rest' (S i) out
  end.

(** [bin[i] = v as u8] with the bounds check of the index. *)
Definition set_byte (bin : list Z) (i : nat) (v : Z) : result (list Z) :=
  if (i <? length bin)%nat then Ok (<[i := v mod 2 ^ 8]> bin) else Panic.

(** [while j < out.len()]: the words written out as big-endian bytes. *)
Fixpoint write_words (words : list Z) (i : nat) (bin : list Z) : result (list Z) :=
  match words with
  | [] => Ok bin
  | w :: words' =>
      bin ← set_byte bin i (Z.land (Z.shiftr w 0x18) 0xff);
      bin ← set_byte bin (i + 1) (Z.land (Z.shiftr w 0x10) 0xff);
      bin ← set_byte bin (i + 2) (Z.land (Z.shiftr w 8) 0xff);
      bin ← set_byte bin (i + 3) (Z.land (Z.shiftr w 0) 0xff);
      write_words words' (i + 4) bin
  end.

Definition BIN_LEN : nat := 132.
Definition OUT_LEN : nat := (BIN_LEN + 3) `div` 4.

(** The word written before the loop when [bin] is not a multiple of four
    bytes long, with the start indices [(bin[0], i, j)]. *)
Definition first_byte (bytesleft : Z) (out : list Z) : Z * nat * nat :=
  let w0 := default 0 (head out) in
  if bytesleft =? 3 then (Z.shiftr (Z.land w0 0xff0000) 16, 1%nat, 0%nat)
  else if bytesleft =? 2 then (Z.shiftr (Z.land w0 0xff00) 8, 1%nat, 0%nat)
  else if bytesleft =? 1 then (Z.land w0 0xff, 1%nat, 1%nat)
  else (0, 0%nat, 0%nat).

Definition from_base58 (self : str) : result str :=
  let bytesleft := Z.of_nat (BIN_LEN mod 4) in
  let zeromask := if bytesleft =? 0 then 0 else Z.shiftl 0xffffffff (bytesleft * 8) mod 2 ^ 32 in
  let zcount := count_front "1" self in
  out ← decode_chars zeromask (drop zcount self) zcount (replicate OUT_LEN 0);
  let '(b0, i, j) := first_byte bytesleft out in
  bin ← write_words (drop j out) i (<[0%nat := b0 mod 2 ^ 8]> (replicate BIN_LEN 0));
  let leading := leading_zeros bin in
  if (leading <? zcount)%nat then Panic
  else Ok (chr <$> drop (leading - zcount) bin).

(** ** The encoder computes the base-58 representation *)

Definition enc (d : Z) : ascii := default "1"%char (ALPHABET !! Z.to_nat d).

(** The specification of [to_base58]. *)
Definition base58_ref (self : str) : str :=
  let bytes := code <$> self in
  replicate (leading_zeros bytes) "1"%char ++ (enc <$> digits_of 58 (of_digits 256 bytes)).

(** The buffer is long enough: 256{^100} < 58{^138}. *)
Lemma pow_ratio : 256 ^ 100 < 58 ^ 138.
Proof. by vm_compute. Qed.

Lemma size_bound (n : nat) (k : Z) :
  0 <= k -> k <= Z.of_nat n ->
  256 ^ k < 58 ^ (Z.of_nat ((n * 138) `div` 100) + 1 - (Z.of_nat n - k)).
Proof.
  intros Hk Hn. set (q := Z.of_nat ((n * 138) `div` 100)).
  assert (138 * Z.of_nat n < 100 * (q + 1)) as Hq.
  { unfold q. pose proof (Nat.div_mod_eq (n * 138) 100).
    pose proof (Nat.mod_upper_bound (n * 138) 100 ltac:(lia)). lia. }
  set (e := q + 1 - (Z.of_nat n - k)).
  assert (138 * k < 100 * e \/ k = Z.of_nat n) as Hke by (unfold e; lia).
  assert (138 * k < 100 * e) by (unfold e in *; lia).
  apply (Z.pow_lt_mono_l_iff _ _ 100); [lia | apply Z.pow_nonneg; lia | lia |].
  rewrite <- !Z.pow_mul_r by lia.
  apply Z.le_lt_trans with (58 ^ (138 * k)).
  - replace (k * 100) with (100 * k) by ring. rewrite !Z.pow_mul_r by lia.
    apply Z.pow_le_mono_l. pose proof pow_ratio. lia.
  - apply Z.pow_lt_mono_r; lia.
Qed.

Lemma take_insert_lt (l : list Z) i v n : (n <= i)%nat -> take n (<[i := v]> l) = take n l.
Proof. intros. apply take_insert_ge. lia. Qed.

Lemma of_digits_take_S b (l : list Z) j d :
  l !! j = Some d -> of_digits b (take (S j) l) = of_digits b (take j l) * b + d.
Proof. intros Hl. rewrite (take_S_r _ _ _ Hl). by apply of_digits_snoc. Qed.

Lemma drop_S_tail {A} (l : list A) n : drop (S n) l = tail (drop n l).
Proof. revert n. induction l as [|x l IH]; intros [|n]; try done. cbn [drop]. apply IH. Qed.

Section encode.
Implicit Types (buf : list Z) (j high : nat) (c : Z).

Lemma digit_at buf j d : Forall (digit_ok 58) buf -> buf !! j = Some d -> 0 <= d < 58.
Proof. intros H Hl. by apply (Forall_lookup_1 _ _ _ _ H Hl). Qed.

Lemma of_digits_take_0 buf n m :
  Forall (digit_ok 58) buf -> (n <= m)%nat ->
  of_digits 58 (take m buf) = 0 -> of_digits 58 (take n buf) = 0.
Proof.
  intros Hok Hnm H0. apply of_digits_zero_all in H0; [|lia|by apply Forall_take].
  replace (take n buf) with (take n (take m buf)) by (rewrite take_take; f_equal; lia).
  rewrite H0, take_replicate.
  rewrite <- (app_nil_r (replicate _ _)), of_digits_zeros by lia. done.
Qed.

(** One step at index [j], without wrap-around. *)
Lemma carry_step c d :
  0 <= c <= 255 -> 0 <= d < 58 ->
  (c + 256 * d) mod 2 ^ 32 = c + 256 * d /\
  (((c + 256 * d) mod 58) mod 2 ^ 8 = (c + 256 * d) mod 58) /\
  0 <= (c + 256 * d) / 58 <= 255.
Proof.
  intros Hc Hd. pose proof (Z.mod_pos_bound (c + 256 * d) 58 ltac:(lia)).
  rewrite !Z.mod_small by lia. repeat split; [apply Z.div_pos; lia|].
  apply Z.lt_succ_r, Z.div_lt_upper_bound; lia.
Qed.

Lemma encode_carry_exit fuel high buf j :
  (j <= high)%nat -> encode_carry fuel high buf 0 j = Ok (buf, j).
Proof.
  intros H. destruct fuel; cbn [encode_carry];
    by rewrite (proj2 (Nat.ltb_ge high j)) by done.
Qed.

Lemma encode_carry_step fuel high buf c j d :
  buf !! j = Some d -> 0 <= c <= 255 -> 0 <= d < 58 ->
  (high < j)%nat \/ c <> 0 ->
  encode_carry (S fuel) high buf c j =
    encode_carry fuel high (<[j := (c + 256 * d) mod 58]> buf) ((c + 256 * d) / 58) (j - 1).
Proof.
  intros Hl Hc Hd Hgo. destruct (carry_step c d Hc Hd) as (E1 & E2 & _).
  cbn [encode_carry]. rewrite Hl, E1, E2.
  replace (if (0 <? j)%nat then (j - 1)%nat else j) with ((j - 1)%nat)
    by (destruct (Nat.ltb_spec 0 j); lia).
  destruct Hgo as [H | H].
  - by rewrite (proj2 (Nat.ltb_lt _ _) H).
  - by rewrite (proj2 (Z.eqb_neq _ _) H), orb_true_r.
Qed.

(** What one pass of the inner loop from index [j] achieves: the digits up to
    [j] are multiplied by 256 and the carry added, in place. *)
Definition carried high buf c j (r : result (list Z * nat)) : Prop :=
  exists buf' j', r = Ok (buf', j') /\
    length buf' = length buf /\ Forall (digit_ok 58) buf' /\
    drop (S j) buf' = drop (S j) buf /\
    of_digits 58 (take (S j) buf') = 256 * of_digits 58 (take (S j) buf) + c /\
    (j' < length buf)%nat /\ (j' = 0%nat \/ of_digits 58 (take (S j') buf') = 0).

Lemma carried_exit fuel high buf j :
  (j <= high)%nat -> (j < length buf)%nat -> Forall (digit_ok 58) buf ->
  of_digits 58 (take (S (min high j)) buf) = 0 ->
  carried high buf 0 j (encode_carry fuel high buf 0 j).
Proof.
  intros Hle Hj Hok Hz. rewrite Nat.min_r in Hz by done.
  exists buf, j. rewrite encode_carry_exit by done. split_and!; auto; lia.
Qed.

Lemma encode_carry_spec fuel high buf c j :
  (S j < fuel)%nat -> (j < length buf)%nat -> Forall (digit_ok 58) buf -> 0 <= c <= 255 ->
  of_digits 58 (take (S (min high j)) buf) = 0 ->
  256 * of_digits 58 (take (S j) buf) + c < 58 ^ Z.of_nat (S j) ->
  carried high buf c j (encode_carry fuel high buf c j).
Proof.
  revert fuel buf c. induction j as [|j IH]; intros fuel buf c Hf Hj Hok Hc Hz Hlt.
  - destruct fuel as [|fuel]; [lia|].
    destruct (Z.eq_dec c 0) as [->|Hc0]; [by apply carried_exit; [lia|..]|].
    destruct (lookup_lt_is_Some_2 buf 0 Hj) as [d Hd].
    pose proof (digit_at _ _ _ Hok Hd) as Bd.
    rewrite (of_digits_take_S _ _ _ _ Hd) in Hlt.
    change (of_digits 58 (take 0 buf)) with 0 in Hlt. change (58 ^ Z.of_nat 1) with 58 in Hlt.
    rewrite (encode_carry_step _ _ _ _ _ d) by (auto; lia).
    rewrite Z.div_small by lia. rewrite Z.mod_small by lia. 
    rewrite encode_carry_exit by lia.
    eexists _, 0%nat. split; [done|].
    rewrite length_insert, drop_insert_lt by lia.
    rewrite (of_digits_take_S _ _ _ _ Hd), (of_digits_take_S _ _ 0 (c + 256 * d))
      by (by apply list_lookup_insert_eq).
    change (of_digits 58 (take 0 _)) with 0.
    split_and!; auto; [|lia]. apply Forall_insert; [done|]. unfold digit_ok. lia.
  - destruct (decide ((high < S j)%nat \/ c <> 0)) as [Hgo|Hgo].
    2: { assert (c = 0) as -> by lia. apply carried_exit; (done || lia). }
    destruct fuel as [|fuel]; [lia|].
    destruct (lookup_lt_is_Some_2 buf (S j) Hj) as [d Hd].
    pose proof (digit_at _ _ _ Hok Hd) as Bd.
    rewrite (of_digits_take_S _ _ _ _ Hd) in Hlt.
    rewrite Nat2Z.inj_succ, Z.pow_succ_r in Hlt by lia.
    rewrite (encode_carry_step _ _ _ _ _ d), Nat.sub_1_r by (auto; lia). cbn [Nat.pred].
    set (t := c + 256 * d) in *.
    pose proof (Z.div_mod t 58 ltac:(lia)) as Hdm.
    pose proof (Z.mod_pos_bound t 58 ltac:(lia)) as Hmod.
    destruct (carry_step c d Hc Bd) as (_ & _ & Hc'). fold t in Hc'.
    set (buf1 := <[S j := t mod 58]> buf).
    assert (take (S j) buf1 = take (S j) buf) as Htake by (apply take_insert_ge; lia).
    assert (buf1 !! S j = Some (t mod 58)) as Hd1 by (by apply list_lookup_insert_eq).
    destruct (IH fuel buf1 (t / 58)) as (buf' & j' & E & Hlen & Hok' & Hdrop & Hval & Hj' & Hz').
    + lia.
    + unfold buf1. rewrite length_insert. lia.
    + apply Forall_insert; [done|]. unfold digit_ok. lia.
    + lia.
    + replace (take (S (min high j)) buf1) with (take (S (min high j)) (take (S j) buf))
        by (rewrite <- Htake, take_take; f_equal; lia).
      rewrite take_take. apply (of_digits_take_0 _ _ (S (min high (S j)))); [done | lia | done].
    + rewrite Htake. unfold t in *. lia.
    + exists buf', j'. unfold buf1 in Hlen, Hj'. rewrite length_insert in Hlen, Hj'.
      assert (buf' !! S j = Some (t mod 58)) as Hd'.
      { rewrite <- Hd1. rewrite <- (Nat.add_0_r (S j)), <- !lookup_drop. by rewrite Hdrop. }
      split_and!; auto.
      * rewrite (drop_S_tail buf'), Hdrop, <- drop_S_tail. unfold buf1. by rewrite drop_insert_lt by lia.
      * rewrite (of_digits_take_S _ _ _ _ Hd'), Hval, Htake, (of_digits_take_S _ _ _ _ Hd).
        unfold t in *. lia.
Qed.

Lemma first_digit_zero buf size :
  length buf = S size -> Forall (digit_ok 58) buf ->
  of_digits 58 buf < 58 ^ Z.of_nat size -> of_digits 58 (take 1 buf) = 0.
Proof.
  intros Hlen Hok Hlt. destruct buf as [|d buf]; [done|]. injection Hlen as Hlen.
  inversion Hok as [|?? [Hd _] Hok']; subst. rewrite of_digits_cons in Hlt by lia.
  pose proof (of_digits_bound 58 ltac:(lia) _ Hok') as [Hb _].
  pose proof (pow_pos 58 ltac:(lia) (length buf)).
  assert (d = 0) as -> by nia. done.
Qed.

(** The outer loop: after [k] of [m] bytes the buffer holds their value. *)
Lemma encode_bytes_spec bs size high buf k m :
  length buf = S size -> (high <= size)%nat -> Forall (digit_ok 58) buf ->
  Forall (digit_ok 256) bs -> k + Z.of_nat (length bs) = m -> 0 <= k ->
  (forall i, 0 <= i <= m -> 256 ^ i < 58 ^ (Z.of_nat (S size) - (m - i))) ->
  of_digits 58 buf < 256 ^ k ->
  high = 0%nat \/ of_digits 58 (take (S high) buf) = 0 ->
  exists buf', encode_bytes bs (S size) high buf = Ok buf' /\ Forall (digit_ok 58) buf' /\
    of_digits 58 buf' = of_digits 58 buf * 256 ^ Z.of_nat (length bs) + of_digits 256 bs.
Proof.
  revert high buf k. induction bs as [|b bs IH];
    intros high buf k Hlen Hhigh Hok Hbs Hm Hk Hpow HV Hz; cbn [encode_bytes].
  { exists buf. split_and!; auto. cbn. lia. }
  inversion Hbs as [|?? Hb Hbs']; subst. cbn [length] in *. unfold digit_ok in Hb.
  assert (of_digits 58 (take (S high) buf) = 0) as Hzero.
  { destruct Hz as [->|]; [|done]. apply (first_digit_zero _ size); [done..|].
    apply Z.lt_trans with (256 ^ k); [done|].
    eapply Z.lt_le_trans; [apply Hpow; lia|]. apply Z.pow_le_mono_r; lia. }
  pose proof (of_digits_bound 58 ltac:(lia) _ Hok) as [Hge _].
  assert (256 ^ (k + 1) = 256 * 256 ^ k) as Hpk by (rewrite Z.pow_add_r by lia; lia).
  assert (take (S size) buf = buf) as Hall by (apply take_ge; lia).
  assert (256 * of_digits 58 buf + b < 256 ^ (k + 1)) as HV' by lia.
  destruct (encode_carry_spec (S (S size)) high buf b size)
    as (buf' & j' & E & Hlen' & Hok' & _ & Hval & Hj' & Hz'); [lia | lia | done | lia | | |].
  { apply (of_digits_take_0 _ _ (S high)); [done | lia | done]. }
  { rewrite Hall. eapply Z.lt_trans; [exact HV'|]. eapply Z.lt_le_trans; [apply Hpow; lia|].
    apply Z.pow_le_mono_r; lia. }
  replace (S size - 1)%nat with size by lia. rewrite E. cbn [mbind outcome_bind].
  rewrite Hall, take_ge in Hval by lia.
  destruct (IH j' buf' (k + 1)) as (buf'' & E' & Hok'' & Hval''); [lia | lia | done | done | lia | lia | | | | ].
  - done.
  - by rewrite Hval.
  - done.
  - exists buf''. split_and!; [done..|]. rewrite Hval'', Hval, of_digits_cons, Nat2Z.inj_succ, Z.pow_succ_r by lia.
    ring.
Qed.
End encode.

Lemma code_digit_ok (s : str) : Forall (digit_ok 256) (code <$> s).
Proof. apply Forall_fmap, Forall_true. intros c. apply code_range. Qed.

Lemma mapM_alphabet ds :
  Forall (digit_ok 58) ds -> mapM alphabet_char ds = Ok (E := Error) (enc <$> ds).
Proof.
  induction 1 as [|d ds Hd _ IH]; [done|]. cbn. rewrite IH. unfold alphabet_char, enc.
  destruct (lookup_lt_is_Some_2 ALPHABET (Z.to_nat d)) as [c ->]; [|done].
  unfold digit_ok in Hd. change (length ALPHABET) with 58%nat. lia.
Qed.

Theorem to_base58_is_ref self : to_base58 self = Ok (base58_ref self).
Proof.
  unfold to_base58, base58_ref. set (bytes := code <$> self).
  assert (length self = length bytes) as -> by (unfold bytes; by rewrite length_fmap).
  set (z := leading_zeros bytes). set (q := (((length bytes - z) * 138) `div` 100)%nat).
  pose proof (code_digit_ok self) as Hok. fold bytes in Hok.
  replace (q + 1)%nat with (S q) by lia. replace (S q - 1)%nat with q by lia.
  destruct (encode_bytes_spec (drop z bytes) q q (replicate (S q) 0) 0 (Z.of_nat (length bytes - z)))
    as (buf & E & Hbuf & Hval).
  - by rewrite length_replicate.
  - done.
  - apply Forall_replicate. unfold digit_ok. lia.
  - by apply Forall_drop.
  - rewrite length_drop. lia.
  - lia.
  - intros i Hi. pose proof (size_bound (length bytes - z) i) as Hs. fold q in Hs.
    replace (Z.of_nat (S q)) with (Z.of_nat q + 1) by lia. apply Hs; lia.
  - rewrite <- (app_nil_r (replicate _ _)), of_digits_zeros. done.
  - right. rewrite take_ge by (rewrite length_replicate; lia).
    rewrite <- (app_nil_r (replicate _ _)), of_digits_zeros. done.
  - rewrite E. cbn [mbind outcome_bind].
    rewrite mapM_alphabet by (by apply Forall_drop). cbn [mbind outcome_bind]. do 3 f_equal.
    fold (strip_zeros buf). rewrite (strip_zeros_digits_of 58) by (done || lia). f_equal.
    rewrite Hval, <- (app_nil_r (replicate _ _)), of_digits_zeros.
    change (drop z bytes) with (strip_zeros bytes). by rewrite of_digits_strip.
Qed.

(** ** The decoder reads the base-58 representation *)

(** The value of a character as the decoder looks it up. *)
Definition digit_val (c : ascii) : option Z :=
  match B58_DIGITS_MAP !! Z.to_nat (code c) with
  | Some d => if d =? -1 then None else Some d
  | None => None
  end.

(** The two tables agree: a character has value [d] exactly when the alphabet
    has it at index [d]. *)
Lemma digit_val_Some c d : digit_val c = Some d <-> 0 <= d < 58 /\ enc d = c.
Proof.
  split.
  - assert (match digit_val c with
            | Some d => (0 <=? d) && (d <? 58) && Ascii.eqb (enc d) c
            | None => true end = true) as H
      by (destruct c as [[] [] [] [] [] [] [] []]; by vm_compute).
    intros E. rewrite E in H. rewrite !andb_true_iff, Z.leb_le, Z.ltb_lt, Ascii.eqb_eq in H. tauto.
  - intros [Hd <-].
    assert (forallb (fun d => bool_decide (digit_val (enc (Z.of_nat d)) = Some (Z.of_nat d))) (seq 0 58) = true)
      as H by (by vm_compute).
    rewrite forallb_forall in H. specialize (H (Z.to_nat d)).
    rewrite Z2Nat.id in H by lia. apply bool_decide_eq_true in H; [done|].
    apply in_seq. lia.
Qed.

Lemma digit_val_enc d : digit_ok 58 d -> digit_val (enc d) = Some d.
Proof. intros H. by apply digit_val_Some. Qed.

(** A character without a value is the [InvalidBase58Character] error. *)
Lemma decode_char_bad zm out c i :
  digit_val c = None -> decode_char zm out c i = fail (InvalidBase58Character c i).
Proof.
  unfold digit_val, decode_char.
  destruct (Z.eqb_spec (Z.land (code c) 128) 0) as [H|H]; [|done]. cbn [negb].
  destruct (_ !! _) as [d|] eqn:E; [by destruct (d =? -1)|].
  exfalso. apply lookup_ge_None in E. change (length B58_DIGITS_MAP) with 128%nat in E.
  assert (forallb (fun n => negb (Z.land (Z.of_nat n) 128 =? 0)) (seq 128 128) = true) as Hall by (by vm_compute).
  rewrite forallb_forall in Hall. pose proof (code_range c).
  specialize (Hall (Z.to_nat (code c)) ltac:(apply in_seq; lia)).
  rewrite Z2Nat.id, H in Hall by lia. discriminate Hall.
Qed.

Section decode.
Implicit Types (out : list Z) (c : Z) (j : nat).

Lemma word_step w c :
  digit_ok (2 ^ 32) w -> 0 <= c < 58 ->
  Z.shiftr (Z.land (w * 58 + c) 0x3f00000000) 32 = (w * 58 + c) / 2 ^ 32 /\
  Z.land (w * 58 + c) 0xffffffff = (w * 58 + c) mod 2 ^ 32 /\
  0 <= (w * 58 + c) / 2 ^ 32 < 58.
Proof.
  unfold digit_ok. intros Hw Hc. set (t := w * 58 + c).
  assert (0 <= t / 2 ^ 32 < 58) as Hq.
  { split; [apply Z.div_pos; unfold t; lia | apply Z.div_lt_upper_bound; unfold t; lia]. }
  split_and!; [|by change 0xffffffff with (Z.ones 32); rewrite Z.land_ones by lia | apply Hq..].
  rewrite Z.shiftr_land. change (Z.shiftr 0x3f00000000 32) with (Z.ones 6).
  rewrite Z.land_ones, Z.shiftr_div_pow2, Z.mod_small by lia. done.
Qed.

Lemma decode_digit_spec out c j :
  (j <= length out)%nat -> Forall (digit_ok (2 ^ 32)) out -> 0 <= c < 58 ->
  exists out' c', decode_digit out c j = Ok (out', c') /\
    length out' = length out /\ Forall (digit_ok (2 ^ 32)) out' /\ 0 <= c' < 58 /\
    drop j out' = drop j out /\
    of_digits (2 ^ 32) (take j out') + c' * (2 ^ 32) ^ Z.of_nat j
      = 58 * of_digits (2 ^ 32) (take j out) + c.
Proof.
  revert out c. induction j as [|j IH]; intros out c Hj Hok Hc; cbn [decode_digit].
  { exists out, c. split_and!; auto; try lia.
    change (of_digits (2 ^ 32) (take 0 out)) with 0. cbn [Z.of_nat]. rewrite Z.pow_0_r. lia. }
  destruct (lookup_lt_is_Some_2 out j ltac:(lia)) as [w Hw]. rewrite Hw.
  assert (digit_ok (2 ^ 32) w) as Bw by (by apply (Forall_lookup_1 _ _ _ _ Hok Hw)).
  destruct (word_step w c Bw Hc) as (-> & -> & Hq).
  set (t := w * 58 + c) in *. set (out1 := <[_ := _]> out).
  pose proof (Z.mod_pos_bound t (2 ^ 32) ltac:(lia)) as Hm.
  pose proof (Z.div_mod t (2 ^ 32) ltac:(lia)) as Hdm.
  destruct (IH out1 (t / 2 ^ 32)) as (out' & c' & E & Hlen & Hok' & Hc' & Hdrop & Hval).
  - unfold out1. rewrite length_insert. lia.
  - by apply Forall_insert.
  - done.
  - unfold out1 in Hlen. rewrite length_insert in Hlen. exists out', c'.
    assert (out1 !! j = Some (t mod 2 ^ 32)) as Hl1 by (apply list_lookup_insert_eq; lia).
    assert (out' !! j = Some (t mod 2 ^ 32)) as Hl'.
    { rewrite <- Hl1. rewrite <- (Nat.add_0_r j), <- !lookup_drop. by rewrite Hdrop. }
    split_and!; auto; try lia.
    + rewrite (drop_S_tail out'), Hdrop, <- drop_S_tail. unfold out1. by rewrite drop_insert_lt by lia.
    + rewrite (of_digits_take_S _ _ _ _ Hl'), (of_digits_take_S _ _ _ _ Hw).
      unfold out1 in Hval. rewrite take_insert_ge in Hval by lia.
      rewrite Nat2Z.inj_succ, Z.pow_succ_r by lia. unfold t in *. lia.
Qed.
End decode.

Section decode_all.
Implicit Types (out ds : list Z).
Local Abbreviation W := (2 ^ 32).

(** One valid character: the number is multiplied by 58 and the digit added,
    or the number no longer fits. *)
Lemma decode_char_spec out d i :
  out <> [] -> Forall (digit_ok W) out -> digit_ok 58 d ->
  let v := 58 * of_digits W out + d in
  if v <? W ^ Z.of_nat (length out)
  then exists out', decode_char 0 out (enc d) i = Ok out' /\ length out' = length out /\
         Forall (digit_ok W) out' /\ of_digits W out' = v
  else decode_char 0 out (enc d) i = fail InvalidBase58Length.
Proof.
  intros Hne Hok Hd v.
  destruct (decode_digit_spec out d (length out)) as (out' & c' & E & Hlen & Hok' & Hc' & _ & Hval);
    [lia | done | done |].
  rewrite take_ge, take_ge in Hval by lia. fold v in Hval.
  pose proof (of_digits_bound W ltac:(lia) _ Hok') as Hb. rewrite Hlen in Hb.
  pose proof (digit_val_enc d Hd) as Hdv. unfold digit_val in Hdv.
  assert (Z.land (code (enc d)) 0x80 = 0) as Hhi.
  { destruct (Z.eqb_spec (Z.land (code (enc d)) 0x80) 0) as [|Hx]; [done|].
    exfalso. clear -Hdv Hx. destruct (enc d) as [[] [] [] [] [] [] [] []]; vm_compute in Hx, Hdv; congruence. }
  assert (decode_char 0 out (enc d) i =
          if negb (c' =? 0) then fail InvalidBase58Length else Ok out') as ->.
  { unfold decode_char. rewrite Hhi. cbn [Z.eqb negb].
    destruct (_ !! _) as [d'|]; [|done]. destruct (d' =? -1); [done|].
    injection Hdv as ->. rewrite E. cbn [mbind outcome_bind].
    destruct (c' =? 0); [|done]. cbn [negb].
    destruct out' as [|w out']; [by destruct out|]. rewrite Z.land_0_r. done. }
  destruct (Z.ltb_spec v (W ^ Z.of_nat (length out))) as [Hlt|Hge];
    destruct (Z.eqb_spec c' 0) as [->|Hne']; cbn [negb].
  - exists out'. split_and!; auto. lia.
  - exfalso. nia.
  - exfalso. lia.
  - done.
Qed.

Lemma decode_chars_spec ds i out :
  out <> [] -> Forall (digit_ok W) out -> Forall (digit_ok 58) ds ->
  let v := of_digits W out * 58 ^ Z.of_nat (length ds) + of_digits 58 ds in
  if v <? W ^ Z.of_nat (length out)
  then exists out', decode_chars 0 (enc <$> ds) i out = Ok out' /\ length out' = length out /\
         Forall (digit_ok W) out' /\ of_digits W out' = v
  else decode_chars 0 (enc <$> ds) i out = fail InvalidBase58Length.
Proof.
  intros Hne Hok Hds. revert i out Hne Hok.
  induction Hds as [|d ds Hd Hds IH]; intros i out Hne Hok; cbn zeta; cbn [fmap list_fmap decode_chars].
  - pose proof (of_digits_bound W ltac:(lia) _ Hok) as Hb.
    change (of_digits 58 []) with 0. rewrite Z.mul_1_r, Z.add_0_r, (proj2 (Z.ltb_lt _ _)) by lia. eauto.
  - pose proof (decode_char_spec out d i Hne Hok Hd) as Hc. cbn zeta in Hc.
    pose proof (of_digits_bound 58 ltac:(lia) _ Hds) as Hb.
    pose proof (of_digits_bound W ltac:(lia) _ Hok) as Hbo.
    pose proof (pow_pos 58 ltac:(lia) (length ds)) as Hp. unfold digit_ok in Hd.
    rewrite of_digits_cons. cbn [length]. rewrite Nat2Z.inj_succ, Z.pow_succ_r by lia.
    replace (of_digits W out * (58 * 58 ^ Z.of_nat (length ds)) +
             (d * 58 ^ Z.of_nat (length ds) + of_digits 58 ds))
      with ((58 * of_digits W out + d) * 58 ^ Z.of_nat (length ds) + of_digits 58 ds) by ring.
    destruct (Z.ltb_spec (58 * of_digits W out + d) (W ^ Z.of_nat (length out))) as [Hlt|Hge].
    + destruct Hc as (out' & E & Hlen & Hok' & Hval). rewrite E. cbn [mbind outcome_bind].
      specialize (IH (S i) out'). cbn zeta in IH. rewrite Hval, Hlen in IH. apply IH; [|done].
      destruct out; [done|]. by destruct out'.
    + rewrite Hc. cbn [mbind outcome_bind]. rewrite (proj2 (Z.ltb_ge _ _)) by nia. done.
Qed.

(** Big-endian bytes of a 32-bit word. *)
Definition word_bytes (w : Z) : list Z :=
  [w / 2 ^ 24; (w / 2 ^ 16) mod 2 ^ 8; (w / 2 ^ 8) mod 2 ^ 8; w mod 2 ^ 8].

Lemma byte_at w k :
  0 <= k -> Z.land (Z.shiftr w k) 0xff mod 2 ^ 8 = (w / 2 ^ k) mod 2 ^ 8.
Proof.
  intros Hk. change 0xff with (Z.ones 8).
  by rewrite Z.land_ones, Z.shiftr_div_pow2, Z.mod_mod by lia.
Qed.

Lemma set_byte_ok bin i v : (i < length bin)%nat -> set_byte bin i v = Ok (<[i := v mod 2 ^ 8]> bin).
Proof. intros H. unfold set_byte. by rewrite (proj2 (Nat.ltb_lt _ _) H). Qed.

Lemma insert_four (bin pre : list Z) x0 x1 x2 x3 y0 y1 y2 y3 (post : list Z) i :
  length pre = i -> bin = pre ++ x0 :: x1 :: x2 :: x3 :: post ->
  <[(i + 3)%nat := y3]> (<[(i + 2)%nat := y2]> (<[(i + 1)%nat := y1]> (<[i := y0]> bin)))
    = pre ++ y0 :: y1 :: y2 :: y3 :: post.
Proof.
  intros <- ->. 
  rewrite <- (Nat.add_0_r (length pre)) at 4. by rewrite !insert_app_r.
Qed.

Lemma write_words_spec words pre bin :
  Forall (digit_ok W) words -> length bin = (4 * length words)%nat ->
  write_words words (length pre) (pre ++ bin) = Ok (pre ++ concat (word_bytes <$> words)).
Proof.
  intros Hw. revert pre bin. induction Hw as [|w words Hw Hws IH]; intros pre bin Hlen; cbn [write_words].
  { by destruct bin. }
  cbn [length] in Hlen. destruct bin as [|x0 [|x1 [|x2 [|x3 bin]]]]; cbn [length] in Hlen; try lia.
  rewrite set_byte_ok by (rewrite length_app; cbn [length]; lia). cbn [mbind outcome_bind].
  do 3 (rewrite set_byte_ok by (rewrite ?length_insert, length_app; cbn [length]; lia); cbn [mbind outcome_bind]).
  rewrite (insert_four _ pre x0 x1 x2 x3 _ _ _ _ bin) by done.
  rewrite !byte_at by lia. rewrite Z.pow_0_r, Z.div_1_r.
  unfold digit_ok in Hw.
  rewrite (Z.mod_small (w / 2 ^ 0x18)) by (split; [apply Z.div_pos; lia | apply Z.div_lt_upper_bound; lia]).
  replace (length pre + 4)%nat with (length (pre ++ word_bytes w)) by (rewrite length_app; cbn; lia).
  cbn [fmap list_fmap concat]. rewrite app_assoc.
  rewrite <- IH with (bin := bin) by lia. f_equal. by rewrite <- app_assoc.
Qed.

Lemma word_bytes_value w : digit_ok W w -> of_digits 256 (word_bytes w) = w.
Proof.
  unfold digit_ok. intros Hw. unfold word_bytes. rewrite !of_digits_cons. cbn [length].
  change (of_digits 256 []) with 0.
  change (256 ^ Z.of_nat 3) with 16777216. change (256 ^ Z.of_nat 2) with 65536.
  change (256 ^ Z.of_nat 1) with 256. change (256 ^ Z.of_nat 0) with 1.
  change (2 ^ 24) with (256 * 256 * 256). change (2 ^ 16) with (256 * 256). change (2 ^ 8) with 256.
  rewrite <- !Z.div_div by lia.
  pose proof (Z.div_mod w 256 ltac:(lia)). pose proof (Z.div_mod (w / 256) 256 ltac:(lia)).
  pose proof (Z.div_mod (w / 256 / 256) 256 ltac:(lia)). lia.
Qed.

Lemma word_bytes_ok w : digit_ok W w -> Forall (digit_ok 256) (word_bytes w).
Proof.
  unfold digit_ok. intros Hw. unfold word_bytes. change (2 ^ 8) with 256.
  repeat constructor; try (apply Z.mod_pos_bound; lia).
  - apply Z.div_pos; lia.
  - apply Z.div_lt_upper_bound; lia.
Qed.

Lemma words_length words : length (concat (word_bytes <$> words)) = (4 * length words)%nat.
Proof. induction words; cbn [fmap list_fmap concat length]; [done|]. rewrite length_app. cbn. lia. Qed.

Lemma words_value words :
  Forall (digit_ok W) words -> of_digits 256 (concat (word_bytes <$> words)) = of_digits W words.
Proof.
  induction 1 as [|w words Hw _ IH]; [done|]. cbn [fmap list_fmap concat].
  rewrite of_digits_app, word_bytes_value, IH, of_digits_cons by done. f_equal. f_equal.
  transitivity (256 ^ (4 * Z.of_nat (length words))).
  - f_equal. rewrite words_length. lia.
  - by rewrite Z.pow_mul_r by lia.
Qed.

Lemma words_ok words :
  Forall (digit_ok W) words -> Forall (digit_ok 256) (concat (word_bytes <$> words)).
Proof.
  induction 1; cbn [fmap list_fmap concat]; [done|].
  apply Forall_app; split; [by apply word_bytes_ok | done].
Qed.

End decode_all.

(** ** The decoder on every input *)

Lemma leading_zeros_padded n v :
  0 <= v < 256 ^ Z.of_nat n -> (length (digits_of 256 v) <= n)%nat.
Proof.
  intros Hv. destruct (digits_of_spec 256 ltac:(lia) v ltac:(lia)) as (Hok & Hc & Hval).
  destruct (digits_of 256 v) as [|d ds] eqn:E; [cbn; lia|].
  assert (d <> 0) as Hd by (intros ->; discriminate Hc).
  pose proof (of_digits_lower 256 ltac:(lia) d ds Hok Hd) as Hl. rewrite Hval in Hl.
  destruct (Nat.le_gt_cases (length (d :: ds)) n) as [|Hgt]; [done|]. cbn [length] in Hgt.
  assert (256 ^ Z.of_nat n <= 256 ^ Z.of_nat (length ds)) by (apply Z.pow_le_mono_r; lia). lia.
Qed.

(** The bytes of a number, padded with zeros to [n]. *)
Lemma padded_digits n bs v :
  Forall (digit_ok 256) bs -> length bs = n -> of_digits 256 bs = v ->
  bs = replicate (n - length (digits_of 256 v)) 0 ++ digits_of 256 v.
Proof.
  intros Hok <- <-. rewrite <- (strip_zeros_digits_of 256) by (done || lia).
  rewrite (strip_zeros_app bs) at 1. f_equal. f_equal.
  unfold strip_zeros. rewrite length_drop. pose proof (leading_zeros_le bs). lia.
Qed.

(** The specification of [from_base58]. *)
Definition decoded_ref (z : nat) (v : Z) : result str :=
  if v <? 2 ^ 1056 then
    let bytes := digits_of 256 v in
    if (z + length bytes <=? BIN_LEN)%nat then Ok (replicate z (chr 0) ++ (chr <$> bytes)) else Panic
  else fail InvalidBase58Length.

Lemma drop_zeros (z n : nat) (l : list Z) :
  (z <= n)%nat -> drop (n - z) (replicate n 0 ++ l) = replicate z 0 ++ l.
Proof.
  intros Hz. rewrite drop_app_le by (rewrite length_replicate; lia).
  rewrite drop_replicate. do 2 f_equal. lia.
Qed.

Lemma count_front_ones z s : count_front "1" s = 0%nat -> count_front "1" (replicate z "1"%char ++ s) = z.
Proof. intros Hs. induction z as [|z IH]; cbn [replicate app count_front]; [done|]. cbn. by rewrite IH. Qed.

Lemma count_front_enc ds : Forall (digit_ok 58) ds -> canonical ds -> count_front "1" (enc <$> ds) = 0%nat.
Proof.
  intros Hok Hc. destruct ds as [|d ds]; [done|]. cbn [fmap list_fmap count_front].
  destruct (Ascii.eqb_spec "1" (enc d)) as [E|]; [|done].
  inversion Hok as [|?? Hd _]; subst. pose proof (digit_val_enc d Hd) as Hv. rewrite <- E in Hv.
  vm_compute in Hv. injection Hv as <-. discriminate Hc.
Qed.

Lemma chr_zeros z ds : chr <$> (replicate z 0 ++ ds) = replicate z (chr 0) ++ (chr <$> ds).
Proof. by rewrite fmap_app, fmap_replicate. Qed.

Theorem from_base58_is_ref z ds :
  Forall (digit_ok 58) ds -> canonical ds ->
  from_base58 (replicate z "1"%char ++ (enc <$> ds)) = decoded_ref z (of_digits 58 ds).
Proof.
  intros Hok Hc. unfold from_base58. change (Z.of_nat (BIN_LEN mod 4)) with 0. cbn [Z.eqb].
  rewrite count_front_ones by (by apply count_front_enc).
  rewrite drop_app_length' by (by rewrite length_replicate).
  pose proof (decode_chars_spec ds z (replicate OUT_LEN 0)) as H. cbn zeta in H.
  rewrite length_replicate, <- (app_nil_r (replicate OUT_LEN 0)), of_digits_zeros in H.
  rewrite app_nil_r in H. change ((2 ^ 32) ^ Z.of_nat OUT_LEN) with (2 ^ 1056) in H.
  change (of_digits (2 ^ 32) []) with 0 in H. rewrite Z.mul_0_l, Z.add_0_l in H.
  unfold decoded_ref. pose proof (of_digits_bound 58 ltac:(lia) _ Hok) as [Hv _].
  assert (Forall (digit_ok (2 ^ 32)) (replicate OUT_LEN 0)) as Hz
    by (apply Forall_replicate; unfold digit_ok; lia).
  destruct (Z.ltb_spec (of_digits 58 ds) (2 ^ 1056)) as [Hlt|Hge].
  - destruct H as (out & E & Hlen & Hout & Hval); [done..|]. rewrite E. cbn [mbind outcome_bind].
    unfold first_byte. cbn [Z.eqb Pos.eqb]. rewrite drop_0.
    change (<[0%nat := 0 mod 2 ^ 8]> (replicate BIN_LEN 0)) with ([] ++ replicate BIN_LEN 0).
    rewrite (write_words_spec out []) by (done || (rewrite length_replicate, Hlen; done)).
    cbn [mbind outcome_bind app]. set (bin := concat _).
    assert (length bin = BIN_LEN) as Hbl by (unfold bin; rewrite words_length, Hlen; done).
    pose proof (padded_digits BIN_LEN bin (of_digits 58 ds)) as Hpad.
    rewrite Hpad; [|by apply words_ok|done|unfold bin; by rewrite words_value].
    destruct (digits_of_spec 256 ltac:(lia) _ Hv) as (_ & Hcan & _).
    pose proof (leading_zeros_padded BIN_LEN (of_digits 58 ds) ltac:(done)) as Hle.
    rewrite leading_zeros_replicate, Hcan, Nat.add_0_r.
    destruct (Nat.leb_spec (z + length (digits_of 256 (of_digits 58 ds))) BIN_LEN).
    + rewrite (proj2 (Nat.ltb_ge _ _)), drop_zeros, chr_zeros by lia. done.
    + rewrite (proj2 (Nat.ltb_lt _ _)) by lia. done.
  - rewrite H; done.
Qed.

Lemma decode_chars_app zm s1 s2 i out :
  decode_chars zm (s1 ++ s2) i out
  = (out' ← decode_chars zm s1 i out; decode_chars zm s2 (i + length s1) out').
Proof.
  revert i out. induction s1 as [|c s1 IH]; intros i out; cbn [app decode_chars length].
  - cbn [mbind outcome_bind]. by rewrite Nat.add_0_r.
  - destruct (decode_char zm out c i) as [out1| | |]; try done. cbn [mbind outcome_bind].
    rewrite IH, Nat.add_succ_r. done.
Qed.

Theorem from_base58_invalid z ds c rest :
  Forall (digit_ok 58) ds -> canonical ds -> digit_val c = None ->
  from_base58 (replicate z "1"%char ++ (enc <$> ds) ++ c :: rest)
  = fail (if of_digits 58 ds <? 2 ^ 1056 then InvalidBase58Character c (z + length ds)
          else InvalidBase58Length).
Proof.
  intros Hok Hc Hbad. unfold from_base58. change (Z.of_nat (BIN_LEN mod 4)) with 0. cbn [Z.eqb].
  assert (count_front "1" ((enc <$> ds) ++ c :: rest) = 0%nat) as H1.
  { destruct ds as [|d ds].
    - cbn [fmap list_fmap app count_front]. destruct (Ascii.eqb_spec "1" c) as [<-|]; [|done].
      vm_compute in Hbad. discriminate Hbad.
    - pose proof (count_front_enc _ Hok Hc) as H. cbn [fmap list_fmap app count_front] in *.
      by destruct (Ascii.eqb "1" (enc d)). }
  rewrite count_front_ones by done.
  rewrite drop_app_length' by (by rewrite length_replicate).
  rewrite decode_chars_app, length_fmap. 
  pose proof (decode_chars_spec ds z (replicate OUT_LEN 0)) as H. cbn zeta in H.
  rewrite length_replicate, <- (app_nil_r (replicate OUT_LEN 0)), of_digits_zeros in H.
  rewrite app_nil_r in H. change ((2 ^ 32) ^ Z.of_nat OUT_LEN) with (2 ^ 1056) in H.
  change (of_digits (2 ^ 32) []) with 0 in H. rewrite Z.mul_0_l, Z.add_0_l in H.
  assert (Forall (digit_ok (2 ^ 32)) (replicate OUT_LEN 0)) as Hz
    by (apply Forall_replicate; unfold digit_ok; lia).
  destruct (of_digits 58 ds <? 2 ^ 1056).
  - destruct H as (out & -> & _); [done..|]. cbn [mbind outcome_bind decode_chars].
    by rewrite decode_char_bad.
  - by rewrite H.
Qed.

(** A byte string is its leading zeros and the digits of its value. *)
Lemma bytes_ref (s : str) :
  s = replicate (leading_zeros (code <$> s)) (chr 0) ++ (chr <$> digits_of 256 (of_digits 256 (code <$> s))).
Proof.
  rewrite <- chr_zeros, <- (strip_zeros_digits_of 256) by (apply code_digit_ok || lia).
  rewrite <- strip_zeros_app, <- list_fmap_compose.
  induction s as [|c s IH]; [done|]. cbn [fmap list_fmap]. f_equal; [symmetry; apply chr_code | exact IH].
Qed.

Lemma base58_ref_digits (s : str) :
  let v := of_digits 256 (code <$> s) in
  0 <= v < 256 ^ Z.of_nat (length s) /\
  Forall (digit_ok 58) (digits_of 58 v) /\ canonical (digits_of 58 v) /\ of_digits 58 (digits_of 58 v) = v.
Proof.
  cbn zeta. pose proof (of_digits_bound 256 ltac:(lia) _ (code_digit_ok s)) as Hv.
  rewrite length_fmap in Hv. split; [done|]. apply digits_of_spec; lia.
Qed.

Theorem from_to_base58 b :
  (length b <= BIN_LEN)%nat -> from_base58 (base58_ref b) = Ok b.
Proof.
  intros Hlen. unfold base58_ref. destruct (base58_ref_digits b) as (Hv & Hok & Hc & Hval).
  set (v := of_digits 256 (code <$> b)) in *.
  rewrite from_base58_is_ref by done. rewrite Hval. unfold decoded_ref.
  assert (256 ^ Z.of_nat (length b) <= 2 ^ 1056) as Hb.
  { change (2 ^ 1056) with (256 ^ Z.of_nat BIN_LEN). apply Z.pow_le_mono_r; lia. }
  rewrite (proj2 (Z.ltb_lt _ _)) by lia.
  pose proof (bytes_ref b) as Hr. fold v in Hr.
  assert (length b = leading_zeros (code <$> b) + length (digits_of 256 v))%nat as Hl.
  { rewrite Hr at 1. by rewrite length_app, length_replicate, length_fmap. }
  rewrite (proj2 (Nat.leb_le _ _)) by lia. by rewrite <- Hr.
Qed.

(** ** Base58Check

    The hash comes from the [sha2] crate: a parameter of the functions. *)

Section base58_check.
Variable sha256 : str -> str.

Definition double_sha256 (payload : str) : str :=
  let hash := sha256 payload in
  sha256 hash.

(** [bytes[..n]] and [bytes[n..]]. *)
Definition bytes_to (bytes : str) (n : nat) : result str :=
  if (n <=? length bytes)%nat then Ok (take n bytes) else Panic.
Definition bytes_from (bytes : str) (n : nat) : result str :=
  if (n <=? length bytes)%nat then Ok (drop n bytes) else Panic.

Definition to_base58_check (self version : str) : result str :=
  let payload := version ++ self in
  checksum ← bytes_to (double_sha256 payload) 4;
  to_base58 (payload ++ checksum).

Definition from_base58_check (self : str) (version_bytes : nat) : result (str * str) :=
  payload ← from_base58 self;
  if (length payload <? 5)%nat then fail InvalidBase58Checksum else
  let checksum_index := (length payload - 4)%nat in
  let provided_checksum := drop checksum_index payload in
  let payload := take checksum_index payload in
  checksum ← bytes_to (double_sha256 payload) 4;
  if negb (bool_decide (checksum = provided_checksum)) then fail InvalidBase58Checksum else
  version ← bytes_to payload version_bytes;
  data ← bytes_from payload version_bytes;
  Ok (version, data).

(** SHA-256 digests have 32 bytes. *)
Hypothesis sha256_length : forall p, length (sha256 p) = 32%nat.

Definition checksum (payload : str) : str := take 4 (double_sha256 payload).

Lemma checksum_length p : length (checksum p) = 4%nat.
Proof. unfold checksum, double_sha256. by rewrite length_take, sha256_length. Qed.

Lemma bytes_to_checksum p : bytes_to (double_sha256 p) 4 = Ok (checksum p).
Proof. unfold bytes_to, double_sha256. by rewrite sha256_length. Qed.

Lemma to_base58_check_ref self version :
  to_base58_check self version
  = Ok (base58_ref ((version ++ self) ++ checksum (version ++ self))).
Proof.
  unfold to_base58_check. rewrite bytes_to_checksum. cbn [mbind outcome_bind].
  apply to_base58_is_ref.
Qed.

(** Decoding once the base-58 layer is read. *)
Lemma from_base58_check_payload s payload n :
  from_base58 s = Ok (payload ++ checksum payload) ->
  from_base58_check s n
  = if (length payload =? 0)%nat then fail InvalidBase58Checksum
    else if (n <=? length payload)%nat then Ok (take n payload, drop n payload) else Panic.
Proof.
  intros E. unfold from_base58_check. rewrite E. cbn [mbind outcome_bind].
  rewrite length_app, checksum_length.
  destruct (Nat.eqb_spec (length payload) 0) as [H0|H0].
  { by rewrite H0. }
  rewrite (proj2 (Nat.ltb_ge _ _)), Nat.add_sub by lia.
  rewrite take_app_length, drop_app_length, bytes_to_checksum. cbn [mbind outcome_bind].
  rewrite bool_decide_eq_true_2 by done. cbn [negb]. unfold bytes_to, bytes_from.
  by destruct (n <=? length payload)%nat.
Qed.

Lemma base58_check_roundtrip self version s :
  (0 < length version + length self <= BIN_LEN - 4)%nat ->
  to_base58_check self version = Ok s ->
  from_base58_check s (length version) = Ok (version, self).
Proof.
  intros Hlen. rewrite to_base58_check_ref. intros [= <-].
  rewrite (from_base58_check_payload _ (version ++ self)).
  - rewrite length_app. destruct (Nat.eqb_spec (length version + length self) 0) as [|_]; [lia|].
    rewrite (proj2 (Nat.leb_le _ _)) by lia. by rewrite take_app_length, drop_app_length.
  - apply from_to_base58. rewrite !length_app, checksum_length. unfold BIN_LEN in *. lia.
Qed.

(** Nothing is accepted without its checksum. *)
Lemma from_base58_check_sound s n version data :
  from_base58_check s n = Ok (version, data) ->
  length version = n /\
  from_base58 s = Ok ((version ++ data) ++ checksum (version ++ data)).
Proof.
  unfold from_base58_check. intros H. ok_inv. rename x into p.
  destruct (Nat.ltb_spec (length p) 5) as [|H5]; [done|].
  rewrite bytes_to_checksum in H. cbn [mbind outcome_bind] in H.
  destruct (bool_decide_reflect (checksum (take (length p - 4) p) = drop (length p - 4) p)) as [Hc|];
    [|done]. cbn [negb] in H. unfold bytes_to, bytes_from in H.
  destruct (Nat.leb_spec n (length (take (length p - 4) p))) as [Hn|]; [|done].
  cbn [mbind outcome_bind] in H. injection H as <- <-.
  rewrite take_drop, Hc, take_drop, length_take. split; [lia | done].
Qed.
End base58_check.

(** ** Properties *)

(** C22: [to_base58] never fails and writes one ['1'] per leading zero byte
    followed by the base-58 digits of the rest, whatever the length of the
    input: its estimate of the buffer's size is always enough. *)
Theorem to_base58_correct (self : str) : to_base58 self = Ok (base58_ref self).
Proof. apply to_base58_is_ref. Qed.

(** [from_base58] on a text of valid digits: the zeros and the big-endian
    bytes of its value when the value fits 132 bytes, [InvalidBase58Length]
    when it does not, and a panic exactly when the leading ['1']s and the bytes
    of the value together exceed the 132-byte buffer. *)
Theorem from_base58_correct z ds :
  Forall (digit_ok 58) ds -> canonical ds ->
  from_base58 (replicate z "1"%char ++ (enc <$> ds)) = decoded_ref z (of_digits 58 ds).
Proof. apply from_base58_is_ref. Qed.

Lemma from_base58_correct_witness :
  from_base58 (replicate 2 "1"%char ++ (enc <$> [4; 57])) = Ok (chr <$> [0; 0; 1; 33]) /\
  from_base58 (replicate 132 "1"%char ++ (enc <$> [4; 57])) = Panic.
Proof.
  assert (Forall (digit_ok 58) [4; 57]) as Hok by (repeat constructor; unfold digit_ok; lia).
  split.
  - rewrite (from_base58_correct 2 [4; 57]); [reflexivity | exact Hok | reflexivity].
  - rewrite (from_base58_correct 132 [4; 57]); [reflexivity | exact Hok | reflexivity].
Defined.

(** A text with a character outside the alphabet is refused with that
    character and its index, unless the digits before it already overflow. *)
Theorem from_base58_rejects z ds c rest :
  Forall (digit_ok 58) ds -> canonical ds -> c ∉ ALPHABET ->
  from_base58 (replicate z "1"%char ++ (enc <$> ds) ++ c :: rest)
  = fail (if of_digits 58 ds <? 2 ^ 1056 then InvalidBase58Character c (z + length ds)
          else InvalidBase58Length).
Proof.
  intros Hok Hc Hnot. apply from_base58_invalid; [done..|].
  destruct (digit_val c) as [d|] eqn:Hd; [|done]. apply digit_val_Some in Hd as [Hr <-].
  destruct Hnot. unfold enc. destruct (lookup_lt_is_Some_2 ALPHABET (Z.to_nat d)) as [c Hl].
  { change (length ALPHABET) with 58%nat. lia. }
  rewrite Hl. by apply list_elem_of_lookup_2 in Hl.
Qed.

Lemma from_base58_rejects_witness :
  from_base58 (lit "15Q0z") = fail (InvalidBase58Character "0" 3).
Proof.
  apply (from_base58_rejects 1 [4; 23] "0" (lit "z")).
  - repeat constructor; unfold digit_ok; lia.
  - reflexivity.
  - by rewrite <- mem_elem_of.
Defined.

(** Decoding inverts encoding for up to 132 bytes, the size of the
    decoder's buffer. *)
Theorem base58_roundtrip b :
  (length b <= BIN_LEN)%nat -> exists s, to_base58 b = Ok s /\ from_base58 s = Ok b.
Proof. intros Hb. exists (base58_ref b). by rewrite to_base58_is_ref, from_to_base58. Qed.

Lemma base58_roundtrip_witness :
  exists s, to_base58 (chr <$> [0; 1; 255]) = Ok s /\ from_base58 s = Ok (chr <$> [0; 1; 255]).
Proof. apply (base58_roundtrip (chr <$> [0; 1; 255])). vm_compute. lia. Defined.

(** C5: Base58Check.  A version and a payload of 1 to 128 bytes together come
    back from their text; and whatever text is accepted carries the checksum of
    the version and payload it is read as. *)
Theorem base58_check_correct (sha256 : str -> str) :
  (forall p, length (sha256 p) = 32%nat) ->
  (forall self version, (0 < length version + length self <= BIN_LEN - 4)%nat ->
     exists s, to_base58_check sha256 self version = Ok s /\
               from_base58_check sha256 s (length version) = Ok (version, self)) /\
  (forall s n version data, from_base58_check sha256 s n = Ok (version, data) ->
     length version = n /\
     from_base58 s = Ok ((version ++ data) ++ take 4 (sha256 (sha256 (version ++ data))))).
Proof.
  intros Hsha. split.
  - intros self version Hlen. eexists. split; [by apply to_base58_check_ref|].
    apply (base58_check_roundtrip sha256 Hsha); [done|]. by apply to_base58_check_ref.
  - intros s n version data. by apply from_base58_check_sound.
Qed.

Lemma base58_check_correct_witness :
  exists s, to_base58_check (fun p => take 32 (p ++ replicate 32 (chr 0))) (lit "key") (chr <$> [1; 69]) = Ok s /\
    from_base58_check (fun p => take 32 (p ++ replicate 32 (chr 0))) s 2 = Ok (chr <$> [1; 69], lit "key").
Proof.
  refine (proj1 (base58_check_correct (fun p => take 32 (p ++ replicate 32 (chr 0))) _) (lit "key") (chr <$> [1; 69]) _).
  - intros p. rewrite length_take, length_app, length_replicate. lia.
  - vm_compute. lia.
Defined.
