(* ===== verification/Crypto.v ===== *)
(** * Keys, signatures and their text forms

    [common/crypto.rs] and [common/hasher.rs].  The hex codec is modelled in
    full.  SHA-256, secp256k1, PBKDF2 and ChaCha20-Poly1305 come from crates:
    they are the operations of the class [CryptoLib], and what the code relies
    on is stated by [CryptoLaws], which [Toy] shows to be satisfiable. *)

From S2P Require Import Prelude Str Errors Base58.
Local Open Scope Z_scope.

(** ** Hexadecimal *)

Definition hex_digit (d : Z) : ascii := if d <? 10 then chr (48 + d) else chr (87 + d).

(** [write!(&mut s, "{:02x}", byte)]. *)
Definition hex_byte (byte : ascii) : str := [hex_digit (code byte / 16); hex_digit (code byte mod 16)].
Definition to_hex (bytes : str) : str := concat (hex_byte <$> bytes).

(** [s.len() - n + 1] underflows on a shorter string: an overflow panic, or a
    wrapped count whose first slice panics. *)
Definition split_n (s : str) (n : nat) : result (list str) :=
  if (length s <? n)%nat then Panic
  else mapM (fun i => slice s (2 * i) (2 * i + n)) (seq 0 ((length s - n + 1) `div` 2 + 1)).

Definition from_hex (hex_str : str) : result str :=
  if Nat.odd (length hex_str) then fail NumberParsingError else
  prefix ← slice_to hex_str 2;
  hex_trim ← (if bool_decide (prefix = lit "0x") then slice_from hex_str 2 else Ok hex_str);
  parts ← split_n (trim hex_trim) 2;
  mapM (fun b => chr <$> ok_or (Kind NumberParsingError) (from_str_radix 8 16 b)) parts.

(** ** The decoder on ASCII input *)

(** Two characters at a time. *)
Fixpoint pairs (s : str) : list str :=
  match s with
  | a :: b :: s' => [a; b] :: pairs s'
  | _ => []
  end.

Definition hex_pairs (s : str) : result str :=
  mapM (fun b => chr <$> ok_or (Kind NumberParsingError) (from_str_radix 8 16 b)) (pairs s).

(** The text after an optional [0x], trimmed. *)
Definition hex_body (s : str) : str := trim (if starts_with (lit "0x") s then drop 2 s else s).

Lemma mapM_shift {E A} (f g : nat → outcome E A) n :
  (forall i, f (S i) = g i) -> mapM f (seq 1 n) = mapM g (seq 0 n).
Proof.
  intros H. assert (forall k, mapM f (seq (S k) n) = mapM g (seq k n)) as Hk; [|apply Hk].
  induction n as [|n IH]; intros k; [done|]. cbn [seq mapM]. cbn. rewrite H.
  specialize (IH (S k)). cbn in IH. by rewrite IH.
Qed.

Lemma is_char_boundary_tail c s i :
  Forall (λ c, is_ascii c = true) (c :: s) ->
  is_char_boundary (c :: s) (S i) = is_char_boundary s i.
Proof.
  intros Hs. inversion Hs as [|?? _ Hs']; subst.
  destruct (Nat.le_gt_cases i (length s)) as [Hle|Hgt].
  - rewrite !ascii_boundary; try done. cbn. lia.
  - unfold is_char_boundary. change ((c :: s) !! S i) with (s !! i).
    assert (s !! i = None) as -> by (apply lookup_ge_None_2; lia).
    done.
Qed.

Lemma slice_tail {E} c s i j :
  Forall (λ c, is_ascii c = true) (c :: s) ->
  @slice E (c :: s) (S i) (S j) = slice s i j.
Proof. intros Hs. unfold slice. by rewrite !is_char_boundary_tail. Qed.

Lemma split_n_pairs s :
  Forall (λ c, is_ascii c = true) s ->
  split_n s 2 = if Nat.odd (length s) || (length s =? 0)%nat then Panic else Ok (pairs s).
Proof.
  intros Hs. unfold split_n.
  assert (forall n, (length s <= n)%nat -> (2 <= length s)%nat ->
    mapM (fun i => slice s (2 * i) (2 * i + 2)) (seq 0 ((length s - 2 + 1) `div` 2 + 1))
    = if Nat.odd (length s) then Panic else Ok (E := Error) (pairs s)) as H.
  { intros n. revert s Hs. induction n as [|n IH]; intros s Hs Hn H2; [lia|].
    destruct s as [|a [|b s]]; cbn [length] in *; try lia.
    replace ((S (S (length s)) - 2 + 1) `div` 2 + 1)%nat with (S ((length s + 1) `div` 2)).
    2: { replace (S (S (length s)) - 2)%nat with (length s) by lia. lia. }
    cbn [seq mapM]. change (2 * 0)%nat with 0%nat. change (0 + 2)%nat with 2%nat.
    rewrite slice_ascii by (done || (cbn [length]; lia)). cbn [mbind outcome_bind].
    rewrite (mapM_shift _ (fun i => slice s (2 * i) (2 * i + 2))).
    2: { intros i. replace (2 * S i)%nat with (S (S (2 * i))) by lia.
         change (S (S (2 * i)) + 2)%nat with (S (S (2 * i + 2))).
         rewrite !slice_tail; [done | by inversion Hs | done]. }
    inversion Hs as [|?? Ha Hs1]; inversion Hs1 as [|?? Hb Hs2]; subst.
    destruct s as [|a' [|b' s]].
    - done.
    - cbn. done.
    - specialize (IH (a' :: b' :: s) Hs2). cbn [length] in *.
      replace ((S (S (length s)) - 2 + 1) `div` 2 + 1)%nat with ((S (S (length s)) + 1) `div` 2)%nat in IH.
      2: { replace (S (S (length s)) - 2)%nat with (length s) by lia.
           replace (S (S (length s)) + 1)%nat with (length s + 1 + 1 * 2)%nat by lia.
           by rewrite Nat.div_add by lia. }
      rewrite IH by lia. rewrite !Nat.odd_succ_succ. by destruct (Nat.odd (length s)). }
  destruct (Nat.ltb_spec (length s) 2) as [Hlt|Hge].
  - destruct s as [|a [|b s]]; cbn [length] in *; [done | done | lia].
  - rewrite (H (length s)) by lia. rewrite (proj2 (Nat.eqb_neq _ 0)), orb_false_r by lia. done.
Qed.

Theorem from_hex_ascii s :
  Forall (λ c, is_ascii c = true) s ->
  from_hex s =
    if Nat.odd (length s) then fail NumberParsingError
    else if (length s =? 0)%nat then Panic
    else let t := hex_body s in
         if Nat.odd (length t) || (length t =? 0)%nat then Panic else hex_pairs t.
Proof.
  intros Hs. unfold from_hex. destruct (Nat.odd (length s)) eqn:Hodd; [done|].
  destruct s as [|a [|b s]]; [done | done |]. cbn [length Nat.eqb].
  unfold slice_to, slice_from. rewrite (slice_ascii _ 0 2) by (done || (cbn [length]; lia)).
  cbn [mbind outcome_bind].
  change (take (2 - 0) (drop 0 (a :: b :: s))) with [a; b].
  assert (bool_decide ([a; b] = lit "0x") = starts_with (lit "0x") (a :: b :: s)) as ->.
  { change (starts_with _ _) with (Ascii.eqb "0" a && (Ascii.eqb "x" b && true)).
    destruct (Ascii.eqb_spec "0" a) as [<-|Ha], (Ascii.eqb_spec "x" b) as [<-|Hb];
      (by apply bool_decide_eq_true_2) || (apply bool_decide_eq_false_2; cbn; congruence). }
  rewrite slice_ascii by (done || (cbn [length]; lia)).
  change (take (length (a :: b :: s) - 2) (drop 2 (a :: b :: s))) with (take (length (a :: b :: s) - 2) s).
  rewrite take_ge by (cbn [length]; lia).
  unfold hex_body, hex_pairs. change (drop 2 (a :: b :: s)) with s.
  assert (Forall (λ c, is_ascii c = true) s) as Hs' by (apply Forall_cons_1 in Hs as [_ Hs]; by apply Forall_cons_1 in Hs as [_ Hs]).
  destruct (starts_with _ _); cbn [mbind outcome_bind]; rewrite split_n_pairs by (by apply Forall_trim);
    by destruct (_ || _).
Qed.

Lemma hex_byte_spec b :
  from_str_radix 8 16 (hex_byte b) = Some (code b) /\ Forall (λ c, visible c = true) (hex_byte b) /\
  ("x"%char ∉ hex_byte b).
Proof.
  assert (bool_decide (from_str_radix 8 16 (hex_byte b) = Some (code b))
          && forallb visible (hex_byte b) && negb (mem "x" (hex_byte b)) = true) as H
    by (destruct b as [[] [] [] [] [] [] [] []]; by vm_compute).
  rewrite !andb_true_iff, negb_true_iff, bool_decide_eq_true in H. destruct H as [[H1 H2] H3].
  split_and!; [done| |].
  - apply Forall_forall. intros x Hx%list_elem_of_In. by apply (proj1 (forallb_forall _ _) H2).
  - rewrite <- mem_elem_of. by rewrite H3.
Qed.

Lemma to_hex_visible bs : Forall (λ c, visible c = true) (to_hex bs).
Proof.
  induction bs as [|b bs IH]; [constructor|]. change (to_hex (b :: bs)) with (hex_byte b ++ to_hex bs).
  apply Forall_app. split; [apply hex_byte_spec | done].
Qed.

Lemma to_hex_length bs : length (to_hex bs) = (2 * length bs)%nat.
Proof.
  induction bs as [|b bs IH]; [done|]. change (to_hex (b :: bs)) with (hex_byte b ++ to_hex bs).
  rewrite length_app, IH. cbn [length hex_byte]. lia.
Qed.

Lemma to_hex_no_prefix bs : starts_with (lit "0x") (to_hex bs) = false.
Proof.
  destruct bs as [|b bs]; [done|]. change (to_hex (b :: bs)) with (hex_byte b ++ to_hex bs).
  destruct (hex_byte_spec b) as (_ & _ & Hx). unfold hex_byte in *.
  change (starts_with _ _) with (Ascii.eqb "0" (hex_digit (code b / 16)) && (Ascii.eqb "x" (hex_digit (code b mod 16)) && true)).
  destruct (Ascii.eqb_spec "x" (hex_digit (code b mod 16))) as [E|]; [|by rewrite andb_false_r].
  exfalso. apply Hx. rewrite E. set_solver.
Qed.

Lemma hex_pairs_to_hex bs : hex_pairs (to_hex bs) = Ok bs.
Proof.
  unfold hex_pairs. induction bs as [|b bs IH]; [done|].
  change (pairs (to_hex (b :: bs))) with (hex_byte b :: pairs (to_hex bs)). cbn [mapM] in *. cbn.
  rewrite (proj1 (hex_byte_spec b)). cbn. rewrite chr_code. cbn in IH. by rewrite IH.
Qed.

Lemma visible_ascii s : Forall (λ c, visible c = true) s -> Forall (λ c, is_ascii c = true) s.
Proof. intros Hs. apply (Forall_impl _ _ _ Hs). by intros c [H _]%andb_true_iff. Qed.

(** The decoder inverts the encoder, and has no answer for the empty text. *)
Lemma from_hex_to_hex bs : from_hex (to_hex bs) = if (length bs =? 0)%nat then Panic else Ok bs.
Proof.
  rewrite from_hex_ascii by (apply visible_ascii, to_hex_visible).
  unfold hex_body. rewrite to_hex_no_prefix, trim_visible by apply to_hex_visible.
  cbn zeta. rewrite hex_pairs_to_hex, to_hex_length.
  assert (Nat.odd (2 * length bs) = false) as -> by (by rewrite <- Nat.negb_even, Nat.even_even).
  cbn [orb]. destruct bs; [done|]. by rewrite (proj2 (Nat.eqb_neq _ 0)) by (cbn [length]; lia).
Qed.

(** ** The cryptographic crates *)

Class CryptoLib : Type := {
  (** sha2 *)
  sha256 : str -> str;
  (** secp256k1: keys, ECDSA signatures and commitments *)
  PublicKey : Type;
  SecretKey : Type;
  Signature : Type;
  pk_eq_dec :: EqDecision PublicKey;
  serialize_vec : PublicKey -> str;                 (* compressed *)
  pk_from_slice : str -> option PublicKey;
  from_secret_key : SecretKey -> option PublicKey;
  mul_assign : PublicKey -> SecretKey -> option PublicKey;
  sk_bytes : SecretKey -> str;                      (* [secret_key.0] *)
  sk_from_slice : str -> option SecretKey;
  serialize_der : Signature -> str;
  from_der : str -> option Signature;
  secp_sign : str -> SecretKey -> option Signature;
  secp_verify : str -> Signature -> PublicKey -> bool;
  (** ring: PBKDF2 with SHA-512 and 100 rounds, a 32-byte key *)
  pbkdf2 : str -> str -> str;                       (* salt, secret *)
  (** ring: ChaCha20-Poly1305 in place over a buffer that ends with [suffix_len] spare bytes *)
  tag_len : nat;
  seal_in_place : str -> str -> str -> nat -> option str;  (* key, nonce, in_out, suffix_len *)
  open_in_place : str -> str -> str -> option str;         (* key, nonce, in_out *)
}.

Class CryptoLaws (L : CryptoLib) : Prop := {
  sha256_length p : length (sha256 p) = 32%nat;
  serialize_length k : length (serialize_vec k) = 33%nat;
  pk_roundtrip k : pk_from_slice (serialize_vec k) = Some k;
  sk_length k : length (sk_bytes k) = 32%nat;
  sk_roundtrip k : sk_from_slice (sk_bytes k) = Some k;
  der_nonempty s : serialize_der s <> [];
  der_roundtrip s : from_der (serialize_der s) = Some s;
  (** the Diffie-Hellman point *)
  mul_comm a A b B : from_secret_key a = Some A -> from_secret_key b = Some B ->
                     mul_assign A b = mul_assign B a;
  sign_verify a A msg s : from_secret_key a = Some A -> secp_sign msg a = Some s ->
                          secp_verify msg s A = true;
  pbkdf2_length salt secret : length (pbkdf2 salt secret) = 32%nat;
  seal_open key nonce msg c :
    seal_in_place key nonce (msg ++ replicate tag_len (chr 0)) tag_len = Some c ->
    c <> [] /\ open_in_place key nonce c = Some msg;
}.

(** ** Text forms of keys and signatures *)

Definition GRINBOX_ADDRESS_VERSION_MAINNET : str := chr <$> [1; 69].
Definition GRINBOX_ADDRESS_VERSION_TESTNET : str := chr <$> [1; 121].

Section keys.
Context {L : CryptoLib} {Laws : CryptoLaws L}.

Definition serialize_public_key (public_key : PublicKey) : str := serialize_vec public_key.

Definition pk_of_hex (s : str) : result PublicKey :=
  hex ← from_hex s;
  ok_or (Kind InvalidBase58Key) (pk_from_slice hex).
Definition pk_to_hex (k : PublicKey) : str := to_hex (serialize_public_key k).

Definition pk_of_base58 (s : str) : result PublicKey :=
  bytes ← from_base58 s;
  ok_or (Kind InvalidBase58Key) (pk_from_slice bytes).
Definition pk_to_base58 (k : PublicKey) : result str := to_base58 (serialize_public_key k).

Definition pk_of_base58_check (s version_expect : str) : result PublicKey :=
  let n_version := length version_expect in
  '(version_actual, key_bytes) ← from_base58_check sha256 s n_version;
  if negb (bool_decide (version_actual = version_expect)) then fail InvalidBase58Version else
  ok_or (Kind InvalidBase58Key) (pk_from_slice key_bytes).
Definition pk_to_base58_check (k : PublicKey) (version : str) : result str :=
  to_base58_check sha256 (serialize_public_key k) version.

Definition sig_of_hex (s : str) : result Signature :=
  hex ← from_hex s;
  ok_or (Kind Secp) (from_der hex).
Definition sig_to_hex (s : Signature) : str := to_hex (serialize_der s).

Definition sk_of_hex (s : str) : result SecretKey :=
  data ← from_hex s;
  ok_or (Kind Secp) (sk_from_slice data).
Definition sk_to_hex (k : SecretKey) : str := to_hex (sk_bytes k).

Definition public_key_from_secret_key (secret_key : SecretKey) : result PublicKey :=
  ok_or (Kind Secp) (from_secret_key secret_key).

(** [Message::from_slice]: 32 bytes or an error. *)
Definition message_from_slice (data : str) : result str :=
  if (length data =? 32)%nat then Ok data else Err (External (lit "secp: malformed message")).

Definition sign_challenge (challenge : str) (secret_key : SecretKey) : result Signature :=
  message ← message_from_slice (sha256 challenge);
  ok_or (Kind Secp) (secp_sign message secret_key).

Definition verify_signature (challenge : str) (signature : Signature) (public_key : PublicKey) : result () :=
  message ← message_from_slice (sha256 challenge);
  if secp_verify message signature public_key then Ok () else fail Secp.

Lemma pk_check_text k version :
  pk_to_base58_check k version
  = Ok (base58_ref ((version ++ serialize_vec k) ++ checksum sha256 (version ++ serialize_vec k))).
Proof. apply to_base58_check_ref, sha256_length. Qed.

Lemma pk_base58_check_version k version expect s :
  length version = length expect -> (length version <= 95)%nat ->
  pk_to_base58_check k version = Ok s ->
  pk_of_base58_check s expect
  = if bool_decide (version = expect) then Ok k else fail InvalidBase58Version.
Proof.
  intros Hlen Hle E. unfold pk_of_base58_check. rewrite <- Hlen.
  rewrite (base58_check_roundtrip sha256 sha256_length (serialize_vec k) version s).
  - cbn [mbind outcome_bind]. rewrite pk_roundtrip.
    destruct (bool_decide_reflect (version = expect)); done.
  - rewrite serialize_length. unfold BIN_LEN. lia.
  - exact E.
Qed.

Lemma pk_hex_roundtrip k : pk_of_hex (pk_to_hex k) = Ok k.
Proof.
  unfold pk_of_hex, pk_to_hex, serialize_public_key.
  rewrite from_hex_to_hex, serialize_length. cbn. by rewrite pk_roundtrip.
Qed.

Lemma sk_hex_roundtrip k : sk_of_hex (sk_to_hex k) = Ok k.
Proof.
  unfold sk_of_hex, sk_to_hex. rewrite from_hex_to_hex, sk_length. cbn. by rewrite sk_roundtrip.
Qed.

Lemma sig_hex_roundtrip s : sig_of_hex (sig_to_hex s) = Ok s.
Proof.
  unfold sig_of_hex, sig_to_hex. rewrite from_hex_to_hex.
  pose proof (der_nonempty s) as Hne. pose proof (der_roundtrip s) as Hs.
  destruct (serialize_der s); [done|]. cbn. by rewrite Hs.
Qed.

(** What [sign_challenge] signs, [verify_signature] accepts. *)
Lemma sign_then_verify challenge a A s :
  public_key_from_secret_key a = Ok A -> sign_challenge challenge a = Ok s ->
  verify_signature challenge s A = Ok ().
Proof.
  unfold public_key_from_secret_key, sign_challenge, verify_signature, message_from_slice.
  rewrite sha256_length. cbn. destruct (from_secret_key a) eqn:Ha; [|done]. intros [= ->].
  destruct (secp_sign _ a) eqn:Hs; [|done]. intros [= ->].
  by rewrite (sign_verify _ _ _ _ Ha Hs).
Qed.
End keys.

(** ** A concrete instance

    Scalars are the non-zero residues modulo 257, a point is its discrete
    logarithm; the cipher appends a zero tag.  It satisfies every law. *)
Module Toy.
Definition pad (n : nat) (s : str) : str := take n (s ++ replicate n (chr 0)).

Definition mul (a b : ascii) : ascii := chr (((code a + 1) * (code b + 1)) mod 257 - 1).
Definition point_bytes (a : ascii) : str := chr 2 :: replicate 31 (chr 0) ++ [a].
Definition read_point (s : str) : option ascii :=
  if (length s =? 33)%nat then s !! 32%nat else None.

#[export] Instance lib : CryptoLib := {|
  sha256 := pad 32;
  PublicKey := ascii;
  SecretKey := ascii;
  Signature := str * ascii;
  serialize_vec := point_bytes;
  pk_from_slice := read_point;
  from_secret_key := Some;
  mul_assign A b := Some (mul A b);
  sk_bytes a := replicate 31 (chr 0) ++ [a];
  sk_from_slice s := s !! 31%nat;
  serialize_der s := s.2 :: s.1;
  from_der s := match s with a :: m => Some (m, a) | [] => None end;
  secp_sign m a := Some (m, a);
  secp_verify m s A := bool_decide (s = (m, A));
  pbkdf2 salt secret := pad 32 (salt ++ secret);
  tag_len := 16;
  seal_in_place key nonce in_out suffix_len := Some in_out;
  open_in_place key nonce in_out := Some (take (length in_out - 16) in_out);
|}.

Lemma pad_length n s : length (pad n s) = n.
Proof. unfold pad. rewrite length_take, length_app, length_replicate. lia. Qed.

#[export] Instance laws : CryptoLaws lib.
Proof.
  split; cbn; try done.
  - apply pad_length.
  - by intros [m a].
  - intros a A b B [= ->] [= ->]. unfold mul. do 2 f_equal. by rewrite Z.mul_comm.
  - intros a A msg s [= ->] [= <-]. by rewrite bool_decide_eq_true_2.
  - intros. apply pad_length.
  - intros key nonce msg c [= <-]. split; [by destruct msg|].
    rewrite length_app. cbn [length]. by rewrite Nat.add_sub, take_app_length.
Qed.
Definition toy_pk (z : Z) : PublicKey := chr z.
Definition toy_sk (z : Z) : SecretKey := chr z.
Definition toy_sig (m : str) (z : Z) : Signature := (m, chr z).
End Toy.

(** ** Properties *)

Import Toy.

(** [from_hex] on ASCII text.  An odd length is the error, the empty text
    (and a bare [0x], and text of odd length once trimmed) panics, and every
    other text is read two digits at a time. *)
Theorem from_hex_outcome s :
  Forall (λ c, is_ascii c = true) s ->
  from_hex s =
    if Nat.odd (length s) then fail NumberParsingError
    else if (length s =? 0)%nat then Panic
    else let t := hex_body s in
         if Nat.odd (length t) || (length t =? 0)%nat then Panic else hex_pairs t.
Proof. apply from_hex_ascii. Qed.

Lemma from_hex_outcome_witness :
  from_hex (lit "0xAf01") = Ok [chr 175; chr 1] /\ from_hex (lit "0x") = Panic /\ from_hex [] = Panic /\
  from_hex (lit "abz1") = fail NumberParsingError.
Proof.
  split_and!; rewrite from_hex_outcome by (repeat constructor); reflexivity.
Defined.

(** The hex and Base58Check texts of keys, secrets and signatures read
    back as the same value, and a key's text for another version of the same
    length is refused with [InvalidBase58Version]. *)
Theorem key_texts_roundtrip {L : CryptoLib} {Laws : CryptoLaws L} (k : PublicKey) (a : SecretKey) (s : Signature)
    (version expect : str) :
  length version = length expect -> (length version <= 95)%nat ->
  pk_of_hex (pk_to_hex k) = Ok k /\ sk_of_hex (sk_to_hex a) = Ok a /\ sig_of_hex (sig_to_hex s) = Ok s /\
  exists text, pk_to_base58_check k version = Ok text /\
    pk_of_base58_check text expect = if bool_decide (version = expect) then Ok k else fail InvalidBase58Version.
Proof.
  intros Hlen Hle. split_and!; [apply pk_hex_roundtrip | apply sk_hex_roundtrip | apply sig_hex_roundtrip|].
  eexists. split; [apply pk_check_text|]. apply pk_base58_check_version; [done..|]. apply pk_check_text.
Qed.

Lemma key_texts_roundtrip_witness :
  exists text, pk_to_base58_check (toy_pk 7) GRINBOX_ADDRESS_VERSION_MAINNET = Ok text /\
    pk_of_base58_check text GRINBOX_ADDRESS_VERSION_TESTNET = fail InvalidBase58Version.
Proof.
  destruct (key_texts_roundtrip (toy_pk 7) (toy_sk 9) (toy_sig [] 1)
    GRINBOX_ADDRESS_VERSION_MAINNET GRINBOX_ADDRESS_VERSION_TESTNET) as (_ & _ & _ & H).
  - reflexivity.
  - vm_compute. lia.
  - exact H.
Defined.

(** A challenge signed with a secret key verifies under its public key. *)
Theorem sign_verify_challenge {L : CryptoLib} {Laws : CryptoLaws L} challenge a A s :
  public_key_from_secret_key a = Ok A -> sign_challenge challenge a = Ok s ->
  verify_signature challenge s A = Ok ().
Proof. apply sign_then_verify. Qed.

Lemma sign_verify_challenge_witness :
  exists s, sign_challenge (lit "1569") (toy_sk 5) = Ok s /\
            verify_signature (lit "1569") s (toy_pk 5) = Ok ().
Proof.
  eexists. split; [reflexivity|].
  apply (sign_verify_challenge (lit "1569") (toy_sk 5)); reflexivity.
Defined.
