(* ===== verification/Address.v ===== *)
(** * Addresses

    [contacts/types.rs] 12-62 and 153-356: the four kinds of address, their
    textual forms and [Address::parse].  The patterns are the source's regular
    expressions; that [captures] finds exactly their matches is the law of
    [Regex.RegexEngine]. *)

From S2P Require Import Prelude Str Errors Regex Digits Base58 Crypto.
Local Open Scope Z_scope.

(** ** The patterns *)

Definition base58_class (c : ascii) : bool := mem c ALPHABET.
Definition alnum (c : ascii) : bool := is_lower c || is_upper c || is_digit c.
Definition domain_class (c : ascii) : bool := alnum c || Ascii.eqb c ".".
Definition username_class (c : ascii) : bool := alnum c || Ascii.eqb c "_".
Definition topic_class (c : ascii) : bool := alnum c || Ascii.eqb c "_" || Ascii.eqb c "-".
(** [.]: anything but a line feed.  On UTF-8 text the bytes of a longer
    character are all in the class. *)
Definition dot (c : ascii) : bool := negb (Ascii.eqb c (chr 10)).

Definition ADDRESS_REGEX : re :=
  RSeq (RCap (lit "address_type")
         (RAlt (RLit (lit "keybase")) (RAlt (RLit (lit "mwcmq")) (RAlt (RLit (lit "mwcmqs"))
         (RAlt (RLit (lit "https")) (RLit (lit "http")))))))
  (RSeq (RLit (lit "://")) (RPlus (RChr dot))).

(** The two message-queue patterns differ in the scheme only. *)
Definition mq_regex (scheme : str) : re :=
  RSeq (ROpt (RLit scheme))
  (RSeq (RCap (lit "public_key") (RTimes 52 (RChr base58_class)))
  (ROpt (RSeq (RLit (lit "@"))
        (RSeq (RCap (lit "domain") (RPlus (RChr domain_class)))
        (ROpt (RSeq (RLit (lit ":")) (RCap (lit "port") (RStar (RChr is_digit))))))))).
Definition GRINBOX_ADDRESS_REGEX : re := mq_regex (lit "mwcmq://").
Definition MWCMQ_ADDRESS_REGEX : re := mq_regex (lit "mwcmqs://").

Definition KEYBASE_ADDRESS_REGEX : re :=
  RSeq (ROpt (RLit (lit "keybase://")))
  (RSeq (RCap (lit "username") (RBetween 1 15 (RChr username_class)))
  (ROpt (RSeq (RLit (lit ":")) (RCap (lit "topic") (RPlus (RChr topic_class)))))).

Definition DEFAULT_GRINBOX_DOMAIN : str := lit "mq.mwc.mw".
Definition DEFAULT_MWCMQS_DOMAIN : str := lit "mqs.mwc.mw".
Definition DEFAULT_MWCMQS_PORT : Z := 443.

(** ** What the build and the [url] crate fix *)

Class Platform : Type := {
  windows : bool;                 (* [cfg(windows)] *)
  is_mainnet : bool;              (* [grin_core::global::is_mainnet()] *)
  url_parse_ok : str -> bool;     (* [Url::parse(s).is_ok()] *)
}.

Definition DEFAULT_GRINBOX_PORT `{Platform} : Z := if windows then 80 else 443.

(** ** The addresses *)

Inductive AddressType : Type := Grinbox | MWCMQS | Keybase | Https.

Record KeybaseAddress : Type := { username : str; topic : option str }.

(** [GrinboxAddress] and [MWCMQSAddress] have the same fields. *)
Record MqAddress : Type := { public_key_text : str; domain : str; port : option Z }.
Definition GrinboxAddress : Type := MqAddress.
Definition MWCMQSAddress : Type := MqAddress.

Record HttpsAddress : Type := { uri : str }.

(** [Box<dyn Address>]. *)
Inductive Address : Type :=
| AKeybase (a : KeybaseAddress)
| AMWCMQS (a : MWCMQSAddress)
| AGrinbox (a : GrinboxAddress)
| AHttps (a : HttpsAddress).

#[export] Instance MqAddress_eq_dec : EqDecision MqAddress.
Proof. solve_decision. Defined.
#[export] Instance KeybaseAddress_eq_dec : EqDecision KeybaseAddress.
Proof. solve_decision. Defined.
#[export] Instance HttpsAddress_eq_dec : EqDecision HttpsAddress.
Proof. solve_decision. Defined.
#[export] Instance GrinboxAddress_eq_dec : EqDecision GrinboxAddress := MqAddress_eq_dec.
#[export] Instance Address_eq_dec : EqDecision Address.
Proof. unfold MWCMQSAddress, GrinboxAddress. solve_decision. Defined.

Section address.
Context {L : CryptoLib} {R : RegexEngine} {P : Platform}.

Definition version_bytes : str :=
  if is_mainnet then GRINBOX_ADDRESS_VERSION_MAINNET else GRINBOX_ADDRESS_VERSION_TESTNET.

(** *** Message-queue addresses *)

(** [new]; the default domain differs. *)
Definition mq_new (default_domain : str) (public_key : PublicKey) (domain : option str) (port : option Z) :
    result MqAddress :=
  text ← pk_to_base58_check public_key version_bytes;
  Ok {| public_key_text := text; domain := default default_domain domain; port := port |}.

Definition mq_public_key (self : MqAddress) : result PublicKey :=
  pk_of_base58_check (public_key_text self) version_bytes.

(** [u16::from_str_radix(m.as_str(), 10).unwrap()] on the group, if it matched. *)
Definition parse_port (m : option str) : result (option Z) :=
  match m with
  | Some text => Some <$> unwrap (from_str_radix 16 10 text)
  | None => Ok None
  end.

Definition mq_from_str (regex : re) (default_domain s : str) : result MqAddress :=
  match captures regex s with
  | None => fail (GrinboxAddressParsingError s)
  | Some k =>
      public_key ← unwrap (group (lit "public_key") k);
      let domain := group (lit "domain") k in
      port ← parse_port (group (lit "port") k);
      public_key ← pk_of_base58_check public_key version_bytes;
      mq_new default_domain public_key domain port
  end.

(** [fmt]: both types compare the port with [DEFAULT_GRINBOX_PORT]. *)
Definition mq_display (scheme default_domain : str) (self : MqAddress) : str :=
  let explicit_port :=
    match port self with Some p => negb (p =? DEFAULT_GRINBOX_PORT) | None => false end in
  scheme ++ public_key_text self ++
  if negb (bool_decide (domain self = default_domain)) || explicit_port then
    lit "@" ++ domain self ++
    match port self with
    | Some p => if explicit_port then lit ":" ++ to_dec p else []
    | None => []
    end
  else [].

Definition GrinboxAddress_new : PublicKey -> option str -> option Z -> result GrinboxAddress :=
  mq_new DEFAULT_GRINBOX_DOMAIN.
Definition GrinboxAddress_from_str (s : str) : result GrinboxAddress :=
  mq_from_str GRINBOX_ADDRESS_REGEX DEFAULT_GRINBOX_DOMAIN s.
Definition GrinboxAddress_public_key (self : GrinboxAddress) : result PublicKey := mq_public_key self.
Definition GrinboxAddress_display (self : GrinboxAddress) : str :=
  mq_display (lit "mwcmq://") DEFAULT_GRINBOX_DOMAIN self.
Definition GrinboxAddress_stripped (self : GrinboxAddress) : result str :=
  slice_from (GrinboxAddress_display self) 8.

Definition MWCMQSAddress_new : PublicKey -> option str -> option Z -> result MWCMQSAddress :=
  mq_new DEFAULT_MWCMQS_DOMAIN.
Definition MWCMQSAddress_from_str (s : str) : result MWCMQSAddress :=
  mq_from_str MWCMQ_ADDRESS_REGEX DEFAULT_MWCMQS_DOMAIN s.
Definition MWCMQSAddress_public_key (self : MWCMQSAddress) : result PublicKey := mq_public_key self.
Definition MWCMQSAddress_display (self : MWCMQSAddress) : str :=
  mq_display (lit "mwcmqs://") DEFAULT_MWCMQS_DOMAIN self.
Definition MWCMQSAddress_stripped (self : MWCMQSAddress) : result str :=
  slice_from (MWCMQSAddress_display self) 9.

(** *** Keybase and https *)

Definition KeybaseAddress_from_str (s : str) : result KeybaseAddress :=
  match captures KEYBASE_ADDRESS_REGEX s with
  | None => fail (KeybaseAddressParsingError s)
  | Some k =>
      username ← unwrap (group (lit "username") k);
      let topic := group (lit "topic") k in
      Ok {| username := username; topic := topic |}
  end.
Definition KeybaseAddress_stripped (self : KeybaseAddress) : str := username self.
Definition KeybaseAddress_display (self : KeybaseAddress) : str :=
  lit "keybase://" ++ username self ++
  match topic self with Some topic => lit ":" ++ topic | None => [] end.

Definition HttpsAddress_from_str (s : str) : result HttpsAddress :=
  if url_parse_ok s then Ok {| uri := s |} else fail (HttpsAddressParsingError s).
Definition HttpsAddress_stripped (self : HttpsAddress) : str := uri self.
Definition HttpsAddress_display (self : HttpsAddress) : str := uri self.

(** *** The trait object *)

Definition address_type (a : Address) : AddressType :=
  match a with
  | AKeybase _ => Keybase | AMWCMQS _ => MWCMQS | AGrinbox _ => Grinbox | AHttps _ => Https
  end.

Definition Address_display (a : Address) : str :=
  match a with
  | AKeybase a => KeybaseAddress_display a
  | AMWCMQS a => MWCMQSAddress_display a
  | AGrinbox a => GrinboxAddress_display a
  | AHttps a => HttpsAddress_display a
  end.

Definition Address_stripped (a : Address) : result str :=
  match a with
  | AKeybase a => Ok (KeybaseAddress_stripped a)
  | AMWCMQS a => MWCMQSAddress_stripped a
  | AGrinbox a => GrinboxAddress_stripped a
  | AHttps a => Ok (HttpsAddress_stripped a)
  end.

Definition Address_parse (address : str) : result Address :=
  match captures ADDRESS_REGEX address with
  | None => AMWCMQS <$> MWCMQSAddress_from_str address
  | Some k =>
      address_type ← unwrap (group (lit "address_type") k);
      if bool_decide (address_type = lit "keybase") then AKeybase <$> KeybaseAddress_from_str address
      else if bool_decide (address_type = lit "mwcmqs") then AMWCMQS <$> MWCMQSAddress_from_str address
      else if bool_decide (address_type = lit "mwcmq") then AGrinbox <$> GrinboxAddress_from_str address
      else if bool_decide (address_type = lit "https") then AHttps <$> HttpsAddress_from_str address
      else if bool_decide (address_type = lit "http") then AHttps <$> HttpsAddress_from_str address
      else fail (UnknownAddressType address_type)
  end.
End address.

(** ** Matches of the message-queue patterns *)

(** What may follow the key: [@domain] and then [:port]. *)
Abbreviation mq_tail := (option (str * option str)).

Definition tail_text (t : mq_tail) : str :=
  match t with
  | None => []
  | Some (d, None) => lit "@" ++ d
  | Some (d, Some p) => lit "@" ++ d ++ lit ":" ++ p
  end.
Definition tail_domain (t : mq_tail) : option str := fst <$> t.
Definition tail_port (t : mq_tail) : option str := t ≫= snd.
Definition tail_caps (t : mq_tail) : captures_t :=
  match t with
  | None => []
  | Some (d, None) => [(lit "domain", d)]
  | Some (d, Some p) => [(lit "domain", d); (lit "port", p)]
  end.
Definition tail_ok (t : mq_tail) : Prop :=
  match t with
  | None => True
  | Some (d, p) => d <> [] /\ all domain_class d /\ match p with Some p => all is_digit p | None => True end
  end.

Definition key_ok (pk : str) : Prop := length pk = 52%nat /\ all base58_class pk.

Lemma domain_class_spec c : domain_class c = true -> c <> ":"%char /\ c <> "@"%char.
Proof. destruct c as [[] [] [] [] [] [] [] []]; vm_compute; intros; split; congruence. Qed.
Lemma base58_class_spec c : base58_class c = true -> c <> ":"%char /\ c <> "@"%char.
Proof. destruct c as [[] [] [] [] [] [] [] []]; vm_compute; intros; split; congruence. Qed.

Lemma all_not_in p s c : all p s -> p c = false -> c ∉ s.
Proof. intros Hs Hc Hin. eapply Forall_forall in Hs; [|done]. cbn in Hs. congruence. Qed.

Lemma tail_match t k :
  rmatch (ROpt (RSeq (RLit (lit "@"))
        (RSeq (RCap (lit "domain") (RPlus (RChr domain_class)))
        (ROpt (RSeq (RLit (lit ":")) (RCap (lit "port") (RStar (RChr is_digit)))))))) t k <->
  exists d, t = tail_text d /\ k = tail_caps d /\ tail_ok d.
Proof.
  rewrite rmatch_opt_inv, rmatch_seq_inv. split.
  - intros [(s1 & s2 & k1 & k2 & -> & -> & [-> ->]%rmatch_lit_inv & H)|[-> ->]]; [|by exists None].
    apply rmatch_seq_inv in H as (d & s3 & k1 & k3 & -> & -> & (k' & -> & (Hne & Hd & ->)%rmatch_plus_inv)%rmatch_cap_inv & H).
    apply rmatch_opt_inv in H as [H|[-> ->]].
    + apply rmatch_seq_inv in H as (s4 & p & k4 & k5 & -> & -> & [-> ->]%rmatch_lit_inv & (k' & -> & (Hp & ->)%rmatch_star_inv)%rmatch_cap_inv).
      by exists (Some (d, Some p)).
    + exists (Some (d, None)). rewrite app_nil_r. done.
  - intros ([[d [p|]]|] & -> & -> & Hok); [left..|by right].
    + destruct Hok as (Hne & Hd & Hp).
      exists (lit "@"), (d ++ lit ":" ++ p), [], [(lit "domain", d); (lit "port", p)].
      split_and!; [done..|by apply rmatch_lit_inv|]. apply rmatch_seq_inv.
      exists d, (lit ":" ++ p), [(lit "domain", d)], [(lit "port", p)]. split_and!; [done..| |].
      * apply rmatch_cap_inv. eexists; split; [done|]. by apply rmatch_plus_inv.
      * apply rmatch_opt_inv. left. apply rmatch_seq_inv. exists (lit ":"), p, [], [(lit "port", p)].
        split_and!; [done..|by apply rmatch_lit_inv|]. apply rmatch_cap_inv. eexists; split; [done|].
        by apply rmatch_star_inv.
    + destruct Hok as (Hne & Hd & _).
      exists (lit "@"), d, [], [(lit "domain", d)]. split_and!; [done..|by apply rmatch_lit_inv|].
      apply rmatch_seq_inv. exists d, [], [(lit "domain", d)], []. rewrite !app_nil_r.
      split_and!; [done..| |apply rmatch_opt_inv; by right].
      apply rmatch_cap_inv. eexists; split; [done|]. by apply rmatch_plus_inv.
Qed.

Lemma mq_match scheme s k :
  rmatch (mq_regex scheme) s k <->
  exists pre pk t, (pre = scheme \/ pre = []) /\ key_ok pk /\ tail_ok t /\
    s = pre ++ pk ++ tail_text t /\ k = (lit "public_key", pk) :: tail_caps t.
Proof.
  unfold mq_regex. rewrite rmatch_seq_inv. split.
  - intros (pre & s2 & k1 & k2 & -> & -> & H1 & H2).
    apply rmatch_seq_inv in H2 as (pk & s3 & k3 & k4 & -> & -> & (k' & -> & (Hl & Hb & ->)%rmatch_times_inv)%rmatch_cap_inv & H2).
    apply tail_match in H2 as (t & -> & -> & Ht).
    exists pre, pk, t. rewrite rmatch_opt_inv, rmatch_lit_inv in H1.
    destruct H1 as [[-> ->]|[-> ->]]; split_and!; auto; done.
  - intros (pre & pk & t & Hpre & [Hl Hb] & Ht & -> & ->).
    exists pre, (pk ++ tail_text t), [], ((lit "public_key", pk) :: tail_caps t).
    split_and!; [done..| |].
    + rewrite rmatch_opt_inv, rmatch_lit_inv. destruct Hpre as [->| ->]; auto.
    + apply rmatch_seq_inv. exists pk, (tail_text t), [(lit "public_key", pk)], (tail_caps t).
      split_and!; [done..| |apply tail_match; eauto].
      apply rmatch_cap_inv. eexists; split; [done|]. by apply rmatch_times_inv.
Qed.

(** A text before the first [c] is unique. *)
Lemma app_sep_inj {A} (c : A) s1 s2 t1 t2 :
  c ∉ s1 -> c ∉ s2 -> s1 ++ c :: t1 = s2 ++ c :: t2 -> s1 = s2 /\ t1 = t2.
Proof.
  revert s2. induction s1 as [|a s1 IH]; intros [|b s2] H1 H2 E; cbn in E; simplify_eq; try done.
  - set_solver.
  - set_solver.
  - rewrite not_elem_of_cons in H1, H2. destruct (IH s2) as [-> ->]; tauto.
Qed.

Lemma tail_text_inj t t' : tail_ok t -> tail_ok t' -> tail_text t = tail_text t' -> t = t'.
Proof.
  assert (forall d, all domain_class d -> ":"%char ∉ d) as Hcolon
    by (intros d Hd; by apply (all_not_in domain_class)).
  destruct t as [[d [p|]]|], t' as [[d' [p'|]]|]; cbn; intros H H' E; try done; injection E as E;
    destruct H as (_ & Hd & _) || idtac; destruct H' as (_ & Hd' & _) || idtac.
  - apply app_sep_inj in E as [-> ->]; auto.
  - exfalso. apply (Hcolon _ Hd'). rewrite <- E. set_solver.
  - exfalso. apply (Hcolon _ Hd). rewrite E. set_solver.
  - by subst.
Qed.

(** The schemes end in [://], so no key starts with one. *)
Definition scheme_ok (scheme : str) : Prop := exists w, scheme = w ++ lit "://" /\ (length scheme <= 52)%nat.

Lemma mq_match_unique scheme pre pk t pre' pk' t' :
  scheme_ok scheme -> pre = scheme \/ pre = [] -> pre' = scheme \/ pre' = [] ->
  key_ok pk -> key_ok pk' -> tail_ok t -> tail_ok t' ->
  pre ++ pk ++ tail_text t = pre' ++ pk' ++ tail_text t' -> pk = pk' /\ t = t'.
Proof.
  intros (w & Hw & Hlen) Hpre Hpre' [Hl Hb] [Hl' Hb'] Ht Ht' E.
  assert (forall pk pk' r r', length pk = 52%nat -> all base58_class pk -> scheme ++ pk' ++ r' = pk ++ r -> False) as Hno.
  { clear -Hw Hlen. intros pk pk' r r' Hl Hb E.
    apply (f_equal (take (length scheme))) in E. rewrite take_app_length, take_app_le in E by lia.
    apply (all_not_in _ _ ":" Hb); [done|]. rewrite <- (take_drop (length scheme) pk), <- E, Hw.
    set_solver. }
  destruct Hpre as [-> | ->], Hpre' as [-> | ->].
  2: by destruct (Hno pk' pk (tail_text t') (tail_text t) Hl' Hb' E).
  2: by destruct (Hno pk pk' (tail_text t) (tail_text t') Hl Hb (eq_sym E)).
  1: apply app_inv_head in E.
  all: destruct (app_inj_1 pk pk' _ _ ltac:(congruence) E) as [-> E'];
    split; [done | by apply tail_text_inj].
Qed.

Lemma tail_group_domain pk t : group (lit "domain") ((lit "public_key", pk) :: tail_caps t) = tail_domain t.
Proof. by destruct t as [[d [p|]]|]. Qed.
Lemma tail_group_port pk t : group (lit "port") ((lit "public_key", pk) :: tail_caps t) = tail_port t.
Proof. by destruct t as [[d [p|]]|]. Qed.

Section from_str.
Context {L : CryptoLib} {Laws : CryptoLaws L} {R : RegexEngine} {RL : RegexLaws R} {P : Platform}.

Lemma mq_captures scheme pre pk t :
  scheme_ok scheme -> pre = scheme \/ pre = [] -> key_ok pk -> tail_ok t ->
  captures (mq_regex scheme) (pre ++ pk ++ tail_text t) = Some ((lit "public_key", pk) :: tail_caps t).
Proof.
  intros Hs Hpre Hpk Ht. apply captures_unique.
  - apply mq_match. eauto 10.
  - intros k' (pre' & pk' & t' & Hpre' & Hpk' & Ht' & E & ->)%mq_match.
    by destruct (mq_match_unique scheme pre pk t pre' pk' t') as [-> ->].
Qed.

(** What the parser does with a text of the right form ... *)
Lemma mq_from_str_matched scheme dd pre pk t :
  scheme_ok scheme -> pre = scheme \/ pre = [] -> key_ok pk -> tail_ok t ->
  mq_from_str (mq_regex scheme) dd (pre ++ pk ++ tail_text t) =
    (port ← parse_port (tail_port t);
     k ← pk_of_base58_check pk version_bytes;
     mq_new dd k (tail_domain t) port).
Proof.
  intros. unfold mq_from_str. rewrite mq_captures by done.
  change (group (lit "public_key") _) with (Some pk). cbn [unwrap mbind outcome_bind].
  by rewrite tail_group_domain, tail_group_port.
Qed.

(** ... and with any other text. *)
Lemma mq_from_str_other scheme dd s :
  (forall pre pk t, pre = scheme \/ pre = [] -> key_ok pk -> tail_ok t -> s <> pre ++ pk ++ tail_text t) ->
  mq_from_str (mq_regex scheme) dd s = fail (GrinboxAddressParsingError s).
Proof.
  intros Hno. unfold mq_from_str. rewrite captures_none; [done|].
  intros k (pre & pk & t & Hpre & Hpk & Ht & -> & _)%mq_match. by apply (Hno pre pk t).
Qed.
End from_str.

(** ** Keys as text

    The text of a key has 52 characters: 39 bytes that start with the version,
    between [58^51] and [58^52]. *)

Lemma enc_in_alphabet d : digit_ok 58 d -> base58_class (enc d) = true.
Proof.
  intros Hd. apply mem_elem_of. unfold enc.
  destruct (lookup_lt_is_Some_2 ALPHABET (Z.to_nat d)) as [c Hc].
  { unfold digit_ok in Hd. change (length ALPHABET) with 58%nat. lia. }
  rewrite Hc. cbn. by apply list_elem_of_lookup_2 in Hc.
Qed.

Lemma canonical_digits_length b n ds :
  2 <= b -> Forall (digit_ok b) ds -> canonical ds ->
  b ^ Z.of_nat n <= of_digits b ds < b ^ Z.of_nat (S n) -> length ds = S n.
Proof.
  intros Hb Hok Hc [Hlo Hhi]. pose proof (of_digits_bound b Hb ds Hok) as [_ Hub].
  destruct ds as [|d ds]; [pose proof (pow_pos b Hb n); change (of_digits b []) with 0 in Hlo; lia|].
  assert (d <> 0) as Hd by (intros ->; discriminate Hc).
  pose proof (of_digits_lower b Hb d ds Hok Hd) as Hl. cbn [length] in *.
  destruct (Nat.lt_trichotomy (S (length ds)) (S n)) as [H|[H|H]]; [|done|]; exfalso.
  - assert (b ^ Z.of_nat (S (length ds)) <= b ^ Z.of_nat n) by (apply Z.pow_le_mono_r; lia). lia.
  - assert (b ^ Z.of_nat (S n) <= b ^ Z.of_nat (length ds)) by (apply Z.pow_le_mono_r; lia). lia.
Qed.

Lemma base58_39_bytes v0 v1 rest :
  v0 = 1 -> 0 <= v1 <= 121 -> length rest = 37%nat ->
  key_ok (base58_ref (chr v0 :: chr v1 :: rest)).
Proof.
  intros -> Hv Hlen. destruct (base58_ref_digits (chr 1 :: chr v1 :: rest)) as (_ & Hok & Hc & Hval).
  unfold base58_ref. cbn [fmap list_fmap] in *. rewrite !code_chr in * by lia.
  set (v := of_digits 256 _) in *. change (leading_zeros (1 :: v1 :: _)) with 0%nat. cbn [replicate app].
  assert (58 ^ Z.of_nat 51 <= v < 58 ^ Z.of_nat 52) as Hv2.
  { unfold v. rewrite !of_digits_cons. cbn [length]. rewrite length_fmap, Hlen.
    pose proof (of_digits_bound 256 ltac:(lia) _ (code_digit_ok rest)) as Hr. rewrite length_fmap, Hlen in Hr.
    assert (58 ^ Z.of_nat 51 <= 1 * 256 ^ Z.of_nat 38 /\ 256 ^ Z.of_nat 38 + 122 * 256 ^ Z.of_nat 37 <= 58 ^ Z.of_nat 52) as [H1 H2]
      by (vm_compute; split; discriminate). nia. }
  split.
  - rewrite length_fmap. apply (canonical_digits_length 58 51); [lia | done | done|]. by rewrite Hval.
  - apply Forall_fmap. apply (Forall_impl _ _ _ Hok). intros d. apply enc_in_alphabet.
Qed.

Section keys.
Context {L : CryptoLib} {Laws : CryptoLaws L} {R : RegexEngine} {RL : RegexLaws R} {P : Platform}.

Definition key_text (k : PublicKey) : str :=
  base58_ref ((version_bytes ++ serialize_vec k) ++ checksum sha256 (version_bytes ++ serialize_vec k)).

Lemma key_text_spec k : pk_to_base58_check k version_bytes = Ok (key_text k).
Proof. apply pk_check_text. Qed.

Lemma key_text_ok k : key_ok (key_text k).
Proof.
  pose proof (serialize_length k) as Hs.
  assert (exists v1 rest, (version_bytes ++ serialize_vec k) ++ checksum sha256 (version_bytes ++ serialize_vec k)
            = chr 1 :: chr v1 :: rest /\ 0 <= v1 <= 121 /\ length rest = 37%nat) as (v1 & rest & E & Hv & Hl).
  { pose proof (checksum_length sha256 sha256_length (version_bytes ++ serialize_vec k)) as Hc.
    unfold version_bytes, GRINBOX_ADDRESS_VERSION_MAINNET, GRINBOX_ADDRESS_VERSION_TESTNET in *.
    destruct is_mainnet; cbn [fmap list_fmap app] in *; do 2 eexists;
      (split; [reflexivity | split; [lia|]]); rewrite length_app, Hc, Hs; done. }
  unfold key_text. rewrite E. by apply base58_39_bytes.
Qed.

Lemma key_text_parse k : pk_of_base58_check (key_text k) version_bytes = Ok k.
Proof.
  rewrite (pk_base58_check_version k version_bytes version_bytes); [|done| |apply key_text_spec].
  - by rewrite bool_decide_eq_true_2.
  - unfold version_bytes. destruct is_mainnet; cbn; lia.
Qed.
End keys.

(** ** Round trips *)

Definition domain_ok (d : str) : Prop := d <> [] /\ all domain_class d.
Definition port_ok (p : option Z) : Prop := match p with Some p => 0 <= p < 2 ^ 16 | None => True end.

Section roundtrip.
Context {L : CryptoLib} {Laws : CryptoLaws L} {R : RegexEngine} {RL : RegexLaws R} {P : Platform}.

(** The invariant of message-queue addresses. *)
Definition mq_wf (a : MqAddress) : Prop :=
  (exists k, public_key_text a = key_text k) /\ domain_ok (domain a) /\ port_ok (port a).

(** Printing drops a port equal to the Grinbox default. *)
Definition normalise (a : MqAddress) : MqAddress :=
  {| public_key_text := public_key_text a; domain := domain a;
     port := match port a with Some p => if p =? DEFAULT_GRINBOX_PORT then None else Some p | None => None end |}.

Definition display_tail (dd : str) (a : MqAddress) : mq_tail :=
  match port (normalise a) with
  | Some p => Some (domain a, Some (to_dec p))
  | None => if bool_decide (domain a = dd) then None else Some (domain a, None)
  end.

Lemma mq_display_tail scheme dd a :
  mq_display scheme dd a = scheme ++ public_key_text a ++ tail_text (display_tail dd a).
Proof.
  unfold mq_display, display_tail, normalise. cbn [port]. do 2 f_equal.
  destruct (port a) as [p|]; [destruct (p =? DEFAULT_GRINBOX_PORT)|];
    destruct (bool_decide_reflect (domain a = dd)); cbn [negb orb tail_text]; rewrite ?app_nil_r; done.
Qed.

Lemma display_tail_ok dd a : mq_wf a -> tail_ok (display_tail dd a).
Proof.
  intros (_ & [Hne Hd] & Hp). unfold display_tail, normalise. cbn [port].
  destruct (port a) as [p|]; [destruct (p =? DEFAULT_GRINBOX_PORT)|];
    try (destruct (bool_decide _); done).
  split_and!; [done..|]. apply to_dec_is_digit. cbn in Hp. lia.
Qed.

Lemma parse_port_to_dec p : 0 <= p < 2 ^ 16 -> parse_port (Some (to_dec p)) = Ok (Some p).
Proof. intros Hp. unfold parse_port. by rewrite from_str_radix_to_dec. Qed.

Lemma mq_roundtrip scheme dd pre a :
  scheme_ok scheme -> pre = scheme \/ pre = [] -> mq_wf a ->
  mq_from_str (mq_regex scheme) dd (pre ++ public_key_text a ++ tail_text (display_tail dd a))
  = Ok (normalise a).
Proof.
  intros Hs Hpre Hwf. pose proof (display_tail_ok dd a Hwf) as Ht.
  destruct Hwf as ([k Hk] & Hd & Hp). rewrite Hk.
  rewrite mq_from_str_matched by (auto using key_text_ok).
  assert (forall d port, (k ← pk_of_base58_check (key_text k) version_bytes; mq_new dd k d port)
            = Ok {| public_key_text := key_text k; domain := default dd d; port := port |}) as Hnew.
  { intros d port. rewrite key_text_parse. cbn [mbind outcome_bind]. unfold mq_new.
    by rewrite key_text_spec. }
  unfold display_tail, normalise. cbn [port]. rewrite Hk.
  destruct (port a) as [p|]; [destruct (Z.eqb_spec p DEFAULT_GRINBOX_PORT)|].
  2: { unfold tail_port, tail_domain. cbn [mbind option_bind snd fmap option_fmap option_map fst].
       rewrite parse_port_to_dec by done. apply Hnew. }
  all: destruct (bool_decide_reflect (domain a = dd)) as [<-|]; apply Hnew.
Qed.

(** Any text of the right form that holds the text of a key. *)
Lemma mq_from_key_text scheme dd pre k t p :
  scheme_ok scheme -> pre = scheme \/ pre = [] -> tail_ok t -> parse_port (tail_port t) = Ok p ->
  mq_from_str (mq_regex scheme) dd (pre ++ key_text k ++ tail_text t) =
    Ok {| public_key_text := key_text k; domain := default dd (tail_domain t); port := p |}.
Proof.
  intros Hs Hpre Ht Hp. rewrite mq_from_str_matched by (auto using key_text_ok). rewrite Hp. cbn [mbind outcome_bind].
  rewrite key_text_parse. cbn [mbind outcome_bind]. unfold mq_new. by rewrite key_text_spec.
Qed.

(** The form of an accepted text. *)
Lemma mq_from_str_inv scheme dd s a :
  mq_from_str (mq_regex scheme) dd s = Ok a ->
  exists pre pk t k, (pre = scheme \/ pre = []) /\ key_ok pk /\ s = pre ++ pk ++ tail_text t /\
    pk_of_base58_check pk version_bytes = Ok k /\ public_key_text a = key_text k.
Proof.
  unfold mq_from_str. destruct (captures _ s) as [c|] eqn:E; [|done].
  apply captures_sound, mq_match in E as (pre & pk & t & Hpre & Hpk & Ht & -> & ->).
  change (group (lit "public_key") _) with (Some pk). cbn [unwrap mbind outcome_bind].
  intros (p & _ & (k & Hk & H)%bind_Ok)%bind_Ok. unfold mq_new in H. rewrite key_text_spec in H. injection H as <-.
  exists pre, pk, t, k. done.
Qed.

(** A text that both message-queue parsers accept has one key. *)
Lemma mq_same_key dd dd' s a g :
  mq_from_str (mq_regex (lit "mwcmqs://")) dd s = Ok a -> mq_from_str (mq_regex (lit "mwcmq://")) dd' s = Ok g ->
  exists k, public_key_text a = key_text k /\ public_key_text g = key_text k.
Proof.
  intros (pre & pk & t & k & Hpre & [Hl Hb] & -> & Hk & Ha)%mq_from_str_inv
    (pre' & pk' & t' & k' & Hpre' & [Hl' Hb'] & E & Hk' & Hg)%mq_from_str_inv.
  assert (forall i (p r : str) c, length p = 52%nat -> all base58_class p -> (i < 52)%nat -> (p ++ r) !! i = Some c -> base58_class c = true) as Hat.
  { intros i p r c Hlp Hp Hi Hc. rewrite lookup_app_l in Hc by lia. eapply Forall_lookup in Hp; [|exact Hc]. done. }
  destruct Hpre as [-> | ->], Hpre' as [-> | ->].
  - apply (f_equal (fun s => s !! 5%nat)) in E. discriminate E.
  - cbn [app] in E. pose proof (Hat 6%nat pk' (tail_text t') ":"%char Hl' Hb' ltac:(lia)) as H. rewrite <- E in H. by discriminate H.
  - cbn [app] in E. pose proof (Hat 5%nat pk (tail_text t) ":"%char Hl Hb ltac:(lia)) as H. rewrite E in H. by discriminate H.
  - cbn [app] in E. destruct (app_inj_1 pk pk' _ _ ltac:(congruence) E) as [-> _]. exists k. rewrite Hk in Hk'. by injection Hk' as <-.
Qed.

Lemma mq_from_str_wf scheme dd s a :
  domain_ok dd -> mq_from_str (mq_regex scheme) dd s = Ok a -> mq_wf a.
Proof.
  intros Hdd. unfold mq_from_str. destruct (captures _ s) as [c|] eqn:E; [|done].
  apply captures_sound, mq_match in E as (pre & pk & t & _ & _ & Ht & _ & ->).
  change (group (lit "public_key") _) with (Some pk). cbn [unwrap mbind outcome_bind].
  rewrite tail_group_domain. intros (port0 & Hport & (k & _ & H)%bind_Ok)%bind_Ok.
  unfold mq_new in H. rewrite key_text_spec in H. injection H as <-.
  split_and!; cbn [public_key_text domain port]; [eauto| |].
  - destruct t as [[d p]|]; [|done]. destruct Ht as (Hne & Hd & _). done.
  - unfold parse_port in Hport. destruct (group _ _) as [txt|]; [|by injection Hport as <-].
    destruct (from_str_radix 16 10 txt) as [p|] eqn:Hp; [|done]. injection Hport as <-.
    apply from_str_radix_range in Hp; [done | lia | lia].
Qed.
End roundtrip.

(** ** Keybase addresses *)

Definition username_ok (u : str) : Prop := (1 <= length u <= 16)%nat /\ all username_class u.
Definition topic_ok (t : option str) : Prop :=
  match t with Some t => t <> [] /\ all topic_class t | None => True end.
Definition topic_text (t : option str) : str := match t with Some t => lit ":" ++ t | None => [] end.
Definition topic_caps (t : option str) : captures_t := match t with Some t => [(lit "topic", t)] | None => [] end.

Lemma keybase_match s k :
  rmatch KEYBASE_ADDRESS_REGEX s k <->
  exists pre u t, (pre = lit "keybase://" \/ pre = []) /\ username_ok u /\ topic_ok t /\
    s = pre ++ u ++ topic_text t /\ k = (lit "username", u) :: topic_caps t.
Proof.
  unfold KEYBASE_ADDRESS_REGEX. rewrite rmatch_seq_inv. split.
  - intros (pre & s2 & k1 & k2 & -> & -> & H1 & H2).
    apply rmatch_seq_inv in H2 as (u & s3 & k3 & k4 & -> & -> & (k' & -> & (Hl & Hu & ->)%rmatch_between_inv)%rmatch_cap_inv & H2).
    rewrite rmatch_opt_inv, rmatch_lit_inv in H1. rewrite rmatch_opt_inv, rmatch_seq_inv in H2.
    assert (exists t, topic_ok t /\ s3 = topic_text t /\ k4 = topic_caps t) as (t & Ht & -> & ->).
    { destruct H2 as [(s4 & t & k5 & k6 & -> & -> & [-> ->]%rmatch_lit_inv & (k' & -> & (Hne & Ht & ->)%rmatch_plus_inv)%rmatch_cap_inv)|[-> ->]].
      - by exists (Some t).
      - by exists None. }
    exists pre, u, t. destruct H1 as [[-> ->]|[-> ->]]; split_and!; auto; done.
  - intros (pre & u & t & Hpre & [Hl Hu] & Ht & -> & ->).
    exists pre, (u ++ topic_text t), [], ((lit "username", u) :: topic_caps t). split_and!; [done..| |].
    + rewrite rmatch_opt_inv, rmatch_lit_inv. destruct Hpre as [->| ->]; auto.
    + apply rmatch_seq_inv. exists u, (topic_text t), [(lit "username", u)], (topic_caps t).
      split_and!; [done..| |].
      * apply rmatch_cap_inv. eexists; split; [done|]. by apply rmatch_between_inv.
      * rewrite rmatch_opt_inv, rmatch_seq_inv. destruct t as [t|]; [left|by right].
        exists (lit ":"), t, [], [(lit "topic", t)]. split_and!; [done..|by apply rmatch_lit_inv|].
        apply rmatch_cap_inv. eexists; split; [done|]. destruct Ht. by apply rmatch_plus_inv.
Qed.

Lemma username_no_colon u : username_ok u -> ":"%char ∉ u.
Proof. intros [_ Hu]. by apply (all_not_in username_class). Qed.

Lemma user_topic_inj u t u' t' :
  username_ok u -> username_ok u' -> u ++ topic_text t = u' ++ topic_text t' -> u = u' /\ t = t'.
Proof.
  intros Hu%username_no_colon Hu'%username_no_colon E.
  destruct t as [t|], t' as [t'|]; cbn [topic_text] in E.
  - apply app_sep_inj in E as [-> ->]; auto.
  - rewrite app_nil_r in E. exfalso. apply Hu'. rewrite <- E. set_solver.
  - rewrite app_nil_r in E. exfalso. apply Hu. rewrite E. set_solver.
  - rewrite !app_nil_r in E. by subst.
Qed.

(** ["keybase"] itself is a user name, so the prefix is not ruled out by the
    characters alone: a topic has no [/]. *)
Lemma keybase_match_unique pre u t pre' u' t' :
  pre = lit "keybase://" \/ pre = [] -> pre' = lit "keybase://" \/ pre' = [] ->
  username_ok u -> username_ok u' -> topic_ok t -> topic_ok t' ->
  pre ++ u ++ topic_text t = pre' ++ u' ++ topic_text t' -> u = u' /\ t = t'.
Proof.
  assert (forall u u' t t', username_ok u' -> topic_ok t' ->
    lit "keybase://" ++ u ++ topic_text t = u' ++ topic_text t' -> False) as Hno.
  { intros v v' w w' Hv Hw E.
    assert ("/"%char ∉ v' ++ topic_text w') as Hs.
    { rewrite not_elem_of_app. split; [by apply (all_not_in username_class); [apply Hv|]|].
      destruct w' as [w'|]; [|apply not_elem_of_nil]. destruct Hw as [_ Hw].
      cbn [topic_text]. apply not_elem_of_cons. split; [done|]. by apply (all_not_in topic_class). }
    apply Hs. rewrite <- E. set_solver. }
  intros [-> | ->] [-> | ->] Hu Hu' Ht Ht' E.
  - apply app_inv_head in E. by apply user_topic_inj.
  - by destruct (Hno u u' t t').
  - symmetry in E. by destruct (Hno u' u t' t).
  - by apply user_topic_inj.
Qed.

(** ** The scheme pattern *)

Definition schemes : list str := [lit "keybase"; lit "mwcmq"; lit "mwcmqs"; lit "https"; lit "http"].

Lemma scheme_match s k :
  rmatch ADDRESS_REGEX s k <->
  exists ty rest, ty ∈ schemes /\ rest <> [] /\ all dot rest /\
    s = ty ++ lit "://" ++ rest /\ k = [(lit "address_type", ty)].
Proof.
  assert (forall ty k, rmatch (RAlt (RLit (lit "keybase")) (RAlt (RLit (lit "mwcmq")) (RAlt (RLit (lit "mwcmqs"))
         (RAlt (RLit (lit "https")) (RLit (lit "http")))))) ty k <-> ty ∈ schemes /\ k = []) as Hty.
  { intros ty k'. unfold schemes. rewrite !elem_of_cons, elem_of_nil. split.
    - assert (forall r1 r2 s k, rmatch (RAlt r1 r2) s k -> rmatch r1 s k \/ rmatch r2 s k) as Halt
        by (inversion 1; auto).
      intros [H|[H|[H|[H|H]%Halt]%Halt]%Halt]%Halt; apply rmatch_lit_inv in H as [-> ->]; auto 10.
    - assert (forall w, rmatch (RLit w) w []) as Hlit by (intros w; by apply rmatch_lit_inv).
      intros [[->|[->|[->|[->|[->|[]]]]]] ->]; auto 10 with mwc. }
  unfold ADDRESS_REGEX. rewrite rmatch_seq_inv. split.
  - intros (ty & s2 & k1 & k2 & -> & -> & (k' & -> & [Ht ->]%Hty)%rmatch_cap_inv & H2).
    apply rmatch_seq_inv in H2 as (s3 & rest & k3 & k4 & -> & -> & [-> ->]%rmatch_lit_inv & (Hne & Hr & ->)%rmatch_plus_inv).
    by exists ty, rest.
  - intros (ty & rest & Ht & Hne & Hr & -> & ->).
    exists ty, (lit "://" ++ rest), [(lit "address_type", ty)], []. split_and!; [done..| |].
    + apply rmatch_cap_inv. exists []. split; [done|]. by apply Hty.
    + apply rmatch_seq_inv. exists (lit "://"), rest, [], []. split_and!; [done..| |].
      * by apply rmatch_lit_inv.
      * by apply rmatch_plus_inv.
Qed.

Section parse.
Context {L : CryptoLib} {Laws : CryptoLaws L} {R : RegexEngine} {RL : RegexLaws R} {P : Platform}.

Lemma keybase_from_str_matched pre u t :
  pre = lit "keybase://" \/ pre = [] -> username_ok u -> topic_ok t ->
  KeybaseAddress_from_str (pre ++ u ++ topic_text t) = Ok {| username := u; topic := t |}.
Proof.
  intros Hpre Hu Ht. unfold KeybaseAddress_from_str.
  rewrite (captures_unique _ _ ((lit "username", u) :: topic_caps t)).
  - change (group (lit "username") _) with (Some u). cbn [unwrap mbind outcome_bind].
    by destruct t.
  - apply keybase_match. eauto 10.
  - intros k (pre' & u' & t' & Hpre' & Hu' & Ht' & E & ->)%keybase_match.
    by destruct (keybase_match_unique pre u t pre' u' t') as [-> ->].
Qed.

Lemma scheme_captures ty rest :
  ty ∈ schemes -> rest <> [] -> all dot rest ->
  captures ADDRESS_REGEX (ty ++ lit "://" ++ rest) = Some [(lit "address_type", ty)].
Proof.
  intros Ht Hne Hr. apply captures_unique; [apply scheme_match; eauto 10|].
  intros k (ty' & rest' & Ht' & _ & _ & E & ->)%scheme_match.
  assert (forall ty, ty ∈ schemes -> ":"%char ∉ ty) as Hc.
  { intros t H. unfold schemes in H. rewrite !elem_of_cons, elem_of_nil in H.
    destruct H as [->|[->|[->|[->|[->|[]]]]]]; rewrite <- mem_elem_of; by vm_compute. }
  apply app_sep_inj in E as [-> _]; auto.
Qed.

(** The invariant of a parsed address. *)
Definition Address_wf (a : Address) : Prop :=
  match a with
  | AKeybase a => username_ok (username a) /\ topic_ok (topic a)
  | AMWCMQS a | AGrinbox a => mq_wf a
  | AHttps a => url_parse_ok (uri a) = true /\
      exists ty rest, (ty = lit "http" \/ ty = lit "https") /\ rest <> [] /\ all dot rest /\
        uri a = ty ++ lit "://" ++ rest
  end.

(** What is printed and read again. *)
Definition Address_normalise (a : Address) : Address :=
  match a with
  | AMWCMQS a => AMWCMQS (normalise a)
  | AGrinbox a => AGrinbox (normalise a)
  | _ => a
  end.

Lemma all_impl (p q : ascii -> bool) s : (forall c, p c = true -> q c = true) -> all p s -> all q s.
Proof. intros H Hs. by apply (Forall_impl _ _ _ Hs). Qed.

Lemma tail_text_dot t : tail_ok t -> all dot (tail_text t).
Proof.
  assert (forall c, domain_class c = true -> dot c = true) as H1
    by (intros [[] [] [] [] [] [] [] []]; by vm_compute).
  assert (forall c, is_digit c = true -> dot c = true) as H2
    by (intros [[] [] [] [] [] [] [] []]; by vm_compute).
  destruct t as [[d [p|]]|]; cbn [tail_text tail_ok]; [intros (_ & Hd & Hp) | intros (_ & Hd & _) | constructor].
  - constructor; [done|]. apply Forall_app; split; [by apply (all_impl _ _ _ H1)|].
    constructor; [done|]. by apply (all_impl _ _ _ H2).
  - constructor; [done|]. by apply (all_impl _ _ _ H1).
Qed.

Lemma mq_display_dot dd a : mq_wf a ->
  public_key_text a ++ tail_text (display_tail dd a) <> [] /\
  all dot (public_key_text a ++ tail_text (display_tail dd a)).
Proof.
  intros Hwf. pose proof (display_tail_ok dd a Hwf) as Ht. destruct Hwf as ([k Hk] & _).
  destruct (key_text_ok k) as [Hl Hb]. rewrite <- Hk in Hl, Hb. split.
  - destruct (public_key_text a); [done|]. discriminate.
  - apply Forall_app. split; [|by apply tail_text_dot].
    apply (all_impl base58_class); [|done]. intros [[] [] [] [] [] [] [] []]; by vm_compute.
Qed.

Lemma scheme_ok_mwcmq : scheme_ok (lit "mwcmq://").
Proof. exists (lit "mwcmq"). split; [done | cbn; lia]. Qed.
Lemma scheme_ok_mwcmqs : scheme_ok (lit "mwcmqs://").
Proof. exists (lit "mwcmqs"). split; [done | cbn; lia]. Qed.

Lemma Address_parse_scheme ty rest :
  ty ∈ schemes -> rest <> [] -> all dot rest ->
  Address_parse (ty ++ lit "://" ++ rest) =
    let s := ty ++ lit "://" ++ rest in
    if bool_decide (ty = lit "keybase") then AKeybase <$> KeybaseAddress_from_str s
    else if bool_decide (ty = lit "mwcmqs") then AMWCMQS <$> MWCMQSAddress_from_str s
    else if bool_decide (ty = lit "mwcmq") then AGrinbox <$> GrinboxAddress_from_str s
    else AHttps <$> HttpsAddress_from_str s.
Proof.
  intros Ht Hne Hr. unfold Address_parse. rewrite scheme_captures by done.
  change (group (lit "address_type") _) with (Some ty). cbn [unwrap mbind outcome_bind]. cbn zeta.
  unfold schemes in Ht. rewrite !elem_of_cons, elem_of_nil in Ht.
  destruct Ht as [->|[->|[->|[->|[->|[]]]]]]; done.
Qed.

Lemma Address_parse_display_eq a :
  Address_wf a -> Address_parse (Address_display a) = Ok (Address_normalise a).
Proof.
  destruct a as [a|a|a|a]; cbn [Address_wf Address_display Address_normalise].
  - intros [Hu Ht]. unfold KeybaseAddress_display.
    change (lit "keybase://" ++ ?r) with (lit "keybase" ++ lit "://" ++ r).
    fold (topic_text (topic a)). rewrite Address_parse_scheme.
    + cbn zeta. rewrite bool_decide_eq_true_2 by done.
      change (lit "keybase" ++ lit "://" ++ ?r) with (lit "keybase://" ++ r).
      rewrite keybase_from_str_matched by auto. by destruct a.
    + unfold schemes. set_solver.
    + destruct Hu as [Hl _]. destruct (username a); [cbn in Hl; lia | done].
    + apply Forall_app. destruct Hu as [_ Hu]. split.
      * apply (all_impl username_class); [|done]. intros [[] [] [] [] [] [] [] []]; by vm_compute.
      * destruct (topic a) as [t|]; [|constructor]. destruct Ht as [_ Ht]. constructor; [done|].
        apply (all_impl topic_class); [|done]. intros [[] [] [] [] [] [] [] []]; by vm_compute.
  - intros Hwf. unfold MWCMQSAddress_display. rewrite mq_display_tail.
    destruct (mq_display_dot DEFAULT_MWCMQS_DOMAIN a Hwf) as [Hne Hd].
    change (lit "mwcmqs://" ++ ?r) with (lit "mwcmqs" ++ lit "://" ++ r).
    rewrite Address_parse_scheme by (done || unfold schemes; set_solver).
    cbn zeta. rewrite bool_decide_eq_false_2, bool_decide_eq_true_2 by done.
    change (lit "mwcmqs" ++ lit "://" ++ ?r) with (lit "mwcmqs://" ++ r).
    unfold MWCMQSAddress_from_str, MWCMQ_ADDRESS_REGEX.
    rewrite mq_roundtrip; auto using scheme_ok_mwcmqs.
  - intros Hwf. unfold GrinboxAddress_display. rewrite mq_display_tail.
    destruct (mq_display_dot DEFAULT_GRINBOX_DOMAIN a Hwf) as [Hne Hd].
    change (lit "mwcmq://" ++ ?r) with (lit "mwcmq" ++ lit "://" ++ r).
    rewrite Address_parse_scheme by (done || unfold schemes; set_solver).
    cbn zeta. rewrite !bool_decide_eq_false_2, bool_decide_eq_true_2 by done.
    change (lit "mwcmq" ++ lit "://" ++ ?r) with (lit "mwcmq://" ++ r).
    unfold GrinboxAddress_from_str, GRINBOX_ADDRESS_REGEX.
    rewrite mq_roundtrip; auto using scheme_ok_mwcmq.
  - intros (Hurl & ty & rest & Hty & Hne & Hr & E). unfold HttpsAddress_display. rewrite E.
    rewrite Address_parse_scheme; [|unfold schemes; destruct Hty as [->| ->]; set_solver | done..].
    cbn zeta. rewrite !bool_decide_eq_false_2 by (by destruct Hty as [->| ->]).
    rewrite <- E. unfold HttpsAddress_from_str. rewrite Hurl. by destruct a.
Qed.
End parse.

(** ** The parser's failures *)

Lemma base58_shape s :
  all base58_class s ->
  exists z ds, Forall (digit_ok 58) ds /\ canonical ds /\
    s = replicate z "1"%char ++ (enc <$> ds) /\ length s = (z + length ds)%nat.
Proof.
  intros Hs. assert (exists ds0, Forall (digit_ok 58) ds0 /\ s = enc <$> ds0) as (ds0 & Hok & ->).
  { induction Hs as [|c s Hc _ (ds0 & Hok & ->)]; [by exists []|].
    apply mem_elem_of, list_elem_of_lookup in Hc as [i Hi].
    exists (Z.of_nat i :: ds0). split.
    - constructor; [|done]. apply lookup_lt_Some in Hi. change (length ALPHABET) with 58%nat in Hi.
      unfold digit_ok. lia.
    - cbn. f_equal. unfold enc. by rewrite Nat2Z.id, Hi. }
  exists (leading_zeros ds0), (strip_zeros ds0). split_and!.
  - by apply Forall_drop.
  - apply strip_zeros_canonical.
  - rewrite (strip_zeros_app ds0) at 1. by rewrite fmap_app, fmap_replicate.
  - rewrite length_fmap. unfold strip_zeros. rewrite length_drop.
    pose proof (leading_zeros_le ds0). lia.
Qed.

(** A key decodes to at least six bytes. *)
Lemma key_decodes pk : key_ok pk -> exists p, from_base58 pk = Ok p /\ (6 <= length p)%nat.
Proof.
  intros [Hl Hb]. destruct (base58_shape pk Hb) as (z & ds & Hok & Hc & -> & Hlen).
  rewrite Hl in Hlen. rewrite from_base58_is_ref by done. unfold decoded_ref.
  pose proof (of_digits_bound 58 ltac:(lia) ds Hok) as [H0 Hub]. set (v := of_digits 58 ds) in *.
  assert (58 ^ Z.of_nat (length ds) <= 256 ^ Z.of_nat (length ds)) as Hp by (apply Z.pow_le_mono_l; lia).
  assert (256 ^ Z.of_nat (length ds) <= 256 ^ 132) as Hp' by (apply Z.pow_le_mono_r; lia).
  change (2 ^ 1056) with (256 ^ 132). rewrite (proj2 (Z.ltb_lt _ _)) by lia.
  pose proof (leading_zeros_padded (length ds) v ltac:(lia)) as Hlb.
  rewrite (proj2 (Nat.leb_le _ _)) by (unfold BIN_LEN; lia). eexists. split; [done|].
  rewrite length_app, length_replicate, length_fmap.
  destruct (Nat.le_gt_cases 6 z) as [|Hz]; [lia|].
  destruct (Nat.le_gt_cases 6 (length (digits_of 256 v))) as [|Hsmall]; [lia|]. exfalso.
  destruct (digits_of_spec 256 ltac:(lia) v H0) as (Hok' & _ & Hval).
  pose proof (of_digits_bound 256 ltac:(lia) _ Hok') as [_ Hvb]. rewrite Hval in Hvb.
  assert (256 ^ Z.of_nat (length (digits_of 256 v)) <= 256 ^ 5) by (apply Z.pow_le_mono_r; lia).
  destruct ds as [|d ds]; [cbn in Hlen; lia|].
  assert (d <> 0) as Hd by (intros ->; discriminate Hc).
  pose proof (of_digits_lower 58 ltac:(lia) d ds Hok Hd) as Hlow. fold v in Hlow. cbn [length] in Hlen.
  assert (58 ^ 46 <= 58 ^ Z.of_nat (length ds)) by (apply Z.pow_le_mono_r; lia).
  assert (256 ^ 5 < 58 ^ 46) by (by vm_compute). lia.
Qed.

Section failures.
Context {L : CryptoLib} {Laws : CryptoLaws L} {R : RegexEngine} {RL : RegexLaws R} {P : Platform}.

Lemma version_bytes_length : length version_bytes = 2%nat.
Proof. unfold version_bytes. by destruct is_mainnet. Qed.

(** The key of a matched address is read without a panic. *)
Lemma key_parse_returns pk : key_ok pk -> returns (pk_of_base58_check pk version_bytes).
Proof.
  intros Hpk. destruct (key_decodes pk Hpk) as (p & Hp & Hlen).
  unfold pk_of_base58_check, from_base58_check. rewrite Hp, version_bytes_length. cbn [mbind outcome_bind].
  rewrite (proj2 (Nat.ltb_ge _ _)) by lia.
  rewrite bytes_to_checksum by apply sha256_length. cbn [mbind outcome_bind].
  destruct (bool_decide _); [|done]. cbn [negb]. unfold bytes_to, bytes_from.
  rewrite length_take, (proj2 (Nat.leb_le _ _)) by lia. cbn [mbind outcome_bind].
  destruct (bool_decide _); [|done]. cbn [negb]. by destruct (pk_from_slice _).
Qed.

(** The port of a tail is in range. *)
Definition tail_port_ok (t : mq_tail) : Prop :=
  match tail_port t with Some p => is_Some (from_str_radix 16 10 p) | None => True end.

Lemma mq_from_str_returns scheme dd pre pk t :
  scheme_ok scheme -> pre = scheme \/ pre = [] -> key_ok pk -> tail_ok t -> tail_port_ok t ->
  returns (mq_from_str (mq_regex scheme) dd (pre ++ pk ++ tail_text t)).
Proof.
  intros Hs Hpre Hpk Ht Hp. rewrite mq_from_str_matched by done.
  assert (exists port, parse_port (tail_port t) = Ok port) as [port ->].
  { unfold tail_port_ok in Hp. destruct (tail_port t) as [p|]; cbn; [|eauto].
    destruct Hp as [z ->]. cbn. eauto. }
  cbn [mbind outcome_bind]. pose proof (key_parse_returns pk Hpk) as Hk.
  destruct (pk_of_base58_check pk version_bytes) as [k|e| |]; try done.
  cbn [mbind outcome_bind]. unfold mq_new. by rewrite key_text_spec.
Qed.

Lemma mq_from_str_panics scheme dd pre pk t :
  scheme_ok scheme -> pre = scheme \/ pre = [] -> key_ok pk -> tail_ok t -> ~ tail_port_ok t ->
  mq_from_str (mq_regex scheme) dd (pre ++ pk ++ tail_text t) = Panic.
Proof.
  intros Hs Hpre Hpk Ht Hp. rewrite mq_from_str_matched by done.
  unfold tail_port_ok in Hp. destruct (tail_port t) as [p|]; [|done]. unfold parse_port.
  destruct (from_str_radix 16 10 p); [|done]. destruct Hp. eauto.
Qed.

(** Every parsed address satisfies the invariant. *)
Lemma Address_parse_sound s a : Address_parse s = Ok a -> Address_wf a.
Proof.
  assert (domain_ok DEFAULT_GRINBOX_DOMAIN /\ domain_ok DEFAULT_MWCMQS_DOMAIN) as [Dg Dm].
  { split; (split; [done|]); apply Forall_forall; intros c Hc%list_elem_of_In;
      revert c Hc; apply forallb_forall; by vm_compute. }
  assert (forall r, AMWCMQS <$> MWCMQSAddress_from_str r = Ok a -> Address_wf a) as Hm.
  { intros r. destruct (MWCMQSAddress_from_str r) eqn:E; cbn; intros [= <-].
    by apply mq_from_str_wf in E. }
  unfold Address_parse. destruct (captures ADDRESS_REGEX s) as [k|] eqn:E; [|apply Hm].
  apply captures_sound, scheme_match in E as (ty & rest & Hty & Hne & Hr & Hs & ->).
  change (group (lit "address_type") _) with (Some ty). cbn [unwrap mbind outcome_bind].
  destruct (bool_decide (ty = lit "keybase")).
  { unfold KeybaseAddress_from_str. destruct (captures KEYBASE_ADDRESS_REGEX s) as [k|] eqn:E; [|done].
    apply captures_sound, keybase_match in E as (pre & u & t & _ & Hu & Ht & _ & ->).
    change (group (lit "username") _) with (Some u). cbn. intros [= <-]. cbn.
    split; [done|]. by destruct t. }
  destruct (bool_decide (ty = lit "mwcmqs")); [apply Hm|].
  destruct (bool_decide (ty = lit "mwcmq")).
  { unfold GrinboxAddress_from_str. destruct (mq_from_str _ _ s) eqn:E; cbn; intros [= <-].
    by apply mq_from_str_wf in E. }
  unfold HttpsAddress_from_str. destruct (bool_decide_reflect (ty = lit "https")) as [Hh|];
    [|destruct (bool_decide_reflect (ty = lit "http")) as [Hh|]; [|done]];
    destruct (url_parse_ok s) eqn:Hu; cbn; intros [= <-]; cbn;
    (split; [done|]); exists ty, rest; split_and!; auto.
Qed.

Lemma normalise_display scheme dd a : mq_display scheme dd (normalise a) = mq_display scheme dd a.
Proof.
  rewrite !mq_display_tail. unfold display_tail, normalise. cbn [port domain public_key_text].
  destruct (port a) as [p|]; [|done]. destruct (p =? DEFAULT_GRINBOX_PORT) eqn:E; [done | by rewrite E].
Qed.

Lemma Address_normalise_display a : Address_display (Address_normalise a) = Address_display a.
Proof. destruct a; try done; apply normalise_display. Qed.

Lemma mq_display_ascii scheme dd a :
  Forall (λ c, is_ascii c = true) scheme -> mq_wf a ->
  Forall (λ c, is_ascii c = true) (mq_display scheme dd a).
Proof.
  intros Hs Hwf. rewrite mq_display_tail. pose proof (display_tail_ok dd a Hwf) as Ht.
  destruct Hwf as ([k Hk] & _). destruct (key_text_ok k) as [_ Hb]. rewrite <- Hk in Hb.
  assert (forall p (s : str), (forall c, p c = true -> is_ascii c = true) -> all p s ->
    Forall (λ c, is_ascii c = true) s) as Himp by (intros p s H H'; by apply (Forall_impl _ _ _ H')).
  assert (forall c, domain_class c = true -> is_ascii c = true) as H1
    by (intros [[] [] [] [] [] [] [] []]; by vm_compute).
  assert (forall c, is_digit c = true -> is_ascii c = true) as H2
    by (intros [[] [] [] [] [] [] [] []]; by vm_compute).
  assert (forall c, base58_class c = true -> is_ascii c = true) as H3
    by (intros [[] [] [] [] [] [] [] []]; by vm_compute).
  apply Forall_app; split; [done|]. apply Forall_app; split; [by apply (Himp base58_class)|].
  destruct (display_tail dd a) as [[d [p|]]|]; cbn [tail_text tail_ok] in *; [| |constructor].
  - destruct Ht as (_ & Hd & Hp). constructor; [done|]. apply Forall_app; split; [by apply (Himp domain_class)|].
    constructor; [done|]. by apply (Himp is_digit).
  - destruct Ht as (_ & Hd & _). constructor; [done|]. by apply (Himp domain_class).
Qed.

(** The stripped text is the text without its scheme. *)
Lemma mq_stripped scheme dd a :
  Forall (λ c, is_ascii c = true) scheme -> mq_wf a ->
  slice_from (mq_display scheme dd a) (length scheme)
  = Ok (E := Error) (public_key_text a ++ tail_text (display_tail dd a)).
Proof.
  intros Hs Hwf. pose proof (mq_display_ascii scheme dd a Hs Hwf) as Ha.
  rewrite mq_display_tail in *. unfold slice_from. rewrite slice_ascii; [|done|rewrite length_app; lia].
  rewrite drop_app_length, length_app. f_equal. apply take_ge. lia.
Qed.

(** The stripped texts are read back. *)
Lemma stripped_parse a :
  mq_wf a ->
  (exists t, GrinboxAddress_stripped a = Ok t /\ GrinboxAddress_from_str t = Ok (normalise a)) /\
  (exists t, MWCMQSAddress_stripped a = Ok t /\ MWCMQSAddress_from_str t = Ok (normalise a)).
Proof.
  intros Hwf. split; eexists; (split; [apply mq_stripped; [by repeat constructor | done]|]);
    eapply (mq_roundtrip _ _ []); auto using scheme_ok_mwcmq, scheme_ok_mwcmqs.
Qed.
End failures.

(** A platform for concrete runs. *)
Module ToyPlatform.
#[export] Instance linux_mainnet : Platform :=
  {| windows := false; is_mainnet := true; url_parse_ok := fun s => starts_with (lit "http") s |}.
End ToyPlatform.

(** ** Properties *)

Import Toy Backtrack ToyPlatform.

(** C6: a parsed address satisfies the invariant (a key that decodes, a
    domain of the pattern's class, a 16-bit port), its text is read again as
    the same address up to a port equal to the default, and the text does not
    change any more after that.  Contacts are stored as this text. *)
Theorem address_text_roundtrip {L : CryptoLib} {Laws : CryptoLaws L} {R : RegexEngine} {RL : RegexLaws R}
    {P : Platform} s a :
  Address_parse s = Ok a ->
  Address_wf a /\ Address_parse (Address_display a) = Ok (Address_normalise a) /\
  Address_display (Address_normalise a) = Address_display a.
Proof.
  intros H%Address_parse_sound.
  split_and!; [done | by apply Address_parse_display_eq | apply Address_normalise_display].
Qed.

Lemma address_text_roundtrip_witness :
  let text := lit "mwcmq://" ++ key_text (toy_pk 7) ++ lit "@mwc.example:0443" in
  exists a, Address_parse text = Ok a /\ Address_normalise a <> a /\
    Address_parse (Address_display a)
    = Ok (Address_normalise a).
Proof.
  intros text. unfold text. eexists. split; [|split].
  - vm_compute. reflexivity.
  - vm_compute. discriminate.
  - eapply (address_text_roundtrip text). vm_compute. reflexivity.
Defined.

(** The text without its scheme, under which contacts and messages are
    exchanged, denotes the same address for the parser of its own type. *)
Theorem stripped_roundtrip {L : CryptoLib} {Laws : CryptoLaws L} {R : RegexEngine} {RL : RegexLaws R}
    {P : Platform} (a : MqAddress) :
  mq_wf a ->
  (exists t, GrinboxAddress_stripped a = Ok t /\ GrinboxAddress_from_str t = Ok (normalise a)) /\
  (exists t, MWCMQSAddress_stripped a = Ok t /\ MWCMQSAddress_from_str t = Ok (normalise a)).
Proof. apply stripped_parse. Qed.

Lemma mq_wf_example :
  mq_wf
    {| public_key_text := key_text (toy_pk 7); domain := lit "mwc.example"; port := Some 8080 |}.
Proof. split_and!; [by exists (toy_pk 7) | split; [done | by repeat constructor] | cbn; lia]. Qed.

Lemma stripped_roundtrip_witness :
  exists t, GrinboxAddress_stripped
    {| public_key_text := key_text (toy_pk 7); domain := lit "mwc.example"; port := Some 8080 |} = Ok t /\
    GrinboxAddress_from_str t
    = Ok {| public_key_text := key_text (toy_pk 7); domain := lit "mwc.example"; port := Some 8080 |}.
Proof. exact (proj1 (stripped_roundtrip _ mq_wf_example)). Defined.

(** The message-queue parsers panic exactly on texts of the right form
    whose port is empty or does not fit 16 bits, and never run on. *)
Theorem from_str_panics_iff {L : CryptoLib} {Laws : CryptoLaws L} {R : RegexEngine} {RL : RegexLaws R}
    {P : Platform} s :
  ~ returns (MWCMQSAddress_from_str s) <->
  exists pre pk d p, (pre = lit "mwcmqs://" \/ pre = []) /\ key_ok pk /\ domain_ok d /\ all is_digit p /\
    from_str_radix 16 10 p = None /\ s = pre ++ pk ++ lit "@" ++ d ++ lit ":" ++ p.
Proof.
  unfold MWCMQSAddress_from_str, MWCMQ_ADDRESS_REGEX. split.
  - intros Hn. destruct (captures (mq_regex (lit "mwcmqs://")) s) as [k|] eqn:E.
    2: { destruct Hn. unfold mq_from_str. by rewrite E. }
    apply captures_sound, mq_match in E as (pre & pk & t & Hpre & Hpk & Ht & -> & _).
    destruct t as [[d [p|]]|].
    2, 3: destruct Hn; apply mq_from_str_returns; auto using scheme_ok_mwcmqs; done.
    destruct (from_str_radix 16 10 p) eqn:Hp.
    { destruct Hn. apply mq_from_str_returns; auto using scheme_ok_mwcmqs.
      unfold tail_port_ok. cbn. rewrite Hp. eauto. }
    destruct Ht as (Hne & Hd & Hdig). exists pre, pk, d, p. split_and!; auto. done.
  - intros (pre & pk & d & p & Hpre & Hpk & [Hne Hd] & Hdig & Hp & ->).
    rewrite (mq_from_str_panics _ _ pre pk (Some (d, Some p))); auto using scheme_ok_mwcmqs.
    + done.
    + unfold tail_port_ok. cbn. rewrite Hp. intros [? ?]. done.
Qed.

Lemma from_str_panics_iff_witness :
  ~ returns (MWCMQSAddress_from_str (key_text (toy_pk 7) ++ lit "@" ++ lit "a.b" ++ lit ":" ++ lit "65536")).
Proof.
  apply from_str_panics_iff. exists [], (key_text (toy_pk 7)), (lit "a.b"), (lit "65536").
  split; [by right|]. split; [apply key_text_ok|]. split; [split; [done | by repeat constructor]|].
  split; [by repeat constructor|]. split; reflexivity.
Defined.

(** An address made for a key leads back to that key, whatever the domain
    and the port, and on the other network it is refused. *)
Theorem address_key {L : CryptoLib} {Laws : CryptoLaws L} {R : RegexEngine} {RL : RegexLaws R}
    {P : Platform} k d p :
  (match d with Some d => domain_ok d | None => True end) -> port_ok p ->
  exists a b, GrinboxAddress_new k d p = Ok a /\ GrinboxAddress_from_str (GrinboxAddress_display a) = Ok b /\
    GrinboxAddress_public_key b = Ok k /\
    pk_of_base58_check (public_key_text b)
      (if is_mainnet then GRINBOX_ADDRESS_VERSION_TESTNET else GRINBOX_ADDRESS_VERSION_MAINNET)
    = fail InvalidBase58Version.
Proof.
  intros Hd Hp. unfold GrinboxAddress_new, mq_new. rewrite key_text_spec. cbn [mbind outcome_bind].
  eexists _, _. split; [reflexivity|]. set (a := Build_MqAddress _ _ _).
  assert (mq_wf a) as Hwf.
  { split_and!; [by exists k| |done]. destruct d as [d|]; [done|]. split; [done|].
    apply Forall_forall. intros c Hc%list_elem_of_In. revert c Hc. apply forallb_forall. by vm_compute. }
  split; [|split].
  - unfold GrinboxAddress_display, GrinboxAddress_from_str, GRINBOX_ADDRESS_REGEX.
    rewrite mq_display_tail. apply mq_roundtrip; auto using scheme_ok_mwcmq.
  - apply key_text_parse.
  - rewrite (pk_base58_check_version k version_bytes); [| | |apply key_text_spec].
    + unfold version_bytes. by destruct is_mainnet.
    + rewrite version_bytes_length. by destruct is_mainnet.
    + rewrite version_bytes_length. lia.
Qed.

Lemma address_key_witness :
  exists a b, GrinboxAddress_new (toy_pk 7) (Some (lit "a.b")) (Some 80) = Ok a /\
    GrinboxAddress_from_str (GrinboxAddress_display a) = Ok b /\
    GrinboxAddress_public_key b = Ok (toy_pk 7).
Proof.
  destruct (address_key (toy_pk 7) (Some (lit "a.b")) (Some 80))
    as (a & b & H1 & H2 & H3 & _).
  - split; [done | by repeat constructor].
  - cbn. lia.
  - eauto.
Defined.
