(* ===== verification/Message.v ===== *)
(** * Encrypted messages

    [common/message.rs].  A message is sealed under a key derived from the
    Diffie-Hellman point of the two parties and a random salt; the salt and the
    nonce the program draws are arguments here.  JSON texts ([serde_json]) are
    the class [Serde], with [ToySerde] as an instance. *)

From S2P Require Import Prelude Str Errors Regex Base58 Crypto Address.
Local Open Scope Z_scope.

(** ** serde_json *)

Class Serde (A : Type) : Type := {
  to_json : A -> option str;    (* [serde_json::to_string] *)
  of_json : str -> option A;    (* [serde_json::from_str] *)
}.
Class SerdeLaws (A : Type) {S : Serde A} : Prop :=
  serde_roundtrip a t : to_json a = Some t -> of_json t = Some a.

(** [serde_json::to_string(a)?]. *)
Definition json_text {A} `{Serde A} (a : A) : result str := ok_or (External (lit "json")) (to_json a).

(** A codec for values that are a few strings: each string is preceded by its
    length in unary. *)
Module ToySerde.
Definition put (s : str) : str := replicate (length s) "1"%char ++ "0"%char :: s.
Definition pack (l : list str) : str := concat (put <$> l).
Fixpoint unpack_fuel (fuel : nat) (s : str) : list str :=
  match fuel, s with
  | S f, _ :: _ =>
      let n := count_front "1" s in
      let rest := drop (S n) s in
      take n rest :: unpack_fuel f (drop n rest)
  | _, _ => []
  end.
Definition unpack (s : str) : list str := unpack_fuel (length s) s.

Lemma count_front_put n (s : str) : count_front "1" (replicate n "1"%char ++ "0"%char :: s) = n.
Proof. induction n as [|n IH]; [done|]. cbn [replicate app count_front]. cbn. by rewrite IH. Qed.

Lemma unpack_pack l : unpack (pack l) = l.
Proof.
  unfold unpack. assert (forall n, (length (pack l) <= n)%nat -> unpack_fuel n (pack l) = l) as H; [|by apply H].
  induction l as [|s l IH]; intros n Hn; [by destruct n|].
  change (pack (s :: l)) with (put s ++ pack l) in *. unfold put in *. rewrite <- app_assoc in *.
  cbn [app] in *. rewrite length_app, length_replicate in Hn. cbn [length] in Hn. rewrite length_app in Hn.
  destruct n as [|n]; [lia|]. cbn [unpack_fuel].
  destruct (replicate _ _ ++ _) as [|c r] eqn:E; [by apply app_eq_nil in E as [_ ?]|]. rewrite <- E.
  rewrite count_front_put. rewrite <- Nat.add_1_r, <- drop_drop, drop_app_length' by (by rewrite length_replicate).
  change (drop 1 ("0"%char :: s ++ pack l)) with (s ++ pack l). rewrite take_app_length, drop_app_length, IH by lia. done.
Qed.

Class Packed (A : Type) : Type := {
  to_fields : A -> list str;
  of_fields : list str -> option A;
  fields_law a : of_fields (to_fields a) = Some a;
}.
#[export] Instance packed_serde A `{Packed A} : Serde A :=
  {| to_json a := Some (pack (to_fields a)); of_json s := of_fields (unpack s) |}.
#[export] Instance packed_serde_laws A `{Packed A} : SerdeLaws A.
Proof. intros a t [= <-]. cbn. rewrite unpack_pack. apply fields_law. Qed.

(** Small values: the bits of their encoding. *)
Fixpoint bits (p : positive) : str :=
  match p with xH => [] | xO p => "0"%char :: bits p | xI p => "1"%char :: bits p end.
Fixpoint unbits (s : str) : positive :=
  match s with [] => 1 | c :: s => if Ascii.eqb c "0" then xO (unbits s) else xI (unbits s) end.
Definition small {A} `{Countable A} (a : A) : str := bits (encode a).
Definition of_small {A} `{Countable A} (s : str) : option A := decode (unbits s).
Lemma of_small_small {A} `{Countable A} (a : A) : of_small (small a) = Some a.
Proof.
  unfold of_small, small. assert (forall p, unbits (bits p) = p) as -> by (intros p; induction p; cbn; congruence).
  apply decode_encode.
Qed.
End ToySerde.

(** ** The message *)

Record EncryptedMessage : Type := {
  destination : option GrinboxAddress;
  encrypted_message : str;
  salt : str;
  nonce : str;
}.

#[export] Instance EncryptedMessage_eq_dec : EqDecision EncryptedMessage.
Proof. unfold GrinboxAddress. solve_decision. Defined.
Module ToyMessage.
Import ToySerde.
#[export, refine] Instance address_packed : Packed MqAddress := {|
  to_fields a := [public_key_text a; domain a; small (port a)];
  of_fields l := match l with
    | [k; d; p] => p ← of_small p; Some {| public_key_text := k; domain := d; port := p |}
    | _ => None end |}.
Proof. intros []. cbn. by rewrite of_small_small. Defined.
#[export, refine] Instance message_packed : Packed EncryptedMessage := {|
  to_fields m := [encrypted_message m; salt m; nonce m] ++
    match destination m with Some d => to_fields d | None => [] end;
  of_fields l := match l with
    | e :: s :: n :: d =>
        match d with
        | [] => Some {| destination := None; encrypted_message := e; salt := s; nonce := n |}
        | _ => d ← of_fields d; Some {| destination := Some d; encrypted_message := e; salt := s; nonce := n |}
        end
    | _ => None end |}.
Proof. intros [[[k d p]|] e s n]; cbn; [by rewrite of_small_small | done]. Defined.
End ToyMessage.

Section message.
Context {L : CryptoLib}.

(** [&common_secret_ser[1..33]]. *)
Definition common_secret_slice (common_secret_ser : str) : result str :=
  upto ← bytes_to common_secret_ser 33;
  bytes_from upto 1.

(** [salt] and [nonce] are the 8 and 12 random bytes. *)
Definition EncryptedMessage_new (message : str) (destination : GrinboxAddress)
    (receiver_public_key : PublicKey) (secret_key : SecretKey) (salt nonce : str) : result EncryptedMessage :=
  common_secret ← ok_or (Kind Encryption) (mul_assign receiver_public_key secret_key);
  let common_secret_ser := serialize_vec common_secret in
  slice ← common_secret_slice common_secret_ser;
  let key := pbkdf2 salt slice in
  let enc_bytes := message in
  let suffix_len := tag_len in
  let enc_bytes := enc_bytes ++ replicate suffix_len (chr 0) in
  enc_bytes ← ok_or (Kind Encryption) (seal_in_place key nonce enc_bytes suffix_len);
  Ok {| destination := Some destination; encrypted_message := to_hex enc_bytes;
        salt := to_hex salt; nonce := to_hex nonce |}.

Definition EncryptedMessage_key (self : EncryptedMessage) (sender_public_key : PublicKey)
    (secret_key : SecretKey) : result str :=
  salt ← map_err (fun _ => Kind Decryption) (from_hex (salt self));
  common_secret ← ok_or (Kind Decryption) (mul_assign sender_public_key secret_key);
  let common_secret_ser := serialize_vec common_secret in
  slice ← common_secret_slice common_secret_ser;
  Ok (pbkdf2 salt slice).

Definition decrypt_with_key (self : EncryptedMessage) (key : str) : result str :=
  encrypted_message ← map_err (fun _ => Kind Decryption) (from_hex (encrypted_message self));
  nonce ← map_err (fun _ => Kind Decryption) (from_hex (nonce self));
  decrypted_data ← ok_or (Kind Decryption) (open_in_place key nonce encrypted_message);
  if utf8_valid decrypted_data then Ok decrypted_data else fail Decryption.

Context {Laws : CryptoLaws L}.

Lemma common_secret_slice_ok k : exists s, common_secret_slice (serialize_vec k) = Ok s.
Proof.
  unfold common_secret_slice, bytes_to, bytes_from. rewrite serialize_length. cbn [Nat.leb mbind outcome_bind].
  rewrite length_take, serialize_length. cbn. eauto.
Qed.

(** What is sealed for a key pair is opened by the other side. *)
Lemma message_roundtrip message dest a A b B salt nonce em :
  from_secret_key a = Some A -> from_secret_key b = Some B ->
  salt <> [] -> nonce <> [] -> utf8_valid message = true ->
  EncryptedMessage_new message dest B a salt nonce = Ok em ->
  destination em = Some dest /\
  exists key, EncryptedMessage_key em A b = Ok key /\ decrypt_with_key em key = Ok message.
Proof.
  intros Ha Hb Hs Hn Hu. unfold EncryptedMessage_new.
  destruct (mul_assign B a) as [c|] eqn:Hm; [|done]. cbn [ok_or mbind outcome_bind].
  destruct (common_secret_slice_ok c) as [sl Hsl]. rewrite Hsl. cbn [mbind outcome_bind].
  destruct (seal_in_place _ _ _ _) as [enc|] eqn:Hseal; [|done]. intros [= <-].
  apply seal_open in Hseal as [Hne Hopen]. split; [done|].
  assert (forall x : str, x <> [] -> from_hex (to_hex x) = Ok x) as Hhex.
  { intros x Hx. rewrite from_hex_to_hex. by destruct x. }
  exists (pbkdf2 salt sl). unfold EncryptedMessage_key, decrypt_with_key.
  cbn [Message.salt Message.nonce Message.encrypted_message]. rewrite !Hhex by done. cbn [map_err mbind outcome_bind].
  rewrite (mul_comm b B a A Hb Ha) in Hm. rewrite Hm. cbn [ok_or mbind outcome_bind].
  rewrite Hsl. cbn. rewrite Hopen. cbn. by rewrite Hu.
Qed.
End message.

(** ** Properties *)

Import Toy Backtrack ToyPlatform.

(** C1: a message sealed by the holder of [a] for the public key of [b] names
    its destination, and the holder of [b] who knows the public key of [a]
    derives the key that opens it to the same text. *)
Theorem encrypted_message_roundtrip {L : CryptoLib} {Laws : CryptoLaws L} message dest a A b B salt nonce em :
  from_secret_key a = Some A -> from_secret_key b = Some B ->
  length salt = 8%nat -> length nonce = 12%nat -> utf8_valid message = true ->
  EncryptedMessage_new message dest B a salt nonce = Ok em ->
  destination em = Some dest /\
  exists key, EncryptedMessage_key em A b = Ok key /\ decrypt_with_key em key = Ok message.
Proof.
  intros Ha Hb Hs Hn. apply message_roundtrip; [done..| |]; by intros ->.
Qed.

Definition toy_dest : GrinboxAddress :=
  {| public_key_text := key_text (toy_pk 9); domain := lit "mq.mwc.mw"; port := None |}.

Lemma encrypted_message_roundtrip_witness :
  exists em key, EncryptedMessage_new (lit "slate") toy_dest (toy_pk 9) (toy_sk 7) (lit "saltsalt") (lit "noncenonceno") = Ok em /\
    EncryptedMessage_key em (toy_pk 7) (toy_sk 9) = Ok key /\ decrypt_with_key em key = Ok (lit "slate").
Proof.
  eexists. destruct (encrypted_message_roundtrip (lit "slate") toy_dest (toy_sk 7) (toy_pk 7) (toy_sk 9) (toy_pk 9)
    (lit "saltsalt") (lit "noncenonceno") (default {| destination := None; encrypted_message := []; salt := []; nonce := [] |}
      (match EncryptedMessage_new (lit "slate") toy_dest (toy_pk 9) (toy_sk 7) (lit "saltsalt") (lit "noncenonceno") with
       | Ok em => Some em | _ => None end))) as (_ & key & H1 & H2).
  1-6: reflexivity.
  exists key. split; [reflexivity|]. split; [exact H1 | exact H2].
Defined.
