(* ===== verification/TxProof.v ===== *)
(** * Transaction proofs

    [wallet/types/tx_proof.rs]: how a signed and encrypted message from the
    relay becomes a slate with a proof of its delivery, how a stored proof is
    verified, and the directory the proofs are kept in. *)

From S2P Require Import Prelude Str Errors Regex Base58 Crypto Address Message.
Local Open Scope Z_scope.

(** ** Slates

    [grin_wallet_libwallet::Slate] is opaque; the program reads the fields
    below and converts slates from and to JSON. *)
Class SlateLib : Type := {
  Slate : Type;
  slate_id : Slate -> str;
  slate_amount : Slate -> Z;
  slate_fee : Slate -> Z;
  num_participants : Slate -> nat;
  (** [slate.participant_data[i].public_blind_excess] and its message *)
  participant_data : Slate -> list (str * option str);
  deserialize_upgrade : str -> option Slate;
  slate_to_json : Slate -> option str;
}.

(** A Pedersen commitment: its 33 bytes. *)
Definition Commitment : Type := str.

Record TxProof {L : CryptoLib} : Type := {
  address : GrinboxAddress;
  message : str;
  challenge : str;
  signature : Signature;
  key : str;
  amount : Z;
  fee : Z;
  inputs : list Commitment;
  outputs : list Commitment;
}.

Section tx_proof.
Context {L : CryptoLib} {R : RegexEngine} {P : Platform} {SL : SlateLib} {SE : Serde EncryptedMessage}.
Abbreviation result' A := (outcome ErrorKind A).

Definition verify_extract (self : TxProof) (expected_destination : option GrinboxAddress) :
    result' (option GrinboxAddress * Slate) :=
  let challenge := message self ++ challenge self in
  public_key ← map_err (fun _ => TxProofParsePublicKey) (GrinboxAddress_public_key (address self));
  _ ← map_err (fun _ => TxProofVerifySignature) (verify_signature challenge (signature self) public_key);
  encrypted_message ← ok_or TxProofParseEncryptedMessage (of_json (message self));
  let destination := destination encrypted_message in
  if match destination, expected_destination with
     | Some d, Some e => negb (bool_decide (public_key_text d = public_key_text e))
     | _, _ => false
     end then Err TxProofVerifyDestination
  else
    decrypted_message ← map_err (fun _ => TxProofDecryptMessage) (decrypt_with_key encrypted_message (key self));
    slate ← ok_or TxProofParseSlate (deserialize_upgrade decrypted_message);
    Ok (destination, slate).

Definition from_response (from message challenge signature : str) (secret_key : SecretKey)
    (expected_destination : option GrinboxAddress) : result' (Slate * TxProof) :=
  address ← map_err (fun _ => TxProofParseAddress from) (GrinboxAddress_from_str from);
  signature ← map_err (fun _ => TxProofParseSignature signature) (sig_of_hex signature);
  public_key ← map_err (fun _ => TxProofParsePublicKey) (GrinboxAddress_public_key address);
  encrypted_message ← ok_or TxProofParseEncryptedMessage (of_json message);
  key ← map_err (fun _ => TxProofDecryptionKey) (EncryptedMessage_key encrypted_message public_key secret_key);
  let proof := {| address := address; message := message; challenge := challenge;
                  signature := signature; key := key;
                  amount := 0; fee := 0; inputs := []; outputs := [] |} in
  '(_, slate) ← verify_extract proof expected_destination;
  Ok (slate, proof).

Context {Laws : CryptoLaws L} {RL : RegexLaws R} {SEL : SerdeLaws EncryptedMessage}.

(** What an accepted message guarantees. *)
Lemma from_response_sound from msg chal sig sk dest slate proof :
  from_response from msg chal sig sk dest = Ok (slate, proof) ->
  exists pk em sg text,
    message proof = msg /\ challenge proof = chal /\
    GrinboxAddress_from_str from = Ok (address proof) /\
    GrinboxAddress_public_key (address proof) = Ok pk /\
    sig_of_hex sig = Ok sg /\ verify_signature (msg ++ chal) sg pk = Ok () /\
    of_json msg = Some em /\
    (forall d e, destination em = Some d -> dest = Some e -> public_key_text d = public_key_text e) /\
    EncryptedMessage_key em pk sk = Ok (key proof) /\ decrypt_with_key em (key proof) = Ok text /\
    deserialize_upgrade text = Some slate /\
    exists d, verify_extract proof dest = Ok (d, slate).
Proof.
  unfold from_response. intros (a & Ha%map_err_Ok & (sg & Hsg%map_err_Ok & (pk & Hpk%map_err_Ok
    & (em & Hem & (k & Hk%map_err_Ok & H)%bind_Ok)%bind_Ok)%bind_Ok)%bind_Ok)%bind_Ok.
  cbn zeta in H. apply bind_Ok in H as ([d s] & Hv & [= -> <-]). pose proof Hv as Hv0.
  destruct (of_json msg) as [em'|] eqn:Ej; [|done]. injection Hem as ->.
  unfold verify_extract in Hv. cbn [message challenge address signature key] in Hv.
  rewrite Hpk in Hv. cbn [map_err mbind outcome_bind] in Hv.
  apply bind_Ok in Hv as ([] & Hsig%map_err_Ok & Hv). rewrite Ej in Hv. cbn [ok_or mbind outcome_bind] in Hv.
  match type of Hv with (if ?b then _ else _) = _ => destruct b eqn:Hd; [done|] end.
  apply bind_Ok in Hv as (txt & Htxt%map_err_Ok & Hv).
  destruct (deserialize_upgrade txt) as [s'|] eqn:Hs; [|done]. injection Hv as _ ->.
  exists pk, em, sg, txt. cbn [message challenge address signature key]. split_and!; auto.
  - intros d0 e0 H1 ->. rewrite H1 in Hd. by destruct (bool_decide_reflect (public_key_text d0 = public_key_text e0)).
  - by exists d.
Qed.

(** The proof that is kept. *)
Lemma from_response_proof from msg chal sig sk dest slate proof :
  from_response from msg chal sig sk dest = Ok (slate, proof) ->
  exists sg, sig_of_hex sig = Ok sg /\
    proof = {| address := address proof; message := msg; challenge := chal; signature := sg; key := key proof;
               amount := 0; fee := 0; inputs := []; outputs := [] |}.
Proof.
  unfold from_response. intros (a & _ & (sg & Hsg%map_err_Ok & (pk & _ & (em & _ & (k & _ & H)%bind_Ok)%bind_Ok)%bind_Ok)%bind_Ok)%bind_Ok.
  cbn zeta in H. apply bind_Ok in H as ([d s] & _ & [= -> <-]). by exists sg.
Qed.

(** What a proof that verifies guarantees. *)
Lemma verify_extract_sound p dest d slate :
  verify_extract p dest = Ok (d, slate) ->
  exists pk em text, GrinboxAddress_public_key (address p) = Ok pk /\
    verify_signature (message p ++ challenge p) (signature p) pk = Ok () /\
    of_json (message p) = Some em /\ destination em = d /\
    (forall d' e, d = Some d' -> dest = Some e -> public_key_text d' = public_key_text e) /\
    decrypt_with_key em (key p) = Ok text /\ deserialize_upgrade text = Some slate.
Proof.
  unfold verify_extract. intros (pk & Hpk%map_err_Ok & ([] & Hsig%map_err_Ok & Hv)%bind_Ok)%bind_Ok.
  destruct (of_json (message p)) as [em|]; [|done]. cbn [ok_or mbind outcome_bind] in Hv. exists pk, em.
  match type of Hv with (if ?b then _ else _) = _ => destruct b eqn:Hd; [done|] end.
  apply bind_Ok in Hv as (txt & Htxt%map_err_Ok & Hv).
  destruct (deserialize_upgrade txt) as [s'|] eqn:Hs; [|done]. injection Hv as <- ->. exists txt. split_and!; auto.
  intros d' e H1 ->. rewrite H1 in Hd. by destruct (bool_decide_reflect (public_key_text d' = public_key_text e)).
Qed.

(** A message made by [EncryptedMessage_new], signed by its sender, is
    accepted by its destination. *)
Lemma from_response_complete from fa A a b B dest me expected text slate salt nonce em msg chal sig :
  GrinboxAddress_from_str from = Ok fa -> public_key_text fa = key_text A ->
  from_secret_key a = Some A -> from_secret_key b = Some B ->
  salt <> [] -> nonce <> [] -> utf8_valid text = true -> deserialize_upgrade text = Some slate ->
  expected = Some me -> public_key_text dest = public_key_text me ->
  EncryptedMessage_new text dest B a salt nonce = Ok em -> to_json em = Some msg ->
  sign_challenge (msg ++ chal) a = Ok sig ->
  exists proof, from_response from msg chal (sig_to_hex sig) b expected = Ok (slate, proof) /\
    address proof = fa /\ message proof = msg /\ challenge proof = chal /\ signature proof = sig /\
    verify_extract proof expected = Ok (Some dest, slate).
Proof.
  intros Hfa Hkt Ha Hb Hs Hn Hu Hsl -> Hd Hem Hj Hsig.
  destruct (message_roundtrip text dest a A b B salt nonce em) as (Hdest & k & Hk & Hdec); auto.
  set (proof := {| address := fa; message := msg; challenge := chal; signature := sig; key := k;
                   amount := 0; fee := 0; inputs := []; outputs := [] |}).
  assert (verify_extract proof (Some me) = Ok (Some dest, slate)) as Hv.
  { unfold verify_extract. cbn [proof address message challenge signature key].
    unfold GrinboxAddress_public_key, mq_public_key. rewrite Hkt, key_text_parse. cbn [map_err mbind outcome_bind].
    rewrite (sign_then_verify _ a A sig) by (done || unfold public_key_from_secret_key; by rewrite Ha).
    cbn [map_err mbind outcome_bind]. rewrite (serde_roundtrip _ _ Hj). cbn [ok_or mbind outcome_bind].
    rewrite Hdest, bool_decide_eq_true_2 by done. cbn [negb]. rewrite Hdec. cbn. by rewrite Hsl. }
  exists proof. split_and!; try done. unfold from_response. rewrite Hfa. cbn [map_err mbind outcome_bind].
  rewrite sig_hex_roundtrip. cbn [map_err mbind outcome_bind].
  unfold GrinboxAddress_public_key, mq_public_key. rewrite Hkt, key_text_parse. cbn [map_err mbind outcome_bind].
  rewrite (serde_roundtrip _ _ Hj). cbn [ok_or mbind outcome_bind]. rewrite Hk. cbn [map_err mbind outcome_bind].
  fold proof. by rewrite Hv.
Qed.
End tx_proof.

(** ** Storage

    The part of the file system the proofs use: existing directories and the
    contents of files, by path components.  A file can be created in a
    directory that exists. *)

Record Fs : Type := { dirs : gset (list str); files : gmap (list str) str }.

Definition TX_PROOF_SAVE_DIR : str := lit "saved_proofs".

Section storage.
Context {L : CryptoLib} {ST : Serde TxProof}.

Definition proof_dir (data_file_dir : str) : list str := [data_file_dir; TX_PROOF_SAVE_DIR].
Definition proof_path (data_file_dir uuid : str) : list str :=
  let filename := uuid ++ lit ".proof" in
  proof_dir data_file_dir ++ [filename].

(** [fs::create_dir_all]. *)
Definition create_dir_all (path : list str) (fs : Fs) : Fs :=
  {| dirs := dirs fs ∪ list_to_set ((fun n => take n path) <$> seq 1 (length path)); files := files fs |}.

Definition init_proof_backend (data_file_dir : str) : stM Fs Error () :=
  st_modify (create_dir_all (proof_dir data_file_dir)).

Definition has_stored_tx_proof (data_file_dir uuid : str) : stM Fs Error bool :=
  fun fs => (Ok (bool_decide (is_Some (files fs !! proof_path data_file_dir uuid))), fs).

Definition get_stored_tx_proof (data_file_dir uuid : str) : stM Fs Error TxProof :=
  fun fs =>
    (match files fs !! proof_path data_file_dir uuid with
     | None => fail TransactionHasNoProof
     | Some content => ok_or (External (lit "json")) (of_json content)
     end, fs).

Definition store_tx_proof (self : TxProof) (data_file_dir uuid : str) : stM Fs Error () :=
  fun fs =>
    let path := proof_path data_file_dir uuid in
    if bool_decide (proof_dir data_file_dir ∈ dirs fs) then
      let created := {| dirs := dirs fs; files := <[path := []]> (files fs) |} in
      match to_json self with
      | None => (Err (External (lit "json")), created)
      | Some proof_ser => (Ok (), {| dirs := dirs fs; files := <[path := proof_ser]> (files fs) |})
      end
    else (Err (External (lit "No such file or directory")), fs).

Lemma proof_path_inj d u v : proof_path d u = proof_path d v -> u = v.
Proof.
  unfold proof_path, proof_dir. cbn [app]. intros [= H].
  by apply app_inj_2 in H as [-> _].
Qed.

Lemma init_creates d fs : proof_dir d ∈ dirs (snd (init_proof_backend d fs)).
Proof. cbn. set_solver. Qed.
End storage.

(** ** Concrete slates and proofs *)

Import Toy Backtrack ToyPlatform ToySerde ToyMessage.

Module ToySlate.
Record toy_slate : Type := {
  ts_id : str; ts_amount : Z; ts_fee : Z; ts_participants : nat; ts_data : list (str * option str);
}.
#[export, refine] Instance slate_packed : Packed toy_slate := {|
  to_fields s := [ts_id s; small (ts_amount s); small (ts_fee s); small (ts_participants s); small (ts_data s)];
  of_fields l := match l with
    | [i; a; f; n; d] =>
        a ← of_small a; f ← of_small f; n ← of_small n; d ← of_small d;
        Some {| ts_id := i; ts_amount := a; ts_fee := f; ts_participants := n; ts_data := d |}
    | _ => None end |}.
Proof. intros []. cbn. repeat (rewrite of_small_small; cbn). done. Defined.
#[export] Instance slates : SlateLib := {|
  Slate := toy_slate;
  slate_id := ts_id;
  slate_amount := ts_amount;
  slate_fee := ts_fee;
  num_participants := ts_participants;
  participant_data := ts_data;
  deserialize_upgrade := of_json;
  slate_to_json := to_json;
|}.
Definition a_slate : Slate :=
  {| ts_id := lit "0001"; ts_amount := 5; ts_fee := 1; ts_participants := 2; ts_data := [(lit "k", None)] |}.
Definition a_text : str := default [] (slate_to_json a_slate).

#[export, refine] Instance proof_packed : Packed (TxProof (L := lib)) := {|
  to_fields p := [pack (to_fields (address p : MqAddress)); message p; challenge p;
    (signature p : str * ascii).1; [(signature p : str * ascii).2]; key p; small (amount p); small (fee p);
    pack (inputs p); pack (outputs p)];
  of_fields l := match l with
    | [a; m; c; s1; [s2]; k; am; f; i; o] =>
        a ← of_fields (unpack a); am ← of_small am; f ← of_small f;
        Some (Build_TxProof lib a m c (s1, s2) k am f (unpack i) (unpack o))
    | _ => None end |}.
Proof.
  intros [[ak ad ap] m c [s1 s2] k am f i o]. cbn -[pack unpack small of_small]. rewrite !unpack_pack.
  repeat (cbn -[pack unpack small of_small]; rewrite ?of_small_small). done.
Defined.
End ToySlate.
Import ToySlate.

(** ** Properties *)


Definition toy_from : GrinboxAddress :=
  {| public_key_text := key_text (toy_pk 7); domain := lit "mq.mwc.mw"; port := None |}.
Definition toy_em : EncryptedMessage :=
  match EncryptedMessage_new a_text toy_dest (toy_pk 9) (toy_sk 7) (lit "saltsalt") (lit "noncenonceno") with
  | Ok em => em
  | _ => {| destination := None; encrypted_message := []; salt := []; nonce := [] |}
  end.
Definition toy_msg : str := default [] (to_json toy_em).
Definition toy_sig_hex : str :=
  match sign_challenge (toy_msg ++ lit "42") (toy_sk 7) with Ok s => sig_to_hex s | _ => [] end.

Definition toy_proof : TxProof :=
  {| address := toy_from; message := toy_msg; challenge := lit "42"; signature := toy_sig (sha256 (toy_msg ++ lit "42")) 7;
     key := match EncryptedMessage_key toy_em (toy_pk 7) (toy_sk 9) with Ok k => k | _ => [] end;
     amount := 0; fee := 0; inputs := []; outputs := [] |}.


(** Proof storage.  Once the directory exists a stored proof is found and
    read back unchanged, no other proof is affected, and before it is stored
    the answer is [TransactionHasNoProof]; without the directory storing
    fails and changes nothing. *)
Theorem proof_storage {L : CryptoLib} {ST : Serde TxProof} {STL : SerdeLaws TxProof} dir uuid (p : TxProof) text fs :
  to_json p = Some text ->
  (let fs0 := snd (init_proof_backend dir fs) in
   files fs0 = files fs /\
   exists fs1, store_tx_proof p dir uuid fs0 = (Ok (), fs1) /\
     get_stored_tx_proof dir uuid fs1 = (Ok p, fs1) /\ has_stored_tx_proof dir uuid fs1 = (Ok true, fs1) /\
     forall other, other <> uuid -> fst (get_stored_tx_proof dir other fs1) = fst (get_stored_tx_proof dir other fs)) /\
  (files fs !! proof_path dir uuid = None -> fst (get_stored_tx_proof dir uuid fs) = fail TransactionHasNoProof) /\
  (proof_dir dir ∉ dirs fs -> exists e, store_tx_proof p dir uuid fs = (Err e, fs)).
Proof.
  intros Hj. split_and!.
  - intros fs0. split; [done|]. unfold store_tx_proof. rewrite bool_decide_eq_true_2 by apply init_creates.
    rewrite Hj. eexists. split; [done|]. unfold get_stored_tx_proof, has_stored_tx_proof. cbn [files].
    rewrite lookup_insert_eq, (serde_roundtrip _ _ Hj). split_and!; [done|by rewrite bool_decide_eq_true_2|].
    intros other Hne. rewrite lookup_insert_ne; [done|]. intros E%proof_path_inj. by destruct Hne.
  - intros Hn. unfold get_stored_tx_proof. by rewrite Hn.
  - intros Hn. unfold store_tx_proof. rewrite bool_decide_eq_false_2 by done. eauto.
Qed.

Lemma proof_storage_witness :
  let p := {| address := toy_from; message := lit "m"; challenge := []; signature := toy_sig [] 7; key := lit "k";
              amount := 5; fee := 1; inputs := []; outputs := [lit "c"] |} in
  exists fs1, store_tx_proof p (lit "data") (lit "u1")
      (snd (init_proof_backend (lit "data") {| dirs := ∅; files := ∅ |})) = (Ok (), fs1) /\
    get_stored_tx_proof (lit "data") (lit "u1") fs1 = (Ok p, fs1).
Proof.
  intros p.
  destruct (proof_storage (lit "data") (lit "u1") p (default [] (to_json p)) {| dirs := ∅; files := ∅ |})
    as ((_ & fs1 & H1 & H2 & _) & _); [reflexivity|].
  exists fs1. split; [exact H1 | exact H2].
Defined.
