(* ===== verification/AddressBook.v ===== *)
(** * The address book

    [contacts/types.rs] 64-151, [contacts/backend.rs] and [do_contacts] of
    [main.rs].  The database is the class [KvStore]: committed states, batches
    that become the committed state at [commit], and iteration over a prefix.
    The book is proved against that interface; [ToyStore] implements it. *)

From S2P Require Import Prelude Str Errors Regex Base58 Crypto Address Message.
Local Open Scope Z_scope.

(** ** The store ([grin_store], over LMDB) and the record encoding *)

Class KvStore : Type := {
  Db : Type;
  Tx : Type;                               (* a batch, with what has been written to it *)
  to_key : ascii -> str -> str;
  kv_get : Db -> str -> option str;        (* [None]: no entry, which is an error too, or the error of the read *)
  kv_batch : Db -> result Tx;
  kv_put : Tx -> str -> str -> result Tx;
  kv_delete : Tx -> str -> result Tx;
  kv_commit : Tx -> result Db;
  (** the entries whose key starts with a byte string, read with a decoder; the
      code unwraps the start of the walk, which is taken to succeed *)
  kv_iter : forall {A}, Db -> str -> (str -> option A) -> list A;
  (** [writer.write_bytes] and [reader.read_bytes_len_prefix] *)
  write_bytes : str -> str;
  read_bytes_len_prefix : str -> option str;
}.

Class KvLaws (K : KvStore) : Prop := {
  to_key_inj p a b : to_key p a = to_key p b -> a = b;
  to_key_prefix p a : starts_with [p] (to_key p a) = true;
  (** a batch of one write, or of one deletion, once it is committed; deleting
      what is not there is an error *)
  put_commit db t k v t' db' : kv_batch db = Ok t -> kv_put t k v = Ok t' -> kv_commit t' = Ok db' ->
    kv_get db' k = Some v /\ forall k', k' <> k -> kv_get db' k' = kv_get db k';
  delete_commit db t k t' db' : kv_batch db = Ok t -> kv_delete t k = Ok t' -> kv_commit t' = Ok db' ->
    is_Some (kv_get db k) /\ kv_get db' k = None /\ forall k', k' <> k -> kv_get db' k' = kv_get db k';
  (** when every entry under the prefix decodes, the iterator yields exactly them *)
  iter_complete {A} db p (dec : str -> option A) x :
    (forall k v, starts_with p k = true -> kv_get db k = Some v -> is_Some (dec v)) ->
    x ∈ kv_iter db p dec <-> exists k v, starts_with p k = true /\ kv_get db k = Some v /\ dec v = Some x;
  read_write bs : read_bytes_len_prefix (write_bytes bs) = Some bs;
}.

Record Contact : Type := { name : str; contact_address : str }.

(** The JSON of a contact: [json!({name, address})], and the two members of a
    parsed value when they are strings ([as_str]). *)
Class ContactJson : Type := {
  contact_json : str -> str -> str;
  contact_of_json : str -> option (option str * option str);
}.
Class ContactJsonLaws (J : ContactJson) : Prop := {
  contact_json_roundtrip n a : contact_of_json (contact_json n a) = Some (Some n, Some a);
  contact_json_utf8 n a : utf8_valid (contact_json n a) = true;
}.

Section contacts.
Context {L : CryptoLib} {R : RegexEngine} {P : Platform} {K : KvStore} {J : ContactJson}.

Definition Contact_new (name : str) (address : Address) : result Contact :=
  Ok {| name := name; contact_address := Address_display address |}.
Definition get_name (self : Contact) : str := name self.
Definition get_address (self : Contact) : str := contact_address self.
Definition Contact_display (self : Contact) : str := name self ++ lit ": " ++ contact_address self.

(** [Writeable] and [Readable]. *)
Definition Contact_write (self : Contact) : str :=
  let json := contact_json (get_name self) (get_address self) in
  write_bytes json.

Definition CorruptedData {A} : result A := Err (External (lit "corrupted data")).

Definition Contact_read (reader : str) : result Contact :=
  data ← ok_or (External (lit "I/O")) (read_bytes_len_prefix reader);
  (if utf8_valid data then Ok () else CorruptedData) ≫= fun _ =>
  '(json_name, json_address) ← ok_or (External (lit "corrupted data")) (contact_of_json data);
  address ← unwrap json_address;
  address ← map_err (fun _ => External (lit "corrupted data")) (Address_parse address);
  name ← unwrap json_name;
  map_err (fun _ => External (lit "corrupted data")) (Contact_new name address).

(** *** The backend *)

Definition CONTACT_PREFIX : ascii := "X".

Definition backend_get_contact (name : str) : stM Db Error Contact := fun db =>
  let contact_key := to_key CONTACT_PREFIX name in
  (match kv_get db contact_key with
   | Some bytes => Contact_read bytes
   | None => Err (External (lit "not found"))
   end, db).

(** The decoder of the iterator: an entry that does not deserialise. *)
Definition decode_entry (bytes : str) : option Contact :=
  match Contact_read bytes with Ok c => Some c | _ => None end.
Definition backend_contacts (db : Db) : list Contact := kv_iter db [CONTACT_PREFIX] decode_entry.

(** The cell of a batch, which [commit] empties. *)
Definition Batch : Type := option Tx.
Definition backend_batch (db : Db) : result Batch :=
  batch ← kv_batch db;
  Ok (Some batch).
Definition save_contact (contact : Contact) (batch : Batch) : result Batch :=
  let contact_key := to_key CONTACT_PREFIX (get_name contact) in
  tx ← unwrap batch;
  tx ← kv_put tx contact_key (Contact_write contact);
  Ok (Some tx).
Definition delete_contact (name : str) (batch : Batch) : result Batch :=
  let ctx_key := to_key CONTACT_PREFIX name in
  tx ← unwrap batch;
  tx ← kv_delete tx ctx_key;
  Ok (Some tx).
Definition commit (batch : Batch) : result Db := tx ← unwrap batch; kv_commit tx.

(** *** [AddressBook] *)

Definition get_contact (name : str) : stM Db Error Contact := backend_get_contact name.

(** A batch that is not committed is dropped, and the database stays as it was. *)
Definition committed (m : Db -> result Db) : stM Db Error () := fun db =>
  match m db with
  | Ok db' => (Ok (), db')
  | Err e => (Err e, db) | Panic => (Panic, db) | Hang => (Hang, db)
  end.

Definition add_contact (contact : Contact) : stM Db Error () := fun db =>
  let '(result, db) := get_contact (name contact) db in
  match result with
  | Ok _ => (fail (ContactAlreadyExists (name contact)), db)
  | Err _ => committed (fun db => batch ← backend_batch db; batch ← save_contact contact batch; commit batch) db
  | Panic => (Panic, db) | Hang => (Hang, db)
  end.

Definition remove_contact (name : str) : stM Db Error () :=
  committed (fun db => batch ← backend_batch db; batch ← delete_contact name batch; commit batch).

Definition contacts (db : Db) : list Contact := backend_contacts db.

Definition get_contact_by_address (address : str) : stM Db Error Contact := fun db =>
  (match filter (fun c => contact_address c = address) (contacts db) with
   | contact :: _ => Ok contact
   | [] => fail (ContactNotFound address)
   end, db).

(** *** [do_contacts] *)

Definition contact_address_of (address : str) : result Address :=
  match Address_parse address with
  | Ok address => Ok address
  | Err e => AGrinbox <$> map_err (fun _ => e) (GrinboxAddress_from_str address)
  | Panic => Panic
  | Hang => Hang
  end.

Definition do_contacts_add (name address : str) : stM Db Error () :=
  let contact_address := contact_address_of address in
  contact ← st_lift (contact_address ≫= Contact_new name);
  add_contact contact.
Definition do_contacts_remove (name : str) : stM Db Error () := remove_contact name.
Definition do_contacts_list (db : Db) : list str :=
  let lines := (fun c => lit "@" ++ get_name c ++ lit " = " ++ get_address c) <$> contacts db in
  match lines with
  | [] => [lit "your contact list is empty. consider using `contacts add` to add a new contact."]
  | _ => lines
  end.

Context {Laws : CryptoLaws L} {RL : RegexLaws R} {KL : KvLaws K} {JL : ContactJsonLaws J}.

(** Contacts hold the text of a parsed address. *)
Definition contact_wf (c : Contact) : Prop :=
  exists a, Address_wf a /\ contact_address c = Address_display a.

(** The invariant of the book: an entry under the prefix is the encoding of a
    contact, under the key of its name. *)
Definition book_wf (db : Db) : Prop :=
  forall k v, starts_with [CONTACT_PREFIX] k = true -> kv_get db k = Some v ->
    exists c, contact_wf c /\ v = Contact_write c /\ k = to_key CONTACT_PREFIX (name c).

Lemma Contact_read_write c : contact_wf c -> Contact_read (Contact_write c) = Ok c.
Proof.
  intros (a & Ha & Hc). unfold Contact_read, Contact_write. rewrite read_write. cbn [ok_or mbind outcome_bind].
  rewrite contact_json_utf8. cbn [mbind outcome_bind]. rewrite contact_json_roundtrip. cbn [ok_or mbind outcome_bind unwrap].
  unfold get_name, get_address. rewrite Hc, Address_parse_display_eq by done. cbn [map_err mbind outcome_bind Contact_new].
  rewrite Address_normalise_display, <- Hc. by destruct c.
Qed.

Lemma decode_write c : contact_wf c -> decode_entry (Contact_write c) = Some c.
Proof. intros Hc. unfold decode_entry. by rewrite Contact_read_write. Qed.

Lemma backend_get_cases db n :
  book_wf db ->
  backend_get_contact n db =
    (match kv_get db (to_key CONTACT_PREFIX n) with
     | Some v => default (Err (External (lit "not found"))) (Ok <$> decode_entry v)
     | None => Err (External (lit "not found"))
     end, db) /\
  (forall v, kv_get db (to_key CONTACT_PREFIX n) = Some v ->
     exists c, contact_wf c /\ name c = n /\ v = Contact_write c).
Proof.
  intros Hwf. assert (forall v, kv_get db (to_key CONTACT_PREFIX n) = Some v ->
     exists c, contact_wf c /\ name c = n /\ v = Contact_write c) as H.
  { intros v Hv. destruct (Hwf _ _ (to_key_prefix _ _) Hv) as (c & Hc & -> & Hk).
    exists c. split_and!; [done | symmetry; by apply to_key_inj in Hk | done]. }
  split; [|done]. unfold backend_get_contact. destruct (kv_get _ _) as [v|] eqn:Hv; [|done].
  destruct (H v eq_refl) as (c & Hc & _ & ->). by rewrite Contact_read_write, decode_write.
Qed.

(** [get_contact] finds exactly the contacts of the book. *)
Lemma get_contact_spec db n c :
  book_wf db ->
  fst (get_contact n db) = Ok c <->
  contact_wf c /\ name c = n /\ kv_get db (to_key CONTACT_PREFIX n) = Some (Contact_write c).
Proof.
  intros Hwf. destruct (backend_get_cases db n Hwf) as [E H]. unfold get_contact. rewrite E. cbn [fst].
  destruct (kv_get _ _) as [v|] eqn:Hv.
  - destruct (H v eq_refl) as (c' & Hc' & Hn & ->). rewrite decode_write by done. cbn. split.
    + intros [= <-]. done.
    + intros (Hc & _ & [= E2]). f_equal. pose proof (decode_write c' Hc') as H1. rewrite E2, decode_write in H1 by done.
      by injection H1.
  - split; [done | by intros (_ & _ & ?)].
Qed.

Lemma get_contact_err db n :
  book_wf db -> (forall c, fst (get_contact n db) <> Ok c) ->
  exists e, get_contact n db = (Err e, db) /\ kv_get db (to_key CONTACT_PREFIX n) = None.
Proof.
  intros Hwf Hno. destruct (backend_get_cases db n Hwf) as [E H]. unfold get_contact in *. rewrite E in *. cbn [fst] in *.
  destruct (kv_get _ _) as [v|] eqn:Hv; [|by eexists].
  destruct (H v eq_refl) as (c' & Hc' & Hn & ->). rewrite decode_write in Hno by done. by destruct (Hno c').
Qed.

(** What the store does for one write, and for one deletion, when it accepts it. *)
Definition stores (db : Db) (k v : str) (db' : Db) : Prop :=
  exists t t', kv_batch db = Ok t /\ kv_put t k v = Ok t' /\ kv_commit t' = Ok db'.
Definition deletes (db : Db) (k : str) (db' : Db) : Prop :=
  exists t t', kv_batch db = Ok t /\ kv_delete t k = Ok t' /\ kv_commit t' = Ok db'.

Lemma committed_spec m db :
  (forall db', committed m db = (Ok (), db') <-> m db = Ok db') /\
  (forall r db', committed m db = (r, db') -> r <> Ok () -> db' = db).
Proof. unfold committed. destruct (m db); split; naive_solver. Qed.
Lemma save_stores c db db' :
  (batch ← backend_batch db; batch ← save_contact c batch; commit batch) = Ok db' <->
  stores db (to_key CONTACT_PREFIX (name c)) (Contact_write c) db'.
Proof.
  unfold backend_batch, save_contact, commit, stores, get_name.
  split.
  - intros (b & (t & Ht & [= <-])%bind_Ok & (b' & (t0 & [= <-] & (t' & Ht' & [= <-])%bind_Ok)%bind_Ok & Hc)%bind_Ok)%bind_Ok. by exists t, t'.
  - intros (t & t' & Ht & Ht' & Hc). rewrite Ht. cbn. by rewrite Ht'.
Qed.
Lemma delete_deletes n db db' :
  (batch ← backend_batch db; batch ← delete_contact n batch; commit batch) = Ok db' <->
  deletes db (to_key CONTACT_PREFIX n) db'.
Proof.
  unfold backend_batch, delete_contact, commit, deletes.
  split.
  - intros (b & (t & Ht & [= <-])%bind_Ok & (b' & (t0 & [= <-] & (t' & Ht' & [= <-])%bind_Ok)%bind_Ok & Hc)%bind_Ok)%bind_Ok. by exists t, t'.
  - intros (t & t' & Ht & Ht' & Hc). rewrite Ht. cbn. by rewrite Ht'.
Qed.

Lemma add_contact_cases db c :
  book_wf db ->
  ((exists c', fst (get_contact (name c) db) = Ok c') /\ add_contact c db = (fail (ContactAlreadyExists (name c)), db)) \/
  ((forall c', fst (get_contact (name c) db) <> Ok c') /\
   add_contact c db = committed (fun db => batch ← backend_batch db; batch ← save_contact c batch; commit batch) db).
Proof.
  intros Hwf. destruct (backend_get_cases db (name c) Hwf) as [E H]. unfold add_contact, get_contact in *. rewrite E.
  destruct (kv_get _ _) as [v|]; [|right; split; done]. destruct (H v eq_refl) as (c' & Hc' & _ & ->).
  rewrite decode_write by done. left. cbn. split; [by exists c' | done].
Qed.

Lemma stores_wf db c db' :
  book_wf db -> contact_wf c -> stores db (to_key CONTACT_PREFIX (name c)) (Contact_write c) db' ->
  book_wf db' /\ fst (get_contact (name c) db') = Ok c /\
  forall n, n <> name c -> fst (get_contact n db') = fst (get_contact n db).
Proof.
  intros Hwf Hc (t & t' & H1 & H2 & H3). destruct (put_commit _ _ _ _ _ _ H1 H2 H3) as [Hget Hne].
  assert (book_wf db') as Hwf'.
  { intros k v Hk Hv. destruct (decide (k = to_key CONTACT_PREFIX (name c))) as [->|Hn].
    - rewrite Hget in Hv. injection Hv as <-. by exists c.
    - rewrite Hne in Hv by done. by apply Hwf. }
  split_and!; [done | by apply get_contact_spec |].
  intros n Hn. unfold get_contact, backend_get_contact. rewrite Hne; [done|]. by intros ?%to_key_inj.
Qed.
Lemma deletes_wf db n db' :
  book_wf db -> deletes db (to_key CONTACT_PREFIX n) db' ->
  book_wf db' /\ (exists c, fst (get_contact n db) = Ok c) /\ (forall c', fst (get_contact n db') <> Ok c') /\
  forall n', n' <> n -> fst (get_contact n' db') = fst (get_contact n' db).
Proof.
  intros Hwf (t & t' & H1 & H2 & H3). destruct (delete_commit _ _ _ _ _ H1 H2 H3) as ([v Hv] & Hget & Hne).
  assert (book_wf db') as Hwf'.
  { intros k v' Hk Hv'. destruct (decide (k = to_key CONTACT_PREFIX n)) as [->|Hn].
    - by rewrite Hget in Hv'.
    - rewrite Hne in Hv' by done. by apply Hwf. }
  split_and!; [done | | |].
  - destruct (Hwf _ _ (to_key_prefix _ _) Hv) as (c & Hc & -> & Hk%to_key_inj). subst n. exists c. by apply get_contact_spec.
  - intros c' (_ & _ & H)%get_contact_spec; [|done]. by rewrite Hget in H.
  - intros n' Hn. unfold get_contact, backend_get_contact. rewrite Hne; [done|]. by intros ?%to_key_inj.
Qed.

Lemma contacts_spec db c :
  book_wf db -> c ∈ contacts db <-> fst (get_contact (name c) db) = Ok c.
Proof.
  intros Hwf. unfold contacts, backend_contacts. rewrite iter_complete.
  - rewrite get_contact_spec by done. split.
    + intros (k & v & Hk & Hv & Hd). destruct (Hwf k v Hk Hv) as (c' & Hc' & -> & ->).
      rewrite decode_write in Hd by done. by injection Hd as ->.
    + intros (Hc & _ & Hg). eexists _, _. split_and!; [apply to_key_prefix | exact Hg | by apply decode_write].
  - intros k v Hk Hv. destruct (Hwf k v Hk Hv) as (c' & Hc' & -> & _). rewrite decode_write by done. eauto.
Qed.
End contacts.

(** ** The fallback of [contacts add] *)

Section fallback.
Context {L : CryptoLib} {Laws : CryptoLaws L} {R : RegexEngine} {RL : RegexLaws R} {P : Platform}.

Lemma mq_from_str_unmatched scheme dd s :
  captures (mq_regex scheme) s = None -> mq_from_str (mq_regex scheme) dd s = fail (GrinboxAddressParsingError s).
Proof. intros E. unfold mq_from_str. by rewrite E. Qed.

(** Without a scheme both parsers read the same key and port. *)
Lemma bare_same_failure pk t e :
  key_ok pk -> tail_ok t -> MWCMQSAddress_from_str (pk ++ tail_text t) = Err e ->
  exists e', GrinboxAddress_from_str (pk ++ tail_text t) = Err e'.
Proof.
  intros Hpk Ht. unfold MWCMQSAddress_from_str, GrinboxAddress_from_str, MWCMQ_ADDRESS_REGEX, GRINBOX_ADDRESS_REGEX.
  rewrite (mq_from_str_matched (lit "mwcmqs://") _ [] pk t) by auto using scheme_ok_mwcmqs.
  rewrite (mq_from_str_matched (lit "mwcmq://") _ [] pk t) by auto using scheme_ok_mwcmq.
  destruct (parse_port (tail_port t)); cbn [mbind outcome_bind]; try done; [|eauto].
  destruct (pk_of_base58_check pk version_bytes); cbn [mbind outcome_bind]; try done; [|eauto].
  unfold mq_new. by rewrite key_text_spec.
Qed.

(** A text with another scheme is no message-queue address. *)
Lemma other_scheme_unmatched ty rest :
  ty ∈ schemes -> ty <> lit "mwcmq" ->
  captures (mq_regex (lit "mwcmq://")) (ty ++ lit "://" ++ rest) = None.
Proof.
  intros Hty Hne. destruct (captures _ _) as [k|] eqn:E; [exfalso|done].
  apply captures_sound, mq_match in E as (pre & pk & t & Hpre & [Hl Hb] & _ & E & _).
  assert ((":"%char ∉ ty) /\ (length ty < 52)%nat) as [Hc Hlen].
  { unfold schemes in Hty. rewrite !elem_of_cons, elem_of_nil in Hty.
    destruct Hty as [->|[->|[->|[->|[->|[]]]]]]; (split; [rewrite <- mem_elem_of; by vm_compute | cbn; lia]). }
  destruct Hpre as [-> | ->].
  - change (lit "mwcmq://" ++ ?r) with (lit "mwcmq" ++ ":"%char :: "/"%char :: "/"%char :: r) in E.
    apply app_sep_inj in E as [-> _]; [done | done |]. rewrite <- mem_elem_of. by vm_compute.
  - apply (f_equal (lookup (length ty))) in E.
    rewrite lookup_app_r, Nat.sub_diag in E by lia. cbn [app] in E. rewrite (lookup_app_l pk) in E by lia.
    apply (all_not_in _ _ ":" Hb); [done|]. apply list_elem_of_lookup. exists (length ty). by rewrite <- E.
Qed.

Lemma contact_address_of_eq s : contact_address_of s = Address_parse s.
Proof.
  unfold contact_address_of. destruct (Address_parse s) as [a|e| |] eqn:E; try done.
  assert (exists e', GrinboxAddress_from_str s = Err e') as [e' ->]; [|done].
  unfold Address_parse in E. destruct (captures ADDRESS_REGEX s) as [k|] eqn:Ek.
  - apply captures_sound, scheme_match in Ek as (ty & rest & Hty & Hne & Hr & -> & ->).
    change (group (lit "address_type") _) with (Some ty) in E. cbn [unwrap mbind outcome_bind] in E.
    destruct (decide (ty = lit "mwcmq")) as [->|Hn].
    + rewrite !bool_decide_eq_false_2 in E by done. rewrite bool_decide_eq_true_2 in E by done.
      destruct (GrinboxAddress_from_str _); try done. eauto.
    + eexists. by apply mq_from_str_unmatched, other_scheme_unmatched.
  - destruct (captures (mq_regex (lit "mwcmq://")) s) as [k|] eqn:Eg.
    2: { eexists. by apply mq_from_str_unmatched. }
    apply captures_sound, mq_match in Eg as (pre & pk & t & [-> | ->] & Hpk & Ht & -> & _).
    + exfalso. change (lit "mwcmq://" ++ ?r) with (lit "mwcmq" ++ lit "://" ++ r) in Ek.
      assert (pk ++ tail_text t <> []) as Hne by (destruct Hpk as [Hl _]; by destruct pk).
      assert (all dot (pk ++ tail_text t)) as Hd.
      { apply Forall_app. split; [|by apply tail_text_dot]. apply (all_impl base58_class); [|apply Hpk].
        intros [[] [] [] [] [] [] [] []]; by vm_compute. }
      rewrite scheme_captures in Ek; [done | unfold schemes; set_solver | done | done].
    + cbn [app] in *. destruct (MWCMQSAddress_from_str (pk ++ tail_text t)) eqn:Em; try done.
      injection E as ->. by apply (bare_same_failure pk t e).
Qed.
End fallback.

(** ** A store *)

Import Toy Backtrack ToyPlatform ToySerde.

Module ToyStore.
#[export] Instance store : KvStore := {|
  Db := gmap str str;
  Tx := gmap str str;
  to_key p a := p :: a;
  kv_get db k := db !! k;
  kv_batch db := Ok db;
  kv_put db k v := if (length k <=? 511)%nat then Ok (<[k := v]> db) else Err (External (lit "MDB_BAD_VALSIZE"));
  kv_delete db k := match db !! k with Some _ => Ok (delete k db) | None => Err (External (lit "not found")) end;
  kv_commit db := Ok db;
  kv_iter A db p dec := omap (fun kv => if starts_with p kv.1 then dec kv.2 else None) (map_to_list db);
  write_bytes bs := bs;
  read_bytes_len_prefix := Some;
|}.

#[export] Instance store_laws : KvLaws store.
Proof.
  split; cbn; try done.
  - by intros p a b [= ->].
  - intros p a. by rewrite Ascii.eqb_refl.
  - intros db t k v t' db' [= <-] H [= <-]. destruct (length k <=? 511)%nat; [|done]. injection H as <-.
    split; [apply lookup_insert_eq|]. intros. by apply lookup_insert_ne.
  - intros db t k t' db' [= <-] H [= <-]. destruct (db !! k) eqn:E; [|done]. injection H as <-.
    split_and!; [eauto|apply lookup_delete_eq|]. intros. by apply lookup_delete_ne.
  - intros A db p dec x _. rewrite list_elem_of_omap. split.
    + intros ([k v] & Hin%elem_of_map_to_list & Hd). cbn in Hd. destruct (starts_with p k) eqn:Hk; [|done].
      by exists k, v.
    + intros (k & v & Hk & Hv & Hd). exists (k, v). split; [by apply elem_of_map_to_list|]. cbn. by rewrite Hk.
Qed.

#[export] Instance json : ContactJson := {|
  contact_json n a := small (n, a);
  contact_of_json s := '(n, a) ← of_small s; Some (Some n, Some a);
|}.
#[export] Instance json_laws : ContactJsonLaws json.
Proof.
  split; cbn.
  - intros n a. by rewrite of_small_small.
  - intros n a. apply utf8_valid_ascii. unfold small. generalize (encode (n, a)). intros p.
    induction p; cbn; constructor; done.
Qed.
End ToyStore.
Import ToyStore.

(** ** Properties *)

(** C7: the book is a map from names to contacts.  Adding under a name in use is
    refused with [ContactAlreadyExists] and changes nothing.  Adding under a new
    name succeeds exactly when the store begins, writes and commits the batch,
    and then makes exactly that contact readable and listed; removing a contact
    succeeds exactly when the store deletes its entry, and then removes exactly
    that one, which was there.  Both keep the invariant of the database, and an
    addition or removal that the store refuses at any step (a name too long for a
    key, say) fails and changes nothing.  Stored contacts survive the address
    being parsed and printed again at every read. *)
Theorem address_book_map {L : CryptoLib} {Laws : CryptoLaws L} {R : RegexEngine} {RL : RegexLaws R} {P : Platform}
    {K : KvStore} {KL : KvLaws K} {J : ContactJson} {JL : ContactJsonLaws J} db c :
  book_wf db -> contact_wf c ->
  ((exists c', fst (get_contact (name c) db) = Ok c') ->
     add_contact c db = (fail (ContactAlreadyExists (name c)), db)) /\
  ((forall c', fst (get_contact (name c) db) <> Ok c') ->
     (forall db', add_contact c db = (Ok (), db') <->
        exists t t', kv_batch db = Ok t /\ kv_put t (to_key CONTACT_PREFIX (name c)) (Contact_write c) = Ok t' /\ kv_commit t' = Ok db') /\
     (forall r db', add_contact c db = (r, db') -> r <> Ok () -> db' = db) /\
     (forall db', add_contact c db = (Ok (), db') -> book_wf db' /\ fst (get_contact (name c) db') = Ok c /\
        forall c', c' ∈ contacts db' <-> c' = c \/ c' ∈ contacts db)) /\
  (forall n,
     (forall db', remove_contact n db = (Ok (), db') <->
        exists t t', kv_batch db = Ok t /\ kv_delete t (to_key CONTACT_PREFIX n) = Ok t' /\ kv_commit t' = Ok db') /\
     (forall r db', remove_contact n db = (r, db') -> r <> Ok () -> db' = db) /\
     (forall db', remove_contact n db = (Ok (), db') -> book_wf db' /\ (exists c', fst (get_contact n db) = Ok c') /\
        forall c', c' ∈ contacts db' <-> c' ∈ contacts db /\ name c' <> n)).
Proof.
  intros Hwf Hc. split; [|split].
  - intros [c' Hget]. destruct (add_contact_cases db c Hwf) as [[_ ?]|[Hno _]]; [done|]. by destruct (Hno c').
  - intros Hno. destruct (add_contact_cases db c Hwf) as [[[c' Hget] _]|[_ ->]]; [by destruct (Hno c')|].
    destruct (committed_spec (fun db => batch ← backend_batch db; batch ← save_contact c batch; commit batch) db) as [H1 H2].
    split; [|split; [exact H2|]]; [intros db'; by rewrite H1, save_stores|].
    intros db' Hs%H1%save_stores. destruct (stores_wf db c db' Hwf Hc Hs) as (Hwf' & Hget & Hothers).
    split_and!; [done..|]. intros c'. rewrite !contacts_spec by done. destruct (decide (name c' = name c)) as [En|Hne].
    + rewrite En, Hget. split; [intros [= <-]; by left|]. intros [->|Hbad]; [done|]. by destruct (Hno c').
    + rewrite Hothers by done. split; [auto|]. intros [->|]; [done|auto].
  - intros n. unfold remove_contact.
    destruct (committed_spec (fun db => batch ← backend_batch db; batch ← delete_contact n batch; commit batch) db) as [H1 H2].
    split; [|split; [exact H2|]]; [intros db'; by rewrite H1, delete_deletes|].
    intros db' Hs%H1%delete_deletes. destruct (deletes_wf db n db' Hwf Hs) as (Hwf' & Hthere & Hgone & Hothers).
    split_and!; [done..|]. intros c'. rewrite !contacts_spec by done. destruct (decide (name c' = n)) as [<-|Hne].
    + split; [intros H; by destruct (Hgone c')|by intros [_ ?]].
    + rewrite Hothers by done. tauto.
Qed.

Definition toy_contact : Contact :=
  {| name := lit "bob"; contact_address := Address_display (AGrinbox toy_dest) |}.
Lemma toy_contact_wf : contact_wf toy_contact.
Proof.
  exists (AGrinbox toy_dest). split; [|reflexivity].
  split_and!; [by exists (toy_pk 9) | split; [done | by repeat constructor] | done].
Qed.

Lemma address_book_map_witness :
  exists db', add_contact toy_contact (∅ : Db) = (Ok (), db') /\
    (forall c', c' ∈ contacts db' <-> c' = toy_contact \/ c' ∈ contacts (∅ : Db)) /\
  exists e, add_contact {| name := repeat "x"%char 600; contact_address := contact_address toy_contact |} db' = (Err e, db').
Proof.
  assert (forall c', fst (get_contact (name toy_contact) (∅ : Db)) <> Ok c') as Hnew by (intros c'; discriminate).
  destruct (address_book_map (∅ : Db) toy_contact) as (_ & H & _).
  - intros k v _ Hv. discriminate Hv.
  - exact toy_contact_wf.
  - destruct (H Hnew) as (H1 & _ & H3). set (db' := <[to_key CONTACT_PREFIX (name toy_contact) := Contact_write toy_contact]> (∅ : gmap str str)).
    assert (add_contact toy_contact (∅ : Db) = (Ok (), db')) as E by (apply H1; eexists _, _; split_and!; reflexivity).
    exists db'. split; [exact E|]. split; [by apply H3|]. eexists. vm_compute. reflexivity.
Defined.

(** [get_contact_by_address] answers with a contact of the book that has
    the address, and with [ContactNotFound] only when there is none. *)
Theorem contact_by_address {L : CryptoLib} {R : RegexEngine} {P : Platform} {K : KvStore} {J : ContactJson} db a :
  (exists c, get_contact_by_address a db = (Ok c, db) /\ c ∈ contacts db /\ contact_address c = a) \/
  (get_contact_by_address a db = (fail (ContactNotFound a), db) /\
     forall c, c ∈ contacts db -> contact_address c <> a).
Proof.
  unfold get_contact_by_address. destruct (filter _ _) as [|c l] eqn:E.
  - right. split; [done|]. intros c Hc Ha.
    assert (c ∈ filter (fun c => contact_address c = a) (contacts db)) as Hin by (by apply list_elem_of_filter).
    rewrite E in Hin. by apply not_elem_of_nil in Hin.
  - left. assert (c ∈ filter (fun c => contact_address c = a) (contacts db)) as Hin by (rewrite E; left).
    apply list_elem_of_filter in Hin as [Ha Hc]. by exists c.
Qed.

(** The fallback of [contacts add] ("try parse as a general address and
    fallback to mwcmq address") never changes the outcome: the Grinbox parser
    fails on everything [Address::parse] refuses. *)
Theorem contact_fallback_dead {L : CryptoLib} {Laws : CryptoLaws L} {R : RegexEngine} {RL : RegexLaws R} {P : Platform} s :
  contact_address_of s = Address_parse s.
Proof. apply contact_address_of_eq. Qed.

Lemma contact_fallback_dead_witness : contact_address_of (lit "bob") = fail (GrinboxAddressParsingError (lit "bob")).
Proof. rewrite contact_fallback_dead. reflexivity. Defined.
