(* ===== verification/Config.v ===== *)
(** * Configuration

    [common/config.rs] and the functions of [main.rs] that edit the
    configuration ([do_config] and the [config] command).  The TOML codec, the
    home directory and the run mode are the class [ConfigEnv]; the state is the
    contents of the files by path. *)

From S2P Require Import Prelude Str Errors Regex Base58 Crypto Address Message.
Local Open Scope Z_scope.

(** [grin_core::global::ChainTypes]. *)
Inductive ChainTypes : Type := AutomatedTesting | UserTesting | Floonet | Mainnet.
#[export] Instance ChainTypes_eq_dec : EqDecision ChainTypes.
Proof. solve_decision. Defined.

Record Wallet713Config {L : CryptoLib} : Type := {
  chain : ChainTypes;
  wallet713_data_path : str;
  keybase_binary : option str;
  mwcmq_domain_ : option str;
  mwcmq_port : option Z;
  mwcmqs_domain_ : option str;
  mwcmqs_port_ : option Z;
  grinbox_protocol_unsecure_ : option bool;
  grinbox_address_index_ : option Z;
  mwc_node_uri_ : option str;
  mwc_node_secret_ : option str;
  grinbox_listener_auto_start_ : option bool;
  keybase_listener_auto_start_ : option bool;
  max_auto_accept_invoice : option Z;
  default_keybase_ttl : option str;
  owner_api_ : option bool;
  owner_api_address_ : option str;
  owner_api_secret : option str;
  owner_api_include_foreign : option bool;
  foreign_api_ : option bool;
  disable_history_ : option bool;
  foreign_api_address_ : option str;
  foreign_api_secret : option str;
  tls_certificate_file : option str;
  tls_certificate_key : option str;
  config_home : option str;              (* not stored in the file *)
  grinbox_address_key : option SecretKey;  (* not stored in the file *)
  wallet_updater_frequency_sec : option Z;
}.

Section updates.
Context {L : CryptoLib}.

(** Field updates. *)
Definition with_paths (data_path : str) (home : option str) (key : option SecretKey) (c : Wallet713Config) : Wallet713Config :=
  {| chain := chain c; wallet713_data_path := data_path; keybase_binary := keybase_binary c;
     mwcmq_domain_ := mwcmq_domain_ c; mwcmq_port := mwcmq_port c; mwcmqs_domain_ := mwcmqs_domain_ c;
     mwcmqs_port_ := mwcmqs_port_ c; grinbox_protocol_unsecure_ := grinbox_protocol_unsecure_ c;
     grinbox_address_index_ := grinbox_address_index_ c; mwc_node_uri_ := mwc_node_uri_ c;
     mwc_node_secret_ := mwc_node_secret_ c; grinbox_listener_auto_start_ := grinbox_listener_auto_start_ c;
     keybase_listener_auto_start_ := keybase_listener_auto_start_ c; max_auto_accept_invoice := max_auto_accept_invoice c;
     default_keybase_ttl := default_keybase_ttl c; owner_api_ := owner_api_ c; owner_api_address_ := owner_api_address_ c;
     owner_api_secret := owner_api_secret c; owner_api_include_foreign := owner_api_include_foreign c;
     foreign_api_ := foreign_api_ c; disable_history_ := disable_history_ c; foreign_api_address_ := foreign_api_address_ c;
     foreign_api_secret := foreign_api_secret c; tls_certificate_file := tls_certificate_file c;
     tls_certificate_key := tls_certificate_key c; config_home := home; grinbox_address_key := key;
     wallet_updater_frequency_sec := wallet_updater_frequency_sec c |}.
Definition with_node (domain : option str) (port : option Z) (index : option Z) (uri secret : option str)
    (c : Wallet713Config) : Wallet713Config :=
  {| chain := chain c; wallet713_data_path := wallet713_data_path c; keybase_binary := keybase_binary c;
     mwcmq_domain_ := domain; mwcmq_port := port; mwcmqs_domain_ := mwcmqs_domain_ c;
     mwcmqs_port_ := mwcmqs_port_ c; grinbox_protocol_unsecure_ := grinbox_protocol_unsecure_ c;
     grinbox_address_index_ := index; mwc_node_uri_ := uri;
     mwc_node_secret_ := secret; grinbox_listener_auto_start_ := grinbox_listener_auto_start_ c;
     keybase_listener_auto_start_ := keybase_listener_auto_start_ c; max_auto_accept_invoice := max_auto_accept_invoice c;
     default_keybase_ttl := default_keybase_ttl c; owner_api_ := owner_api_ c; owner_api_address_ := owner_api_address_ c;
     owner_api_secret := owner_api_secret c; owner_api_include_foreign := owner_api_include_foreign c;
     foreign_api_ := foreign_api_ c; disable_history_ := disable_history_ c; foreign_api_address_ := foreign_api_address_ c;
     foreign_api_secret := foreign_api_secret c; tls_certificate_file := tls_certificate_file c;
     tls_certificate_key := tls_certificate_key c; config_home := config_home c; grinbox_address_key := grinbox_address_key c;
     wallet_updater_frequency_sec := wallet_updater_frequency_sec c |}.

(** [#[serde(skip)]]: what is left of a configuration in the file. *)
Definition stored (c : Wallet713Config) : Wallet713Config := with_paths (wallet713_data_path c) None None c.
Definition set_config_home (home : str) (c : Wallet713Config) : Wallet713Config :=
  with_paths (wallet713_data_path c) (Some home) (grinbox_address_key c) c.
Definition set_data_path (p : str) (c : Wallet713Config) : Wallet713Config :=
  with_paths p (config_home c) (grinbox_address_key c) c.
Definition set_address_key (k : SecretKey) (c : Wallet713Config) : Wallet713Config :=
  with_paths (wallet713_data_path c) (config_home c) (Some k) c.
Definition set_disable_history (b : bool) (c : Wallet713Config) : Wallet713Config :=
  {| chain := chain c; wallet713_data_path := wallet713_data_path c; keybase_binary := keybase_binary c;
     mwcmq_domain_ := mwcmq_domain_ c; mwcmq_port := mwcmq_port c; mwcmqs_domain_ := mwcmqs_domain_ c;
     mwcmqs_port_ := mwcmqs_port_ c; grinbox_protocol_unsecure_ := grinbox_protocol_unsecure_ c;
     grinbox_address_index_ := grinbox_address_index_ c; mwc_node_uri_ := mwc_node_uri_ c;
     mwc_node_secret_ := mwc_node_secret_ c; grinbox_listener_auto_start_ := grinbox_listener_auto_start_ c;
     keybase_listener_auto_start_ := keybase_listener_auto_start_ c; max_auto_accept_invoice := max_auto_accept_invoice c;
     default_keybase_ttl := default_keybase_ttl c; owner_api_ := owner_api_ c; owner_api_address_ := owner_api_address_ c;
     owner_api_secret := owner_api_secret c; owner_api_include_foreign := owner_api_include_foreign c;
     foreign_api_ := foreign_api_ c; disable_history_ := Some b; foreign_api_address_ := foreign_api_address_ c;
     foreign_api_secret := foreign_api_secret c; tls_certificate_file := tls_certificate_file c;
     tls_certificate_key := tls_certificate_key c; config_home := config_home c; grinbox_address_key := grinbox_address_key c;
     wallet_updater_frequency_sec := wallet_updater_frequency_sec c |}.
Definition set_domain (d : str) (c : Wallet713Config) : Wallet713Config :=
  with_node (Some d) (mwcmq_port c) (grinbox_address_index_ c) (mwc_node_uri_ c) (mwc_node_secret_ c) c.
Definition set_port (p : Z) (c : Wallet713Config) : Wallet713Config :=
  with_node (mwcmq_domain_ c) (Some p) (grinbox_address_index_ c) (mwc_node_uri_ c) (mwc_node_secret_ c) c.
Definition set_node_uri (u : str) (c : Wallet713Config) : Wallet713Config :=
  with_node (mwcmq_domain_ c) (mwcmq_port c) (grinbox_address_index_ c) (Some u) (mwc_node_secret_ c) c.
Definition set_node_secret (s : str) (c : Wallet713Config) : Wallet713Config :=
  with_node (mwcmq_domain_ c) (mwcmq_port c) (grinbox_address_index_ c) (mwc_node_uri_ c) (Some s) c.
Definition set_address_index (i : option Z) (c : Wallet713Config) : Wallet713Config :=
  with_node (mwcmq_domain_ c) (mwcmq_port c) i (mwc_node_uri_ c) (mwc_node_secret_ c) c.

Definition Config_default (chain : ChainTypes) : Wallet713Config :=
  {| chain := chain; wallet713_data_path := lit "wallet713_data"; keybase_binary := None;
     mwcmq_domain_ := None; mwcmq_port := None; mwcmqs_domain_ := None; mwcmqs_port_ := None;
     grinbox_protocol_unsecure_ := None; grinbox_address_index_ := None; mwc_node_uri_ := None;
     mwc_node_secret_ := None; grinbox_listener_auto_start_ := None; keybase_listener_auto_start_ := None;
     max_auto_accept_invoice := None; default_keybase_ttl := Some (lit "24h"); owner_api_ := None;
     owner_api_address_ := None; owner_api_secret := None; owner_api_include_foreign := Some false;
     foreign_api_ := None; disable_history_ := None; foreign_api_address_ := None; foreign_api_secret := None;
     tls_certificate_file := None; tls_certificate_key := None; config_home := None; grinbox_address_key := None;
     wallet_updater_frequency_sec := None |}.
End updates.

(** ** Types kept of the node's configuration *)

Inductive ConfigError : Type :=
| ParseError (file_name message : str)
| FileIOError (file_name message : str)
| FileNotFoundError (file_name : str)
| SerializationError (message : str).
Definition ConfigError_display (e : ConfigError) : str :=
  match e with
  | ParseError file_name message => lit "Error parsing configuration file at " ++ file_name ++ lit " - " ++ message
  | FileIOError file_name message => message ++ lit " " ++ file_name
  | FileNotFoundError file_name => lit "Configuration file not found: " ++ file_name
  | SerializationError message => lit "Error serializing configuration: " ++ message
  end.
(** From an [io::Error], given by its text. *)
Definition ConfigError_from (error : str) : ConfigError := FileIOError [] (lit "Error loading config file: " ++ error).
(** [LoggingConfig] is a type of the library. *)
Record GlobalWalletConfigMembers {L : CryptoLib} {LoggingConfig : Type} : Type := {
  members_wallet : Wallet713Config;
  members_logging : option LoggingConfig;
}.
Record GlobalWalletConfig {L : CryptoLib} {LoggingConfig : Type} : Type := {
  config_file_path : option str;
  members : option (GlobalWalletConfigMembers (LoggingConfig := LoggingConfig));
}.

(** ** The environment *)

(** Contents of files by path. *)
Abbreviation Files := (gmap str str).
Class ConfigEnv {L : CryptoLib} : Type := {
  dirs_home_dir : option str;               (* [dirs::home_dir] *)
  current_dir : str;
  chain_shortname : ChainTypes -> str;
  is_cli : bool;
  toml_to_string : Wallet713Config -> option str;
  toml_from_str : str -> option Wallet713Config;
  file_create : Files -> str -> bool;       (* [File::create] *)
  write_all : str -> str -> option str;     (* path, text; what is in the file when an error ends the writing *)
}.
(** The comment lines at the top of the file; [@] stands for a quotation mark. *)
Definition at_quotes (s : str) : str := (fun c => if Ascii.eqb c "@" then chr 34 else c) <$> s.
Definition WALLET713_CONFIG_HELP : str := at_quotes (lit
"#########################################
### WALLET 713 CONFIGURATION          ###
#########################################

# Blockcahin to use: 'Mainnet' or 'Floonet'
# chain = @Floonet@

# Path for mwc713 wallet data
# wallet713_data_path = @wallet713_data@

# Path to the keybase binary
# keybase_binary = @keybase@

# Legacy Grin Box connection URI. Depricated unsecure method of communication, not recommended for usage
# If you decided to use it, specify URI.
# mwcmq_domain = @legacy.grin.box@
# mwcmq_port   = 443

# Use SSL for Legacy Grin Box connection.
# grinbox_protocol_unsecure = false

# MWC MQS connection settings. By default mwc713 using thhis method for communication.
# mwcmqs_domain: mqs.mwc.mw
# mwcmqs_port: 443

# MWC MQS/GrinBox address defive index. Every new index will give you a new address that will be used for
# communication with message queue
# grinbox_address_index = 1

# MWC node connection URI. Please make sure that you are connecting to the node from correct network.
# mwc_node_uri = @https://mwc713.floonet.mwc.mw@

# MWC node secret
# mwc_node_secret = @11ne3EAUtOXVKwhxm84U@

# Start Message Queue listener automatically if wallet password was provided at start.
# grinbox_listener_auto_start = true

# Start KeyBase listener automatically if wallet password was provided at start.
# keybase_listener_auto_start = true

# Specify maximum amount in nano MWC if you want this wallet automatically accept invoices.
# Example for 5 MWCs:  max_auto_accept_invoice = 50000000000
# Note! Change it if you really understand what you are going!
# max_auto_accept_invoice =

# KetBase TTL period
# default_keybase_ttl = @24h@

# Enable Owner API for this wallet. See for details: https://github.com/mwcproject/mwc713/blob/master/docs/API_documentation.md
# owner_api = false

# Owner API listening address. If you want accept connections from
# the Internet, please make it @0.0.0.0:13415@
# owner_api_address = @127.0.0.1:13415@

# Owner API secret. REST API call required basic authorization with this secret (user: mwc).
# owner_api_secret = @my_secret_password@

# Include the foreign API endpoints on the same port as the owner
# API. Useful for networking environments like AWS ECS that make
# it difficult to access multiple ports on a single service.
# owner_api_include_foreign = false

# Enable Foreign API for this wallet. See for details: https://github.com/mwcproject/mwc713/blob/master/docs/API_documentation.md
# Note! Use this setting if you disable Owner API. Otherwise concider to use 'owner_api_include_foreign' setting
# foreign_api = false

# Foreign API listening address. If you want accept connections from
# the Internet, please make it @0.0.0.0:13416@
# foreign_api_address = @127.0.0.1:13416@

# Foreign API secret. REST API call required basic authorization with this secret (user: mwc).
# foreign_api_secret = @my_secret_password@

# Disable logging history of your mwc713 commands. Recommended for stronger security.
# Also you can disable history with command line argument '--disable-history'
# disable_history = false


# If enabled both tls_certificate_file and tls_certificate_key, TSL will be applicable to all rest API
# Paths to TLS certificate files:
# tls_certificate_file = @path to TLS certificate file@
# tls_certificate_key = @path to TLS certificate private key file@

# Wallet state update frequency. In none, no updates will be run in the background.
# If will be set, will run 'sync' command with defined time interval
# wallet_updater_frequency_sec =

").

Class ConfigLaws {L : CryptoLib} (E : ConfigEnv) : Prop := {
  toml_roundtrip c t : toml_to_string c = Some t ->
    toml_from_str (WALLET713_CONFIG_HELP ++ t) = Some (stored c);
  (** a field with [#[serde(skip)]] is never read from the text *)
  toml_skips t c : toml_from_str t = Some c -> stored c = c;
}.

Section config.
Context {L : CryptoLib} {P : Platform} {E : ConfigEnv}.

(** ** Accessors *)

Definition get_grinbox_secret_key (self : Wallet713Config) : result SecretKey :=
  ok_or (Kind NoWallet) (grinbox_address_key self).
Definition get_mwcmqs_secret_key (self : Wallet713Config) : result SecretKey :=
  ok_or (Kind NoWallet) (grinbox_address_key self).
Definition get_grinbox_public_key (self : Wallet713Config) : result PublicKey :=
  k ← get_grinbox_secret_key self; public_key_from_secret_key k.

Definition disable_history (self : Wallet713Config) : bool := default false (disable_history_ self).
Definition grinbox_protocol_unsecure (self : Wallet713Config) : bool :=
  default windows (grinbox_protocol_unsecure_ self).
Definition get_mwcmq_domain (self : Wallet713Config) : str := default (lit "mq.mwc.mw") (mwcmq_domain_ self).
Definition mwcmqs_domain (self : Wallet713Config) : str := default (lit "mqs.mwc.mw") (mwcmqs_domain_ self).
Definition mwcmqs_port (self : Wallet713Config) : Z := default 443 (mwcmqs_port_ self).
Definition grinbox_address_index (self : Wallet713Config) : Z := default 0 (grinbox_address_index_ self).

Definition get_mwcmqs_address (self : Wallet713Config) : result MWCMQSAddress :=
  public_key ← get_grinbox_public_key self;
  MWCMQSAddress_new public_key (Some (mwcmqs_domain self)) (mwcmqs_port_ self).
Definition get_grinbox_address (self : Wallet713Config) : result GrinboxAddress :=
  public_key ← get_grinbox_public_key self;
  GrinboxAddress_new public_key (Some (get_mwcmq_domain self)) (mwcmq_port self).

Definition mwc_node_uri (self : Wallet713Config) : str :=
  default (match chain self with
           | Mainnet => lit "https://mwc713.mwc.mw"
           | _ => lit "https://mwc713.floonet.mwc.mw"
           end) (mwc_node_uri_ self).
Definition mwc_node_secret (self : Wallet713Config) : option str :=
  match mwc_node_uri_ self with
  | Some _ => mwc_node_secret_ self
  | None => match chain self with
            | Mainnet => Some (lit "11ne3EAUtOXVKwhxm84U")
            | _ => Some (lit "11ne3EAUtOXVKwhxm84U")
            end
  end.

Definition grinbox_listener_auto_start (self : Wallet713Config) : bool :=
  default is_cli (grinbox_listener_auto_start_ self).
Definition keybase_listener_auto_start (self : Wallet713Config) : bool :=
  default false (keybase_listener_auto_start_ self).
Definition owner_api_address (self : Wallet713Config) : str :=
  default (match chain self with Mainnet => lit "127.0.0.1:3420" | _ => lit "127.0.0.1:13420" end)
    (owner_api_address_ self).
Definition foreign_api_address (self : Wallet713Config) : str :=
  default (match chain self with Mainnet => lit "127.0.0.1:3415" | _ => lit "127.0.0.1:13415" end)
    (foreign_api_address_ self).
Definition owner_api (self : Wallet713Config) : bool := default false (owner_api_ self).
Definition foreign_api (self : Wallet713Config) : bool := default false (foreign_api_ self).
Definition is_tls_enabled (self : Wallet713Config) : bool :=
  bool_decide (is_Some (tls_certificate_file self)) && bool_decide (is_Some (tls_certificate_key self)).

Definition Config_display (self : Wallet713Config) : str :=
  lit "wallet713_data_path=" ++ wallet713_data_path self ++ [chr 10] ++
  lit "mwcmq_port=" ++ to_dec (default DEFAULT_GRINBOX_PORT (mwcmq_port self)) ++ [chr 10] ++
  lit "mwc_node_uri=" ++ default (lit "provided by vault713") (mwc_node_uri_ self) ++ [chr 10] ++
  lit "mwc_node_secret={...}".

(** ** Paths

    [std::path] on Unix, on the text of a path. *)

Definition sep : ascii := "/".
(** Trailing separators and [.] components, on the reversed text. *)
Fixpoint strip_back (fuel : nat) (r : str) : str :=
  match fuel with
  | O => r
  | S fuel =>
      match r with
      | c :: d :: r' =>
          if Ascii.eqb c sep then strip_back fuel (d :: r')
          else if Ascii.eqb c "." && Ascii.eqb d sep then strip_back fuel (d :: r')
          else r
      | _ => r
      end
  end.
Fixpoint until_sep (r : str) : str * str :=
  match r with
  | [] => ([], [])
  | c :: r' => if Ascii.eqb c sep then ([], r) else let '(a, b) := until_sep r' in (c :: a, b)
  end.
(** The last component and what is before it, both reversed. *)
Definition last_component (p : str) : option (str * str) :=
  let r := strip_back (length p) (rev p) in
  if bool_decide (r = []) || bool_decide (r = [sep]) then None else Some (until_sep r).

Definition is_absolute (p : str) : bool := starts_with [sep] p.
Definition path_push (p q : str) : str :=
  if is_absolute q then q
  else match last p with
       | Some c => if Ascii.eqb c sep then p ++ q else p ++ sep :: q
       | None => q
       end.
Definition path_parent (p : str) : option str :=
  '(_, before) ← last_component p; Some (rev (strip_back (length before) before)).
Definition path_pop (p : str) : str := default p (path_parent p).
Definition file_name (p : str) : option str :=
  '(c, _) ← last_component p;
  if bool_decide (c = lit ".") || bool_decide (c = lit "..") then None else Some (rev c).

Definition get_data_path (self : Wallet713Config) : str :=
  if is_absolute (wallet713_data_path self) then wallet713_data_path self
  else path_push (path_pop (default (lit "wallet713.toml") (config_home self))) (wallet713_data_path self).
Definition get_data_path_str (self : Wallet713Config) : result str := Ok (get_data_path self).
Definition get_top_level_directory (self : Wallet713Config) : result str := unwrap (path_parent (get_data_path self)).
Definition get_wallet_data_directory (self : Wallet713Config) : result str := unwrap (file_name (get_data_path self)).

(** ** Files *)

Definition WALLET713_HOME : str := lit ".mwc713".
Definition WALLET713_DEFAULT_CONFIG_FILENAME : str := lit "wallet713.toml".
(** The directories are there or can be made. *)
Definition default_home_path (chain : ChainTypes) : str :=
  path_push (path_push (default current_dir dirs_home_dir) WALLET713_HOME) (chain_shortname chain).
Definition default_config_path (chain : ChainTypes) : str := path_push (default_home_path chain) WALLET713_DEFAULT_CONFIG_FILENAME.

Definition config_file (config_path : option str) (chain : ChainTypes) : str :=
  default (default_config_path chain) config_path.

Definition Config_exists (config_path : option str) (chain : ChainTypes) : stM Files Error bool :=
  fun fs => (Ok (bool_decide (is_Some (fs !! config_file config_path chain))), fs).

Definition Config_from_file (config_path : option str) (chain : ChainTypes) : stM Files Error Wallet713Config :=
  fun fs =>
    let config_path := config_file config_path chain in
    (toml_str ← ok_or (External (lit "No such file or directory")) (fs !! config_path);
     config ← ok_or (External (lit "TOML")) (toml_from_str toml_str);
     Ok (set_config_home config_path config), fs).

(** [to_file]: also the updated [self]. *)
Definition Config_to_file (config_path : option str) (self : Wallet713Config) : stM Files Error Wallet713Config :=
  fun fs =>
    let config_path := config_file config_path (chain self) in
    match toml_to_string self with
    | None => (Err (External (lit "TOML")), fs)
    | Some toml_str =>
        let text := WALLET713_CONFIG_HELP ++ toml_str in
        if negb (file_create fs config_path) then (Err (External (lit "I/O")), fs)
        else match write_all config_path text with
             | Some part => (Err (External (lit "I/O")), <[config_path := part]> fs)
             | None => (Ok (set_config_home config_path self), <[config_path := text]> fs)
             end
    end.

(** ** [do_config] and the [config] command *)

(** The values of the command's options. *)
Record ConfigArgs : Type := {
  arg_data_path : option str; arg_domain : option str; arg_port : option str;
  arg_node_uri : option str; arg_node_secret : option str;
}.

Definition when {A B} (o : option A) (f : A -> B -> B) (x : B) : B := match o with Some a => f a x | None => x end.

(** The edits, in order; the port is the one that can fail. *)
Definition apply_args (args : ConfigArgs) (new_address_index : option Z) (config : Wallet713Config) :
    result Wallet713Config :=
  let config := when (arg_data_path args) set_data_path config in
  let config := when (arg_domain args) set_domain config in
  config ← match arg_port args with
           | Some port =>
               port ← ok_or (Kind NumberParsingError) (from_str_radix 16 10 port);
               Ok (set_port port config)
           | None => Ok config
           end;
  let config := when (arg_node_uri args) set_node_uri config in
  let config := when (arg_node_secret args) set_node_secret config in
  Ok (if bool_decide (is_Some new_address_index) then set_address_index new_address_index config else config).

Definition any_args (args : ConfigArgs) (new_address_index : option Z) : bool :=
  bool_decide (is_Some (arg_data_path args)) || bool_decide (is_Some (arg_domain args)) ||
  bool_decide (is_Some (arg_port args)) || bool_decide (is_Some (arg_node_uri args)) ||
  bool_decide (is_Some (arg_node_secret args)) || bool_decide (is_Some new_address_index).

(** The message that is printed when nothing changes is [Config_display]. *)
Definition do_config (args : ConfigArgs) (chain : ChainTypes) (new_address_index : option Z)
    (config_path : option str) : stM Files Error Wallet713Config :=
  exists_ ← Config_exists config_path chain;
  config ← (if exists_ then Config_from_file config_path chain else mret (Config_default chain));
  let any_matches := negb exists_ || any_args args new_address_index in
  config ← st_lift (apply_args args new_address_index config);
  if any_matches then Config_to_file config_path config else mret config.

(** The new index of [config --generate-address]; [checks]: overflow checks. *)
Definition new_index (checks : bool) (generate : bool) (generate_index : option str) (config : Wallet713Config) :
    result (option Z) :=
  if generate then
    Some <$> match generate_index with
             | Some index => ok_or (Kind NumberParsingError) (from_str_radix 32 10 index)
             | None => arith checks 32 (grinbox_address_index config + 1)
             end
  else Ok None.

(** [show_address], as the text it prints. *)
Definition show_address (config : Wallet713Config) : result str :=
  a ← get_grinbox_address config; GrinboxAddress_stripped a.

(** [derive_address_key]; [derive] is the wallet's derivation by index.  The
    key stays in the session's configuration also when showing the address fails. *)
Definition derive_address_key (derive : Z -> result SecretKey) (has_grinbox_broker : bool) :
    stM (Wallet713Config * Files) Error () :=
  if has_grinbox_broker then st_err (Kind HasListener) else
  '(config, fs) ← st_get;
  key ← st_lift (derive (grinbox_address_index config));
  let config := set_address_key key config in
  st_put (config, fs) ≫= fun _ =>
  st_lift (_ ← show_address config; Ok ()).

(** [*config = do_config(...)?]. *)
Definition assign_config (args : ConfigArgs) (new_address_index : option Z) : stM (Wallet713Config * Files) Error () :=
  fun '(config, fs) =>
    match do_config args (chain config) new_address_index (config_home config) fs with
    | (Ok config', fs') => (Ok (), (config', fs'))
    | (Err e, fs') => (Err e, (config, fs'))
    | (Panic, fs') => (Panic, (config, fs'))
    | (Hang, fs') => (Hang, (config, fs'))
    end.

(** The [config] command, on the configuration of the session. *)
Definition config_command (checks : bool) (derive : Z -> result SecretKey) (has_grinbox_broker : bool)
    (args : ConfigArgs) (generate : bool) (generate_index : option str) : stM (Wallet713Config * Files) Error () :=
  '(config, fs) ← st_get;
  new_address_index ← st_lift (new_index checks generate generate_index config);
  (if bool_decide (is_Some new_address_index)
   then st_put (set_address_index new_address_index config, fs) else mret ()) ≫= fun _ =>
  assign_config args new_address_index ≫= fun _ =>
  if bool_decide (is_Some new_address_index) then derive_address_key derive has_grinbox_broker else mret ().

(** ** What the edits keep *)

(** The new value of an optional field. *)
Definition or_else {A} (o d : option A) : option A := match o with Some _ => o | None => d end.

Definition edited (args : ConfigArgs) (port i : option Z) (c : Wallet713Config) : Wallet713Config :=
  with_node (or_else (arg_domain args) (mwcmq_domain_ c)) (or_else port (mwcmq_port c))
    (or_else i (grinbox_address_index_ c)) (or_else (arg_node_uri args) (mwc_node_uri_ c))
    (or_else (arg_node_secret args) (mwc_node_secret_ c))
    (with_paths (default (wallet713_data_path c) (arg_data_path args)) (config_home c) (grinbox_address_key c) c).

Lemma apply_args_eq args i c :
  apply_args args i c =
    match arg_port args with
    | Some t => match from_str_radix 16 10 t with
                | Some p => Ok (edited args (Some p) i c)
                | None => fail NumberParsingError
                end
    | None => Ok (edited args None i c)
    end.
Proof.
  destruct args as [dp dm pt nu ns], c. unfold apply_args. cbn [arg_port].
  destruct pt as [t|]; [destruct (from_str_radix 16 10 t); [|reflexivity]|];
    destruct dp, dm, nu, ns, i; reflexivity.
Qed.

Lemma apply_args_keeps args i c c' :
  apply_args args i c = Ok c' ->
  chain c' = chain c /\ config_home c' = config_home c /\ grinbox_address_key c' = grinbox_address_key c /\
  exists port, c' = edited args port i c /\
    match arg_port args with Some t => exists p, from_str_radix 16 10 t = Some p /\ port = Some p | None => port = None end.
Proof.
  rewrite apply_args_eq. destruct (arg_port args) as [t|]; [destruct (from_str_radix 16 10 t) as [p|]; [|done]|];
    intros [= <-]; split_and!; eauto.
Qed.

Context {EL : ConfigLaws E}.

Lemma from_file_key p ch fs c fs' :
  Config_from_file p ch fs = (Ok c, fs') -> grinbox_address_key c = None /\ fs' = fs /\ config_home c = Some (config_file p ch).
Proof.
  unfold Config_from_file. destruct (fs !! _) as [t|]; [|done]. cbn [ok_or mbind outcome_bind].
  destruct (toml_from_str t) as [c0|] eqn:Hc; [|done]. cbn. intros [= <- <-]. apply toml_skips in Hc.
  split_and!; [|done..]. cbn. by rewrite <- Hc.
Qed.

Lemma to_file_result p c fs r fs' :
  Config_to_file p c fs = (Ok r, fs') ->
  exists t, toml_to_string c = Some t /\ r = set_config_home (config_file p (chain c)) c /\
    fs' = <[config_file p (chain c) := WALLET713_CONFIG_HELP ++ t]> fs.
Proof.
  unfold Config_to_file. destruct (toml_to_string c) as [t|]; [|done]. cbn zeta. destruct (negb _); [done|].
  destruct (write_all _ _); [done|]. intros [= <- <-]. eauto.
Qed.
Lemma to_file_failed p c fs e fs' :
  Config_to_file p c fs = (Err e, fs') -> fs' = fs \/ exists part, fs' = <[config_file p (chain c) := part]> fs.
Proof.
  unfold Config_to_file. destruct (toml_to_string c) as [t|]; [|by intros [= _ <-]; left]. cbn zeta.
  destruct (negb _); [by intros [= _ <-]; left|]. destruct (write_all _ _) as [part|]; [|done]. intros [= _ <-]. eauto.
Qed.

(** [do_config] as a chain of cases. *)
Lemma do_config_eq args ch i p fs :
  do_config args ch i p fs =
    let ex := bool_decide (is_Some (fs !! config_file p ch)) in
    match (if ex then fst (Config_from_file p ch fs) else Ok (Config_default ch)) with
    | Ok base =>
        match apply_args args i base with
        | Ok c => if negb ex || any_args args i then Config_to_file p c fs else (Ok c, fs)
        | Err e => (Err e, fs) | Panic => (Panic, fs) | Hang => (Hang, fs)
        end
    | Err e => (Err e, fs) | Panic => (Panic, fs) | Hang => (Hang, fs)
    end.
Proof.
  unfold do_config, mbind, stM_bind, Config_exists. cbn zeta. destruct (bool_decide _); cbn [fst].
  - destruct (Config_from_file p ch fs) as [r fs1] eqn:Er. assert (fs1 = fs) as -> by (by injection Er as _ <-).
    cbn [fst]. destruct r; try done. unfold st_lift. destruct (apply_args args i _); try done.
    by destruct (negb true || _).
  - unfold mret, stM_ret, st_lift. by destruct (apply_args args i _).
Qed.

(** The key of the session never survives [do_config]. *)
Lemma do_config_drops_key args ch i p fs c fs' :
  do_config args ch i p fs = (Ok c, fs') -> grinbox_address_key c = None.
Proof.
  rewrite do_config_eq. cbn zeta. set (ex := bool_decide _).
  destruct (if ex then _ else _) as [c0| | |] eqn:Er; try done.
  assert (grinbox_address_key c0 = None) as Hk.
  { destruct ex; [|by injection Er as <-].
    by apply (from_file_key p ch fs c0 fs); rewrite <- Er. }
  destruct (apply_args args i c0) as [c1| | |] eqn:Ha; try done.
  apply apply_args_keeps in Ha as (_ & _ & Hk1 & _). rewrite Hk in Hk1.
  destruct (negb ex || any_args args i).
  - intros (t & _ & -> & _)%to_file_result. done.
  - intros [= <- _]. done.
Qed.
End config.

(** ** An environment *)

Import Toy Backtrack ToyPlatform ToySerde.

Module ToyConfig.
#[export] Instance chain_countable : Countable ChainTypes.
Proof.
  apply (inj_countable' (fun c => match c with AutomatedTesting => 0 | UserTesting => 1 | Floonet => 2 | Mainnet => 3 end)
    (fun z => if z =? 0 then AutomatedTesting else if z =? 1 then UserTesting else if z =? 2 then Floonet else Mainnet)).
  by intros [].
Defined.

#[export, refine] Instance config_packed : Packed (Wallet713Config (L := lib)) := {|
  to_fields c := [small (chain c); wallet713_data_path c; small (keybase_binary c); small (mwcmq_domain_ c);
    small (mwcmq_port c); small (mwcmqs_domain_ c); small (mwcmqs_port_ c); small (grinbox_protocol_unsecure_ c);
    small (grinbox_address_index_ c); small (mwc_node_uri_ c); small (mwc_node_secret_ c);
    small (grinbox_listener_auto_start_ c); small (keybase_listener_auto_start_ c); small (max_auto_accept_invoice c);
    small (default_keybase_ttl c); small (owner_api_ c); small (owner_api_address_ c); small (owner_api_secret c);
    small (owner_api_include_foreign c); small (foreign_api_ c); small (disable_history_ c);
    small (foreign_api_address_ c); small (foreign_api_secret c); small (tls_certificate_file c);
    small (tls_certificate_key c); small (config_home c); small (grinbox_address_key c : option ascii);
    small (wallet_updater_frequency_sec c)];
  of_fields l := match l with
    | [f0; f1; f2; f3; f4; f5; f6; f7; f8; f9; g0; g1; g2; g3; g4; g5; g6; g7; g8; g9; h0; h1; h2; h3; h4; h5; h6; h7] =>
        f0 ← of_small f0; f2 ← of_small f2; f3 ← of_small f3; f4 ← of_small f4; f5 ← of_small f5;
        f6 ← of_small f6; f7 ← of_small f7; f8 ← of_small f8; f9 ← of_small f9; g0 ← of_small g0;
        g1 ← of_small g1; g2 ← of_small g2; g3 ← of_small g3; g4 ← of_small g4; g5 ← of_small g5;
        g6 ← of_small g6; g7 ← of_small g7; g8 ← of_small g8; g9 ← of_small g9; h0 ← of_small h0;
        h1 ← of_small h1; h2 ← of_small h2; h3 ← of_small h3; h4 ← of_small h4; h5 ← of_small h5;
        h6 ← of_small h6; h7 ← of_small h7;
        Some (Build_Wallet713Config lib f0 f1 f2 f3 f4 f5 f6 f7 f8 f9 g0 g1 g2 g3 g4 g5 g6 g7 g8 g9 h0 h1 h2 h3 h4 h5 h6 h7)
    | _ => None end |}.
Proof. intros []. cbn -[small of_small]. repeat (rewrite of_small_small; cbn -[small of_small]). done. Defined.

#[export] Instance env : ConfigEnv (L := lib) := {|
  dirs_home_dir := Some (lit "/home/u");
  current_dir := lit "/";
  chain_shortname c := match c with Mainnet => lit "main" | _ => lit "floo" end;
  is_cli := true;
  toml_to_string c := to_json (stored c);
  toml_from_str t := stored <$> of_json (drop (length WALLET713_CONFIG_HELP) t);
  file_create _ _ := true;
  write_all _ _ := None;
|}.
#[export] Instance env_laws : ConfigLaws env.
Proof.
  split.
  - intros c t Ht. unfold toml_from_str, env. rewrite drop_app_length.
    rewrite (serde_roundtrip (stored c) t Ht). by destruct c.
  - unfold toml_from_str, env. intros t c H. destruct (of_json _) as [c0|]; [|done]. injection H as <-. by destruct c0.
Qed.
End ToyConfig.
Import ToyConfig.

(** ** Properties *)

(** C33: after a successful edit the file and the session agree.  What is edited
    is the configuration that was read, or the default one where there is no
    file, with every option that was named set to its value and nothing else
    changed.  It is written to the given path, or else to the default path of the
    chain it names, where the session keeps it from then on; reading it again
    there gives exactly the configuration that was returned, and no other file is
    touched.  So the edit of a default file that names another chain than the one
    it was looked up for leaves that file as it was.  Without an edit no file
    changes.  A failed edit leaves every file alone, unless it is the writing
    that fails: then the file written to has what got there, and the others are
    untouched. *)
Theorem do_config_persists {L : CryptoLib} {E : ConfigEnv} {EL : ConfigLaws E} args ch i p fs :
  let there := bool_decide (is_Some (fs !! config_file p ch)) in
  (forall c fs', do_config args ch i p fs = (Ok c, fs') ->
     let edit := negb there || any_args args i in
     let place := config_file p (if edit then chain c else ch) in
     config_home c = Some place /\ Config_from_file p (if edit then chain c else ch) fs' = (Ok c, fs') /\
     (forall q, q <> place -> fs' !! q = fs !! q) /\ (edit = false -> fs' = fs) /\
     exists base port, c = set_config_home place (edited args port i base) /\
       (if there then fst (Config_from_file p ch fs) = Ok base else base = Config_default ch) /\
       match arg_port args with Some t => exists n, from_str_radix 16 10 t = Some n /\ port = Some n | None => port = None end) /\
  (forall e fs', do_config args ch i p fs = (Err e, fs') ->
     fs' = fs \/ exists base part, fs' = <[config_file p (chain base) := part]> fs /\
       (if there then fst (Config_from_file p ch fs) = Ok base else base = Config_default ch)).
Proof.
  rewrite do_config_eq. cbn zeta. set (ex := bool_decide _).
  destruct (if ex then _ else _) as [base|e| |] eqn:Er; [|split; [done | by intros ?? [= _ <-]; left]|done..].
  destruct (apply_args args i base) as [c1|e| |] eqn:Ha; [|split; [done | by intros ?? [= _ <-]; left]|done..].
  apply apply_args_keeps in Ha as (Hch & Hho & Hk & port & Hc1 & Hport).
  assert (grinbox_address_key base = None /\ (if ex then fst (Config_from_file p ch fs) = Ok base else base = Config_default ch)) as [Hkb Hbase].
  { destruct ex; [split; [by apply (from_file_key p ch fs base fs); rewrite <- Er|done]|]. by injection Er as <-. }
  destruct (negb ex || any_args args i) eqn:Hany.
  - split.
    + intros c fs' (t & Ht & -> & ->)%to_file_result. split; [done|]. split_and!; [|by intros; apply lookup_insert_ne|done|].
      * unfold Config_from_file. rewrite lookup_insert_eq. cbn [ok_or mbind outcome_bind].
        rewrite (toml_roundtrip _ _ Ht). cbn [ok_or mbind outcome_bind]. do 2 f_equal.
        unfold set_config_home, stored. rewrite Hkb in Hk. cbn. by rewrite Hk.
      * exists base, port. by rewrite Hc1.
    + intros e fs' [->|(part & ->)]%to_file_failed; [by left|right]. exists base, part. by rewrite Hch.
  - apply orb_false_iff in Hany as [Hex Hno]. apply negb_false_iff in Hex. rewrite Hex in Er, Hbase |- *.
    assert (config_home base = Some (config_file p ch)) as Hhome
      by (apply (from_file_key p ch fs base fs); by rewrite <- Er). split; [|done].
    intros c fs' [= <- <-]. assert (c1 = base) as ->.
    { unfold any_args in Hno. rewrite !orb_false_iff, !bool_decide_eq_false, <- !eq_None_not_Some in Hno.
      destruct Hno as (((((H1 & H2) & H3) & H4) & H5) & H6). rewrite H3 in Hport. subst port. rewrite Hc1.
      destruct args, base. cbn in H1, H2, H3, H4, H5. subst. reflexivity. }
    split; [done|]. split; [by rewrite <- Er|]. split_and!; [done..|]. exists base, port. rewrite <- Hc1. split_and!; [|done..].
    destruct base. cbn in Hhome |- *. by rewrite Hhome.
Qed.

Definition toy_args : ConfigArgs :=
  {| arg_data_path := None; arg_domain := Some (lit "a.b"); arg_port := Some (lit "13415");
     arg_node_uri := None; arg_node_secret := None |}.
Definition toy_edit : outcome Error Wallet713Config * Files :=
  do_config toy_args Floonet None (Some (lit "/c.toml")) ∅.

Lemma do_config_persists_witness :
  exists c fs', toy_edit = (Ok c, fs') /\
    mwcmq_port c = Some 13415 /\ Config_from_file (Some (lit "/c.toml")) Floonet fs' = (Ok c, fs').
Proof.
  assert (match toy_edit with (Ok c, _) => bool_decide (mwcmq_port c = Some 13415) | _ => false end = true) as H
    by (vm_compute; reflexivity).
  pose proof (proj1 (do_config_persists toy_args Floonet None (Some (lit "/c.toml")) ∅)) as T. fold toy_edit in T.
  destruct toy_edit as [[c|e| |] fs']; [|discriminate H..].
  exists c, fs'. split; [reflexivity|]. split; [exact (proj1 (bool_decide_eq_true _) H)|].
  apply (T c fs' eq_refl).
Defined.

(** C34: [config] without [--generate-address] forgets the session's address
    key, even when it only shows the configuration: every later use of the
    address fails with [NoWallet] until the key is derived again.  With
    [--generate-address] the session ends with the key of the new index. *)
Theorem config_command_key {L : CryptoLib} {P : Platform} {E : ConfigEnv} {EL : ConfigLaws E}
    checks derive broker args generate index config fs config' fs' :
  config_command checks derive broker args generate index (config, fs) = (Ok (), (config', fs')) ->
  if generate
  then exists i key, new_index checks generate index config = Ok (Some i) /\
         grinbox_address_index config' = i /\ derive i = Ok key /\ get_grinbox_secret_key config' = Ok key
  else grinbox_address_key config' = None /\ get_grinbox_address config' = fail NoWallet.
Proof.
  unfold config_command, mbind, stM_bind. cbn [st_get]. unfold st_lift.
  destruct (new_index checks generate index config) as [idx| | |] eqn:Hidx; try done.
  assert (is_Some idx <-> generate = true) as Hgen.
  { unfold new_index in Hidx. destruct generate.
    - destruct (match index with Some _ => _ | None => _ end); try done. injection Hidx as <-. split; eauto.
    - injection Hidx as <-. split; [by intros [] | done]. }
  set (config1 := if bool_decide (is_Some idx) then set_address_index idx config else config).
  assert ((if bool_decide (is_Some idx) then st_put (E := Error) (set_address_index idx config, fs) else mret ()) (config, fs)
    = (Ok (), (config1, fs))) as -> by (unfold config1; by destruct (bool_decide _)).
  unfold assign_config. destruct (do_config _ _ _ _ _) as [r fs1] eqn:Hdo. destruct r as [c2| | |]; try done.
  pose proof (do_config_drops_key _ _ _ _ _ _ _ Hdo) as Hk.
  destruct generate.
  - rewrite bool_decide_eq_true_2 by (by apply Hgen). destruct idx as [i|]; [|by destruct (proj2 Hgen eq_refl)].
    unfold derive_address_key. destruct broker; [done|]. unfold mbind, stM_bind. cbn [st_get].
    unfold st_lift. destruct (derive (grinbox_address_index c2)) as [key| | |] eqn:Hd; try done. cbn [st_put].
    assert (grinbox_address_index c2 = i) as Hi.
    { rewrite do_config_eq in Hdo. cbn zeta in Hdo.
      match type of Hdo with match ?x with _ => _ end = _ => destruct x as [c0| | |] end; try done.
      destruct (apply_args args (Some i) c0) as [c1| | |] eqn:Ha; try done.
      apply apply_args_keeps in Ha as (_ & _ & _ & port & -> & _).
      match type of Hdo with (if ?b then _ else _) = _ => destruct b end.
      - by apply to_file_result in Hdo as (t & _ & -> & _).
      - by injection Hdo as <- _. }
    intros H. exists i, key. rewrite Hi in Hd. split_and!; [done| |done|].
    + destruct (show_address _); try done. injection H as <- _. exact Hi.
    + destruct (show_address _); try done. injection H as <- _. done.
  - rewrite bool_decide_eq_false_2 by (by intros ?%Hgen). intros [= <- _].
    split; [done|]. unfold get_grinbox_address, get_grinbox_public_key, get_grinbox_secret_key. by rewrite Hk.
Qed.

Definition toy_no_args : ConfigArgs :=
  {| arg_data_path := None; arg_domain := None; arg_port := None; arg_node_uri := None; arg_node_secret := None |}.
Definition toy_session : Wallet713Config :=
  set_config_home (lit "/c.toml") (set_address_key (toy_sk 5) (Config_default Mainnet)).
Definition toy_show : outcome Error () * (Wallet713Config * Files) :=
  config_command true (fun _ => Ok (toy_sk 6)) false toy_no_args false None (toy_session, ∅).

Lemma config_command_key_witness :
  is_ok (get_grinbox_address toy_session) = true /\
  exists config' fs', toy_show = (Ok (), (config', fs')) /\ get_grinbox_address config' = fail NoWallet.
Proof.
  split; [vm_compute; reflexivity|].
  assert (is_ok (fst toy_show) = true) as H by (vm_compute; reflexivity).
  pose proof (config_command_key true (fun _ => Ok (toy_sk 6)) false toy_no_args false None toy_session ∅) as T.
  fold toy_show in T. destruct toy_show as [[[]|e| |] [config' fs']]; [|discriminate H..].
  exists config', fs'. split; [reflexivity|]. apply (T config' fs' eq_refl).
Defined.
