(* ===== verification/WalletTypes.v ===== *)
(** * Wallet data

    The structures of the wallet library the program reads, with the fields
    it reads, and the library's functions on them (class [WalletData]). *)

From S2P Require Import Prelude Str Errors TxProof.
Local Open Scope Z_scope.

(** [grin_wallet_libwallet::TxLogEntryType]. *)
Inductive TxLogEntryType : Type :=
| ConfirmedCoinbase
| TxReceived
| TxSent
| TxReceivedCancelled
| TxSentCancelled.
#[export] Instance TxLogEntryType_eq_dec : EqDecision TxLogEntryType.
Proof. solve_decision. Defined.

(** [grin_wallet_libwallet::TxLogEntry]: identifiers and UUIDs by their text. *)
Record TxLogEntry : Type := {
  parent_key_id : str;
  tx_id : Z;                           (* u32 *)
  tx_slate_id : option str;
  tx_type : TxLogEntryType;
  tx_address : option str;
  creation_ts : Z;
  output_height : Z;                   (* u64 *)
  num_outputs : nat;
  amount_credited : Z;                 (* u64 *)
  amount_debited : Z;                  (* u64 *)
  tx_fee : option Z;
  tx_messages : option (list (option str));
  kernel_excess : option Commitment;
  confirmed : bool;
}.
#[export] Instance TxLogEntry_eq_dec : EqDecision TxLogEntry.
Proof. solve_decision. Defined.

(** [grin_wallet_libwallet::OutputData]. *)
Record OutputData : Type := {
  root_key_id : str;
  out_commit : option str;
  out_value : Z;                       (* u64 *)
  n_child : Z;                         (* u32 *)
  out_height : Z;                      (* u64 *)
  out_tx_log_entry : option Z;
}.
#[export] Instance OutputData_eq_dec : EqDecision OutputData.
Proof. solve_decision. Defined.

(** [grin_wallet_libwallet::OutputCommitMapping]: the output it holds. *)
Record OutputCommitMapping : Type := { output : OutputData }.

(** An output as the node gives it, with its place among all outputs. *)
Record NodeOutput : Type := {
  no_commit : Commitment;
  no_proof : str;
  no_height : Z;                       (* u64 *)
  no_mmr_index : Z;                    (* u64 *)
}.

(** The library's functions on them. *)
Class WalletData : Type := {
  is_cancelled : TxLogEntry -> bool;
  eligible_to_spend : OutputData -> Z -> Z -> bool;   (* height, minimum confirmations *)
  Transaction : Type;
  kernels : Transaction -> list Commitment;           (* the excesses *)
  amount_to_hr_string : Z -> bool -> str;
  format_ts : Z -> str;                               (* "%Y-%m-%d %H:%M:%S" *)
  util_to_hex : str -> str;                           (* grin_util::to_hex *)
}.

(** Concrete data for examples. *)
Module ToyWallet.
#[export] Instance data : WalletData := {|
  is_cancelled t := match tx_type t with TxReceivedCancelled | TxSentCancelled => true | _ => false end;
  eligible_to_spend o h c := out_height o + c <=? h + 1;
  Transaction := list Commitment;
  kernels t := t;
  amount_to_hr_string a _ := to_dec a;
  format_ts t := to_dec t;
  util_to_hex s := s;
|}.
Definition toy_tx (id : Z) (ty : TxLogEntryType) (n : nat) (credited debited : Z) (k : option Commitment) : TxLogEntry :=
  {| parent_key_id := lit "m/0"; tx_id := id; tx_slate_id := None; tx_type := ty; tx_address := None;
     creation_ts := 0; output_height := 10; num_outputs := n; amount_credited := credited; amount_debited := debited;
     tx_fee := None; tx_messages := None; kernel_excess := k; confirmed := true |}.
Definition toy_output (c : string) (v child : Z) (entry : option Z) : OutputData :=
  {| root_key_id := lit "m/0"; out_commit := Some (lit c); out_value := v; n_child := child; out_height := 5;
     out_tx_log_entry := entry |}.
End ToyWallet.
