(* ===== verification/BulkValidate.v ===== *)
(** * Bulk validation of the transaction log

    [wallet/api/api.rs]: [calc_best_merge] assigns the wallet's outputs to its
    transactions, [txs_bulk_validate] marks each transaction with the evidence
    found in two dumps of a node and writes a report. *)

From S2P Require Import Prelude Str Errors TxProof WalletTypes.
Local Open Scope Z_scope.

Section merge.
Context {W : WalletData}.
Variable checks : bool.    (* whether overflow checks are compiled in *)

(** ** [calc_best_merge] *)

Abbreviation Entry := (TxLogEntry * list OutputData * bool)%type.

(** [res], the remaining outputs and [next_canlelled]. *)
Record Merge : Type := { res : list Entry; remaining : list OutputData; next_canlelled : bool }.

(** [for k in 0..num_outputs { amount += outputs[k+i].value }]. *)
Definition window_amount (outputs : list OutputData) (i n : nat) : result Z :=
  foldl (fun amount k =>
    amount ← amount;
    o ← unwrap (outputs !! (k + i)%nat);
    arith checks 64 (amount + out_value o)) (Ok 0) (seq 0 n).

(** [for i in ... { ... if amount == tx.amount_credited { ...; break } }]. *)
Fixpoint find_window (outputs : list OutputData) (n : nat) (credited : Z) (starts : list nat) : result (option nat) :=
  match starts with
  | [] => Ok None
  | i :: starts =>
      amount ← window_amount outputs i n;
      if amount =? credited then Ok (Some i) else find_window outputs n credited starts
  end.

(** [outputs.remove(i).unwrap()], [n] times. *)
Fixpoint remove_n (outputs : list OutputData) (i n : nat) : result (list OutputData * list OutputData) :=
  match n with
  | O => Ok ([], outputs)
  | S n =>
      o ← unwrap (outputs !! i);
      '(res_outs, outputs) ← remove_n (delete i outputs) i n;
      Ok (o :: res_outs, outputs)
  end.

(** Whether the transaction after this one is likely a cancelled one. *)
Definition next_after (outputs : list OutputData) (i : nat) (res_outs : list OutputData) : result bool :=
  match outputs !! i with
  | Some o2 =>
      l ← unwrap (last res_outs);
      d ← arith checks 32 (n_child o2 - n_child l);
      Ok (1 <? d)
  | None => Ok true
  end.

Definition push (e : Entry) (m : Merge) : Merge :=
  {| res := res m ++ [e]; remaining := remaining m; next_canlelled := next_canlelled m |}.
Definition set_next (b : bool) (m : Merge) : Merge :=
  {| res := res m; remaining := remaining m; next_canlelled := b |}.

(** The search for the outputs of one transaction. *)
Definition assign_outputs (tx : TxLogEntry) (m : Merge) : result Merge :=
  let outputs := remaining m in
  let n := num_outputs tx in
  _ ← (if (0 <? n)%nat then Ok () else Panic);     (* assert! *)
  if (n <=? length outputs)%nat then
    found ← find_window outputs n (amount_credited tx) (seq 0 (length outputs - (n - 1))%nat);
    match found with
    | Some i =>
        '(res_outs, outputs) ← remove_n outputs i n;
        next ← next_after outputs i res_outs;
        Ok {| res := res m ++ [(tx, res_outs, true)]; remaining := outputs; next_canlelled := next |}
    | None => Ok (push (tx, [], false) m)
    end
  else Ok m.

(** One turn of the loop. *)
Definition merge_step (m : Merge) (tx : TxLogEntry) : result Merge :=
  match remaining m with
  | [] => Ok (push (tx, [], false) m)
  | front :: _ =>
      if (num_outputs tx =? 0)%nat then Ok (push (tx, [], true) m)
      else
        let m := if is_cancelled tx && bool_decide (res m = [])
                 then set_next (negb (amount_credited tx =? out_value front)) m else m in
        if is_cancelled tx && next_canlelled m then Ok (push (tx, [], true) m)
        else assign_outputs tx m
  end.

Fixpoint merge_all (m : Merge) (transactions : list TxLogEntry) : result Merge :=
  match transactions with
  | [] => Ok m
  | tx :: transactions => m ← merge_step m tx; merge_all m transactions
  end.

Definition calc_best_merge (outputs : list OutputData) (transactions : list TxLogEntry) :
    result (list Entry * list OutputData) :=
  m ← merge_all {| res := []; remaining := outputs; next_canlelled := true |} transactions;
  Ok (res m, remaining m).

(** ** What the merge keeps *)

Definition sum_values (l : list OutputData) : Z := foldr (fun o a => out_value o + a) 0 l.
Definition values_ok (l : list OutputData) : Prop := Forall (fun o => 0 <= out_value o < 2 ^ 64) l.

Lemma sum_values_app l k : sum_values (l ++ k) = sum_values l + sum_values k.
Proof. unfold sum_values. induction l as [|o l IH]; cbn; [done | rewrite IH; lia]. Qed.
Lemma sum_values_nonneg l : values_ok l -> 0 <= sum_values l.
Proof. unfold sum_values. induction 1; cbn in *; lia. Qed.
Lemma sum_values_perm l k : l ≡ₚ k -> sum_values l = sum_values k.
Proof. unfold sum_values. induction 1; cbn in *; lia. Qed.

Lemma take_S_drop_elem (outputs : list OutputData) i n o :
  outputs !! i = Some o -> take (S n) (drop i outputs) = o :: take n (drop (S i) outputs).
Proof. intros H. by rewrite (drop_S _ _ _ H). Qed.

(** The fold from an offset. *)
Lemma window_fold outputs i n k acc a :
  values_ok outputs -> 0 <= acc < 2 ^ 64 ->
  foldl (fun amount k => amount ← amount; o ← unwrap (outputs !! (k + i)%nat); arith checks 64 (amount + out_value o))
    (Ok acc : result Z) (seq k n) = Ok a ->
  let s := sum_values (take n (drop (k + i) outputs)) in
  a = (acc + s) mod 2 ^ 64 /\ (checks = true -> a = acc + s).
Proof.
  intros Hv. revert k acc. induction n as [|n IH]; intros k acc Hacc.
  - cbn. intros [= <-]. rewrite Z.add_0_r, Z.mod_small; [done | lia].
  - cbn [seq foldl mbind outcome_bind]. destruct (outputs !! (k + i)%nat) as [o|] eqn:Ho; cbn [unwrap mbind outcome_bind].
    2: { by rewrite (foldl_panic (fun amount k => o ← unwrap (outputs !! (k + i)%nat); arith checks 64 (amount + out_value o))). }
    assert (0 <= out_value o < 2 ^ 64) as Hr by (eapply (Forall_lookup_1 _ _ _ _ Hv Ho)).
    rewrite (take_S_drop_elem _ _ _ _ Ho). cbn [sum_values foldr]. fold (sum_values (take n (drop (S (k + i)) outputs))).
    replace (@arith Error checks 64 (acc + out_value o)) with (if in_width 64 (acc + out_value o) then Ok (acc + out_value o)
      else if checks then Panic else Ok ((acc + out_value o) mod 2 ^ 64) : result Z) by reflexivity.
    destruct (in_width 64 (acc + out_value o)) eqn:Hw.
    + apply in_width_spec in Hw. intros H. apply (IH (S k)) in H; [|lia]. cbn [Nat.add] in H. destruct H as [-> Hc].
      split; [f_equal; lia | intros E; rewrite (Hc E); lia].
    + destruct checks.
      * by rewrite (foldl_panic (fun amount k => o ← unwrap (outputs !! (k + i)%nat); arith true 64 (amount + out_value o))).
      * intros H. apply (IH (S k)) in H; [|apply Z.mod_pos_bound; lia]. cbn [Nat.add] in H. destruct H as [-> Hc].
        split; [|done]. rewrite Zplus_mod_idemp_l. f_equal. lia.
Qed.

Lemma window_amount_spec outputs i n a :
  values_ok outputs -> window_amount outputs i n = Ok a ->
  let s := sum_values (take n (drop i outputs)) in a = s mod 2 ^ 64 /\ (checks = true -> a = s).
Proof. intros Hv H. apply (window_fold outputs i n 0 0 a) in H; [|done|lia]. exact H. Qed.

Lemma find_window_spec outputs n credited starts i :
  find_window outputs n credited starts = Ok (Some i) ->
  i ∈ starts /\ window_amount outputs i n = Ok credited.
Proof.
  induction starts as [|j starts IH]; cbn; [done|]. intros (a & Ha & H)%bind_Ok.
  destruct (Z.eqb_spec a credited) as [->|].
  - injection H as ->. split; [set_solver | done].
  - apply IH in H as []. split; [set_solver | done].
Qed.

Lemma remove_n_spec outputs i n :
  (i + n <= length outputs)%nat ->
  remove_n outputs i n = Ok (take n (drop i outputs), take i outputs ++ drop (i + n) outputs).
Proof.
  revert outputs. induction n as [|n IH]; intros outputs Hl; cbn [remove_n].
  - by rewrite Nat.add_0_r, take_drop.
  - destruct (lookup_lt_is_Some_2 outputs i) as [o Ho]; [lia|]. rewrite Ho. cbn [unwrap mbind outcome_bind].
    rewrite IH by (rewrite length_delete by eauto; lia). cbn [mbind outcome_bind].
    rewrite (take_S_drop_elem _ _ _ _ Ho), delete_take_drop.
    assert (length (take i outputs) = i) as Hti by (rewrite length_take; lia).
    rewrite drop_app_length' by done. rewrite take_app_length' by done.
    rewrite drop_app_ge by lia. rewrite Hti, drop_drop. do 3 f_equal; f_equal; lia.
Qed.

Lemma window_split (outputs : list OutputData) i n :
  take n (drop i outputs) ++ (take i outputs ++ drop (i + n) outputs) ≡ₚ outputs.
Proof.
  rewrite Permutation_app_comm, <- (assoc_L (++)).
  rewrite (Permutation_app_comm (drop _ _)). rewrite <- drop_drop, take_drop. by rewrite take_drop.
Qed.

(** What one entry of the result says. *)
Definition entry_ok (e : Entry) : Prop :=
  let '(tx, outs, success) := e in
  outs = [] \/ (success = true /\ length outs = num_outputs tx /\
    sum_values outs mod 2 ^ 64 = amount_credited tx /\ (checks = true -> sum_values outs = amount_credited tx)).

Lemma assign_outputs_cases tx m m' :
  values_ok (remaining m) -> assign_outputs tx m = Ok m' ->
  (m' = m /\ (length (remaining m) < num_outputs tx)%nat) \/
  (m' = push (tx, [], false) m) \/
  (exists outs, res m' = res m ++ [(tx, outs, true)] /\ outs ++ remaining m' ≡ₚ remaining m /\
     remaining m' `sublist_of` remaining m /\ entry_ok (tx, outs, true)).
Proof.
  intros Hv. unfold assign_outputs. destruct (Nat.ltb_spec 0 (num_outputs tx)) as [Hn|]; [|done]. cbn [mbind outcome_bind].
  destruct (Nat.leb_spec (num_outputs tx) (length (remaining m))) as [Hle|Hlt].
  2: { intros [= <-]. left. split; [done | lia]. }
  intros ([i|] & Hf & H)%bind_Ok; [|injection H as <-; auto].
  apply find_window_spec in Hf as [Hi Hw]. apply elem_of_seq in Hi.
  apply bind_Ok in H as ([outs rest] & Hr & H). apply bind_Ok in H as (nx & _ & [= <-]).
  rewrite remove_n_spec in Hr by lia. injection Hr as <- <-. right; right.
  apply window_amount_spec in Hw as [Hs Hc]; [|done].
  exists (take (num_outputs tx) (drop i (remaining m))). cbn [res remaining]. split_and!; [done|apply window_split| |].
  - rewrite <- (take_drop i (remaining m)) at 3. apply sublist_app; [done|]. rewrite <- drop_drop. apply sublist_drop.
  - right. split_and!; [done | rewrite length_take, length_drop; lia | done | intros E; symmetry; auto].
Qed.

(** A turn either records the transaction, taking its outputs away, or leaves
    everything as it was because too few outputs remain. *)
Lemma merge_step_cases m tx m' :
  values_ok (remaining m) -> merge_step m tx = Ok m' ->
  (res m' = res m /\ remaining m' = remaining m /\ (length (remaining m) < num_outputs tx)%nat) \/
  (exists outs b, res m' = res m ++ [(tx, outs, b)] /\ outs ++ remaining m' ≡ₚ remaining m /\
     remaining m' `sublist_of` remaining m /\ entry_ok (tx, outs, b)).
Proof.
  intros Hv. unfold merge_step. destruct (remaining m) as [|front rest] eqn:Hrem.
  { intros [= <-]. right. exists [], false. cbn. rewrite Hrem. split_and!; auto. }
  destruct (num_outputs tx =? 0)%nat.
  { intros [= <-]. right. exists [], true. cbn. rewrite Hrem. split_and!; auto. }
  set (m1 := if _ && bool_decide _ then _ else m).
  assert (res m1 = res m /\ remaining m1 = remaining m) as [Hr1 Hm1] by (unfold m1; by destruct (_ && _)).
  destruct (is_cancelled tx && next_canlelled m1).
  { intros [= <-]. right. exists [], true. cbn. rewrite Hr1, Hm1, Hrem. split_and!; auto. }
  intros H. apply assign_outputs_cases in H; [|by rewrite Hm1, Hrem]. rewrite Hr1, Hm1, Hrem in H.
  destruct H as [[-> Hl]|[->|(outs & H)]].
  - left. rewrite Hr1, Hm1, Hrem. done.
  - right. exists [], false. cbn. rewrite Hr1, Hm1, Hrem. split_and!; auto.
  - right. exists outs, true. done.
Qed.

Lemma values_sublist l k : l `sublist_of` k -> values_ok k -> values_ok l.
Proof. intros Hs. unfold values_ok. rewrite !Forall_forall. intros Hk o Ho. apply Hk. by eapply elem_of_sublist. Qed.

Lemma merge_all_spec txs : forall m m',
  values_ok (remaining m) -> merge_all m txs = Ok m' ->
  exists new, res m' = res m ++ new /\ concat (snd ∘ fst <$> new) ++ remaining m' ≡ₚ remaining m /\
    remaining m' `sublist_of` remaining m /\ Forall entry_ok new /\ (fst ∘ fst <$> new) `sublist_of` txs /\
    (forall tx, tx ∈ txs -> tx ∉ (fst ∘ fst <$> new) -> (length (remaining m') < num_outputs tx)%nat).
Proof.
  induction txs as [|tx txs IH]; intros m m' Hv; cbn [merge_all].
  { intros [= <-]. exists []. rewrite app_nil_r. cbn. split_and!; [done|done|done|by constructor|done|].
    intros tx Hin. by apply elem_of_nil in Hin. }
  intros (m1 & Hs & H)%bind_Ok. apply merge_step_cases in Hs; [|done].
  destruct Hs as [(Hr & Hrem & Hlt)|(outs & b & Hr & Hp & Hsub & He)].
  - apply IH in H as (new & H1 & H2 & H3 & H4 & H5 & H6); [|by rewrite Hrem]. rewrite Hr in H1. rewrite Hrem in H2, H3.
    exists new. split_and!; [done..|by constructor|].
    intros t [->|Ht]%elem_of_cons Hn; [|by apply H6]. apply sublist_length in H3. lia.
  - apply IH in H as (new & H1 & H2 & H3 & H4 & H5 & H6); [|by eapply values_sublist]. exists ((tx, outs, b) :: new). cbn.
    split_and!.
    + rewrite H1, Hr, <- (assoc_L (++)). done.
    + rewrite <- (assoc_L (++)), H2. done.
    + by transitivity (remaining m1).
    + by constructor.
    + by constructor.
    + intros t [->|Ht]%elem_of_cons Hn; [set_solver|]. apply H6; set_solver.
Qed.
(** ** When the merge returns *)

(** Without overflow checks nothing can fail; with them the amounts must fit
    and the outputs must come in the order of their child number. *)
Definition in_order (l : list OutputData) : Prop :=
  forall i j a b, (i <= j)%nat -> l !! i = Some a -> l !! j = Some b -> n_child a <= n_child b.
Definition merge_safe (l : list OutputData) : Prop :=
  values_ok l /\ Forall (fun o => 0 <= n_child o < 2 ^ 32) l /\ (checks = false \/ (sum_values l < 2 ^ 64 /\ in_order l)).

Lemma arith_unchecked w z : checks = false -> exists v, @arith Error checks w z = Ok v.
Proof. intros ->. unfold arith. destruct (in_width w z); eauto. Qed.

Lemma sum_values_sublist l k : l `sublist_of` k -> values_ok k -> sum_values l <= sum_values k.
Proof. unfold sum_values. induction 1 as [|o l k _ IH|o l k _ IH]; [lia| |]; intros [Ho Hk]%Forall_cons; specialize (IH Hk); cbn; lia. Qed.

Lemma window_total outputs i n : forall k acc,
  merge_safe outputs -> 0 <= acc -> (checks = true -> acc + sum_values (take n (drop (k + i) outputs)) < 2 ^ 64) ->
  (k + i + n <= length outputs)%nat ->
  exists a, foldl (fun amount k => amount ← amount; o ← unwrap (outputs !! (k + i)%nat); arith checks 64 (amount + out_value o))
    (Ok acc : result Z) (seq k n) = Ok a.
Proof.
  induction n as [|n IH]; intros k acc Hs Hacc Hsum Hl; [cbn; eauto|].
  cbn [seq foldl mbind outcome_bind]. destruct (lookup_lt_is_Some_2 outputs (k + i)) as [o Ho]; [lia|].
  rewrite Ho. cbn [unwrap mbind outcome_bind]. rewrite (take_S_drop_elem _ _ _ _ Ho) in Hsum.
  change (sum_values (o :: ?l)) with (out_value o + sum_values l) in Hsum.
  assert (0 <= out_value o) as Hv by (destruct Hs as [Hv _]; apply (Forall_lookup_1 _ _ _ _ Hv Ho)).
  assert (0 <= sum_values (take n (drop (S (k + i)) outputs))) as Hn.
  { apply sum_values_nonneg. destruct Hs as [Hv' _]. by apply Forall_take, Forall_drop. }
  assert (exists v, @arith Error checks 64 (acc + out_value o) = Ok v /\ 0 <= v /\ (checks = true -> v = acc + out_value o))
    as (v & -> & Hv0 & Hv1).
  { destruct checks eqn:Hc.
    - eexists. rewrite arith_in_range; [split; [done|]; split; [lia|done]|]. specialize (Hsum eq_refl). lia.
    - unfold arith. destruct (in_width 64 _) eqn:Hw; eexists; (split; [done|]); (split; [|done]); [lia | apply Z.mod_pos_bound; lia]. }
  apply (IH (S k) v); [done..| |cbn; lia]. intros Hc. rewrite (Hv1 Hc). specialize (Hsum Hc). cbn [Nat.add]. lia.
Qed.

Lemma find_window_total outputs n credited starts :
  merge_safe outputs -> Forall (fun i => (i + n <= length outputs)%nat) starts ->
  exists r, find_window outputs n credited starts = Ok r.
Proof.
  intros Hs. induction 1 as [|i starts Hi _ IH]; cbn [find_window]; [eauto|].
  destruct (window_total outputs i n 0 0) as [a Ha]; [done|lia| |lia|].
  - intros Hc. cbn [Nat.add]. destruct Hs as (Hv & _ & [Hf|[Hsum _]]); [congruence|].
    pose proof (sum_values_sublist (take n (drop i outputs)) outputs) as Hle.
    enough (sum_values (take n (drop i outputs)) <= sum_values outputs) by lia. apply Hle; [|done].
    etransitivity; [apply sublist_take | apply sublist_drop].
  - unfold window_amount. rewrite Ha. cbn [mbind outcome_bind]. destruct (a =? credited); eauto.
Qed.

Lemma next_after_total outputs i n :
  merge_safe outputs -> (0 < n)%nat -> (i + n <= length outputs)%nat ->
  exists b, next_after (take i outputs ++ drop (i + n) outputs) i (take n (drop i outputs)) = Ok b.
Proof.
  intros (_ & Hch & Hs) Hn Hl. unfold next_after.
  assert (length (take i outputs) = i) as Hti by (rewrite length_take; lia).
  rewrite lookup_app_r by lia. rewrite Hti, Nat.sub_diag, lookup_drop, Nat.add_0_r.
  destruct (outputs !! (i + n)%nat) as [o2|] eqn:Ho2; [|eauto].
  destruct (lookup_lt_is_Some_2 outputs (i + (n - 1))) as [l Hlast]; [lia|].
  assert (last (take n (drop i outputs)) = Some l) as ->.
  { rewrite last_lookup, length_take, length_drop, Nat.min_l by lia. rewrite lookup_take_lt by lia.
    rewrite lookup_drop, <- Hlast. f_equal. lia. }
  cbn [unwrap mbind outcome_bind].
  assert (exists v, @arith Error checks 32 (n_child o2 - n_child l) = Ok v) as [v ->]; [|cbn; eauto].
  destruct Hs as [Hc|[_ Ho]]; [by apply arith_unchecked|]. eexists. apply arith_in_range.
  pose proof (Forall_lookup_1 _ _ _ _ Hch Ho2). pose proof (Forall_lookup_1 _ _ _ _ Hch Hlast).
  specialize (Ho (i + (n - 1))%nat (i + n)%nat l o2 ltac:(lia) Hlast Ho2). cbn in *. lia.
Qed.

Lemma sublist_lookup_mono {A} (l k : list A) :
  l `sublist_of` k -> forall i j a b, (i < j)%nat -> l !! i = Some a -> l !! j = Some b ->
  exists i' j', (i' < j')%nat /\ k !! i' = Some a /\ k !! j' = Some b.
Proof.
  induction 1 as [|x l k Hs IH|x l k Hs IH]; intros i j a b Hij Hi Hj; [done| |].
  - destruct i as [|i], j as [|j]; try lia; cbn in Hi, Hj.
    + injection Hi as ->. apply list_elem_of_lookup_2 in Hj. apply (fun H => elem_of_sublist _ _ _ H Hs) in Hj.
      apply list_elem_of_lookup_1 in Hj as [j' Hj']. exists 0%nat, (S j'). split_and!; [lia|done|done].
    + destruct (IH i j a b) as (i' & j' & ? & ? & ?); [lia|done|done|]. exists (S i'), (S j'). split_and!; [lia|done|done].
  - destruct (IH i j a b) as (i' & j' & ? & ? & ?); [done..|]. exists (S i'), (S j'). split_and!; [lia|done|done].
Qed.

Lemma in_order_sublist l k : l `sublist_of` k -> in_order k -> in_order l.
Proof.
  intros Hs Hk i j a b Hij Hi Hj. destruct (decide (i = j)) as [->|]; [rewrite Hi in Hj; injection Hj as ->; lia|].
  destruct (sublist_lookup_mono l k Hs i j a b) as (i' & j' & ? & Hi' & Hj'); [lia|done..|].
  apply (Hk i' j' a b); [lia|done..].
Qed.

Lemma merge_safe_sublist l k : l `sublist_of` k -> merge_safe k -> merge_safe l.
Proof.
  intros Hs (Hv & Hch & Hc). split_and!; [by eapply values_sublist| |].
  - rewrite Forall_forall in Hch |- *. intros o Ho. apply Hch. by eapply elem_of_sublist.
  - destruct Hc as [|[Hsum Ho]]; [auto|]. right. split; [|by eapply in_order_sublist].
    pose proof (sum_values_sublist l k Hs Hv). lia.
Qed.

Lemma merge_step_total m tx : merge_safe (remaining m) -> exists m', merge_step m tx = Ok m'.
Proof.
  intros Hs. unfold merge_step. destruct (remaining m) as [|front rest] eqn:Hrem; [eauto|].
  destruct (Nat.eqb_spec (num_outputs tx) 0) as [|Hn]; [eauto|]. set (m1 := if _ && bool_decide _ then _ else m).
  assert (remaining m1 = front :: rest) as Hm1 by (unfold m1; by destruct (_ && _)).
  clearbody m1. destruct (is_cancelled tx && _); [eauto|]. unfold assign_outputs. rewrite Hm1.
  destruct (Nat.ltb_spec 0 (num_outputs tx)); [|lia]. cbn [mbind outcome_bind].
  destruct (Nat.leb_spec (num_outputs tx) (length (front :: rest))) as [Hle|]; [|eauto].
  destruct (find_window_total (front :: rest) (num_outputs tx) (amount_credited tx)
    (seq 0 (length (front :: rest) - (num_outputs tx - 1)))) as [r Hr]; [done| |].
  - apply Forall_forall. intros i Hi%elem_of_seq. lia.
  - rewrite Hr. cbn [mbind outcome_bind]. destruct r as [i|]; [|eauto].
    apply find_window_spec in Hr as [Hi%elem_of_seq _]. rewrite remove_n_spec by lia. cbn [mbind outcome_bind].
    destruct (next_after_total (front :: rest) i (num_outputs tx)) as [b Hb]; [done|lia..|]. rewrite Hb. cbn. eauto.
Qed.

Lemma merge_all_total txs : forall m, merge_safe (remaining m) -> exists m', merge_all m txs = Ok m'.
Proof.
  induction txs as [|tx txs IH]; intros m Hs; cbn [merge_all]; [eauto|].
  destruct (merge_step_total m tx Hs) as [m1 H1]. rewrite H1. cbn [mbind outcome_bind]. apply IH.
  eapply merge_safe_sublist; [|exact Hs]. destruct Hs as [Hv _].
  apply merge_step_cases in H1 as [(_ & -> & _)|(? & ? & _ & _ & H & _)]; done.
Qed.
End merge.

(** ** [txs_bulk_validate] *)

Record TransactionInfo : Type := {
  tx_log : TxLogEntry;
  tx_kernels : list str;
  tx_outputs : list OutputData;
  validated : bool;
  validation_flags : str;
  warnings : list str;
}.

(** The lines of a text ([BufRead::lines]): a line ends with a newline, with
    an optional carriage return before it, or at the end of the text. *)
Fixpoint strip_cr (l : str) : str :=
  match l with
  | [] => []
  | c :: l => if Ascii.eqb c (chr 13) && bool_decide (l = []) then [] else c :: strip_cr l
  end.
Fixpoint text_lines_aux (parts : list str) : list str :=
  match parts with
  | [] => []
  | [l] => if bool_decide (l = []) then [] else [l]
  | l :: parts => strip_cr l :: text_lines_aux parts
  end.
Definition text_lines (text : str) : list str := text_lines_aux (split (chr 10) text).

Section validate.
Context {W : WalletData}.

Definition TransactionInfo_new (tx : TxLogEntry) : TransactionInfo :=
  {| tx_log := tx; tx_kernels := []; tx_outputs := []; validated := false; validation_flags := []; warnings := [] |}.

Definition is_received (t : TxLogEntryType) : bool :=
  bool_decide (t = TxReceived) || bool_decide (t = TxReceivedCancelled).
Definition is_sent (t : TxLogEntryType) : bool :=
  bool_decide (t = TxSent) || bool_decide (t = TxSentCancelled).

(** The kernels of a transaction: of its stored slate, then of the log. *)
Definition kernels_of (stored : str -> option Transaction) (tx : TxLogEntry) : list str :=
  if is_received (tx_type tx) then []
  else
    match tx_slate_id tx ≫= stored with
    | Some transaction => util_to_hex <$> kernels transaction
    | None => []
    end ++ match kernel_excess tx with Some kernel => [util_to_hex kernel] | None => [] end.

Definition warn (b : bool) (w : string) : list str := if b then [lit w] else [].

(** The body of the loop over the merged transactions, up to "Data is ready",
    and the warnings for outputs without commitment. *)
Definition tx_info (stored : str -> option Transaction) (e : TxLogEntry * list OutputData * bool) : TransactionInfo :=
  let '(tx, outputs, success) := e in
  let ty := tx_type tx in
  let kernels := kernels_of stored tx in
  {| tx_log := tx; tx_kernels := kernels; tx_outputs := outputs; validated := false; validation_flags := [];
     warnings :=
       warn (negb success) "Failed to descover outputs" ++
       warn ((bool_decide (ty = ConfirmedCoinbase) || bool_decide (ty = TxReceived)) && (num_outputs tx =? 0)%nat)
         "Tx Has no outputs" ++
       warn (bool_decide (ty = TxSent) && bool_decide (tx_slate_id tx = None) && bool_decide (kernel_excess tx = None))
         "Transaction doesn't have UUID" ++
       warn (bool_decide (ty = TxSent) && bool_decide (is_Some (tx_slate_id tx)) && bool_decide (tx_slate_id tx ≫= stored = None))
         "Transaction slate not found" ++
       warn (bool_decide (ty = TxSent) && bool_decide (kernels = [])) "No Kernels found" ++
       concat ((fun o => warn (bool_decide (out_commit o = None)) "Has Output without commit record") <$> outputs) |}.

(** The transactions and the three indexes; a later insertion replaces an
    earlier one. *)
Record Collected : Type := {
  txs : list TransactionInfo;
  kernel_to_tx : gmap str nat;
  output_to_tx : gmap str nat;
  tx_id_to_tx : gmap Z nat;
}.

Definition insert_all {K} `{Countable K} (keys : list K) (i : nat) (m : gmap K nat) : gmap K nat :=
  foldl (fun m k => <[k := i]> m) m keys.

Definition collect_one (stored : str -> option Transaction) (c : Collected) (e : TxLogEntry * list OutputData * bool) :
    Collected :=
  let info := tx_info stored e in
  let tx_idx := length (txs c) in
  {| txs := txs c ++ [info];
     kernel_to_tx := insert_all (tx_kernels info) tx_idx (kernel_to_tx c);
     output_to_tx := insert_all (omap out_commit (tx_outputs info)) tx_idx (output_to_tx c);
     tx_id_to_tx := <[tx_id (tx_log info) := tx_idx]> (tx_id_to_tx c) |}.
Definition collect (stored : str -> option Transaction) (es : list (TxLogEntry * list OutputData * bool)) : Collected :=
  foldl (collect_one stored) {| txs := []; kernel_to_tx := ∅; output_to_tx := ∅; tx_id_to_tx := ∅ |} es.

(** [txs[i].validated = true; txs[i].validation_flags += flag]. *)
Definition confirm (flag : ascii) (t : TransactionInfo) : TransactionInfo :=
  {| tx_log := tx_log t; tx_kernels := tx_kernels t; tx_outputs := tx_outputs t; validated := true;
     validation_flags := validation_flags t ++ [flag]; warnings := warnings t |}.
Definition mark (flag : ascii) (i : nat) (txs : list TransactionInfo) : result (list TransactionInfo) :=
  t ← unwrap (txs !! i); Ok (<[i := confirm flag t]> txs).

(** One dump, line by line; [line.unwrap()] panics when the line is not UTF-8. *)
Fixpoint scan_dump (flag : ascii) (index : gmap str nat) (lines : list str) (txs : list TransactionInfo) :
    result (list TransactionInfo) :=
  match lines with
  | [] => Ok txs
  | line :: lines =>
      if utf8_valid line then
        txs ← match index !! line with Some i => mark flag i txs | None => Ok txs end;
        scan_dump flag index lines txs
      else Panic
  end.

(** Whether an output of [t] was spent by a validated send. *)
Definition spent_by_send (ids : gmap Z nat) (txs : list TransactionInfo) (t : TransactionInfo) : result bool :=
  foldl (fun validated_ o =>
    v ← validated_;
    match out_tx_log_entry o ≫= fun id => ids !! id with
    | Some i => s ← unwrap (txs !! i); Ok (v || (is_sent (tx_type (tx_log s)) && validated s))
    | None => Ok v
    end) (Ok false) (tx_outputs t).

(** [for i in 0..txs.len()]: the cut-through case. *)
Fixpoint spent_pass (ids : gmap Z nat) (is_ : list nat) (txs : list TransactionInfo) : result (list TransactionInfo) :=
  match is_ with
  | [] => Ok txs
  | i :: is_ =>
      t ← unwrap (txs !! i);
      if validated t then spent_pass ids is_ txs
      else
        v ← spent_by_send ids txs t;
        txs ← (if v : bool then mark "S" i txs else Ok txs);
        spent_pass ids is_ txs
  end.

(** The report. *)
Definition quote (s : str) : str := chr 34 :: s ++ [chr 34].
Definition type_name (t : TxLogEntryType) : str :=
  match t with
  | ConfirmedCoinbase => lit "Coinbase"
  | TxReceived => lit "Received"
  | TxSent => lit "Sent"
  | TxReceivedCancelled => lit "ReceivedCancelled"
  | TxSentCancelled => lit "SentCancelled"
  end.
Definition report_amount (t : TxLogEntry) : str :=
  if amount_debited t <=? amount_credited t
  then amount_to_hr_string (amount_credited t - amount_debited t) true
  else lit "-" ++ amount_to_hr_string (amount_debited t - amount_credited t) true.
Definition report_messages (t : TxLogEntry) : str :=
  match tx_messages t with
  | Some msgs => replace (join (lit ",") (omap id msgs)) [chr 34] [chr 34; chr 34]
  | None => []
  end.
Definition report_row (t : TransactionInfo) : str :=
  let l := tx_log t in
  join (lit ",")
    [to_dec (tx_id l); default (lit "None") (tx_slate_id l); type_name (tx_type l);
     quote (default (lit "None") (tx_address l)); format_ts (creation_ts l); to_dec (output_height l);
     report_amount l; match tx_fee l with Some fee => amount_to_hr_string fee true | None => lit "Unknown" end;
     quote (report_messages l); (if validated t then lit "true" else lit "false"); validation_flags t;
     quote (join (lit "; ") (warnings t))] ++ [chr 10].
Definition report_header : str :=
  lit "id,uuid,type,address,create time,height,amount,fee,messages,node validation,validation flags,validation warnings" ++ [chr 10].
Definition report (txs : list TransactionInfo) : str := report_header ++ concat (report_row <$> txs).

(** What the function reads of the wallet: all outputs, the whole log, the
    stored transactions and the active account. *)
Record WalletView : Type := {
  view_outputs : list OutputData;
  view_txs : list TxLogEntry;
  view_stored : str -> option Transaction;
  view_parent : str;
}.

Definition wallet_outputs (w : WalletView) : list OutputData :=
  filter (fun o => root_key_id o = view_parent w /\ is_Some (out_commit o)) (view_outputs w).
Definition wallet_transactions (w : WalletView) : list TxLogEntry :=
  filter (fun t => parent_key_id t = view_parent w) (view_txs w).

(** The function: files by name; [can_create]: the names [File::create] accepts. *)
Definition txs_bulk_validate (checks : bool) (can_create : str -> bool) (w : WalletView)
    (kernels_fn outputs_fn result_fn : str) : stM (gmap str str) Error () := fun fs =>
  match
    '(tx_to_output, _) ← calc_best_merge checks (wallet_outputs w) (wallet_transactions w);
    let c := collect (view_stored w) tx_to_output in
    kernels_text ← ok_or (Kind (FileNotFound kernels_fn)) (fs !! kernels_fn);
    t1 ← scan_dump "K" (kernel_to_tx c) (text_lines kernels_text) (txs c);
    outputs_text ← ok_or (Kind (FileNotFound outputs_fn)) (fs !! outputs_fn);
    t2 ← scan_dump "O" (output_to_tx c) (text_lines outputs_text) t1;
    t3 ← spent_pass (tx_id_to_tx c) (seq 0 (length t2)) t2;
    _ ← (if can_create result_fn then Ok () else fail (FileUnableToCreate result_fn));
    Ok t3
  with
  | Ok t3 => (Ok (), <[result_fn := report t3]> fs)
  | Err e => (Err e, fs)
  | Panic => (Panic, fs)
  | Hang => (Hang, fs)
  end.

(** ** The indexes *)

(** The last transaction that has the key. *)
Definition last_with {K} (keys : TransactionInfo -> list K) (txs : list TransactionInfo) (k : K) (i : nat) : Prop :=
  (exists t, txs !! i = Some t /\ k ∈ keys t) /\ forall j t, txs !! j = Some t -> k ∈ keys t -> (j <= i)%nat.

Lemma insert_all_lookup {K} `{Countable K} (keys : list K) i (m : gmap K nat) k :
  insert_all keys i m !! k = if bool_decide (k ∈ keys) then Some i else m !! k.
Proof.
  unfold insert_all. revert m. induction keys as [|x keys IH]; intros m; cbn.
  - by rewrite bool_decide_eq_false_2 by apply not_elem_of_nil.
  - rewrite IH. destruct (bool_decide_reflect (k ∈ keys)) as [Hk|Hk].
    + by rewrite bool_decide_eq_true_2 by set_solver.
    + destruct (decide (k = x)) as [->|Hne].
      * rewrite lookup_insert_eq, bool_decide_eq_true_2 by set_solver. done.
      * rewrite lookup_insert_ne by done. rewrite bool_decide_eq_false_2 by set_solver. done.
Qed.

(** Adding a transaction to an index. *)
Lemma last_with_snoc {K} `{Countable K} (keys : TransactionInfo -> list K) txs (m : gmap K nat) t :
  (forall k i, m !! k = Some i <-> last_with keys txs k i) ->
  forall k i, insert_all (keys t) (length txs) m !! k = Some i <-> last_with keys (txs ++ [t]) k i.
Proof.
  intros Hm k i. rewrite insert_all_lookup. destruct (bool_decide_reflect (k ∈ keys t)) as [Hk|Hk].
  - split.
    + intros [= <-]. split.
      * exists t. split; [|done]. by rewrite lookup_app_r, Nat.sub_diag by lia.
      * intros j t' Hj _. apply lookup_lt_Some in Hj. rewrite length_app in Hj. cbn in Hj. lia.
    + intros [(t' & Hi & _) Hmax]. f_equal. specialize (Hmax (length txs) t).
      rewrite lookup_app_r, Nat.sub_diag in Hmax by lia. specialize (Hmax eq_refl Hk).
      apply lookup_lt_Some in Hi. rewrite length_app in Hi. cbn in Hi. lia.
  - rewrite Hm. unfold last_with. split; intros [(t' & Hi & Hk') Hmax]; split.
    + exists t'. split; [by apply lookup_app_l_Some | done].
    + intros j t2 Hj Hk2. apply lookup_app_Some in Hj as [Hj|[_ Hj]]; [by eapply Hmax|].
      apply list_lookup_singleton_Some in Hj as [_ <-]. done.
    + apply lookup_app_Some in Hi as [Hi|[_ Hi]]; [by eauto|]. apply list_lookup_singleton_Some in Hi as [_ <-]. done.
    + intros j t2 Hj Hk2. apply (Hmax j t2); [by apply lookup_app_l_Some | done].
Qed.

Definition commits (t : TransactionInfo) : list str := omap out_commit (tx_outputs t).
Definition log_id (t : TransactionInfo) : list Z := [tx_id (tx_log t)].

Definition collected_ok (c : Collected) : Prop :=
  (forall k i, kernel_to_tx c !! k = Some i <-> last_with tx_kernels (txs c) k i) /\
  (forall k i, output_to_tx c !! k = Some i <-> last_with commits (txs c) k i) /\
  (forall k i, tx_id_to_tx c !! k = Some i <-> last_with log_id (txs c) k i).

Lemma collect_fold stored es : forall c,
  collected_ok c -> let c' := foldl (collect_one stored) c es in
  collected_ok c' /\ txs c' = txs c ++ (tx_info stored <$> es).
Proof.
  induction es as [|e es IH]; intros c Hc; cbn [foldl].
  { cbn. by rewrite app_nil_r. }
  cbn zeta. destruct (IH (collect_one stored c e)) as [H1 H2].
  - destruct Hc as (Hk & Ho & Hi). split_and!.
    + apply (last_with_snoc tx_kernels). exact Hk.
    + apply (last_with_snoc commits). exact Ho.
    + apply (last_with_snoc log_id). exact Hi.
  - split; [exact H1|]. rewrite H2. cbn. by rewrite <- (assoc_L (++)).
Qed.

Lemma collect_ok stored es : collected_ok (collect stored es) /\ txs (collect stored es) = tx_info stored <$> es.
Proof.
  destruct (collect_fold stored es {| txs := []; kernel_to_tx := ∅; output_to_tx := ∅; tx_id_to_tx := ∅ |}) as [H1 H2].
  - split_and!; intros k i; cbn [kernel_to_tx output_to_tx tx_id_to_tx]; rewrite lookup_empty; (split; [done | intros [(t & H & _) _]; done]).
  - split; [exact H1 | exact H2].
Qed.

(** ** The dumps *)

Definition hits (index : gmap str nat) (lines : list str) (i : nat) : nat :=
  length (filter (fun l => index !! l = Some i) lines).

Lemma iter_confirm flag n t :
  let t' := Nat.iter n (confirm flag) t in
  tx_log t' = tx_log t /\ tx_kernels t' = tx_kernels t /\ tx_outputs t' = tx_outputs t /\ warnings t' = warnings t /\
  validation_flags t' = validation_flags t ++ replicate n flag /\ validated t' = validated t || (0 <? n)%nat.
Proof.
  induction n as [|n IH]; cbn.
  - by rewrite app_nil_r, orb_false_r.
  - destruct IH as (H1 & H2 & H3 & H4 & H5 & _). split_and!; try done; [|by rewrite orb_true_r].
    unfold confirm at 1. cbn [validation_flags]. etransitivity; [apply (f_equal (fun s => s ++ [flag])); exact H5|].
    rewrite <- (assoc_L (++)). f_equal. symmetry. apply (replicate_cons_app n flag).
Qed.

Lemma scan_dump_spec flag index lines : forall txs txs',
  scan_dump flag index lines txs = Ok txs' ->
  length txs' = length txs /\
  forall i t, txs !! i = Some t -> txs' !! i = Some (Nat.iter (hits index lines i) (confirm flag) t).
Proof.
  induction lines as [|l lines IH]; intros txs txs'; cbn [scan_dump].
  { intros [= <-]. split; [done|]. intros i t Hi. exact Hi. }
  destruct (utf8_valid l); [|done]. intros (t1 & H1 & H)%bind_Ok. apply IH in H as [Hl H].
  unfold hits in *. destruct (index !! l) as [j|] eqn:Hj.
  - unfold mark in H1. destruct (txs !! j) as [tj|] eqn:Htj; [|done]. injection H1 as <-.
    rewrite length_insert in Hl. split; [done|]. intros i t Hi. destruct (decide (i = j)) as [->|Hne].
    + rewrite filter_cons_True by done. cbn [length]. rewrite Nat.iter_succ_r.
      apply H. rewrite list_lookup_insert_eq by (by eapply lookup_lt_Some). congruence.
    + rewrite filter_cons_False by congruence. apply H. by rewrite list_lookup_insert_ne.
  - injection H1 as <-. split; [done|]. intros i t Hi. rewrite filter_cons_False by congruence. by apply H.
Qed.

(** ** The cut-through pass *)

(** An output of [t] was spent by a validated send; [at_] gives the
    transactions as they are when [t] is considered. *)
Definition spent_evidence (ids : gmap Z nat) (at_ : nat -> option TransactionInfo) (t : TransactionInfo) : Prop :=
  exists o id j s, o ∈ tx_outputs t /\ out_tx_log_entry o = Some id /\ ids !! id = Some j /\ at_ j = Some s /\
    is_sent (tx_type (tx_log s)) = true /\ validated s = true.

Definition spent_turn (ids : gmap Z nat) (txs : list TransactionInfo) (v : bool) (o : OutputData) : result bool :=
  match out_tx_log_entry o ≫= fun id => ids !! id with
  | Some i => s ← unwrap (txs !! i); Ok (v || (is_sent (tx_type (tx_log s)) && validated s))
  | None => Ok v
  end.

Lemma spent_fold ids txs outs : forall v0 v,
  foldl (fun r o => v ← r; spent_turn ids txs v o) (Ok v0 : result bool) outs = Ok v ->
  v = true <-> v0 = true \/ exists o id j s, o ∈ outs /\ out_tx_log_entry o = Some id /\ ids !! id = Some j /\ txs !! j = Some s /\
    is_sent (tx_type (tx_log s)) = true /\ validated s = true.
Proof.
  induction outs as [|o outs IH]; intros v0 v; cbn [foldl].
  { intros [= ->]. split; [auto|]. intros [|(? & ? & ? & ? & H & _)]; [done | by apply elem_of_nil in H]. }
  cbn [mbind outcome_bind]. destruct (spent_turn ids txs v0 o) as [v1|e| |] eqn:Hv1.
  2: { clear. intros H. exfalso. revert H. induction outs; cbn; auto. done. }
  2: { by rewrite (foldl_panic (spent_turn ids txs)). }
  2: { clear. intros H. exfalso. revert H. induction outs; cbn; auto. done. }
  intros H. rewrite (IH _ _ H). clear IH H.
  assert (v1 = true <-> v0 = true \/ exists id j s, out_tx_log_entry o = Some id /\ ids !! id = Some j /\ txs !! j = Some s /\
    is_sent (tx_type (tx_log s)) = true /\ validated s = true) as Hturn.
  { unfold spent_turn in Hv1. destruct (out_tx_log_entry o) as [id|]; cbn [mbind option_bind] in Hv1;
      [destruct (ids !! id) as [j|] eqn:Hj; cbn in Hv1|].
    - destruct (txs !! j) as [s|] eqn:Hs; [|done]. injection Hv1 as <-. rewrite orb_true_iff, andb_true_iff. split.
      + intros [|[]]; [auto|]. right. exists id, j, s. auto.
      + intros [|(id' & j' & s' & [= <-] & Hj' & Hs' & H1 & H2)]; [auto|]. right. split; congruence.
    - injection Hv1 as <-. split; [auto|]. intros [|(id' & j' & s' & [= <-] & Hj' & _)]; [done | congruence].
    - injection Hv1 as <-. split; [auto|]. intros [|(id' & j' & s' & [=] & _)]. done. }
  rewrite Hturn. split.
  - intros [[|(id & j & s & H)]|(o' & id & j & s & Hin & H)]; [auto| |]; right; [exists o, id, j, s | exists o', id, j, s];
      (split; [set_solver | done]).
  - intros [|(o' & id & j & s & [->|Hin]%elem_of_cons & H)]; [auto| |]; [left; right; eauto | right; exists o', id, j, s; auto].
Qed.

Lemma spent_by_send_spec ids txs t v :
  spent_by_send ids txs t = Ok v -> v = true <-> spent_evidence ids (fun j => txs !! j) t.
Proof.
  intros H. unfold spent_evidence. rewrite (spent_fold ids txs (tx_outputs t) false v); [|exact H].
  split; [intros [|]; done | auto].
Qed.

Lemma spent_evidence_ext ids at1 at2 t :
  (forall j, at1 j = at2 j) -> spent_evidence ids at1 t <-> spent_evidence ids at2 t.
Proof. intros Heq. unfold spent_evidence. by setoid_rewrite Heq. Qed.

Lemma spent_pass_spec ids n : forall k txs txs',
  spent_pass ids (seq k n) txs = Ok txs' ->
  length txs' = length txs /\
  forall i t, txs !! i = Some t ->
    if (i <? k)%nat || (k + n <=? i)%nat || validated t then txs' !! i = Some t
    else exists v : bool, txs' !! i = Some (if v then confirm "S" t else t) /\
      (v = true <-> spent_evidence ids (fun j => if (j <? i)%nat then txs' !! j else txs !! j) t).
Proof.
  induction n as [|n IH]; intros k txs txs'; cbn [seq spent_pass].
  { intros [= <-]. split; [done|]. intros i t Hi. destruct (Nat.ltb_spec i k), (Nat.leb_spec (k + 0) i); try done; lia. }
  intros (tk & Htk & H)%bind_Ok. destruct (txs !! k) as [tk'|] eqn:Hk; [|done]. injection Htk as ->.
  assert (exists v : bool, spent_pass ids (seq (S k) n) (if v then <[k := confirm "S" tk]> txs else txs) = Ok txs' /\
    (if validated tk then v = false else v = true <-> spent_evidence ids (fun j => txs !! j) tk)) as (v & Hrun & Hv).
  { destruct (validated tk); [by exists false|]. apply bind_Ok in H as (v & Hs & H). apply spent_by_send_spec in Hs.
    exists v. split; [|done]. destruct v; [|exact H]. unfold mark in H. rewrite Hk in H. exact H. }
  clear H. apply IH in Hrun as [Hl Hrun]. split.
  { rewrite Hl. destruct v; [apply length_insert | done]. }
  assert (Hk1 : (if v then <[k := confirm "S" tk]> txs else txs) !! k = Some (if v then confirm "S" tk else tk)).
  { destruct v; [|done]. rewrite list_lookup_insert_eq; [done | by eapply lookup_lt_Some]. }
  assert (Hother : forall j, j <> k -> (if v then <[k := confirm "S" tk]> txs else txs) !! j = txs !! j).
  { intros j Hj. destruct v; [|done]. by rewrite list_lookup_insert_ne. }
  intros i t Hi. destruct (decide (i = k)) as [->|Hne].
  - rewrite Hk in Hi. injection Hi as <-. rewrite (proj2 (Nat.ltb_ge k k)) by lia.
    rewrite (proj2 (Nat.leb_gt (k + S n) k)) by lia. cbn [orb].
    pose proof (Hrun _ _ Hk1) as Hf. rewrite (proj2 (Nat.ltb_lt k (S k))) in Hf by lia. cbn [orb] in Hf.
    destruct (validated tk); [by rewrite Hv in Hf|]. exists v. split; [exact Hf|]. rewrite Hv. apply spent_evidence_ext.
    intros j. destruct (Nat.ltb_spec j k) as [Hjk|]; [|done]. destruct (txs !! j) as [tj|] eqn:Hj.
    + specialize (Hrun j tj). rewrite Hother, Hj, (proj2 (Nat.ltb_lt j (S k))) in Hrun by lia. cbn [orb] in Hrun. by rewrite Hrun.
    + apply lookup_ge_None in Hj. apply lookup_lt_Some in Hk. lia.
  - specialize (Hrun i t). rewrite Hother in Hrun by done. specialize (Hrun Hi).
    replace ((i <? S k)%nat || (S k + n <=? i)%nat) with ((i <? k)%nat || (k + S n <=? i)%nat) in Hrun.
    2: { destruct (Nat.ltb_spec i k), (Nat.ltb_spec i (S k)), (Nat.leb_spec (k + S n) i), (Nat.leb_spec (S k + n) i); cbn; lia || done. }
    destruct (_ || validated t) eqn:Hb; [exact Hrun|]. destruct Hrun as (w & Hw & Hev). exists w. split; [exact Hw|].
    rewrite Hev. apply spent_evidence_ext. intros j. destruct (Nat.ltb_spec j i); [done|].
    apply Hother. intros ->. destruct (Nat.ltb_spec i k); [done | lia].
Qed.

(** ** The three passes together *)

Definition same (t t' : TransactionInfo) : Prop :=
  tx_log t' = tx_log t /\ tx_kernels t' = tx_kernels t /\ tx_outputs t' = tx_outputs t.

Lemma last_with_ext {K} (keys : TransactionInfo -> list K) l l' k i :
  (forall t t', same t t' -> keys t' = keys t) -> length l' = length l ->
  (forall i t, l !! i = Some t -> exists t', l' !! i = Some t' /\ same t t') ->
  last_with keys l k i <-> last_with keys l' k i.
Proof.
  intros Hkeys Hlen Hl.
  assert (Hback : forall i t', l' !! i = Some t' -> exists t, l !! i = Some t /\ same t t').
  { intros j t' Hj. destruct (lookup_lt_is_Some_2 l j) as [t Ht]; [rewrite <- Hlen; by eapply lookup_lt_Some|].
    destruct (Hl _ _ Ht) as (t2 & H2 & Hs). exists t. split; [done | congruence]. }
  split; intros [(t & Hi & Hk) Hmax]; split.
  - destruct (Hl _ _ Hi) as (t' & Hi' & Hs). exists t'. by rewrite (Hkeys _ _ Hs).
  - intros j t' Hj Hk'. destruct (Hback _ _ Hj) as (t2 & H2 & Hs). apply (Hmax j t2); [done | by rewrite <- (Hkeys _ _ Hs)].
  - destruct (Hback _ _ Hi) as (t2 & H2 & Hs). exists t2. by rewrite <- (Hkeys _ _ Hs).
  - intros j t' Hj Hk'. destruct (Hl _ _ Hj) as (t2 & H2 & Hs). apply (Hmax j t2); [done | by rewrite (Hkeys _ _ Hs)].
Qed.

Lemma hits_pos (index : gmap str nat) lines i :
  (0 <? hits index lines i)%nat = true <-> exists line, line ∈ lines /\ index !! line = Some i.
Proof.
  unfold hits. rewrite Nat.ltb_lt. split.
  - intros H. destruct (filter _ lines) as [|l ls] eqn:Hf; [cbn in H; lia|]. exists l.
    assert (l ∈ filter (fun l => index !! l = Some i) lines) as Hl by (rewrite Hf; set_solver).
    apply list_elem_of_filter in Hl as []. done.
  - intros (l & Hl & Hi). destruct (filter _ lines) as [|l' ls] eqn:Hf; [|cbn; lia].
    assert (l ∈ filter (fun l => index !! l = Some i) lines) as Hin by (apply list_elem_of_filter; done).
    rewrite Hf in Hin. by apply elem_of_nil in Hin.
Qed.

(** A line of a dump names the transaction at [i]. *)
Definition named {K} (keys : TransactionInfo -> list K) (infos : list TransactionInfo) (lines : list K) (i : nat) : Prop :=
  exists line, line ∈ lines /\ last_with keys infos line i.
Definition confirmed (infos : list TransactionInfo) (kernel_lines output_lines : list str) (i : nat) : Prop :=
  named tx_kernels infos kernel_lines i \/ named commits infos output_lines i.

(** After the dumps. *)
Lemma dumps_spec c ks os t1 t2 :
  collected_ok c -> Forall (fun t => validated t = false) (txs c) ->
  scan_dump "K" (kernel_to_tx c) ks (txs c) = Ok t1 -> scan_dump "O" (output_to_tx c) os t1 = Ok t2 ->
  length t2 = length (txs c) /\
  forall i t, txs c !! i = Some t -> exists t', t2 !! i = Some t' /\ same t t' /\
    (validated t' = true <-> confirmed (txs c) ks os i).
Proof.
  intros (Hk & Ho & _) Hv H1 H2. apply scan_dump_spec in H1 as [Hl1 H1]. apply scan_dump_spec in H2 as [Hl2 H2].
  split; [congruence|]. intros i t Hi. eexists. split; [by apply H2, H1|].
  destruct (iter_confirm "O" (hits (output_to_tx c) os i) (Nat.iter (hits (kernel_to_tx c) ks i) (confirm "K") t))
    as (A1 & A2 & A3 & _ & _ & A6).
  destruct (iter_confirm "K" (hits (kernel_to_tx c) ks i) t) as (B1 & B2 & B3 & _ & _ & B6).
  split; [unfold same; split_and!; congruence|]. rewrite A6, B6, (Forall_lookup_1 _ _ _ _ Hv Hi). cbn [orb].
  rewrite orb_true_iff, !hits_pos. unfold confirmed, named. setoid_rewrite Hk. setoid_rewrite Ho. done.
Qed.

Lemma passes_spec c ks os t1 t2 t3 :
  collected_ok c -> Forall (fun t => validated t = false) (txs c) ->
  scan_dump "K" (kernel_to_tx c) ks (txs c) = Ok t1 -> scan_dump "O" (output_to_tx c) os t1 = Ok t2 ->
  spent_pass (tx_id_to_tx c) (seq 0 (length t2)) t2 = Ok t3 ->
  length t3 = length (txs c) /\
  forall i t, txs c !! i = Some t -> exists t', t3 !! i = Some t' /\ same t t' /\
    (validated t' = true <-> confirmed t3 ks os i \/
       exists o id j s, o ∈ tx_outputs t' /\ out_tx_log_entry o = Some id /\ last_with log_id t3 id j /\ t3 !! j = Some s /\
         is_sent (tx_type (tx_log s)) = true /\ (confirmed t3 ks os j \/ ((j < i)%nat /\ validated s = true))).
Proof.
  intros Hc Hv H1 H2 H3. destruct (dumps_spec c ks os t1 t2 Hc Hv H1 H2) as [Hl2 Hd].
  apply spent_pass_spec in H3 as [Hl3 Hs].
  assert (Hstep : forall i t, t2 !! i = Some t -> exists t', t3 !! i = Some t' /\ same t t' /\
      (validated t = true -> validated t' = true)).
  { intros i t Hi. specialize (Hs i t Hi). destruct (_ || _).
    - exists t. split_and!; try done.
    - destruct Hs as (v & Hi3 & _). eexists. split; [exact Hi3|]. by destruct v. }
  assert (Hall : forall i t, txs c !! i = Some t -> exists t', t3 !! i = Some t' /\ same t t').
  { intros i t Hi. destruct (Hd i t Hi) as (t' & Ht' & (E1 & E2 & E3) & _). destruct (Hstep i t' Ht') as (t'' & H'' & (F1 & F2 & F3) & _).
    exists t''. split; [done|]. unfold same. split_and!; congruence. }
  assert (Hlen : length t3 = length (txs c)) by congruence. split; [exact Hlen|].
  assert (Hext : forall K (keys : TransactionInfo -> list K) k i, (forall t t', same t t' -> keys t' = keys t) ->
    last_with keys (txs c) k i <-> last_with keys t3 k i) by (intros; by apply last_with_ext).
  assert (Hconf : forall i, confirmed (txs c) ks os i <-> confirmed t3 ks os i).
  { intros i. unfold confirmed, named. setoid_rewrite Hext; [done| |].
    - by intros ? ? (_ & E & _).
    - intros ? ? (_ & _ & E). unfold commits. by rewrite E. }
  destruct Hc as (_ & _ & Hids).
  intros i t Hi. destruct (Hd i t Hi) as (t' & Ht' & (E1 & E2 & E3) & Hval). specialize (Hs i t' Ht').
  assert (((i <? 0)%nat || (0 + length t2 <=? i)%nat) = false) as Hb.
  { apply lookup_lt_Some in Ht'. destruct (Nat.leb_spec (0 + length t2) i); [lia | by rewrite orb_false_r]. }
  rewrite Hb in Hs. cbn [orb] in Hs. rewrite Hconf in Hval. destruct (validated t') eqn:Hvt.
  { exists t'. split_and!; [done..|]. rewrite Hvt. split; [left; by apply Hval | done]. }
  destruct Hs as (v & Hi3 & Hev). exists (if v then confirm "S" t' else t'). split; [exact Hi3|].
  split; [destruct v; done|]. assert (validated (if v then confirm "S" t' else t') = v) as -> by (by destruct v).
  assert (tx_outputs (if v then confirm "S" t' else t') = tx_outputs t') as -> by (by destruct v).
  rewrite Hev. clear Hev Hi3. split.
  - intros (o & id & j & s & Hin & Hid & Hj & Hs & Hsent & Hvs). right.
    destruct (Nat.ltb_spec j i).
    + exists o, id, j, s. rewrite <- (Hext Z log_id) by (by intros ? ? (E & _); unfold log_id; rewrite E).
      split_and!; auto. by apply Hids.
    + destruct (Hstep j s Hs) as (s3 & Hs3 & (G1 & _) & _). exists o, id, j, s3.
      rewrite <- (Hext Z log_id) by (by intros ? ? (E & _); unfold log_id; rewrite E). split_and!; auto.
      * by apply Hids.
      * by rewrite G1.
      * left. destruct (lookup_lt_is_Some_2 (txs c) j) as [tj Htj]; [rewrite <- Hl2; by eapply lookup_lt_Some|].
        destruct (Hd j tj Htj) as (s' & Hs' & _ & Hvj). rewrite <- Hconf. apply Hvj. congruence.
  - intros [Hc|(o & id & j & s & Hin & Hid & Hj & Hs & Hsent & Hvs)]; [by apply Hval in Hc|].
    rewrite <- (Hext Z log_id) in Hj by (by intros ? ? (E & _); unfold log_id; rewrite E). apply Hids in Hj.
    destruct (lookup_lt_is_Some_2 (txs c) j) as [tj Htj]; [rewrite <- Hlen; by eapply lookup_lt_Some|].
    destruct (Hd j tj Htj) as (s' & Hs' & _ & Hvj). rewrite Hconf in Hvj.
    destruct (Hstep j s' Hs') as (s3 & Hs3 & (G1 & _) & Hmono). rewrite Hs in Hs3. injection Hs3 as <-.
    destruct (Nat.ltb_spec j i) as [Hlt|Hge].
    + exists o, id, j, s. rewrite (proj2 (Nat.ltb_lt j i) Hlt). split_and!; auto. destruct Hvs as [Hvs|[_ Hvs]]; [|done].
      by apply Hmono, Hvj.
    + exists o, id, j, s'. rewrite (proj2 (Nat.ltb_ge j i) Hge). split_and!; auto; [by rewrite <- G1|].
      destruct Hvs as [Hvs|[? _]]; [by apply Hvj | lia].
Qed.
End validate.

(** ** Properties *)

Import ToyWallet.

(** The assignment of outputs to transactions neither loses nor invents
    an output: the assigned and the outstanding ones are a permutation of the
    wallet's.  Each transaction appears at most once and in the order of the
    log; the outputs assigned to one are as many as it claims, and their values
    add up to the amount it was credited; a transaction is missing from the
    result only if it claims more outputs than are left.  The assignment
    returns whenever overflow checks are off, or the amounts fit in 64 bits
    and the outputs come in the order of their child numbers. *)
Theorem calc_best_merge_correct {W : WalletData} checks outputs transactions :
  values_ok outputs ->
  (forall entries outstanding, calc_best_merge checks outputs transactions = Ok (entries, outstanding) ->
     concat (snd ∘ fst <$> entries) ++ outstanding ≡ₚ outputs /\
     (fst ∘ fst <$> entries) `sublist_of` transactions /\
     Forall (entry_ok checks) entries /\
     forall tx, tx ∈ transactions -> tx ∉ (fst ∘ fst <$> entries) -> (length outstanding < num_outputs tx)%nat) /\
  (merge_safe checks outputs -> is_ok (calc_best_merge checks outputs transactions) = true).
Proof.
  intros Hv. unfold calc_best_merge. set (m0 := {| res := []; remaining := outputs; next_canlelled := true |}). split.
  - intros entries outstanding (m & Hm & [= <- <-])%bind_Ok.
    apply merge_all_spec in Hm as (new & H1 & H2 & _ & H4 & H5 & H6); [|done]. rewrite H1. cbn [m0 res app]. auto.
  - intros Hs. destruct (merge_all_total checks transactions m0 Hs) as [m ->]. done.
Qed.

Definition toy_outputs : list OutputData := [toy_output "c1" 5 1 (Some 2); toy_output "c2" 7 2 None; toy_output "c3" 9 3 None].
Definition toy_log : list TxLogEntry :=
  [toy_tx 1 TxReceived 1 5 0 None; toy_tx 2 TxSent 0 0 5 (Some (lit "k2")); toy_tx 3 TxReceived 2 16 0 None].

Lemma calc_best_merge_correct_witness :
  exists entries, calc_best_merge true toy_outputs toy_log = Ok (entries, []) /\ length entries = 3%nat /\
    concat (snd ∘ fst <$> entries) ++ [] ≡ₚ toy_outputs.
Proof.
  assert (exists entries, calc_best_merge true toy_outputs toy_log = Ok (entries, []) /\ length entries = 3%nat) as (es & H & Hl)
    by (eexists; split; [vm_compute; reflexivity | reflexivity]).
  exists es. split; [exact H|]. split; [exact Hl|].
  destruct (calc_best_merge_correct true toy_outputs toy_log) as [T _]; [repeat constructor; vm_compute; congruence|].
  exact (proj1 (T es [] H)).
Defined.

(** A transaction that claims more outputs than are left disappears. *)
Example merge_drops_transaction :
  calc_best_merge true [toy_output "c1" 5 1 None] [toy_tx 1 TxReceived 2 5 0 None] = Ok ([], [toy_output "c1" 5 1 None]).
Proof. reflexivity. Qed.

(** C21: a successful validation writes the report of the transactions of the
    merge, and marks a transaction as validated exactly when there is evidence
    for it: one of its kernels is a line of the kernel dump and no later
    transaction has that kernel, or the same for the commitment of one of its
    outputs in the output dump, or one of its outputs was spent by a send that
    is confirmed by the dumps or was itself validated earlier in the log.  A
    failed validation leaves every file alone. *)
Theorem txs_bulk_validate_exact {W : WalletData} checks can_create w kernels_fn outputs_fn result_fn fs :
  (forall fs', txs_bulk_validate checks can_create w kernels_fn outputs_fn result_fn fs = (Ok (), fs') ->
   exists kernels_text outputs_text entries outstanding infos,
     fs !! kernels_fn = Some kernels_text /\ fs !! outputs_fn = Some outputs_text /\
     calc_best_merge checks (wallet_outputs w) (wallet_transactions w) = Ok (entries, outstanding) /\
     fs' = <[result_fn := report infos]> fs /\ length infos = length entries /\
     forall i tx outs b, entries !! i = Some (tx, outs, b) ->
       exists t, infos !! i = Some t /\ tx_log t = tx /\ tx_outputs t = outs /\ tx_kernels t = kernels_of (view_stored w) tx /\
         let conf := confirmed infos (text_lines kernels_text) (text_lines outputs_text) in
         validated t = true <-> conf i \/
           exists o id j s, o ∈ outs /\ out_tx_log_entry o = Some id /\ last_with log_id infos id j /\ infos !! j = Some s /\
             is_sent (tx_type (tx_log s)) = true /\ (conf j \/ ((j < i)%nat /\ validated s = true))) /\
  (forall e fs', txs_bulk_validate checks can_create w kernels_fn outputs_fn result_fn fs = (Err e, fs') -> fs' = fs).
Proof.
  unfold txs_bulk_validate. match goal with |- context [match ?x with _ => _ end] => destruct x as [t3|e| |] eqn:Hr end;
    [|split; [done | by intros ?? [= _ <-]]|done..].
  split; [|done]. intros fs' [= <-].
  apply bind_Ok in Hr as ([entries outstanding] & Hm & Hr). cbn zeta in Hr.
  destruct (collect_ok (view_stored w) entries) as [Hc Htxs].
  destruct (fs !! kernels_fn) as [ktext|]; [|done]. cbn [ok_or mbind outcome_bind] in Hr.
  apply bind_Ok in Hr as (t1 & H1 & Hr). destruct (fs !! outputs_fn) as [otext|]; [|done].
  cbn [ok_or mbind outcome_bind] in Hr. apply bind_Ok in Hr as (t2 & H2 & Hr). apply bind_Ok in Hr as (t3' & H3 & Hr).
  apply bind_Ok in Hr as ([] & _ & [= ->]).
  destruct (passes_spec _ _ _ _ _ _ Hc ltac:(rewrite Htxs; apply Forall_fmap, Forall_true; by intros [[]]) H1 H2 H3) as [Hl Hp].
  exists ktext, otext, entries, outstanding, t3. split_and!; try done.
  { by rewrite Hl, Htxs, length_fmap. }
  intros i tx outs b Hi. destruct (Hp i (tx_info (view_stored w) (tx, outs, b))) as (t & Ht & (E1 & E2 & E3) & Hv).
  { by rewrite Htxs, list_lookup_fmap, Hi. }
  exists t. split_and!; [done..|]. cbn zeta. rewrite Hv. cbn in E3. by rewrite E3.
Qed.

Definition toy_view : WalletView :=
  {| view_outputs := toy_outputs; view_txs := toy_log; view_stored := fun _ => None; view_parent := lit "m/0" |}.
Definition toy_dumps : gmap str str :=
  <[lit "k.txt" := lit "k2" ++ [chr 13; chr 10]]> (<[lit "o.txt" := lit "c9"]> ∅).
Definition toy_validation : outcome Error () * gmap str str :=
  txs_bulk_validate true (fun _ => true) toy_view (lit "k.txt") (lit "o.txt") (lit "r.csv") toy_dumps.

(** The send is confirmed by its kernel; the receive it spent follows from
    that only if the send comes first in the report or is confirmed itself. *)
Lemma txs_bulk_validate_exact_witness :
  exists fs' infos, toy_validation = (Ok (), fs') /\ fs' !! lit "r.csv" = Some (report infos) /\
    (validated <$> infos) = [true; true; false].
Proof.
  assert (is_ok (fst toy_validation) = true) as H by (vm_compute; reflexivity).
  assert (snd toy_validation !! lit "r.csv" = Some (report
    [confirm "S" (tx_info (fun _ => None) (toy_tx 1 TxReceived 1 5 0 None, [toy_output "c1" 5 1 (Some 2)], true));
     confirm "K" (tx_info (fun _ => None) (toy_tx 2 TxSent 0 0 5 (Some (lit "k2")), [], true));
     tx_info (fun _ => None) (toy_tx 3 TxReceived 2 16 0 None, [toy_output "c2" 7 2 None; toy_output "c3" 9 3 None], true)])) as Hf
    by (vm_compute; reflexivity).
  pose proof (txs_bulk_validate_exact true (fun _ => true) toy_view (lit "k.txt") (lit "o.txt") (lit "r.csv") toy_dumps) as [T _].
  fold toy_validation in T. destruct toy_validation as [[[]|e| |] fs']; [|discriminate H..].
  destruct (T fs' eq_refl) as (kt & ot & es & rest & infos & _).
  eexists fs', _. split; [reflexivity|]. split; [exact Hf | reflexivity].
Defined.
