(* ===== verification/Hasher.v ===== *)
(** * Address key derivation

    [common/hasher.rs]: the hasher that [grin_keychain]'s BIP32 derivation is
    run with, and the key of the address with a given index. *)

From S2P Require Import Prelude Str Errors Crypto.
Local Open Scope Z_scope.

(** The trait [grin_keychain::extkey_bip32::BIP32Hasher]. *)
Record BIP32Hasher : Type := {
  hasher_state : Type;
  network_priv : hasher_state -> str;
  network_pub : hasher_state -> str;
  master_seed : str;
  init_sha512 : str -> hasher_state -> hasher_state;
  append_sha512 : str -> hasher_state -> hasher_state;
  result_sha512 : hasher_state -> str * hasher_state;
  sha_256 : str -> str;
  ripemd_160 : str -> str;
}.

(** Hash functions and the derivation, from the crates. *)
Class DerivationLib {L : CryptoLib} : Type := {
  hmac_sha512 : str -> str -> str;          (* key, data *)
  ripemd160 : str -> str;
  ExtendedPrivKey : Type;
  epk_secret_key : ExtendedPrivKey -> SecretKey;
  new_master : forall h : BIP32Hasher, hasher_state h -> str -> (ExtendedPrivKey * hasher_state h) + Error;
  ckd_priv : forall h : BIP32Hasher, hasher_state h -> ExtendedPrivKey -> Z -> ExtendedPrivKey + Error;
  Keychain : Type;
  (** [derive_key(amount, root_key_id, Regular)] and the bytes of a key *)
  derive_root_key : Keychain -> Z -> SecretKey + Error;
  key_bytes : SecretKey -> str;
}.

Section hasher.
Context {L : CryptoLib} {D : DerivationLib}.

Record BIP32GrinboxHasher : Type := { is_floonet : bool; hmac_key : str; hmac_data : str }.

Definition BIP32GrinboxHasher_new (is_floonet : bool) : BIP32GrinboxHasher :=
  {| is_floonet := is_floonet; hmac_key := replicate 128 (chr 0); hmac_data := [] |}.

Definition grinbox_network_priv (self : BIP32GrinboxHasher) : str :=
  if is_floonet self then chr <$> [42; 0; 0; 42] else chr <$> [42; 1; 0; 42].
Definition grinbox_network_pub (self : BIP32GrinboxHasher) : str :=
  if is_floonet self then chr <$> [42; 0; 1; 42] else chr <$> [42; 1; 1; 42].

(** [result()] also resets the data. *)
Definition grinbox_hasher : BIP32Hasher := {|
  hasher_state := BIP32GrinboxHasher;
  network_priv := grinbox_network_priv;
  network_pub := grinbox_network_pub;
  master_seed := lit "Grinbox_seed";
  init_sha512 seed self := {| is_floonet := is_floonet self; hmac_key := seed; hmac_data := [] |};
  append_sha512 value self :=
    {| is_floonet := is_floonet self; hmac_key := hmac_key self; hmac_data := hmac_data self ++ value |};
  result_sha512 self :=
    (hmac_sha512 (hmac_key self) (hmac_data self),
     {| is_floonet := is_floonet self; hmac_key := hmac_key self; hmac_data := [] |});
  sha_256 := sha256;
  ripemd_160 := ripemd160;
|}.

Definition hasher_derive_address_key (floonet : bool) (keychain : Keychain) (index : Z) : result SecretKey :=
  root ← of_lib (derive_root_key keychain 713);
  let hasher := BIP32GrinboxHasher_new floonet in
  '(master, hasher) ← of_lib (new_master grinbox_hasher hasher (key_bytes root));
  child ← of_lib (ckd_priv grinbox_hasher hasher master index);
  Ok (epk_secret_key child).
End hasher.
