(* ===== verification/VerifyProof.v ===== *)
(** * Verifying a transaction proof

    [verify_tx_proof] of [wallet/api/api.rs] and of [wallet/wallet.rs]: what a
    proof file shows to someone who did not take part in the transaction.  The
    commitments are elements of an abelian group ([ProofLaws]); the functions
    on them are those of the secp256k1 crate. *)

From S2P Require Import Prelude Str Errors Regex Crypto Address Message TxProof WalletTypes Hasher.
Local Open Scope Z_scope.

(** Commitments, keys and the parts of a slate the verification reads. *)
Class ProofLib {L : CryptoLib} {SL : SlateLib} : Type := {
  slate_inputs : Slate -> list Commitment;
  slate_outputs : Slate -> list Commitment;
  blind_excess : Slate -> list PublicKey;          (* participant_data[i].public_blind_excess *)
  offset_secret_key : Slate -> SecretKey + Error;
  from_combination : list PublicKey -> option PublicKey;
  commit_value : Z -> Commitment + Error;
  commit : Z -> SecretKey -> Commitment + Error;
  commit_sum : list Commitment -> list Commitment -> Commitment + Error;   (* positive, negative *)
  to_pubkey : Commitment -> PublicKey + Error;
}.

(** An abelian group. *)
Class AbGroup : Type := {
  G : Type;
  gzero : G;
  gadd : G -> G -> G;
  gneg : G -> G;
  gadd_assoc a b c : gadd a (gadd b c) = gadd (gadd a b) c;
  gadd_comm a b : gadd a b = gadd b a;
  gadd_zero a : gadd gzero a = a;
  gadd_neg a : gadd a (gneg a) = gzero;
}.
Declare Scope group_scope.
Delimit Scope group_scope with G.
Notation "a + b" := (gadd a b) : group_scope.
Notation "- a" := (gneg a) : group_scope.

Definition gsum {A : AbGroup} (l : list G) : G := foldr gadd gzero l.

(** What the functions compute: [H] is the value generator. *)
Class ProofLaws {L : CryptoLib} {SL : SlateLib} (PL : ProofLib) (A : AbGroup) : Type := {
  point : Commitment -> G;
  pub : PublicKey -> G;
  of_value : Z -> G;
  of_blind : SecretKey -> G;
  commit_value_point v c : commit_value v = inl c -> point c = of_value v;
  commit_point k c : commit 0 k = inl c -> point c = of_blind k;
  commit_sum_point pos neg c : commit_sum pos neg = inl c ->
    point c = gadd (gsum (point <$> pos)) (gneg (gsum (point <$> neg)));
  to_pubkey_point c p : to_pubkey c = inl p -> point c = pub p;
  combination_point ks k : from_combination ks = Some k -> pub k = gsum (pub <$> ks);
}.

Section verify.
Context {L : CryptoLib} {R : RegexEngine} {P : Platform} {SL : SlateLib} {SE : Serde EncryptedMessage} {PL : ProofLib}.

(** [l.filter(|c| !ex.contains(c))]. *)
Definition without (ex l : list Commitment) : list Commitment := filter (fun c => c ∉ ex) l.

Definition verify_tx_proof (tx_proof : TxProof) :
    result (option GrinboxAddress * GrinboxAddress * Z * list Commitment * Commitment) :=
  '(destination, slate) ← map_err (fun _ => Kind VerifyProof) (verify_extract tx_proof None);
  let ins := without (TxProof.inputs tx_proof) (slate_inputs slate) in
  let outs := without (TxProof.outputs tx_proof) (slate_outputs slate) in
  excess ← unwrap (blind_excess slate !! 1%nat);     (* an index out of range panics *)
  excess_sum ← ok_or (Kind VerifyProof) (from_combination (blind_excess slate));
  commit_amount ← of_lib (commit_value (TxProof.amount tx_proof));
  commit_excess ← of_lib (commit_sum outs (ins ++ [commit_amount]));
  pubkey_excess ← of_lib (to_pubkey commit_excess);
  if negb (bool_decide (excess = pubkey_excess)) then fail VerifyProof
  else
    offset ← of_lib (offset_secret_key slate);
    commit_offset ← of_lib (commit 0 offset);
    commit_fee ← of_lib (commit_value (slate_fee slate));
    excess_sum_com ← of_lib (commit_sum (slate_outputs slate ++ [commit_fee]) (slate_inputs slate ++ [commit_offset]));
    total ← of_lib (to_pubkey excess_sum_com);
    if negb (bool_decide (total = excess_sum)) then fail VerifyProof
    else Ok (destination, address tx_proof, TxProof.amount tx_proof, outs, excess_sum_com).

(** [Wallet::verify_tx_proof]: the same as texts. *)
Definition Wallet_verify_tx_proof {W : WalletData} (tx_proof : TxProof) :
    result (option str * str * Z * list str * str) :=
  r ← verify_tx_proof tx_proof;
  let '(sender, receiver, amount, outputs, excess_sum) := r in
  Ok (option_map public_key_text sender, public_key_text receiver, amount, map util_to_hex outputs, to_hex excess_sum).

(** [verifysignature]: the line it prints.  [hash_from_vec] and
    [util_from_hex] are [grin_core]'s and [grin_util]'s. *)
Definition verifysignature (hash_from_vec : str -> str) (util_from_hex : str -> str + Error)
    (message signature pubkey : str) : result str :=
  msg ← message_from_slice (hash_from_vec message);
  pk ← of_lib (util_from_hex pubkey);
  pk ← ok_or (Kind Secp) (pk_from_slice pk);
  signature ← of_lib (util_from_hex signature);
  signature ← ok_or (Kind Secp) (from_der signature);
  Ok (if secp_verify msg signature pk
      then lit "Message, signature and public key are valid!"
      else lit "WARNING: Message, signature and public key are INVALID!").

(** ** The group equations *)

Context {A : AbGroup} {Laws : ProofLaws PL A}.

Lemma gsum_app l k : gsum (l ++ k) = gadd (gsum l) (gsum k).
Proof.
  unfold gsum. induction l as [|x l IH]; cbn; [by rewrite gadd_zero|]. by rewrite IH, gadd_assoc.
Qed.
Lemma gsum_one x : gsum [x] = x.
Proof. unfold gsum. cbn. by rewrite gadd_comm, gadd_zero. Qed.
Lemma gmove a b c : gadd a (gneg b) = c -> a = gadd b c.
Proof.
  intros <-. by rewrite (gadd_comm a), gadd_assoc, gadd_neg, gadd_zero.
Qed.
(** A sum of commitments that equals a key. *)
Lemma sum_balance pos neg last c p :
  commit_sum pos (neg ++ [last]) = inl c -> to_pubkey c = inl p ->
  gsum (point <$> pos) = gadd (gadd (gsum (point <$> neg)) (point last)) (pub p).
Proof.
  intros Hc Hp. apply commit_sum_point in Hc. apply to_pubkey_point in Hp. rewrite Hp in Hc. symmetry in Hc.
  apply gmove in Hc. rewrite Hc, fmap_app, gsum_app. change (point <$> [last]) with [point last]. by rewrite gsum_one.
Qed.

Lemma of_lib_Ok {X} (r : X + Error) x : of_lib r = Ok x -> r = inl x.
Proof. destruct r; [by intros [= ->] | done]. Qed.
End verify.

(** ** A concrete library *)

Import Toy Backtrack ToyPlatform ToySerde ToyMessage ToySlate.

Module ToyProof.
#[export, refine] Instance ints : AbGroup := {| G := Z; gzero := 0; gadd := Z.add; gneg := Z.opp |}.
Proof. all: lia. Defined.
Definition com (z : Z) : Commitment := small z.
Definition value_of (c : Commitment) : Z := default 0 (of_small c).
Definition zsum (l : list Z) : Z := foldr Z.add 0 l.

(** An input of 10, the change of 4 and the receiver's output of 5; values
    count thousandfold. *)
#[export] Instance proof_lib : ProofLib := {|
  slate_inputs _ := [com 10020];
  slate_outputs s := [com 4024; com (1000 * slate_amount s + 4)];
  blind_excess s := (fun d => chr (code (default zero (head d.1)))) <$> ts_data s;
  offset_secret_key _ := inl (toy_sk 1);
  from_combination ks := let z := zsum (code <$> (ks : list ascii)) in
    if (0 <=? z) && (z <? 256) then Some (toy_pk z) else None;
  commit_value v := inl (com (1000 * v));
  commit v k := inl (com (1000 * v + code k));
  commit_sum pos neg := inl (com (zsum (value_of <$> pos) - zsum (value_of <$> neg)));
  to_pubkey c := if (0 <=? value_of c) && (value_of c <? 256) then inl (toy_pk (value_of c)) else inr (External (lit "point"));
|}.

Lemma value_com z : value_of (com z) = z.
Proof. unfold value_of, com. by rewrite of_small_small. Qed.
Lemma code_toy_pk z : 0 <= z < 256 -> code (toy_pk z) = z.
Proof. apply code_chr. Qed.

#[export, refine] Instance proof_laws : ProofLaws proof_lib ints := {|
  point := value_of;
  pub k := code (k : ascii);
  of_value v := 1000 * v;
  of_blind k := code (k : ascii);
|}.
Proof.
  - intros v c [= <-]. apply value_com.
  - intros k c [= <-]. apply value_com.
  - intros pos neg c [= <-]. apply value_com.
  - intros c p. cbn. destruct (_ && _) eqn:H; [|done]. intros [= <-].
    apply andb_true_iff in H as [?%Z.leb_le ?%Z.ltb_lt]. symmetry. by apply code_toy_pk.
  - intros ks k. cbn. destruct (_ && _) eqn:H; [|done]. intros [= <-].
    apply andb_true_iff in H as [?%Z.leb_le ?%Z.ltb_lt]. by apply code_toy_pk.
Defined.
End ToyProof.
Import ToyProof.

(** ** Properties *)

(** C3: what a verified proof proves.  The proof's message is signed and
    decrypts to a slate; the outputs it reports are the slate's outputs that are
    not the sender's, and together they commit to the remaining inputs, the
    claimed amount and the excess of the second participant, so whoever owns
    them received that amount; and the reported kernel is the sum of all the
    participants' excesses, which balances the whole transaction with its fee
    and offset.  A slate with fewer than two participants makes the
    verification panic. *)
Theorem verify_tx_proof_sound {L : CryptoLib} {R : RegexEngine} {P : Platform} {SL : SlateLib} {SE : Serde EncryptedMessage}
    {PL : ProofLib} {A : AbGroup} {Laws : ProofLaws PL A} (p : TxProof) :
  (forall dest receiver amt outs kernel, verify_tx_proof p = Ok (dest, receiver, amt, outs, kernel) ->
   exists slate excess,
     verify_extract p None = Ok (dest, slate) /\ receiver = address p /\ amt = TxProof.amount p /\
     outs = without (TxProof.outputs p) (slate_outputs slate) /\ blind_excess slate !! 1%nat = Some excess /\
     gsum (point <$> outs) =
       gadd (gadd (gsum (point <$> without (TxProof.inputs p) (slate_inputs slate))) (of_value amt)) (pub excess) /\
     point kernel = gsum (pub <$> blind_excess slate) /\
     exists offset, offset_secret_key slate = inl offset /\
       gadd (gsum (point <$> slate_outputs slate)) (of_value (slate_fee slate)) =
         gadd (gadd (gsum (point <$> slate_inputs slate)) (of_blind offset)) (gsum (pub <$> blind_excess slate))) /\
  (forall dest slate, verify_extract p None = Ok (dest, slate) -> (length (blind_excess slate) < 2)%nat ->
     verify_tx_proof p = Panic).
Proof.
  split.
  - intros dest receiver amt outs kernel. unfold verify_tx_proof.
    intros ([d slate] & He%map_err_Ok & H)%bind_Ok. cbn zeta in H.
    destruct (blind_excess slate !! 1%nat) as [excess|] eqn:Hex; [|done]. cbn [unwrap mbind outcome_bind] in H.
    destruct (from_combination (blind_excess slate)) as [esum|] eqn:Hes; [|done]. cbn [ok_or mbind outcome_bind] in H.
    apply bind_Ok in H as (ca & Hca%of_lib_Ok & H). apply bind_Ok in H as (ce & Hce%of_lib_Ok & H).
    apply bind_Ok in H as (pe & Hpe%of_lib_Ok & H). destruct (bool_decide_reflect (excess = pe)) as [->|]; [|done].
    cbn [negb] in H. apply bind_Ok in H as (off & Hoff%of_lib_Ok & H). apply bind_Ok in H as (co & Hco%of_lib_Ok & H).
    apply bind_Ok in H as (cf & Hcf%of_lib_Ok & H). apply bind_Ok in H as (es & Hsum%of_lib_Ok & H).
    apply bind_Ok in H as (tot & Htot%of_lib_Ok & H). destruct (bool_decide_reflect (tot = esum)) as [->|]; [|done].
    cbn [negb] in H. injection H as <- <- <- <- <-. exists slate, pe. split_and!; try done.
    + rewrite <- (commit_value_point _ _ Hca). by apply (sum_balance _ _ _ ce).
    + rewrite (to_pubkey_point _ _ Htot). by apply combination_point.
    + exists off. split; [done|]. rewrite <- (combination_point _ _ Hes).
      rewrite <- (commit_point _ _ Hco), <- (commit_value_point _ _ Hcf), <- (sum_balance _ _ _ _ _ Hsum Htot).
      rewrite fmap_app, gsum_app. change (point <$> [cf]) with [point cf]. by rewrite gsum_one.
  - intros dest slate He Hl. unfold verify_tx_proof. rewrite He. cbn [map_err mbind outcome_bind].
    by rewrite (lookup_ge_None_2 (blind_excess slate) 1) by lia.
Qed.

(** A proof of the payment of 5, by the key 7 to the key 9. *)
Definition paid_slate : Slate :=
  {| ts_id := lit "0001"; ts_amount := 5; ts_fee := 1; ts_participants := 2; ts_data := [([chr 3], None); ([chr 4], None)] |}.
Definition paid_em : EncryptedMessage :=
  match EncryptedMessage_new (default [] (slate_to_json paid_slate)) toy_dest (toy_pk 9) (toy_sk 7) (lit "saltsalt") (lit "noncenonceno") with
  | Ok em => em
  | _ => toy_em
  end.
Definition paid_msg : str := default [] (to_json paid_em).
Definition paid_proof : TxProof :=
  {| address := toy_from; message := paid_msg; challenge := lit "42"; signature := toy_sig (sha256 (paid_msg ++ lit "42")) 7;
     key := match EncryptedMessage_key paid_em (toy_pk 7) (toy_sk 9) with Ok k => k | _ => [] end;
     amount := 5; fee := 1; inputs := [com 10020]; outputs := [com 4024] |}.

Lemma verify_tx_proof_sound_witness :
  verify_tx_proof paid_proof = Ok (Some toy_dest, toy_from, 5, [com 5004], com 7) /\
  gsum (point <$> [com 5004]) = 5004.
Proof.
  assert (verify_tx_proof paid_proof = Ok (Some toy_dest, toy_from, 5, [com 5004], com 7)) as H by (vm_compute; reflexivity).
  split; [exact H|].
  destruct (proj1 (verify_tx_proof_sound paid_proof) _ _ _ _ _ H) as (s & e & _).
  vm_compute. reflexivity.
Defined.
