(* ===== verification/WalletApi.v ===== *)
(** * The wallet interface

    [wallet/api/api.rs]: the functions that work on the shared wallet
    instance, an [Arc<Mutex<..>>].  The wallet library, the node and the
    database behind them are the class [WalletLib]; what this file is about is
    what the functions themselves do: which calls they make under the lock and
    which calls take the lock themselves, the console threads they start and
    stop, and the values they compute. *)

From S2P Require Import Prelude Str Errors Regex Crypto Address Message TxProof WalletTypes Hasher.
Local Open Scope Z_scope.

(** Facts about code under the wallet's lock. *)
Create HintDb lock.
Ltac lock_tac := eauto 12 with lock.

(** ** The libraries *)

(** [grin_wallet_libwallet::InitTxArgs]; the fields the program always leaves
    empty ([ttl_blocks], [payment_proof_recipient_address], [estimate_only],
    [send_args]) are left out. *)
Record InitTxArgs : Type := {
  src_acct_name : option str;
  ita_amount : Z;
  minimum_confirmations : Z;
  max_outputs : Z;
  num_change_outputs : Z;
  selection_strategy_is_use_all : bool;
  ita_message : option str;
  target_slate_version : option Z;
  ita_address : option str;
}.

Record IssueInvoiceTxArgs : Type := {
  dest_acct_name : option str;
  iita_amount : Z;
  iita_message : option str;
  iita_address : option str;
}.

Record AcctPathMapping : Type := { label : str; path : str }.

(** The context [finalize_tx] returns. *)
Record TxContext : Type := {
  ctx_amount : Z;
  ctx_fee : Z;
  input_commits : list Commitment;
  output_commits : list Commitment;
}.

(** A library call: it returns a value or an error and changes the world (the
    database, the open wallet, the node). *)
Definition libM (World A : Type) : Type := World -> (A + Error) * World.

Class WalletLib {L : CryptoLib} {SL : SlateLib} {W : WalletData} {D : DerivationLib} : Type := {
  World : Type;
  WalletInfo : Type;
  PeerInfoDisplay : Type;
  BlockFees : Type;
  CbData : Type;
  (** [w_lock.lc_provider()?.wallet_inst()?] of [wallet_lock!] *)
  lc_wallet_inst : libM World ();
  lib_keychain : libM World Keychain;
  parent_key_id_of : World -> str;
  get_data_file_dir : World -> str;
  (** calls on the open wallet *)
  lib_process_invoice_tx : Slate -> InitTxArgs -> libM World Slate;
  lib_next_available_key : libM World str;
  lib_accounts : libM World (list AcctPathMapping);
  lib_new_acct_path : str -> libM World str;
  lib_rename_acct_path : list AcctPathMapping -> str -> str -> libM World ();
  (** tx id, slate id, parent key id, pagination start and length *)
  lib_retrieve_txs : option Z -> option str -> option str -> option Z -> option Z -> libM World (list TxLogEntry);
  (** include spent, transaction, parent key id, pagination start and length *)
  lib_retrieve_outputs : bool -> option TxLogEntry -> str -> option Z -> option Z -> libM World (list OutputCommitMapping);
  lib_init_send_tx : InitTxArgs -> option (list str) -> nat -> libM World Slate;
  lib_tx_lock_outputs : Slate -> option str -> nat -> libM World ();
  lib_finalize_tx : Slate -> libM World (Slate * TxContext);
  lib_finalize_invoice_tx : Slate -> libM World Slate;
  lib_get_stored_tx_by_uuid : str -> libM World Transaction;
  lib_issue_invoice_tx : IssueInvoiceTxArgs -> nat -> libM World Slate;
  lib_build_coinbase : BlockFees -> libM World CbData;
  lib_receive_tx : Slate -> option str -> option str -> option (list Z) -> option str -> option str -> libM World Slate;
  lib_last_confirmed_height : libM World Z;
  (** calls that take the instance and lock it themselves *)
  lib_update_wallet_state : libM World bool;
  lib_retrieve_summary_info : bool -> Z -> libM World (bool * WalletInfo);
  lib_cancel_tx : option Z -> option str -> libM World ();
  lib_scan : Z -> bool -> libM World ();
  lib_dump_wallet_data : option str -> libM World ();
  (** the node *)
  get_chain_tip : libM World (Z * str * Z);
  get_connected_peer_info : libM World (list PeerInfoDisplay);
  get_outputs_by_pmmr_index : Z -> option Z -> Z -> libM World (Z * Z * list NodeOutput);
  client_post_tx : str -> bool -> libM World ();
  (** the rest *)
  start_updater_console_thread : libM World ();
  ser_tx : Transaction -> option str;       (* ser::ser_vec *)
  verify_messages : Slate -> () + Error;
  slate_tx : Slate -> Transaction;
  public_root_key_hex : Keychain -> str;
  sign_with_root : Keychain -> str -> str + Error;      (* the signature's hex text *)
  derive_key_text : Keychain -> Z -> str -> str + Error;
  floonet : bool;
}.

(** The state of a session: whether this thread holds the wallet's mutex, the
    world, the proofs, the console threads that were started and not stopped,
    and what was printed. *)
Record Inst {L : CryptoLib} {SL : SlateLib} {W : WalletData} {D : DerivationLib} {WL : WalletLib} : Type := {
  held : bool;
  world : World;
  proofs : Fs;
  printers : Z;
  console : list str;
}.

Section api.
Context {L : CryptoLib} {SL : SlateLib} {W : WalletData} {D : DerivationLib} {WL : WalletLib}.
Abbreviation M A := (stM Inst Error A).

Definition set_held (b : bool) (s : Inst) : Inst :=
  {| held := b; world := world s; proofs := proofs s; printers := printers s; console := console s |}.
Definition set_world (w : World) (s : Inst) : Inst :=
  {| held := held s; world := w; proofs := proofs s; printers := printers s; console := console s |}.
Definition set_proofs (p : Fs) (s : Inst) : Inst :=
  {| held := held s; world := world s; proofs := p; printers := printers s; console := console s |}.
Definition set_printers (n : Z) (s : Inst) : Inst :=
  {| held := held s; world := world s; proofs := proofs s; printers := n; console := console s |}.

(** A library call on what is already locked (or needs no lock). *)
Definition call {A} (f : libM World A) : M A := fun s =>
  let '(r, w) := f (world s) in (of_lib r, set_world w s).
(** The file system of the proofs. *)
Definition on_proofs {A} (f : stM Fs Error A) : M A := fun s =>
  let '(r, p) := f (proofs s) in (r, set_proofs p s).
Definition say (line : str) : M () := fun s =>
  (Ok (), {| held := held s; world := world s; proofs := proofs s; printers := printers s; console := console s ++ [line] |}).

(** [wallet_lock!(wallet_inst, w); body]: the mutex is not reentrant, so a
    thread that holds it never gets it again; it is released when the scope is
    left, by a return, an error or a panic. *)
Definition wallet_lock {A} (body : M A) : M A := fun s =>
  if held s then (Hang, s)
  else
    match (call lc_wallet_inst ≫= fun _ => body) (set_held true s) with
    | (Hang, s') => (Hang, s')
    | (r, s') => (r, set_held false s')
    end.
(** A library call that is given the instance and locks it. *)
Definition lib_locking {A} (f : libM World A) : M A := fun s => if held s then (Hang, s) else call f s.

(** [start_updater_console_thread(rx, running)?] ...
    [running.store(false); updater.join()]: an error in between leaves the
    thread running. *)
Definition start_printer : M () :=
  call start_updater_console_thread ≫= fun _ => st_modify (fun s => set_printers (printers s + 1) s).
Definition stop_printer : M () := st_modify (fun s => set_printers (printers s - 1) s).
Definition with_printer {A} (body : M A) : M A :=
  start_printer ≫= fun _ => r ← body; stop_printer ≫= fun _ => mret r.

Definition world_get {A} (f : World -> A) : M A := fun s => (Ok (f (world s)), s).
Definition parent_key_id_ : M str := world_get parent_key_id_of.

(** ** Transactions *)

Definition invoice_tx (active_account : option str) (slate : Slate) (address : option str)
    (minimum_confirmations max_outputs num_change_outputs : Z) (selection_strategy_is_use_all : bool)
    (message : option str) : M Slate :=
  lib_locking lib_update_wallet_state ≫= fun _ =>
  wallet_lock (
    call (lib_process_invoice_tx slate {|
      src_acct_name := active_account; ita_amount := slate_amount slate;
      minimum_confirmations := minimum_confirmations; max_outputs := max_outputs;
      num_change_outputs := num_change_outputs; selection_strategy_is_use_all := selection_strategy_is_use_all;
      ita_message := message; target_slate_version := None; ita_address := address |})).

Definition initiate_tx (active_account address : option str) (amount minimum_confirmations max_outputs num_change_outputs : Z)
    (selection_strategy_is_use_all : bool) (message : option str) (outputs : option (list str)) (version : option Z)
    (routputs : nat) : M Slate :=
  lib_locking lib_update_wallet_state ≫= fun _ =>
  wallet_lock (
    call (lib_init_send_tx {|
      src_acct_name := active_account; ita_amount := amount;
      minimum_confirmations := minimum_confirmations; max_outputs := max_outputs;
      num_change_outputs := num_change_outputs; selection_strategy_is_use_all := selection_strategy_is_use_all;
      ita_message := message; target_slate_version := version; ita_address := address |} outputs routputs)).

Definition tx_lock_outputs (slate : Slate) (address : option str) (participant_id : nat) : M () :=
  wallet_lock (call (lib_tx_lock_outputs slate address participant_id)).

Definition initiate_receive_tx (address active_account : option str) (amount : Z) (num_outputs : nat)
    (message : option str) : M Slate :=
  wallet_lock (
    call (lib_issue_invoice_tx {| dest_acct_name := active_account; iita_amount := amount; iita_message := message;
                                  iita_address := address |} num_outputs)).

Definition receive_tx (address : option str) (slate : Slate) (message key_id : option str)
    (output_amounts : option (list Z)) (dest_acct_name : option str) : M Slate :=
  wallet_lock (call (lib_receive_tx slate address key_id output_amounts dest_acct_name message)).

Definition build_coinbase (block_fees : BlockFees) : M CbData := wallet_lock (call (lib_build_coinbase block_fees)).

Definition cancel_tx (tx_id : option Z) (tx_slate_id : option str) : M () :=
  with_printer (lib_locking (lib_cancel_tx tx_id tx_slate_id)).

Definition get_stored_tx (uuid : str) : M Transaction := wallet_lock (call (lib_get_stored_tx_by_uuid uuid)).

(** The client is cloned under the lock and used outside of it. *)
Definition post_tx (tx : Transaction) (fluff : bool) : M () :=
  tx_hex ← st_lift (unwrap (ser_tx tx));
  wallet_lock (mret ()) ≫= fun _ =>
  call (client_post_tx (util_to_hex tx_hex) fluff).

Definition verify_slate_messages (slate : Slate) : result () := of_lib (verify_messages slate).

(** *** Finalizing

    [slate] and the optional [tx_proof] are mutable references: what they
    point to is part of the state, and keeps what was assigned before an error. *)
Record Cell : Type := { slate : Slate; tx_proof : option TxProof }.
Abbreviation MC A := (stM (Cell * Inst) Error A).

Definition on_inst {A} (m : M A) : MC A := fun '(c, s) => let '(r, s') := m s in (r, (c, s')).
Definition set_slate (x : Slate) : MC () := st_modify (fun '(c, s) => ({| slate := x; tx_proof := tx_proof c |}, s)).
Definition set_proof (x : TxProof) : MC () := st_modify (fun '(c, s) => ({| slate := slate c; tx_proof := Some x |}, s)).
Definition get_slate : MC Slate := fun '(c, s) => (Ok (slate c), (c, s)).
Definition get_proof : MC (option TxProof) := fun '(c, s) => (Ok (tx_proof c), (c, s)).

(** [wallet_lock!] around code that also uses the references. *)
Definition wallet_lock_c {A} (body : MC A) : MC A := fun '(c, s) =>
  if held s then (Hang, (c, s))
  else
    match (on_inst (call lc_wallet_inst) ≫= fun _ => body) (c, set_held true s) with
    | (Hang, cs) => (Hang, cs)
    | (r, (c', s')) => (r, (c', set_held false s'))
    end.

(** The proof with the numbers and the commitments of the sender's context. *)
Definition complete_proof (proof : TxProof) (context : TxContext) : TxProof :=
  {| address := address proof; message := message proof; challenge := challenge proof;
     signature := signature proof; key := key proof;
     amount := ctx_amount context; fee := ctx_fee context;
     inputs := inputs proof ++ input_commits context; outputs := outputs proof ++ output_commits context |}.

Definition finalize_tx {ST : Serde TxProof} : MC bool :=
  wallet_lock_c (
    x ← get_slate;
    '(slate_res, context) ← on_inst (call (lib_finalize_tx x));
    set_slate slate_res ≫= fun _ =>
    p ← get_proof;
    match p with
    | Some proof =>
        let proof := complete_proof proof context in
        set_proof proof ≫= fun _ =>
        dir ← on_inst (world_get get_data_file_dir);
        on_inst (on_proofs (store_tx_proof proof dir (slate_id slate_res)))
    | None => mret ()
    end ≫= fun _ =>
    mret true).

Definition finalize_invoice_tx : MC bool :=
  wallet_lock_c (
    x ← get_slate;
    x ← on_inst (call (lib_finalize_invoice_tx x));
    set_slate x ≫= fun _ => mret true).

(** ** Accounts and keys *)

Definition accounts : M (list AcctPathMapping) := wallet_lock (call lib_accounts).
Definition create_account_path (name : str) : M str := wallet_lock (call (lib_new_acct_path name)).
Definition rename_account_path (old_label new_label : str) : M () :=
  accts ← accounts;
  wallet_lock (call (lib_rename_acct_path accts old_label new_label)).

Definition derive_address_key (index : Z) : M SecretKey :=
  wallet_lock (
    keychain ← call lib_keychain;
    st_lift (hasher_derive_address_key floonet keychain index)).

Definition getnextkey (amount : Z) : M str :=
  wallet_lock (
    id ← call lib_next_available_key;
    keychain ← call lib_keychain;
    st_lift (of_lib (derive_key_text keychain amount id))).

Definition show_rootpublickey (message : option str) : M () :=
  wallet_lock (
    keychain ← call lib_keychain;
    say (lit "Root public key: " ++ public_root_key_hex keychain) ≫= fun _ =>
    match message with
    | Some msg =>
        signature ← st_lift (of_lib (sign_with_root keychain msg));
        say (lit "Signature: " ++ signature)
    | None => mret ()
    end).

(** ** Reading the wallet *)

Definition sync (print_progress : bool) : M bool :=
  if print_progress then with_printer (lib_locking lib_update_wallet_state)
  else lib_locking lib_update_wallet_state.

Definition retrieve_tx_id_by_slate_id (slate_id : str) : M Z :=
  wallet_lock (
    tx ← call (lib_retrieve_txs None (Some slate_id) None None None);
    mret (foldl (fun _ t => tx_id t) 1000000000 tx)).

Definition retrieve_outputs (include_spent refresh_from_node : bool) (tx : option TxLogEntry)
    (pagination_start pagination_len : option Z) : M (bool * list OutputCommitMapping) :=
  validated ← (if refresh_from_node then sync true else mret false);
  wallet_lock (
    parent_key_id ← parent_key_id_;
    outs ← call (lib_retrieve_outputs include_spent tx parent_key_id pagination_start pagination_len);
    mret (validated, outs)).

(** The state is refreshed after the lock has been taken. *)
Definition retrieve_txs (refresh_from_node : bool) (tx_id : option Z) (tx_slate_id : option str) :
    M (bool * list TxLogEntry) :=
  wallet_lock (
    parent_key_id ← parent_key_id_;
    validated ← (if refresh_from_node then sync true else mret false);
    txs ← call (lib_retrieve_txs tx_id tx_slate_id (Some parent_key_id) None None);
    mret (validated, txs)).

Definition retrieve_txs_with_proof_flag {ST : Serde TxProof} (refresh_from_node : bool) (tx_id : option Z)
    (tx_slate_id : option str) (pagination_start pagination_length : option Z) : M (bool * list (TxLogEntry * bool)) :=
  validated ← (if refresh_from_node then sync true else mret false);
  wallet_lock (
    parent_key_id ← parent_key_id_;
    txs ← call (lib_retrieve_txs tx_id tx_slate_id (Some parent_key_id) pagination_start pagination_length);
    dir ← world_get get_data_file_dir;
    txs ← mapM (fun t => flag ← match WalletTypes.tx_slate_id t with
                                 | Some i => st_match (on_proofs (has_stored_tx_proof dir i)) mret (fun _ => mret false)
                                 | None => mret false
                                 end;
                         mret (t, flag)) txs;
    mret (validated, txs)).

Definition retrieve_summary_info (refresh_from_node : bool) (minimum_confirmations : Z) : M (bool * WalletInfo) :=
  with_printer (lib_locking (lib_retrieve_summary_info refresh_from_node minimum_confirmations)).

Record NodeInfo : Type := { height : Z; total_difficulty : Z; peers : list PeerInfoDisplay }.

Definition node_info : M NodeInfo :=
  wallet_lock (
    '(hght, diff) ← st_match (call get_chain_tip) (fun '(hght, _, total_diff) => mret (hght, total_diff)) (fun _ => mret (0, 0));
    peers ← st_match (call get_connected_peer_info) mret (fun _ => mret []);
    mret {| height := hght; total_difficulty := diff; peers := peers |}).

(** [iter().max()]. *)
Definition max_height (outputs : list OutputCommitMapping) : option Z :=
  foldl (fun m o => Some (match m with Some h => Z.max h (out_height (output o)) | None => out_height (output o) end))
    None outputs.

Definition node_height : M (Z * bool) :=
  r ← wallet_lock (st_match (call get_chain_tip) (fun tip => mret (Some tip)) (fun _ => mret None));
  match r with
  | Some height => mret (height.1.1, true)
  | None =>
      outputs ← retrieve_outputs true false None None None;
      mret (default 0 (max_height outputs.2), false)
  end.

Definition get_stored_tx_proof {ST : Serde TxProof} (id : Z) : M TxProof :=
  wallet_lock (
    parent_key_id ← parent_key_id_;
    txs ← call (lib_retrieve_txs (Some id) None (Some parent_key_id) None None);
    match txs with
    | [t] =>
        match tx_slate_id t with
        | Some uuid => dir ← world_get get_data_file_dir; on_proofs (TxProof.get_stored_tx_proof dir uuid)
        | None => st_err (Kind TransactionHasNoProof)
        end
    | _ => st_err (Kind TransactionHasNoProof)
    end).

(** ** Repair *)

Definition check_repair (start_height : Z) (delete_unconfirmed : bool) : M () :=
  with_printer (lib_locking (lib_scan start_height delete_unconfirmed)).
Definition restore : M () := check_repair 1 true.
Definition dump_wallet_data (file_name : option str) : M () :=
  with_printer (lib_locking (lib_dump_wallet_data file_name)).

(** ** The lock discipline

    A function called without the lock returns, gives the lock back, and stops
    the console threads it started if it succeeds. *)
Definition well_behaved {A} (m : M A) : Prop := forall s, held s = false ->
  let '(r, s') := m s in
  r <> Hang /\ held s' = false /\ (is_ok r = true -> printers s' = printers s) /\
  printers s <= printers s' <= printers s + 1.

(** Code that runs under the lock: it does not take it. *)
Definition under_lock {A} (m : M A) : Prop := forall s,
  let '(r, s') := m s in r <> Hang /\ held s' = held s /\ printers s' = printers s.

Lemma under_ret {A} (a : A) : under_lock (mret a).
Proof. by intros s. Qed.
Lemma under_call {A} (f : libM World A) : under_lock (call f).
Proof. intros s. unfold call. destruct (f (world s)) as [[a|e] w]; done. Qed.
Lemma under_get {A} (f : World -> A) : under_lock (world_get f).
Proof. by intros s. Qed.
Lemma under_say l : under_lock (say l).
Proof. by intros s. Qed.
Lemma under_err {A} e : under_lock (st_err e : M A).
Proof. by intros s. Qed.
Lemma under_lift {A} (r : result A) : r <> Hang -> under_lock (st_lift r).
Proof. by intros H s. Qed.
Lemma under_proofs {A} (f : stM Fs Error A) : (forall p, fst (f p) <> Hang) -> under_lock (on_proofs f).
Proof. intros H s. unfold on_proofs. specialize (H (proofs s)). destruct (f (proofs s)) as [r p]. done. Qed.
Lemma under_bind {A B} (m : M A) (f : A -> M B) : under_lock m -> (forall a, under_lock (f a)) -> under_lock (m ≫= f).
Proof.
  intros Hm Hf s. unfold mbind, stM_bind. specialize (Hm s). destruct (m s) as [[a|e| |] s1]; destruct Hm as (H0 & H1 & H2); [|done..].
  specialize (Hf a s1). destruct (f a s1) as [r s2]. rewrite <- H1, <- H2. exact Hf.
Qed.
Lemma under_match {A B} (m : M A) (ok : A -> M B) (err : Error -> M B) :
  under_lock m -> (forall a, under_lock (ok a)) -> (forall e, under_lock (err e)) -> under_lock (st_match m ok err).
Proof.
  intros Hm Ho He s. unfold st_match. specialize (Hm s). destruct (m s) as [[a|e| |] s1];
    destruct Hm as (H0 & H1 & H2); [| |done..]; [specialize (Ho a s1); destruct (ok a s1) | specialize (He e s1); destruct (err e s1)];
    rewrite <- H1, <- H2; done.
Qed.
Lemma under_mapM {A B} (f : A -> M B) l : (forall a, under_lock (f a)) -> under_lock (mapM f l).
Proof.
  intros Hf. induction l as [|x l IH]; [apply under_ret|]. cbn [mapM]. apply under_bind; [apply Hf|]. intros y.
  apply under_bind; [exact IH|]. intros k. apply under_ret.
Qed.

Lemma well_wallet_lock {A} (body : M A) : under_lock body -> well_behaved (wallet_lock body).
Proof.
  intros Hb s Hs. unfold wallet_lock. rewrite Hs.
  pose proof (under_bind _ (fun _ => body) (under_call lc_wallet_inst) (fun _ => Hb) (set_held true s)) as H.
  destruct ((call lc_wallet_inst ≫= _) (set_held true s)) as [[a|e| |] s'];
    destruct H as (H1 & H2 & H3); cbn in H3 |- *; [..|done]; (split_and!; [done..|lia|lia]).
Qed.
Lemma well_locking {A} (f : libM World A) : well_behaved (lib_locking f).
Proof.
  intros s Hs. unfold lib_locking. rewrite Hs. pose proof (under_call f s) as H. destruct (call f s) as [r s'].
  destruct H as (H1 & H2 & H3). split_and!; [done|congruence|done|lia..].
Qed.
Lemma well_under {A} (m : M A) : under_lock m -> well_behaved m.
Proof. intros Hm s Hs. specialize (Hm s). destruct (m s). destruct Hm as (H1 & H2 & H3). split_and!; [done|congruence|done|lia..]. Qed.
Lemma well_bind {A B} (m : M A) (f : A -> M B) : well_behaved m -> (forall a, well_behaved (f a)) -> well_behaved (m ≫= f).
Proof.
  intros Hm Hf s Hs. unfold mbind, stM_bind. specialize (Hm s Hs). destruct (m s) as [[a|e| |] s1]; destruct Hm as (H0 & H1 & H2 & H2'); [|done..].
   specialize (Hf a s1 H1). destruct (f a s1) as [r s2].
  destruct Hf as (H3 & H4 & H5 & H6). specialize (H2 eq_refl). split_and!; [done|done|intros Hr; rewrite H5; done|lia..].
Qed.

(** The body of a printing function: it takes and gives back the lock and
    starts no further thread. *)
Lemma well_printer {A} (f : libM World A) : well_behaved (with_printer (lib_locking f)).
Proof.
  intros s Hs. unfold with_printer, start_printer, stop_printer, mbind, stM_bind, st_modify, call.
  destruct (start_updater_console_thread (world s)) as [[[]|e] w]; cbn [of_lib]; [|cbn; rewrite Hs; split_and!; done || lia].
  unfold lib_locking. cbn [held set_printers set_world]. rewrite Hs. unfold call.
  cbn [world set_printers set_world]. destruct (f w) as [[a|e] w2]; cbn; rewrite Hs; split_and!; done || lia.
Qed.

Lemma of_lib_not_hang {A} (r : A + Error) : of_lib r <> Hang.
Proof. by destruct r. Qed.
Lemma hasher_not_hang k i : hasher_derive_address_key floonet k i <> Hang.
Proof.
  unfold hasher_derive_address_key. destruct (derive_root_key k 713) as [r|]; [|done]. cbn [of_lib mbind outcome_bind].
  destruct (new_master _ _ _) as [[m h]|]; [|done]. cbn [of_lib mbind outcome_bind].
  destruct (ckd_priv _ _ _ _); done.
Qed.
Lemma unwrap_not_hang {E A} (o : option A) : @unwrap E A o <> Hang.
Proof. by destruct o. Qed.

#[local] Hint Resolve under_ret under_call under_get under_say under_err under_lift under_bind under_match under_mapM
  well_wallet_lock well_locking well_under well_bind well_printer of_lib_not_hang hasher_not_hang unwrap_not_hang : lock.
#[local] Hint Extern 3 (under_lock (match ?x with _ => _ end)) => destruct x : lock.
#[local] Hint Extern 3 (well_behaved (match ?x with _ => _ end)) => destruct x : lock.

Lemma stored_proof_not_hang {ST : Serde TxProof} d u p : fst (TxProof.get_stored_tx_proof d u p) <> Hang.
Proof.
  unfold TxProof.get_stored_tx_proof. cbn [fst]. destruct (_ !! _) as [c|]; [|done]. by destruct (of_json c).
Qed.
Lemma has_proof_not_hang d u p : fst (has_stored_tx_proof d u p) <> Hang.
Proof. done. Qed.
#[local] Hint Resolve under_proofs stored_proof_not_hang has_proof_not_hang : lock.

Lemma well_sync b : well_behaved (sync b).
Proof. unfold sync. lock_tac. Qed.
Lemma well_outputs a b c d e : well_behaved (retrieve_outputs a b c d e).
Proof. unfold retrieve_outputs. apply well_bind; [destruct b; [apply well_sync | lock_tac]|]. unfold parent_key_id_. lock_tac. Qed.
Lemma well_accounts : well_behaved accounts.
Proof. unfold accounts. lock_tac. Qed.
End api.
#[export] Hint Resolve under_ret under_call under_get under_say under_err under_lift under_bind under_match under_mapM
  under_proofs stored_proof_not_hang has_proof_not_hang well_wallet_lock well_locking well_under well_bind well_printer
  of_lib_not_hang hasher_not_hang unwrap_not_hang well_sync well_outputs well_accounts : lock.
#[export] Hint Extern 3 (under_lock (match ?x with _ => _ end)) => destruct x : lock.
#[export] Hint Extern 3 (well_behaved (match ?x with _ => _ end)) => destruct x : lock.

(** ** A wallet library *)

Import Toy Backtrack ToyPlatform ToySerde ToyMessage ToySlate ToyWallet.

Module ToyLib.
#[export] Instance derivation : DerivationLib (L := lib) := {|
  hmac_sha512 k d := pad 64 (k ++ d);
  ripemd160 d := pad 20 d;
  ExtendedPrivKey := SecretKey;
  epk_secret_key k := k;
  new_master h st seed := inl (toy_sk (Z.of_nat (length seed)), st);
  ckd_priv h st k i := if i <? 100 then inl (toy_sk (i + 1)) else inr (External (lit "index"));
  Keychain := unit;
  derive_root_key _ a := inl (toy_sk 1);
  key_bytes k := [k];
|}.

(** The database, the node and the locked and posted transactions. *)
Record toy_world : Type := {
  tw_txs : list TxLogEntry;
  tw_outputs : list OutputData;
  tw_tip : option (Z * str * Z);
  tw_accounts : list AcctPathMapping;
  tw_stored : list (str * list Commitment);
  tw_locked : list str;
  tw_posted : list str;
}.
Definition ret {A} (a : A) : libM toy_world A := fun w => (inl a, w).
Definition err {A} (e : string) : libM toy_world A := fun w => (inr (External (lit e)), w).
Definition get {A} (f : toy_world -> A) : libM toy_world A := fun w => (inl (f w), w).
Definition lock_id (i : str) : libM toy_world () := fun w =>
  (inl (), {| tw_txs := tw_txs w; tw_outputs := tw_outputs w; tw_tip := tw_tip w; tw_accounts := tw_accounts w;
     tw_stored := tw_stored w; tw_locked := i :: tw_locked w; tw_posted := tw_posted w |}).
Definition post_hex (h : str) : libM toy_world () := fun w =>
  match tw_tip w with
  | None => (inr (External (lit "no node")), w)
  | Some _ => (inl (), {| tw_txs := tw_txs w; tw_outputs := tw_outputs w; tw_tip := tw_tip w; tw_accounts := tw_accounts w;
     tw_stored := tw_stored w; tw_locked := tw_locked w; tw_posted := h :: tw_posted w |})
  end.
Definition step_slate (s : Slate) : Slate :=
  {| ts_id := ts_id s; ts_amount := ts_amount s; ts_fee := ts_fee s; ts_participants := ts_participants s;
     ts_data := ts_data s ++ [(lit "me", None)] |}.
Definition new_slate (n : Z) : Slate :=
  {| ts_id := lit "new"; ts_amount := n; ts_fee := 1; ts_participants := 2; ts_data := [(lit "me", None)] |}.

(** Three outputs; the node gives two at a time. *)
Definition toy_chain : list NodeOutput :=
  (fun i => {| no_commit := small i; no_proof := lit "proof"; no_height := 10 * i; no_mmr_index := i |}) <$> [1; 2; 3].

#[export] Instance wallet_lib : WalletLib := {|
  World := toy_world;
  WalletInfo := Z;
  PeerInfoDisplay := str;
  BlockFees := Z;
  CbData := Z;
  lc_wallet_inst := ret ();
  lib_keychain := ret ();
  parent_key_id_of _ := lit "m/0";
  get_data_file_dir _ := lit "data";
  lib_process_invoice_tx s _ := ret (step_slate s);
  lib_next_available_key := ret (lit "m/0/7");
  lib_accounts := get tw_accounts;
  lib_new_acct_path n := ret n;
  lib_rename_acct_path _ _ _ := ret ();
  lib_retrieve_txs i u _ _ _ := get (fun w => filter (fun t =>
    default (tx_id t) i = tx_id t /\ (u = None \/ u = tx_slate_id t)) (tw_txs w));
  lib_retrieve_outputs _ _ _ _ _ := get (fun w => Build_OutputCommitMapping <$> tw_outputs w);
  lib_init_send_tx a _ _ := ret (new_slate (ita_amount a));
  lib_tx_lock_outputs s _ _ := lock_id (ts_id s);
  lib_finalize_tx s := if (length (ts_data s) <? 2)%nat then err "not signed"
    else ret (s, {| ctx_amount := ts_amount s; ctx_fee := ts_fee s; input_commits := [lit "in"]; output_commits := [lit "change"] |});
  lib_finalize_invoice_tx s := if (length (ts_data s) <? 2)%nat then err "not signed" else ret s;
  lib_get_stored_tx_by_uuid u := fun w => match find (fun p => bool_decide (p.1 = u)) (tw_stored w) with
    | Some p => (inl (p.2 : list Commitment), w) | None => (inr (External (lit "no tx")), w) end;
  lib_issue_invoice_tx a _ := ret (new_slate (iita_amount a));
  lib_build_coinbase f := ret f;
  lib_receive_tx s _ _ _ acc _ := if bool_decide (acc = Some (lit "full")) then err "no account" else ret (step_slate s);
  lib_last_confirmed_height := ret 100;
  lib_update_wallet_state := get (fun w => bool_decide (is_Some (tw_tip w)));
  lib_retrieve_summary_info _ _ := ret (true, 0);
  lib_cancel_tx _ _ := ret ();
  lib_scan _ _ := ret ();
  lib_dump_wallet_data _ := err "disk full";
  get_chain_tip := fun w => match tw_tip w with Some t => (inl t, w) | None => (inr (External (lit "no node")), w) end;
  get_connected_peer_info := ret [];
  get_outputs_by_pmmr_index start _ _ := get (fun w =>
    let l := Z.min 3 (start + 1) in (3, l, filter (fun o => start <= no_mmr_index o <= l) toy_chain));
  client_post_tx h _ := post_hex h;
  start_updater_console_thread := ret ();
  ser_tx t := Some (concat t);
  verify_messages s := inl ();
  slate_tx s := [ts_id s];
  public_root_key_hex _ := lit "02";
  sign_with_root _ m := inl m;
  derive_key_text _ _ i := inl i;
  floonet := true;
|}.
Definition toy_world_0 (tip : option (Z * str * Z)) : toy_world :=
  {| tw_txs := [{| parent_key_id := lit "m/0"; tx_id := 4; tx_slate_id := Some (lit "0001"); tx_type := TxSent; tx_address := None;
       creation_ts := 0; output_height := 0; num_outputs := 1; amount_credited := 0; amount_debited := 5; tx_fee := None;
       tx_messages := None; kernel_excess := None; confirmed := true |}];
     tw_outputs := [toy_output "c1" 5 1 None; toy_output "c2" 7 2 None]; tw_tip := tip;
     tw_accounts := [{| label := lit "default"; path := lit "m/0" |}]; tw_stored := []; tw_locked := []; tw_posted := [] |}.
Definition toy_inst (tip : option (Z * str * Z)) : Inst :=
  {| held := false; world := toy_world_0 tip : World; proofs := snd (init_proof_backend (lit "data") {| dirs := ∅; files := ∅ |});
     printers := 0; console := [] |}.
End ToyLib.
Import ToyLib.

(** ** Properties *)

(** The lock discipline of the wallet interface.  Every function, called
    while its thread does not hold the instance, returns and leaves the
    instance free whatever the library answers; the console thread a function
    starts is stopped when it succeeds, and at most one is left behind when it
    fails.  ([retrieve_txs] only keeps the discipline without refresh.) *)
Theorem api_lock_discipline {L : CryptoLib} {SL : SlateLib} {W : WalletData} {D : DerivationLib} {WL : WalletLib}
    {ST : Serde TxProof} :
  (forall a sl ad mc mo nc all m, well_behaved (invoice_tx a sl ad mc mo nc all m)) /\
  (forall a ad am mc mo nc all m os v r, well_behaved (initiate_tx a ad am mc mo nc all m os v r)) /\
  (forall sl a p, well_behaved (tx_lock_outputs sl a p)) /\
  (forall a acc am n m, well_behaved (initiate_receive_tx a acc am n m)) /\
  (forall a sl m k o d, well_behaved (receive_tx a sl m k o d)) /\
  (forall b, well_behaved (build_coinbase b)) /\
  (forall i u, well_behaved (cancel_tx i u)) /\ (forall u, well_behaved (get_stored_tx u)) /\
  (forall tx f, well_behaved (post_tx tx f)) /\
  well_behaved accounts /\ (forall n, well_behaved (create_account_path n)) /\
  (forall o n, well_behaved (rename_account_path o n)) /\
  (forall i, well_behaved (derive_address_key i)) /\ (forall a, well_behaved (getnextkey a)) /\
  (forall m, well_behaved (show_rootpublickey m)) /\
  (forall b, well_behaved (sync b)) /\ (forall u, well_behaved (retrieve_tx_id_by_slate_id u)) /\
  (forall a b c d e, well_behaved (retrieve_outputs a b c d e)) /\
  (forall i u, well_behaved (retrieve_txs false i u)) /\
  (forall r i u p l, well_behaved (retrieve_txs_with_proof_flag r i u p l)) /\
  (forall r c, well_behaved (retrieve_summary_info r c)) /\
  well_behaved node_info /\ well_behaved node_height /\ (forall i, well_behaved (get_stored_tx_proof i)) /\
  (forall h d, well_behaved (check_repair h d)) /\ well_behaved restore /\
  (forall f, well_behaved (dump_wallet_data f)).
Proof.
  split_and!; intros;
    try unfold invoice_tx, initiate_tx, tx_lock_outputs, initiate_receive_tx, receive_tx, build_coinbase, cancel_tx, get_stored_tx,
      post_tx, create_account_path, rename_account_path, derive_address_key, getnextkey, show_rootpublickey,
      retrieve_tx_id_by_slate_id, retrieve_txs, retrieve_summary_info, node_info, node_height, get_stored_tx_proof, restore,
      check_repair, dump_wallet_data, parent_key_id_; lock_tac.
  - unfold retrieve_txs_with_proof_flag. apply well_bind; [destruct r; lock_tac|]. intros v. unfold parent_key_id_.
    apply well_wallet_lock. do 3 (apply under_bind; [lock_tac|]; intros). apply under_bind; [|lock_tac].
    apply under_mapM. intros t. apply under_bind; [|lock_tac]. destruct (WalletTypes.tx_slate_id t); lock_tac.
Qed.

Lemma retrieve_txs_hangs {L : CryptoLib} {SL : SlateLib} {W : WalletData} {D : DerivationLib} {WL : WalletLib}
    id uuid (s : Inst) w :
  held s = false -> lc_wallet_inst (world s) = (inl (), w) -> fst (start_updater_console_thread w) = inl () ->
  exists s', retrieve_txs true id uuid s = (Hang, s') /\ held s' = true /\ proofs s' = proofs s /\
    forall A (body : stM Inst Error A) (f : libM World A), wallet_lock body s' = (Hang, s') /\ lib_locking f s' = (Hang, s').
Proof.
  intros Hs Hlc Hst. unfold retrieve_txs, wallet_lock at 1, parent_key_id_, world_get. rewrite Hs.
  unfold sync, with_printer, start_printer, lib_locking at 1, mbind, stM_bind, call, st_modify.
  cbn [world set_held]. rewrite Hlc. cbn [of_lib set_world world].
  destruct (start_updater_console_thread w) as [r w2]. cbn in Hst. subst r. cbn.
  eexists. split; [reflexivity|]. split_and!; [done..|]. intros A body f. done.
Qed.

(** [retrieve_txs] with refresh never returns.  It takes the lock and
    then refreshes through a call that takes the lock again; the thread hangs
    holding the instance, so every later call on it hangs too. *)
Theorem retrieve_txs_deadlocks {L : CryptoLib} {SL : SlateLib} {W : WalletData} {D : DerivationLib} {WL : WalletLib}
    id uuid (s : Inst) w :
  held s = false -> lc_wallet_inst (world s) = (inl (), w) -> fst (start_updater_console_thread w) = inl () ->
  exists s', retrieve_txs true id uuid s = (Hang, s') /\ held s' = true /\ proofs s' = proofs s /\
    forall A (body : stM Inst Error A) (f : libM World A), wallet_lock body s' = (Hang, s') /\ lib_locking f s' = (Hang, s').
Proof. apply retrieve_txs_hangs. Qed.

Lemma retrieve_txs_deadlocks_witness :
  exists s', retrieve_txs true None None (toy_inst None) = (Hang, s') /\ held s' = true.
Proof.
  destruct (retrieve_txs_deadlocks None None (toy_inst None) (toy_world_0 None)) as (s' & H1 & H2 & _); [reflexivity..|].
  exists s'. split; [exact H1 | exact H2].
Defined.

(** C23: finalizing.  When the library refuses, the slate, the proof and the
    stored proofs are untouched and its error is returned.  Otherwise the slate
    is the finalized one; a proof gets the amount and the fee of the sender's
    context and its inputs and outputs in addition to those it had, and the
    stored proof of that slate reads back as exactly that.  When the proof
    cannot be stored the call fails although the slate has been finalized. *)
Theorem finalize_tx_correct {L : CryptoLib} {SL : SlateLib} {W : WalletData} {D : DerivationLib} {WL : WalletLib}
    {ST : Serde TxProof} {STL : SerdeLaws TxProof} c (s : Inst) w r w' :
  held s = false -> lc_wallet_inst (world s) = (inl (), w) -> lib_finalize_tx (slate c) w = (r, w') ->
  let '(result, (c', s')) := finalize_tx (c, s) in
  held s' = false /\ world s' = w' /\
  match r with
  | inr e => result = Err e /\ c' = c /\ proofs s' = proofs s
  | inl (sl, context) =>
      slate c' = sl /\
      match tx_proof c with
      | None => result = Ok true /\ tx_proof c' = None /\ proofs s' = proofs s
      | Some p =>
          let dir := get_data_file_dir w' in
          exists p', tx_proof c' = Some p' /\
          amount p' = ctx_amount context /\ fee p' = ctx_fee context /\
          inputs p' = inputs p ++ input_commits context /\ outputs p' = outputs p ++ output_commits context /\
          (address p', message p', challenge p', signature p', key p') = (address p, message p, challenge p, signature p, key p) /\
          (forall text, proof_dir dir ∈ dirs (proofs s) -> to_json p' = Some text ->
             result = Ok true /\ fst (TxProof.get_stored_tx_proof dir (slate_id sl) (proofs s')) = Ok p') /\
          (proof_dir dir ∉ dirs (proofs s) -> (exists e, result = Err e) /\ proofs s' = proofs s)
      end
  end.
Proof.
  intros Hs Hlc Hf. unfold finalize_tx, wallet_lock_c. rewrite Hs.
  unfold mbind, stM_bind, on_inst, call, get_slate. cbn [world set_held]. rewrite Hlc. cbn [of_lib world set_world set_held slate].
  rewrite Hf. destruct r as [[sl context]|e]; cbn; [|done].
  destruct (tx_proof c) as [p|]; cbn; [|done].
  unfold on_proofs, world_get, store_tx_proof. cbn.
  destruct (bool_decide_reflect (proof_dir (get_data_file_dir w') ∈ dirs (proofs s))) as [Hd|Hd].
  - destruct (to_json (complete_proof p context)) as [text|] eqn:Hj; cbn.
    + split_and!; try done. exists (complete_proof p context). split_and!; try done. intros text' _. rewrite Hj. intros [= <-]. split; [done|]. unfold TxProof.get_stored_tx_proof. cbn.
      rewrite lookup_insert_eq, (serde_roundtrip _ _ Hj). done.
    + split_and!; try done. exists (complete_proof p context). split_and!; try done. intros text' _. by rewrite Hj.
  - cbn. split_and!; try done. exists (complete_proof p context). split_and!; try done. intros _. eauto.
Qed.

Definition toy_cell : Cell := {| slate := step_slate a_slate; tx_proof := Some toy_proof |}.
Definition toy_finalized := finalize_tx (toy_cell, toy_inst (Some (100, [], 5))).

Lemma finalize_tx_correct_witness :
  let '(result, (c', s')) := toy_finalized in
  result = Ok true /\ held s' = false /\
  exists p', tx_proof c' = Some p' /\ outputs p' = [lit "change"] /\ amount p' = 5 /\
    fst (TxProof.get_stored_tx_proof (lit "data") (lit "0001") (proofs s')) = Ok p'.
Proof.
  pose proof (finalize_tx_correct toy_cell (toy_inst (Some (100, [], 5))) _ _ _ eq_refl eq_refl eq_refl) as T.
  fold toy_finalized in T. destruct toy_finalized as [result [c' s']].
  destruct T as (H1 & _ & _ & p' & H2 & Ha & Hf & Hi & Ho & Hk & H3 & _).
  assert (Hp : p' = complete_proof toy_proof {| ctx_amount := 5; ctx_fee := 1; input_commits := [lit "in"]; output_commits := [lit "change"] |}).
  { destruct p'. cbn in *. by simplify_eq. }
  subst p'. clear Ha Hf Hi Ho Hk.
  destruct (H3 (default [] (to_json (complete_proof toy_proof
    {| ctx_amount := 5; ctx_fee := 1; input_commits := [lit "in"]; output_commits := [lit "change"] |})))) as [H4 H5].
  - apply init_creates.
  - vm_compute. reflexivity.
  - split; [exact H4|]. split; [exact H1|]. eexists. split; [exact H2|]. split; [reflexivity|]. split; [reflexivity | exact H5].
Defined.

(** The height of the chain.  It is the node's when the node answers; when
    it does not, it is the greatest height of the outputs of the active account,
    spent ones included, and 0 when there is none; the second component says which. *)
Theorem node_height_correct {L : CryptoLib} {SL : SlateLib} {W : WalletData} {D : DerivationLib} {WL : WalletLib} (s : Inst) w :
  held s = false -> lc_wallet_inst (world s) = (inl (), w) ->
  match get_chain_tip w with
  | (inl tip, w1) => node_height s = (Ok (tip.1.1, true), set_world w1 s)
  | (inr _, w1) =>
      forall w2 outs w3, lc_wallet_inst w1 = (inl (), w2) ->
      lib_retrieve_outputs true None (parent_key_id_of w2) None None w2 = (inl outs, w3) ->
      exists h, node_height s = (Ok (h, false), set_world w3 s) /\
        (outs = [] -> h = 0) /\ (outs <> [] -> exists o, o ∈ outs /\ h = out_height (output o)) /\
        forall o, o ∈ outs -> out_height (output o) <= h
  end.
Proof.
  intros Hs Hlc. destruct s as [hs ws ps prs cs]. cbn in Hs, Hlc. subst hs.
  unfold node_height, wallet_lock, mbind, stM_bind, st_match, call. cbn [held world set_held]. rewrite Hlc. cbn.
  destruct (get_chain_tip w) as [[tip|e] w1]; cbn; [done|].
  intros w2 outs w3 Hlc2 Ho. unfold retrieve_outputs, wallet_lock, mbind, stM_bind, call. cbn. rewrite Hlc2. cbn.
  rewrite Ho. cbn. eexists. split; [reflexivity|].
  assert (Hmax : forall l m,
    match foldl (fun m o => Some (match m with Some h => Z.max h (out_height (output o)) | None => out_height (output o) end)) m l with
    | Some h => (m = Some h \/ exists o, o ∈ l /\ h = out_height (output o)) /\ (forall h0, m = Some h0 -> h0 <= h) /\
                forall o, o ∈ l -> out_height (output o) <= h
    | None => m = None /\ l = []
    end).
  { induction l as [|o l IH]; intros m; cbn [foldl].
    - destruct m as [h|]; [|done]. split_and!; [auto | intros ? [= <-]; lia | by intros ? ?%elem_of_nil].
    - specialize (IH (Some (match m with Some h => Z.max h (out_height (output o)) | None => out_height (output o) end))).
      destruct (foldl _ _ l) as [h|]; [|by destruct IH]. destruct IH as ([[= Hh]|(o' & Ho' & Hh)] & H2 & H3);
        specialize (H2 _ eq_refl); (split_and!; [|by intros ? ->; lia|]).
      + destruct m as [h0|]; [|right; exists o; split; [set_solver|lia]].
        destruct (Z.max_spec h0 (out_height (output o))) as [[_ E]|[_ E]]; rewrite E in Hh; [right; exists o; split; [set_solver|lia] | left; by f_equal].
      + intros o' [->|Hin]%elem_of_cons; [destruct m; lia | auto].
      + right. exists o'. split; [set_solver | done].
      + intros o2 [->|Hin]%elem_of_cons; [destruct m; lia | auto]. }
  specialize (Hmax outs None). unfold max_height. destruct (foldl _ _ outs) as [h|]; cbn.
  - destruct Hmax as ([?|He] & _ & Ha); [done|]. split_and!; [|done|done]. intros ->. by destruct He as (? & ?%elem_of_nil & _).
  - destruct Hmax as [_ ->]. split_and!; [done..|]. by intros ? ?%elem_of_nil.
Qed.

Lemma node_height_correct_witness :
  fst (node_height (toy_inst (Some (100, [], 5)))) = Ok (100, true) /\
  exists h, fst (node_height (toy_inst None)) = Ok (h, false) /\ h = 5.
Proof.
  split.
  - exact (f_equal fst (node_height_correct (toy_inst (Some (100, [], 5))) _ eq_refl eq_refl)).
  - destruct (node_height_correct (toy_inst None) _ eq_refl eq_refl _ _ _ eq_refl eq_refl) as (h & H & _ & H2 & _).
    exists h. split; [exact (f_equal fst H)|]. destruct H2 as (o & Ho & ->); [done|].
    assert (Forall (fun o => out_height (output o) = 5) (Build_OutputCommitMapping <$> tw_outputs (toy_world_0 None))) as Hall
      by (repeat constructor).
    exact (proj1 (Forall_forall _ _) Hall o Ho).
Defined.
