(* ===== verification/Scan.v ===== *)
(** * Scanning for outputs

    [wallet/api/restore.rs] and [scan_outputs] of [wallet/api/api.rs]: all
    outputs of the chain, in pages of the node, are tried with each key, and
    what can be rewound is appended to a file. *)

From Stdlib Require Import Sorted.
From S2P Require Import Prelude Str Errors Crypto Address Message TxProof WalletTypes Hasher WalletApi.
Local Open Scope Z_scope.

(** The hash (length, key, data), the value hidden in a range proof, and which
    files can be opened for writing. *)
Class ScanLib {L : CryptoLib} : Type := {
  blake2b : Z -> str -> str -> str;
  rewind_bullet_proof : Commitment -> SecretKey -> str -> option Z;
  open_ok : str -> bool;
}.

Section scan.
Context {L : CryptoLib} {SL : SlateLib} {W : WalletData} {D : DerivationLib} {WL : WalletLib} {SC : ScanLib}.
Abbreviation M A := (stM Inst Error A).

Record PubKeyInfo : Type := { pub_key_hex : str; rewind_hash : str }.
Definition pub_key_info (pk : PublicKey) : PubKeyInfo :=
  {| pub_key_hex := pk_to_hex pk; rewind_hash := blake2b 32 [] (serialize_vec pk) |}.

Definition newline : ascii := chr 10.
Definition content (fn : str) (s : Inst) : str := default [] (files (proofs s) !! [fn]).
Definition write_all (fn text : str) : M () := fun s =>
  (Ok (), set_proofs {| dirs := dirs (proofs s); files := <[[fn] := content fn s ++ text]> (files (proofs s)) |} s).
(** [OpenOptions] with create and append. *)
Definition open_append (fn : str) : M () := if open_ok fn then write_all fn [] else st_err (External (lit "io")).

Definition result_line (info : PubKeyInfo) (o : NodeOutput) (value : Z) : str :=
  lit "PublicKey=" ++ pub_key_hex info ++ lit " Commit=" ++ to_hex (no_commit o) ++ lit " amount=" ++ to_dec value ++
  lit " height=" ++ to_dec (no_height o) ++ lit " mmr_index=" ++ to_dec (no_mmr_index o) ++ [newline].
Definition nonce_of (info : PubKeyInfo) (o : NodeOutput) : option SecretKey :=
  sk_from_slice (blake2b 32 (no_commit o) (rewind_hash info)).
Definition scan_key (fn : str) (o : NodeOutput) (info : PubKeyInfo) : M () :=
  nonce ← st_lift (ok_or (Kind (GenericError (lit "error: Unable to create nonce: InvalidSecretKey"))) (nonce_of info o));
  match rewind_bullet_proof (no_commit o) nonce (no_proof o) with
  | None => mret ()
  | Some value => write_all fn (result_line info o value)
  end.
(** [for x in l { f(x)?; }]. *)
Fixpoint for_each {A} (f : A -> M ()) (l : list A) : M () :=
  match l with [] => mret () | x :: l => f x ≫= fun _ => for_each f l end.

Definition batch_size : Z := 1000.
Definition scanning_line (n highest_index last_retrieved_index : Z) : str :=
  lit "Scanning " ++ to_dec n ++ lit " outputs, up to index " ++ to_dec highest_index ++
  lit ". (Highest index: " ++ to_dec last_retrieved_index ++ lit ")".
(** The loop; [Hang] when it is not over after [fuel] pages. *)
Fixpoint scan_loop (checks : bool) (fuel : nat) (fn : str) (infos : list PubKeyInfo) (start_index : Z) : M () :=
  match fuel with
  | O => st_lift Hang
  | S fuel =>
      '(highest_index, last_retrieved_index, outputs) ← call (get_outputs_by_pmmr_index start_index None batch_size);
      say (scanning_line (Z.of_nat (length outputs)) highest_index last_retrieved_index) ≫= fun _ =>
      for_each (fun o => for_each (scan_key fn o) infos) outputs ≫= fun _ =>
      if highest_index =? last_retrieved_index then mret ()
      else
        start_index ← st_lift (arith checks 64 (last_retrieved_index + 1));
        scan_loop checks fuel fn infos start_index
  end.
Definition restore_scan_outputs (checks : bool) (fuel : nat) (pub_keys : list PublicKey) (output_fn : str) : M () :=
  say (lit "Starting scan outputs.") ≫= fun _ =>
  open_append output_fn ≫= fun _ =>
  scan_loop checks fuel output_fn (pub_key_info <$> pub_keys) 1.
Definition scan_outputs (checks : bool) (fuel : nat) (pub_keys : list PublicKey) (output_fn : str) : M () :=
  wallet_lock (restore_scan_outputs checks fuel pub_keys output_fn).
End scan.

(** ** A scan finds what there is *)

Section found.
Context {L : CryptoLib} {SL : SlateLib} {W : WalletData} {D : DerivationLib} {WL : WalletLib} {SC : ScanLib}.
Abbreviation M A := (stM Inst Error A).

(** What is found by a key in an output, by the keys in it, and by them in a
    list of outputs. *)
Definition found_by (o : NodeOutput) (info : PubKeyInfo) : str :=
  match nonce_of info o with
  | Some nonce => match rewind_bullet_proof (no_commit o) nonce (no_proof o) with Some v => result_line info o v | None => [] end
  | None => []
  end.
Definition found_in (infos : list PubKeyInfo) (o : NodeOutput) : str := concat (found_by o <$> infos).
Definition found (infos : list PubKeyInfo) (os : list NodeOutput) : str := concat (found_in infos <$> os).

Definition before (a b : NodeOutput) : Prop := no_mmr_index a < no_mmr_index b.
Definition highest (chain : list NodeOutput) : Z := match last chain with Some o => no_mmr_index o | None => 0 end.
(** A node over a chain that does not change: from [start] on it gives some
    outputs, at least one if there are any, up to an index it names. *)
Definition serves (chain : list NodeOutput) (w : World) : Prop :=
  exists P : World -> Prop, P w /\ forall w start, P w ->
    let '(r, w') := get_outputs_by_pmmr_index start None batch_size w in
    P w' /\
    match r with
    | inl (h, l, outputs) => h = highest chain /\ l <= h /\ (start <= h -> start <= l) /\ (h < start -> l = h) /\
        outputs = filter (fun o => start <= no_mmr_index o <= l) chain
    | inr _ => True
    end.

(** [m] appends to the file [fn] a beginning of [text], all of it if it
    returns, and nothing else happens. *)
Definition appends {A} (fn text : str) (m : M A) : Prop := forall s,
  let '(r, s') := m s in
  held s' = held s /\ printers s' = printers s /\ world s' = world s /\ dirs (proofs s') = dirs (proofs s) /\
  (forall p, p <> [fn] -> files (proofs s') !! p = files (proofs s) !! p) /\
  match r with
  | Ok _ => content fn s' = content fn s ++ text
  | Err _ => exists t, t `prefix_of` text /\ content fn s' = content fn s ++ t
  | _ => False
  end.

Lemma appends_ret {A} fn (a : A) : appends fn [] (mret a).
Proof. intros s. cbn. by rewrite app_nil_r. Qed.
Lemma appends_write fn t : appends fn t (write_all fn t).
Proof.
  intros s. cbn. unfold content. cbn. split_and!; try done; [intros; by rewrite lookup_insert_ne|].
  by rewrite lookup_insert_eq.
Qed.
Lemma appends_bind {A B} fn t1 t2 (m : M A) (f : A -> M B) :
  appends fn t1 m -> (forall a, appends fn t2 (f a)) -> appends fn (t1 ++ t2) (m ≫= f).
Proof.
  intros Hm Hf s. unfold mbind, stM_bind. specialize (Hm s). destruct (m s) as [[a|e| |] s1];
    destruct Hm as (H1 & H2 & H3 & H4 & H5 & H6); try done.
  - specialize (Hf a s1). destruct (f a s1) as [r s2]. destruct Hf as (G1 & G2 & G3 & G4 & G5 & G6).
    split_and!; try congruence; [intros p Hp; rewrite G5, H5 by done; done|].
    destruct r; try done; [by rewrite G6, H6, (assoc_L (++))|].
    destruct G6 as (t & Ht & G6). exists (t1 ++ t). split; [by apply prefix_app | by rewrite G6, H6, (assoc_L (++))].
  - split_and!; try done. destruct H6 as (t & Ht & H6). exists t. split; [by apply prefix_app_r | done].
Qed.
Lemma appends_for_each {A} fn (f : A -> M ()) (text : A -> str) l :
  (forall x, appends fn (text x) (f x)) -> appends fn (concat (text <$> l)) (for_each f l).
Proof.
  intros Hf. induction l as [|x l IH]; cbn; [apply appends_ret|]. apply appends_bind; [apply Hf | intros _; apply IH].
Qed.

Lemma appends_scan_key fn o info : appends fn (found_by o info) (scan_key fn o info).
Proof.
  unfold scan_key, found_by. intros s. unfold mbind, stM_bind, st_lift. destruct (nonce_of info o) as [nonce|]; cbn [ok_or].
  - destruct (rewind_bullet_proof _ _ _); [apply appends_write | apply appends_ret].
  - split_and!; try done. exists []. by rewrite app_nil_r.
Qed.
Lemma appends_page fn infos os : appends fn (found infos os) (for_each (fun o => for_each (scan_key fn o) infos) os).
Proof. apply appends_for_each. intros o. apply appends_for_each. apply appends_scan_key. Qed.

Lemma filter_agree {A} (P Q : A -> Prop) `{!forall x, Decision (P x), !forall x, Decision (Q x)} l :
  Forall (fun x => P x <-> Q x) l -> filter P l = filter Q l.
Proof.
  induction 1 as [|x l Hx _ IH]; [done|]. rewrite !filter_cons, IH.
  destruct (decide (P x)), (decide (Q x)); tauto.
Qed.

(** The pages add up. *)
Lemma filter_pages chain start l : StronglySorted before chain -> start <= l + 1 ->
  filter (fun o => start <= no_mmr_index o) chain =
  filter (fun o => start <= no_mmr_index o <= l) chain ++ filter (fun o => l + 1 <= no_mmr_index o) chain.
Proof.
  intros Hs Hl. induction Hs as [|o chain Hs IH Ho]; [done|]. rewrite !filter_cons.
  destruct (decide (l + 1 <= no_mmr_index o)) as [H1|H1].
  - rewrite decide_True by lia. rewrite (decide_False (P := start <= _ <= l)) by lia.
    assert (filter (fun o => start <= no_mmr_index o <= l) chain = []) as E.
    { rewrite (filter_agree _ (fun _ => False)); [by clear; induction chain|].
      eapply Forall_impl; [exact Ho|]. unfold before. intros x ?. lia. }
    rewrite E in IH |- *. cbn [app] in IH |- *. by rewrite IH.
  - destruct (decide (start <= no_mmr_index o)).
    + rewrite (decide_True (P := start <= _ <= l)) by lia. cbn [app]. by rewrite IH.
    + rewrite (decide_False (P := start <= _ <= l)) by lia. exact IH.
Qed.
Lemma highest_bound chain : StronglySorted before chain -> Forall (fun o => no_mmr_index o <= highest chain) chain.
Proof.
  induction 1 as [|o chain Hs IH Ho]; [constructor|]. unfold highest. destruct chain as [|o' chain]; [by repeat constructor|].
  change (last (o :: o' :: chain)) with (last (o' :: chain)). fold (highest (o' :: chain)). constructor; [|exact IH].
  inversion IH; inversion Ho; subst. unfold before in *. lia.
Qed.

Lemma filter_last chain start : StronglySorted before chain ->
  filter (fun o => start <= no_mmr_index o <= highest chain) chain = filter (fun o => start <= no_mmr_index o) chain.
Proof.
  intros Hs%highest_bound. apply filter_agree. eapply Forall_impl; [exact Hs|]. cbn. lia.
Qed.

Lemma found_app infos a b : found infos (a ++ b) = found infos a ++ found infos b.
Proof. unfold found. by rewrite fmap_app, concat_app. Qed.

Lemma scan_loop_spec checks chain fn infos : StronglySorted before chain -> highest chain < 2 ^ 64 - 1 ->
  forall fuel start s, (Z.to_nat (highest chain + 1 - start) < fuel)%nat -> 0 <= start -> serves chain (world s) ->
  (start <= highest chain \/ highest chain + 1 = start) ->
  let '(r, s') := scan_loop checks fuel fn infos start s in
  held s' = held s /\ printers s' = printers s /\ dirs (proofs s') = dirs (proofs s) /\
  (forall p, p <> [fn] -> files (proofs s') !! p = files (proofs s) !! p) /\
  let text := found infos (filter (fun o => start <= no_mmr_index o) chain) in
  match r with
  | Ok _ => content fn s' = content fn s ++ text
  | Err _ => exists t, t `prefix_of` text /\ content fn s' = content fn s ++ t
  | _ => False
  end.
Proof.
  intros Hs Hh. induction fuel as [|fuel IH]; intros start s Hf H0 Hw Hst; [lia|].
  cbn [scan_loop]. unfold mbind, stM_bind, call. destruct Hw as (P & Hp & Hnode). pose proof (Hnode _ start Hp) as Hn.
  destruct (get_outputs_by_pmmr_index start None batch_size (world s)) as [[[[h l] os]|e] w']; destruct Hn as [Hp' Hr]; cbn [of_lib].
  2: { split_and!; try done. exists []. split; [apply prefix_nil | by rewrite app_nil_r]. }
  destruct Hr as (-> & Hlh & Hl & Hl' & ->).
  set (page := filter (fun o => start <= no_mmr_index o <= l) chain). cbn [say].
  match goal with |- context [for_each _ page ?x] => pose proof (appends_page fn infos page x) as Ha;
    change (content fn x) with (content fn s) in Ha; destruct (for_each _ page x) as [r2 s2] end.
  destruct Ha as (A1 & A2 & A3 & A4 & A5 & A6). cbn in A1, A2, A3, A4, A5.
  destruct r2 as [[]|e| |]; [|split_and!; try done|done|done].
  - destruct (Z.eqb_spec (highest chain) l) as [<-|Hne].
    + unfold page in A6. rewrite filter_last in A6 by done. done.
    + assert (start <= l) as Hsl by lia. unfold st_lift. rewrite arith_in_range by lia.
      specialize (IH (l + 1) s2 ltac:(lia) ltac:(lia)). destruct (scan_loop checks fuel fn infos (l + 1) s2) as [r3 s3].
      destruct IH as (B1 & B2 & B3 & B4 & B5); [exists P; split; [by rewrite A3 | done] | lia|].
      split_and!; [congruence..|intros p Hne'; rewrite B4, A5 by done; done|].
      rewrite (filter_pages chain start l), found_app by (done || lia). fold page. destruct r3 as [[]|e| |]; try done.
      * by rewrite B5, A6, (assoc_L (++)).
      * destruct B5 as (t & Ht & B5). exists (found infos page ++ t). split; [by apply prefix_app | by rewrite B5, A6, (assoc_L (++))].
  - destruct A6 as (t & Ht & A6). exists t. split; [|done]. rewrite (filter_pages chain start l), found_app by (done || lia).
    by apply prefix_app_r.
Qed.
End found.

(** ** Properties *)

Import Toy ToySerde ToySlate ToyWallet ToyLib.

Module ToyScan.
(** The second output is not rewound. *)
#[export] Instance toy_scan : ScanLib := {|
  blake2b _ k _ := pad 32 k;
  rewind_bullet_proof c _ _ := i ← of_small c; if (i : Z) =? 2 then None else Some (100 * i);
  open_ok fn := negb (bool_decide (fn = lit "/"));
|}.
End ToyScan.
Import ToyScan.

(** C32: scanning.  Over a chain that does not change and whose outputs the
    node gives in pages of any size, the scan ends (with as much fuel as the
    highest index), and if it succeeds exactly what the keys find in all
    outputs of the chain has been appended to the file, each output once and in
    their order; a scan that fails has appended a beginning of it.  No other
    file is touched, and the wallet's mutex is given back. *)
Theorem scan_outputs_correct {L : CryptoLib} {SL : SlateLib} {W : WalletData} {D : DerivationLib} {WL : WalletLib} {SC : ScanLib}
    checks fuel keys fn chain (s : Inst) :
  StronglySorted before chain -> Forall (fun o => 1 <= no_mmr_index o) chain -> highest chain < 2 ^ 64 - 1 ->
  serves chain (world s) -> (Z.to_nat (highest chain) < fuel)%nat ->
  (let '(r, s') := restore_scan_outputs checks fuel keys fn s in
   let text := found (pub_key_info <$> keys) chain in
   held s' = held s /\ (forall p, p <> [fn] -> files (proofs s') !! p = files (proofs s) !! p) /\
   match r with
   | Ok _ => open_ok fn = true /\ content fn s' = content fn s ++ text
   | Err _ => exists t, t `prefix_of` text /\ content fn s' = content fn s ++ t
   | _ => False
   end) /\
  (held s = false -> let '(r, s') := scan_outputs checks fuel keys fn s in r <> Hang -> held s' = false).
Proof.
  intros Hs H1 Hh Hw Hf. split.
  - unfold restore_scan_outputs, mbind, stM_bind. cbn [say]. unfold open_append. destruct (open_ok fn) eqn:Ho.
    2: { cbn. split_and!; [done..|]. exists []. split; [apply prefix_nil | by rewrite app_nil_r]. }
    assert (0 <= highest chain /\ (1 <= highest chain \/ highest chain + 1 = 1)) as [H0 Hst].
    { unfold highest. destruct (last chain) as [o|] eqn:E; [|lia]. apply last_Some_elem_of in E.
      rewrite Forall_forall in H1. specialize (H1 o E). lia. }
    match goal with |- context [write_all fn [] ?x] => pose proof (appends_write fn [] x) as Ha; destruct (write_all fn [] x) as [r1 s1] end.
    destruct Ha as (A1 & A2 & A3 & A4 & A5 & A6). destruct r1 as [[]|e| |]; [|destruct A6 as (t & Ht & A6)|done..].
    + pose proof (scan_loop_spec checks chain fn (pub_key_info <$> keys) Hs Hh fuel 1 s1) as Hl.
      destruct (scan_loop _ _ _ _ 1 s1) as [r s2]. destruct Hl as (B1 & B2 & B3 & B4 & B5); [lia|lia|by rewrite A3|done|].
      rewrite app_nil_r in A6. change (content fn _) with (content fn s) in A6 at 2.
      assert (filter (fun o => 1 <= no_mmr_index o) chain = chain) as E.
      { rewrite (filter_agree _ (fun _ => True)) by (eapply Forall_impl; [exact H1|]; done). by clear; induction chain as [|o c IH]; [|rewrite filter_cons, IH]. }
      rewrite E, A6 in B5. split_and!; [by rewrite B1, A1|intros p Hp; rewrite B4, A5 by done; done|]. by destruct r.
    + split_and!; [done|by intros; rewrite A5|]. exists t. split; [|done]. by apply prefix_nil_inv in Ht as ->; apply prefix_nil.
  - intros Hheld. unfold scan_outputs, wallet_lock. rewrite Hheld.
    destruct ((call lc_wallet_inst ≫= _) _) as [[[]|e| |] s']; done.
Qed.

Lemma toy_serves tip : serves toy_chain (toy_world_0 tip).
Proof.
  exists (fun _ => True). split; [done|]. intros w start _. cbn -[toy_chain]. split; [done|].
  change (highest toy_chain) with 3. split_and!; [done|lia..|done].
Qed.

Lemma scan_outputs_correct_witness :
  let fn := lit "out.txt" in
  let '(r, s') := restore_scan_outputs true 4 [toy_pk 7] fn (toy_inst None) in
  r = Ok () /\ content fn s' = found [pub_key_info (toy_pk 7)] toy_chain /\
  length (filter (fun c => c = newline) (content fn s')) = 2%nat.
Proof.
  intros fn. destruct (scan_outputs_correct true 4 [toy_pk 7] fn toy_chain (toy_inst None)) as [T _].
  - repeat constructor.
  - repeat constructor; cbn; lia.
  - cbn. lia.
  - apply toy_serves.
  - cbn. lia.
  - assert (fst (restore_scan_outputs true 4 [toy_pk 7] fn (toy_inst None)) = Ok ()) as E by (vm_compute; reflexivity).
    destruct (restore_scan_outputs true 4 [toy_pk 7] fn (toy_inst None)) as [r s']. cbn [fst] in E. subst r.
    destruct T as (_ & _ & _ & T). split; [reflexivity|]. split; [exact T|]. rewrite T. vm_compute. reflexivity.
Defined.
