(* ===== verification/Wallet.v ===== *)
(** * The wallet

    [wallet/wallet.rs]: the object every command, listener and API handler
    works on.  It is locked or has an open instance; its functions check that
    first and then call the wallet interface. *)

From S2P Require Import Prelude Str Errors Regex Crypto Address Message TxProof Config WalletTypes Hasher WalletApi Scan BulkValidate.
Local Open Scope Z_scope.

(** What the console shows through [grin_wallet_controller::display]. *)
Inductive Shown {WI : Type} : Type :=
| ShowAccounts (accts : list AcctPathMapping)
| ShowInfo (account : str) (info : WI) (validated : bool)
| ShowTxs (account : str) (height : Z) (validated : bool) (txs : list TxLogEntry) (full : bool)
| ShowOutputs (account : str) (height : Z) (validated : bool) (outputs : list OutputCommitMapping)
| ShowMessages (tx : TxLogEntry)
| ShowPaymentProof (tx : TxLogEntry)
| ShowRecoveryPhrase (words : str).
Arguments Shown : clear implicits.

(** Seeds and the life cycle of the wallet files. *)
Class LifeCycle {L : CryptoLib} {SL : SlateLib} {W : WalletData} {D : DerivationLib} {WL : WalletLib} : Type := {
  WalletSeed : Type;
  seed_from_file : str -> str -> libM World WalletSeed;               (* directory, passphrase *)
  seed_file_exists : World -> str -> bool + Error;
  (** directory, passphrase, whether to write the file, only in memory, seed *)
  init_file_impl : str -> str -> bool -> bool -> option WalletSeed -> libM World WalletSeed;
  recover_from_phrase : str -> str -> str -> libM World ();
  to_mnemonic : WalletSeed -> str + Error;
  new_wallet_impl : str -> option str -> libM World ();                (* node address and secret *)
  get_lc_provider : libM World ();
  set_top_level_directory : str -> libM World ();
  open_wallet : str -> str -> libM World ();                           (* passphrase, data directory *)
  lc_inst : libM World ();
  set_parent_key_id_by_name : str -> libM World ();
  close_wallet : libM World ();
  spawn_updater : Z -> libM World ();
  save_last_scanned : Z -> str -> libM World ();                       (* batch, save, commit *)
  display : Shown WalletInfo -> libM World ();
  debug_peers : list PeerInfoDisplay -> str;
}.

(** [struct Wallet]: [backend] is whether there is an open instance,
    [updater_handler] the updater thread, with whether it ended in a panic. *)
Record Wallet : Type := {
  active_account : str;
  backend : bool;
  max_auto_accept : option Z;
  updater_running : bool;
  updater_handler : option bool;
}.

Definition Wallet_new (max_auto_accept_invoice : option Z) : Wallet :=
  {| active_account := lit "default"; backend := false; max_auto_accept := max_auto_accept_invoice;
     updater_running := false; updater_handler := None |}.

Section wallet.
Context {L : CryptoLib} {SL : SlateLib} {W : WalletData} {D : DerivationLib} {WL : WalletLib} {LC : LifeCycle}.

(** The wallet and the instance behind [backend], with the node, the files and
    the console it works on. *)
Record Session : Type := { wal : Wallet; inst : Inst }.
Abbreviation S_ A := (stM Session Error A).

Definition get_wal : S_ Wallet := fun s => (Ok (wal s), s).
Definition modify_wal (f : Wallet -> Wallet) : S_ () := fun s => (Ok (), {| wal := f (wal s); inst := inst s |}).
Definition on_instance {A} (m : stM Inst Error A) : S_ A := fun s =>
  let '(r, i) := m (inst s) in (r, {| wal := wal s; inst := i |}).

Definition set_backend (b : bool) (w : Wallet) : Wallet :=
  {| active_account := active_account w; backend := b; max_auto_accept := max_auto_accept w;
     updater_running := updater_running w; updater_handler := updater_handler w |}.
Definition set_active_account (a : str) (w : Wallet) : Wallet :=
  {| active_account := a; backend := backend w; max_auto_accept := max_auto_accept w;
     updater_running := updater_running w; updater_handler := updater_handler w |}.
Definition set_updater (running : bool) (handler : option bool) (w : Wallet) : Wallet :=
  {| active_account := active_account w; backend := backend w; max_auto_accept := max_auto_accept w;
     updater_running := running; updater_handler := handler |}.

Definition is_locked (w : Wallet) : bool := negb (backend w).

(** [self.get_wallet_instance()?]. *)
Definition get_wallet_instance : S_ () := w ← get_wal; if backend w then mret () else st_err (Kind NoWallet).
(** A function of the interface on the open instance. *)
Definition with_wallet {A} (m : stM Inst Error A) : S_ A := get_wallet_instance ≫= fun _ => on_instance m.

(** ** Life cycle *)

Definition seed_exists (config : Wallet713Config) (w : World) : result bool :=
  match get_data_path_str config with
  | Ok path => Ok (match seed_file_exists w path with inl b => b | inr _ => false end)
  | Err _ => Ok false
  | Panic => Panic
  | Hang => Hang
  end.

(** The instance's lock is taken; the result of closing is ignored. *)
Definition close_instance : stM Inst Error () := fun s =>
  if held s then (Hang, s)
  else st_match (call get_lc_provider ≫= fun _ => call close_wallet) (fun _ => mret ()) (fun _ => mret ()) s.

(** [thr.join().expect(..)] waits for the thread, which ends once
    [updater_running] is false. *)
Definition stop_updater : S_ () := fun s =>
  match updater_handler (wal s) with
  | Some panicked => (if panicked then Panic else Ok (), {| wal := set_updater false None (wal s); inst := inst s |})
  | None => (Ok (), {| wal := set_updater false None (wal s); inst := inst s |})
  end.

Definition lock : S_ () :=
  stop_updater ≫= fun _ =>
  w ← get_wal;
  (if backend w then on_instance close_instance else mret ()) ≫= fun _ =>
  modify_wal (set_backend false).

Definition start_updater (frequency : Z) : S_ () :=
  w ← get_wal;
  modify_wal (set_updater true (updater_handler w)) ≫= fun _ =>
  get_wallet_instance ≫= fun _ =>
  on_instance (call (spawn_updater frequency)).

(** The steps that can fail before there is an instance. *)
Definition open_instance (config : Wallet713Config) (account passphrase : str) : S_ () :=
  data_path ← st_lift (get_data_path_str config);
  on_instance (on_proofs (init_proof_backend data_path)) ≫= fun _ =>
  on_instance (call (seed_from_file data_path passphrase)) ≫= fun _ =>
  on_instance (fun s => let '(r, s') := call (new_wallet_impl (mwc_node_uri config) (mwc_node_secret config)) s in
                        (unwrap_result (r : result ()), s')) ≫= fun _ =>
  on_instance (fun s => let '(r, s') := call get_lc_provider s in (unwrap_result (r : result ()), s')) ≫= fun _ =>
  top ← st_lift (get_top_level_directory config);
  on_instance (call (set_top_level_directory top)) ≫= fun _ =>
  dir ← st_lift (get_wallet_data_directory config);
  on_instance (call (open_wallet passphrase dir)) ≫= fun _ =>
  on_instance (call lc_inst) ≫= fun _ =>
  on_instance (call (set_parent_key_id_by_name account)).

Definition create_wallet_instance (config : Wallet713Config) (account passphrase : str) : S_ () :=
  open_instance config account passphrase ≫= fun _ =>
  (* a new mutex *)
  (fun s => (Ok () : result (), {| wal := set_backend true (wal s); inst := set_held false (inst s) |})) ≫= fun _ =>
  match wallet_updater_frequency_sec config with
  | Some freq => start_updater freq ≫= fun _ => modify_wal (set_updater true (Some false))
  | None => mret ()
  end.

Definition unlock (config : Wallet713Config) (account passphrase : str) : S_ () :=
  lock ≫= fun _ =>
  st_map_err (fun _ => Kind WalletUnlockFailed) (create_wallet_instance config account passphrase) ≫= fun _ =>
  modify_wal (set_active_account account).

Definition init_seed (config : Wallet713Config) (passphrase : str) (create_new create_file : bool)
    (seed : option WalletSeed) : S_ WalletSeed :=
  data_file_dir ← st_lift (get_data_path_str config);
  st_match (on_instance (call (seed_from_file data_file_dir passphrase))) mret
    (fun _ =>
       if create_new
       then on_instance (call (init_file_impl data_file_dir passphrase create_file (negb create_file) seed))
       else st_err (Kind WalletSeedCouldNotBeOpened)).

Definition complete (seed : WalletSeed) (config : Wallet713Config) (account passphrase : str) (create_new : bool) :
    S_ WalletSeed :=
  seed ← init_seed config passphrase create_new true (Some seed);
  unlock config account passphrase ≫= fun _ => mret seed.
Definition init (config : Wallet713Config) (passphrase : str) (create_new : bool) : S_ WalletSeed :=
  init_seed config passphrase create_new false None.
Definition restore_seed (config : Wallet713Config) (words : list str) (passphrase : str) : S_ () :=
  path ← st_lift (get_data_path_str config);
  on_instance (call (recover_from_phrase path (join (lit " ") words) passphrase)).
Definition show (x : Shown WalletInfo) : S_ () := on_instance (call (display x)).
Definition show_mnemonic (config : Wallet713Config) (passphrase : str) : S_ () :=
  path ← st_lift (get_data_path_str config);
  seed ← on_instance (call (seed_from_file path passphrase));
  words ← st_lift (of_lib (to_mnemonic seed));
  show (ShowRecoveryPhrase words).

(** ** Accounts, keys and information *)

Definition to_generic (e : Error) : Error := Kind (GenericError (Error_display e)).

Definition getrootpublickey (message : option str) : S_ () :=
  get_wallet_instance ≫= fun _ => st_map_err to_generic (on_instance (show_rootpublickey message)).
Definition Wallet_scan_outputs {SC : ScanLib} (checks : bool) (fuel : nat) (pub_keys : list PublicKey) (output_fn : str) : S_ () :=
  with_wallet (scan_outputs checks fuel pub_keys output_fn).
Definition print (line : str) : S_ () := on_instance (say line).
Definition Wallet_getnextkey (amount : Z) : S_ () :=
  key ← with_wallet (getnextkey amount);
  print (chr 34 :: key ++ [chr 34]).

Definition Wallet_node_info : S_ () :=
  ni ← with_wallet node_info;
  if (height ni =? 0) && (total_difficulty ni =? 0)
  then print (lit "Error: Error occured trying to contact node!")
  else
    print (lit "Node Info:") ≫= fun _ =>
    print (lit "Height: " ++ to_dec (height ni)) ≫= fun _ =>
    print (lit "Total_Difficulty: " ++ to_dec (total_difficulty ni)) ≫= fun _ =>
    print (lit "PeerInfo: " ++ debug_peers (peers ni)).

Definition account_exists (account : str) : S_ bool :=
  acct_mappings ← with_wallet accounts;
  mret (foldl (fun ret m => if bool_decide (label m = account) then true else ret) false acct_mappings).

Definition update_tip_as_last_scanned : S_ () :=
  with_wallet (wallet_lock (
    '(tip_height, tip_hash, _) ← call get_chain_tip;
    call (save_last_scanned tip_height tip_hash))).
Definition list_accounts : S_ () :=
  acct_mappings ← with_wallet accounts;
  show (ShowAccounts acct_mappings).
Definition rename_account (old_name new_name : str) : S_ () := with_wallet (rename_account_path old_name new_name).
Definition create_account (name : str) : S_ () := with_wallet (_ ← create_account_path name; mret ()).

Definition Wallet_info (refresh : bool) (confirmations : Z) : S_ () :=
  '(validated, wallet_info) ← with_wallet (retrieve_summary_info refresh confirmations);
  let validated := if refresh then validated else true in
  w ← get_wal;
  show (ShowInfo (active_account w) wallet_info (negb refresh || validated)).

Definition get_id (slate_id : str) : S_ Z :=
  _ ← with_wallet node_height;
  with_wallet (retrieve_tx_id_by_slate_id slate_id).

(** The height [txs] and [outputs] show. *)
Definition shown_height (refresh_from_node : bool) : S_ Z :=
  if refresh_from_node then '(h, _) ← on_instance node_height; mret h
  else on_instance (wallet_lock (call lib_last_confirmed_height)).

Definition Wallet_retrieve_outputs (include_spent refresh_from_node : bool) (tx : option TxLogEntry) :
    S_ (bool * list OutputCommitMapping) :=
  with_wallet (retrieve_outputs include_spent refresh_from_node tx None None).

Definition txs_count {ST : Serde TxProof} : S_ nat :=
  '(_, txs) ← with_wallet (retrieve_txs_with_proof_flag false None None None None);
  mret (length txs).

Definition txs {ST : Serde TxProof} (refresh_from_node show_full_info : bool)
    (pagination_start pagination_length tx_id_ : option Z) (tx_slate_id_ : option str) : S_ () :=
  get_wallet_instance ≫= fun _ =>
  height ← shown_height refresh_from_node;
  '(validated, txs) ← on_instance (retrieve_txs_with_proof_flag refresh_from_node tx_id_ tx_slate_id_ pagination_start pagination_length);
  let txs := fst <$> txs in
  _ ← on_instance (wallet_lock (world_get get_data_file_dir));
  id ← match tx_id_, tx_slate_id_ with
       | Some i, _ => mret (Some i)
       | None, Some _ =>
           match find (fun t => bool_decide (tx_slate_id t = tx_slate_id_)) txs with
           | Some tx => mret (Some (tx_id tx))
           | None => print (lit "Could not find a transaction matching given tx Uuid.") ≫= fun _ => mret None
           end
       | None, None => mret None
       end;
  w ← get_wal;
  show (ShowTxs (active_account w) height (negb refresh_from_node || validated) txs (show_full_info || bool_decide (is_Some id))) ≫= fun _ =>
  match txs, id with
  | [tx], Some _ =>
      '(_, outputs) ← Wallet_retrieve_outputs true false (Some tx);
      show (ShowOutputs (active_account w) height (negb refresh_from_node || validated) outputs) ≫= fun _ =>
      show (ShowMessages tx) ≫= fun _ => show (ShowPaymentProof tx)
  | _, _ => mret ()
  end.

(** ** Balances: overflow of the 64-bit sum panics or wraps *)

(** The outputs that count: eligible to spend and, with a list, in it; the
    commitment of an eligible output is unwrapped only with a list. *)
Definition selected (height minimum_confirmations : Z) (output_list : option (list str)) (o : OutputData) : result bool :=
  if eligible_to_spend o height minimum_confirmations then
    match output_list with
    | Some ol => commit_str ← unwrap (out_commit o); Ok (existsb (fun e => bool_decide (e = commit_str)) ol)
    | None => Ok true
    end
  else Ok false.

Definition total (checks : bool) (height minimum_confirmations : Z) (output_list : option (list str))
    (outputs : list OutputCommitMapping) : result Z :=
  foldl (fun value o =>
    value ← value;
    sel ← selected height minimum_confirmations output_list (output o);
    if sel : bool then arith checks 64 (value + out_value (output o)) else Ok value) (Ok 0) outputs.
Definition count (height minimum_confirmations : Z) (output_list : option (list str))
    (outputs : list OutputCommitMapping) : result nat :=
  foldl (fun c o =>
    c ← c;
    sel ← selected height minimum_confirmations output_list (output o);
    Ok (if sel : bool then S c else c)) (Ok 0%nat) outputs.

Definition total_value (checks refresh_from_node : bool) (minimum_confirmations : Z) (output_list : option (list str)) : S_ Z :=
  get_wallet_instance ≫= fun _ =>
  '(height, _) ← on_instance node_height;
  '(_, outputs) ← on_instance (retrieve_outputs false refresh_from_node None None None);
  st_lift (total checks height minimum_confirmations output_list outputs).
Definition output_count (refresh_from_node : bool) (minimum_confirmations : Z) (output_list : option (list str)) : S_ nat :=
  get_wallet_instance ≫= fun _ =>
  '(height, _) ← on_instance node_height;
  '(_, outputs) ← on_instance (retrieve_outputs false refresh_from_node None None None);
  st_lift (count height minimum_confirmations output_list outputs).
Definition all_output_count (show_spent : bool) : S_ nat :=
  '(_, outputs) ← with_wallet (retrieve_outputs show_spent false None None None);
  mret (length outputs).
Definition outputs (refresh_from_node show_spent : bool) (pagination_start pagination_length : option Z) : S_ () :=
  get_wallet_instance ≫= fun _ =>
  height ← shown_height refresh_from_node;
  '(validated, outputs) ← on_instance (retrieve_outputs show_spent refresh_from_node None pagination_start pagination_length);
  w ← get_wal;
  show (ShowOutputs (active_account w) height (negb refresh_from_node || validated) outputs).

(** ** Transactions *)

Definition initiate_send_tx (address : option str) (amount minimum_confirmations : Z) (selection_strategy : str)
    (change_outputs max_outputs : Z) (message : option str) (outputs : option (list str)) (version : option Z)
    (routputs : nat) : S_ Slate :=
  get_wallet_instance ≫= fun _ =>
  w ← get_wal;
  on_instance (initiate_tx (Some (active_account w)) address amount minimum_confirmations max_outputs change_outputs
    (bool_decide (selection_strategy = lit "all")) message outputs version routputs).

Definition Wallet_initiate_receive_tx (address : option str) (amount : Z) (num_outputs : nat) : S_ Slate :=
  get_wallet_instance ≫= fun _ =>
  w ← get_wal;
  on_instance (initiate_receive_tx address (Some (active_account w)) amount num_outputs None).

Definition repost (id : Z) (fluff : bool) : S_ () :=
  get_wallet_instance ≫= fun _ =>
  '(_, txs) ← on_instance (retrieve_txs true (Some id) None);
  match txs with
  | [] => st_err (Kind (GenericError (lit "could not find transaction with id " ++ to_dec id ++ lit "!")))
  | tx :: _ =>
      match tx_slate_id tx with
      | Some slate_id =>
          stored_tx ← on_instance (get_stored_tx slate_id);
          on_instance (post_tx stored_tx fluff)
      | None => st_err (Kind (GenericError (lit "no transaction data stored for id " ++ to_dec id ++ lit ", can not repost!")))
      end
  end.

Definition cancel (id : Z) : S_ () := with_wallet (cancel_tx (Some id) None).
Definition restore_state : S_ () := with_wallet restore.
Definition Wallet_check_repair (start_height : Z) (delete_unconfirmed : bool) : S_ () :=
  with_wallet (check_repair start_height delete_unconfirmed).
Definition Wallet_sync : S_ bool := with_wallet (sync true).
Definition Wallet_dump_wallet_data (file_name : option str) : S_ () := with_wallet (dump_wallet_data file_name).
Definition Wallet_build_coinbase (block_fees : BlockFees) : S_ CbData := with_wallet (build_coinbase block_fees).
Definition Wallet_tx_lock_outputs (slate : Slate) (address : option str) (participant_id : nat) : S_ () :=
  with_wallet (tx_lock_outputs slate address participant_id).
Definition submit (txn : Transaction) : S_ () :=
  get_wallet_instance ≫= fun _ => st_map_err (fun _ => Kind GrinWalletPostError) (on_instance (post_tx txn false)).
Definition Wallet_retrieve_summary_info (refresh : bool) (confirmations : Z) : S_ WalletInfo :=
  '(_, wallet_info) ← with_wallet (retrieve_summary_info refresh confirmations); mret wallet_info.
Definition Wallet_retrieve_txs (refresh_from_node : bool) (tx_id : option Z) (tx_slate_id : option str) :
    S_ (bool * list TxLogEntry) := with_wallet (retrieve_txs refresh_from_node tx_id tx_slate_id).
Definition Wallet_get_stored_tx (uuid : str) : S_ Transaction := with_wallet (get_stored_tx uuid).
Definition Wallet_post_tx (tx : Transaction) (fluff : bool) : S_ () := with_wallet (post_tx tx fluff).
Definition Wallet_node_height : S_ (Z * bool) := with_wallet node_height.
Definition Wallet_derive_address_key (index : Z) : S_ SecretKey := with_wallet (derive_address_key index).
Definition get_tx_proof {ST : Serde TxProof} (id : Z) : S_ TxProof := with_wallet (get_stored_tx_proof id).

(** ** Slates that arrive: the caller's slate is part of the state *)

Abbreviation SC A := (stM (Cell * Session) Error A).
Definition on_session {A} (m : S_ A) : SC A := fun '(c, s) => let '(r, s') := m s in (r, (c, s')).
Definition on_cell {A} (m : stM (Cell * Inst) Error A) : SC A := fun '(c, s) =>
  let '(r, (c', i)) := m (c, inst s) in (r, (c', {| wal := wal s; inst := i |})).
Definition the_slate : SC Slate := fun '(c, s) => (Ok (slate c), (c, s)).
Definition put_slate (x : Slate) : SC () := st_modify (fun '(c, s) => ({| slate := x; tx_proof := tx_proof c |}, s)).

Definition process_sender_initiated_slate (address key_id : option str) (output_amounts : option (list Z))
    (dest_acct_name : option str) : SC () :=
  on_session get_wallet_instance ≫= fun _ =>
  x ← the_slate;
  s ← st_map_err (fun _ => Kind GrinWalletReceiveError)
        (on_session (on_instance (receive_tx address x None key_id output_amounts dest_acct_name)));
  put_slate s.

Definition process_receiver_initiated_slate (address : option str) : SC () :=
  w ← on_session get_wal;
  max_auto_accept_invoice ← st_lift (ok_or (Kind DoesNotAcceptInvoices) (max_auto_accept w));
  x ← the_slate;
  (if max_auto_accept_invoice <? slate_amount x
   then st_err (Kind (InvoiceAmountTooBig (slate_amount x))) else mret ()) ≫= fun _ =>
  on_session get_wallet_instance ≫= fun _ =>
  x ← on_session (on_instance (invoice_tx (Some (active_account w)) x address 10 500 1 false None));
  put_slate x ≫= fun _ =>
  on_session get_wallet_instance ≫= fun _ =>
  on_session (on_instance (tx_lock_outputs x address 1)).

Definition finalize_slate {ST : Serde TxProof} : SC () :=
  on_session get_wallet_instance ≫= fun _ =>
  x ← the_slate;
  _ ← st_lift (map_err (fun _ => Kind GrinWalletVerifySlateMessagesError) (verify_slate_messages x));
  should_post ← st_map_err (fun _ => Kind GrinWalletFinalizeError) (on_cell finalize_tx);
  if should_post : bool then
    x ← the_slate;
    st_map_err (fun _ => Kind GrinWalletPostError) (on_session (on_instance (post_tx (slate_tx x) false)))
  else mret ().

Definition finalize_invoice_slate : SC () :=
  on_session get_wallet_instance ≫= fun _ =>
  x ← the_slate;
  _ ← st_lift (map_err (fun _ => Kind GrinWalletVerifySlateMessagesError) (verify_slate_messages x));
  should_post ← st_map_err (fun _ => Kind GrinWalletFinalizeError) (on_cell finalize_invoice_tx);
  if should_post : bool then
    x ← the_slate;
    st_map_err (fun _ => Kind GrinWalletPostError) (on_session (on_instance (post_tx (slate_tx x) false)))
  else mret ().

(** ** Quiet steps: they leave the wallet object and the mutex alone *)

Definition quiet {A} (m : S_ A) : Prop := forall s,
  let '(r, s') := m s in r <> Hang /\ wal s' = wal s /\ held (inst s') = held (inst s).

Lemma quiet_bind {A B} (m : S_ A) (f : A -> S_ B) : quiet m -> (forall a, quiet (f a)) -> quiet (m ≫= f).
Proof.
  intros Hm Hf s. unfold mbind, stM_bind. specialize (Hm s). destruct (m s) as [[a|e| |] s1]; destruct Hm as (H0 & H1 & H2); [|done..].
  specialize (Hf a s1). destruct (f a s1) as [r s2]. rewrite <- H1, <- H2. exact Hf.
Qed.
Lemma quiet_under {A} (m : stM Inst Error A) : under_lock m -> quiet (on_instance m).
Proof. intros Hm s. unfold on_instance. specialize (Hm (inst s)). destruct (m (inst s)) as [r i]. destruct Hm as (? & ? & ?). done. Qed.
Lemma quiet_lift {A} (r : result A) : r <> Hang -> quiet (st_lift r).
Proof. by intros H s. Qed.
Lemma quiet_unwrap {A} (m : stM Inst Error A) :
  under_lock m -> quiet (on_instance (fun s => let '(r, s') := m s in (unwrap_result r : result A, s'))).
Proof. intros Hm s. unfold on_instance. specialize (Hm (inst s)). destruct (m (inst s)) as [[] i]; destruct Hm as (? & ? & ?); done. Qed.

Lemma quiet_open config account passphrase : quiet (open_instance config account passphrase).
Proof.
  unfold open_instance. apply quiet_bind; [by apply quiet_lift|]. intros dp.
  apply quiet_bind; [apply quiet_under, under_proofs; done|]. intros _.
  apply quiet_bind; [apply quiet_under, under_call|]. intros _.
  apply quiet_bind; [apply (quiet_unwrap (call _)), under_call|]. intros _.
  apply quiet_bind; [apply (quiet_unwrap (call _)), under_call|]. intros _.
  apply quiet_bind; [apply quiet_lift, unwrap_not_hang|]. intros top.
  apply quiet_bind; [apply quiet_under, under_call|]. intros _.
  apply quiet_bind; [apply quiet_lift, unwrap_not_hang|]. intros dir.
  apply quiet_bind; [apply quiet_under, under_call|]. intros _.
  apply quiet_bind; [apply quiet_under, under_call|]. intros _.
  apply quiet_under, under_call.
Qed.

(** Locking always succeeds when the mutex is free and the updater did not panic. *)
Definition lockable (s : Session) : Prop :=
  updater_handler (wal s) <> Some true /\ (backend (wal s) = true -> held (inst s) = false).

Lemma close_instance_spec i :
  held i = false -> exists i', close_instance i = (Ok (), i') /\ held i' = false /\ proofs i' = proofs i.
Proof.
  intros Hh. unfold close_instance. rewrite Hh. unfold st_match, mbind, stM_bind, call.
  destruct (get_lc_provider (world i)) as [[[]|e] w]; cbn; [|eauto].
  destruct (close_wallet w) as [[[]|e] w2]; cbn; eauto.
Qed.

Lemma lock_spec s :
  lockable s -> exists i, lock s = (Ok (), {| wal := set_backend false (set_updater false None (wal s)); inst := i |}) /\
    held i = held (inst s) /\ proofs i = proofs (inst s) /\ (backend (wal s) = false -> i = inst s).
Proof.
  intros [Hu Hh]. destruct s as [[acc b m run h] i]. cbn in Hu, Hh. unfold lock, mbind, stM_bind, stop_updater. cbn.
  assert (match h with Some panicked => (if panicked : bool then Panic else Ok () : result ()) | None => Ok () end = Ok ()) as E
    by (destruct h as [[]|]; done).
  destruct b; cbn.
  - destruct (close_instance_spec i) as (i' & Hc & H1 & H2); [by apply Hh|].
    exists i'. split; [|by rewrite H1, H2, Hh].
    destruct h as [[]|]; [done|..]; cbn; unfold on_instance, stM_bind; cbn; rewrite Hc; done.
  - exists i. split; [|done]. destruct h as [[]|]; done.
Qed.

Lemma start_updater_spec freq s :
  backend (wal s) = true ->
  start_updater freq s = (of_lib (fst (spawn_updater freq (world (inst s)))),
    {| wal := set_updater true (updater_handler (wal s)) (wal s); inst := set_world (snd (spawn_updater freq (world (inst s)))) (inst s) |}).
Proof.
  intros Hb. unfold start_updater, mbind, stM_bind, get_wal, modify_wal, get_wallet_instance. cbn.
  unfold mbind, stM_bind. cbn. rewrite Hb. cbn. unfold on_instance, call. cbn. by destruct (spawn_updater _ _).
Qed.

(** The calls of the library that open the wallet of the configuration, from the
    world [w] to [w']: the passphrase opens its seed and its database, and it has
    the account. *)
Definition opens (config : Wallet713Config) (account passphrase : str) (w w' : World) : Prop :=
  exists top dir seed w1 w2 w3 w4 w5 w6,
    get_top_level_directory config = Ok top /\ get_wallet_data_directory config = Ok dir /\
    seed_from_file (get_data_path config) passphrase w = (inl seed, w1) /\
    new_wallet_impl (mwc_node_uri config) (mwc_node_secret config) w1 = (inl (), w2) /\
    get_lc_provider w2 = (inl (), w3) /\ set_top_level_directory top w3 = (inl (), w4) /\
    open_wallet passphrase dir w4 = (inl (), w5) /\ lc_inst w5 = (inl (), w6) /\
    set_parent_key_id_by_name account w6 = (inl (), w').

(** The next call of the library: when it fails, nothing opens. *)
Ltac open_step :=
  match goal with
  | |- context [match ?f ?w with (_, _) => _ end] =>
      let H := fresh "Hcall" in destruct (f w) as [[?|?] ?] eqn:H; cbn;
      [|try (split; [by eexists _, _|]); intros ? (? & ? & ? & ? & ? & ? & ? & ? & ? & ? & ? & ? & ? & ? & ? & ? & ? & ?); congruence]
  end.
Lemma open_spec config account passphrase s :
  let '(r, s') := open_instance config account passphrase s in
  match r with
  | Ok _ => opens config account passphrase (world (inst s)) (world (inst s'))
  | Err _ => forall w, ~ opens config account passphrase (world (inst s)) w
  | Panic => (exists seed w1, seed_from_file (get_data_path config) passphrase (world (inst s)) = (inl seed, w1)) /\
      forall w, ~ opens config account passphrase (world (inst s)) w
  | Hang => False
  end.
Proof.
  unfold open_instance, get_data_path_str, mbind, stM_bind, on_instance, on_proofs, call, st_lift, init_proof_backend, st_modify. cbn.
  open_step. open_step. open_step.
  destruct (get_top_level_directory config) as [top|e| |] eqn:Htop; cbn;
    [|exfalso; revert Htop; unfold get_top_level_directory; by destruct (path_parent _)| |exfalso; revert Htop; unfold get_top_level_directory; by destruct (path_parent _)].
  2: { split; [by eexists _, _|]. intros ? (? & ? & ? & ? & ? & ? & ? & ? & ? & ? & ? & ? & ? & ? & ? & ? & ? & ?); congruence. }
  open_step.
  destruct (get_wallet_data_directory config) as [dir|e| |] eqn:Hdir; cbn;
    [|exfalso; revert Hdir; unfold get_wallet_data_directory; by destruct (file_name _)| |exfalso; revert Hdir; unfold get_wallet_data_directory; by destruct (file_name _)].
  2: { split; [by eexists _, _|]. intros ? (? & ? & ? & ? & ? & ? & ? & ? & ? & ? & ? & ? & ? & ? & ? & ? & ? & ?); congruence. }
  open_step. open_step. open_step. repeat match goal with u : () |- _ => destruct u end. do 9 eexists. split_and!; done.
Qed.

(** Building an instance: what each way of ending leaves behind. *)
Lemma create_spec config account passphrase s :
  backend (wal s) = false -> updater_handler (wal s) = None -> updater_running (wal s) = false ->
  let '(r, s') := create_wallet_instance config account passphrase s in
  r <> Hang /\ active_account (wal s') = active_account (wal s) /\ max_auto_accept (wal s') = max_auto_accept (wal s) /\
  match r with
  | Ok _ => backend (wal s') = true /\ held (inst s') = false /\
      let on := bool_decide (is_Some (wallet_updater_frequency_sec config)) in
      updater_running (wal s') = on /\ updater_handler (wal s') = if on then Some false else None
  | _ => updater_handler (wal s') = None /\ (wallet_updater_frequency_sec config = None -> backend (wal s') = false)
  end.
Proof.
  intros Hb Hh Hr. unfold create_wallet_instance. unfold mbind at 1, stM_bind at 1.
  pose proof (quiet_open config account passphrase s) as Hq.
  destruct (open_instance config account passphrase s) as [[[]|e| |] s1]; destruct Hq as (H0 & H1 & H2); [|rewrite H1; done..].
  unfold mbind, stM_bind. cbn [wal inst].
  destruct (wallet_updater_frequency_sec config) as [freq|] eqn:Hf; cbn.
  - rewrite start_updater_spec by done. cbn.
    destruct (spawn_updater freq (world (inst s1))) as [[[]|e] w]; cbn; rewrite H1; done.
  - rewrite H1. done.
Qed.

Lemma unlock_spec config account passphrase (s : Session) :
  lockable s ->
  let '(r, s') := unlock config account passphrase s in
  let freq := wallet_updater_frequency_sec config in
  max_auto_accept (wal s') = max_auto_accept (wal s) /\
  match r with
  | Ok _ => is_locked (wal s') = false /\ active_account (wal s') = account /\ held (inst s') = false /\
      updater_running (wal s') = bool_decide (is_Some freq) /\
      updater_handler (wal s') = (if bool_decide (is_Some freq) then Some false else None)
  | Err e => e = Kind WalletUnlockFailed /\ active_account (wal s') = active_account (wal s) /\
      (freq = None -> is_locked (wal s') = true)
  | Panic => active_account (wal s') = active_account (wal s)
  | Hang => False
  end.
Proof.
  intros Hl. unfold unlock. destruct (lock_spec s Hl) as (i & Hlock & _). unfold mbind at 1, stM_bind at 1. rewrite Hlock.
  set (s1 := {| wal := _; inst := i |}). unfold mbind, stM_bind, st_map_err.
  pose proof (create_spec config account passphrase s1 eq_refl eq_refl eq_refl) as Hc.
  destruct (create_wallet_instance config account passphrase s1) as [r s2]. destruct Hc as (H0 & H1 & H2 & H3).
  destruct r as [[]|e| |]; cbn [map_err].
  - destruct H3 as (H3 & H4 & H5 & H6). cbn. unfold is_locked. cbn. rewrite H3. split_and!; done.
  - destruct H3 as (H3 & H4). split; [exact H2|]. split_and!; [done|exact H1|]. intros Hf. unfold is_locked. by rewrite H4.
  - split; [exact H2 | exact H1].
  - done.
Qed.

(** ** Gating *)

Definition gated {A} (m : S_ A) : Prop := forall s, backend (wal s) = false -> m s = (Err (Kind NoWallet), s).
Definition gated_c {A} (m : SC A) : Prop := forall c s, backend (wal s) = false -> m (c, s) = (Err (Kind NoWallet), (c, s)).

Lemma gated_instance : gated get_wallet_instance.
Proof. intros s Hb. unfold get_wallet_instance, mbind, stM_bind, get_wal. by rewrite Hb. Qed.
Lemma gated_bind {A B} (m : S_ A) (f : A -> S_ B) : gated m -> gated (m ≫= f).
Proof. intros Hm s Hb. unfold mbind, stM_bind. by rewrite Hm. Qed.
Lemma gated_with {A} (m : stM Inst Error A) : gated (with_wallet m).
Proof. apply gated_bind, gated_instance. Qed.
Lemma gated_c_bind {A B} (m : SC A) (f : A -> SC B) : gated_c m -> gated_c (m ≫= f).
Proof. intros Hm c s Hb. unfold mbind, stM_bind. by rewrite Hm. Qed.
Lemma gated_c_instance : gated_c (on_session get_wallet_instance).
Proof. intros c s Hb. unfold on_session. by rewrite gated_instance. Qed.
(** ** Sums over outputs *)

(** The outputs the balance is about: those that can be spent at this height
    and, when there is a list, whose commitment is in it. *)
Definition chosen (height minimum_confirmations : Z) (output_list : option (list str)) (o : OutputCommitMapping) : Prop :=
  eligible_to_spend (output o) height minimum_confirmations = true /\
  match output_list, out_commit (output o) with
  | None, _ => True
  | Some l, Some c => c ∈ l
  | Some _, None => False
  end.
#[export] Instance chosen_dec height mc ol o : Decision (chosen height mc ol o).
Proof. unfold chosen. destruct ol as [l|]; [destruct (out_commit (output o))|]; apply _. Defined.

Definition sum_outputs (l : list OutputCommitMapping) : Z := foldr (fun o a => out_value (output o) + a) 0 l.

(** Every eligible output has the commitment the list is compared with. *)
Definition decided (height mc : Z) (ol : option (list str)) (o : OutputCommitMapping) : Prop :=
  0 <= out_value (output o) < 2 ^ 64 /\
  (is_Some ol -> eligible_to_spend (output o) height mc = true -> is_Some (out_commit (output o))).

Lemma selected_decided height mc ol o :
  decided height mc ol o -> selected height mc ol (output o) = Ok (bool_decide (chosen height mc ol o)).
Proof.
  intros [_ Hd]. unfold selected. destruct (bool_decide_reflect (chosen height mc ol o)) as [[He Hc]|Hn].
  - rewrite He. destruct ol as [l|]; [|done]. destruct (out_commit (output o)) as [c|]; [|done]. cbn. f_equal.
    apply existsb_exists. exists c. split; [by apply list_elem_of_In|by apply bool_decide_eq_true].
  - destruct (eligible_to_spend _ _ _) eqn:He; [|done]. destruct ol as [l|]; [|by destruct Hn].
    destruct Hd as [c Hc]; [eauto|done|]. rewrite Hc. cbn. f_equal. apply not_true_iff_false. intros (c' & Hin & ->%bool_decide_eq_true)%existsb_exists.
    destruct Hn. split; [done|]. rewrite Hc. by apply list_elem_of_In.
Qed.

Lemma total_fold checks height mc ol outs : forall acc,
  Forall (decided height mc ol) outs -> 0 <= acc < 2 ^ 64 ->
  let sum := acc + sum_outputs (filter (chosen height mc ol) outs) in
  foldl (fun value o => value ← value; sel ← selected height mc ol (output o);
           if sel : bool then arith checks 64 (value + out_value (output o)) else Ok value) (Ok acc : result Z) outs
  = if sum <? 2 ^ 64 then Ok sum else if checks then Panic else Ok (sum mod 2 ^ 64).
Proof.
  induction outs as [|o outs IH]; intros acc Hd Hacc.
  - cbn. rewrite Z.add_0_r. destruct (Z.ltb_spec acc (2 ^ 64)); [done|lia].
  - apply Forall_cons in Hd as [Ho Hd]. cbn zeta. cbn [foldl mbind outcome_bind].
    rewrite (selected_decided _ _ _ _ Ho). cbn [mbind outcome_bind].
    assert (0 <= sum_outputs (filter (chosen height mc ol) outs)) as Hn.
    { clear -Hd. unfold sum_outputs. induction Hd as [|x l [Hx _] _ IHl]; [done|]. rewrite filter_cons. case_decide; cbn; lia. }
    destruct (bool_decide_reflect (chosen height mc ol o)) as [Hc|Hc].
    + rewrite filter_cons_True by done. cbn [sum_outputs foldr]. fold (sum_outputs (filter (chosen height mc ol) outs)).
      destruct Ho as [Hv _]. set (S := sum_outputs _) in *. unfold arith at 2.
      destruct (in_width 64 (acc + out_value (output o))) eqn:Hw.
      * apply in_width_spec in Hw. rewrite IH by done. fold S. by rewrite Z.add_assoc.
      * assert (2 ^ 64 <= acc + out_value (output o)) as Hge.
        { apply not_true_iff_false in Hw. rewrite in_width_spec in Hw. lia. }
        destruct (Z.ltb_spec (acc + (out_value (output o) + S)) (2 ^ 64)); [lia|].
        destruct checks; [apply (foldl_panic (fun value o => sel ← selected height mc ol (output o);
          if sel : bool then arith true 64 (value + out_value (output o)) else Ok value))|].
        rewrite IH by (done || apply Z.mod_pos_bound; lia). fold S.
        assert (((acc + out_value (output o)) mod 2 ^ 64 + S) mod 2 ^ 64 = (acc + (out_value (output o) + S)) mod 2 ^ 64) as <-
          by (rewrite Zplus_mod_idemp_l; f_equal; lia).
        destruct (Z.ltb_spec ((acc + out_value (output o)) mod 2 ^ 64 + S) (2 ^ 64)); [|done].
        rewrite (Z.mod_small (_ + S)); [done|]. pose proof (Z.mod_pos_bound (acc + out_value (output o)) (2 ^ 64)). lia.
    + rewrite filter_cons_False by done. by apply IH.
Qed.

Lemma count_fold height mc ol outs : forall acc,
  Forall (decided height mc ol) outs ->
  foldl (fun c o => c ← c; sel ← selected height mc ol (output o); Ok (if sel : bool then S c else c)) (Ok acc : result nat) outs
  = Ok (acc + length (filter (chosen height mc ol) outs))%nat.
Proof.
  induction outs as [|o outs IH]; intros acc Hd; [cbn; by rewrite Nat.add_0_r|].
  apply Forall_cons in Hd as [Ho Hd]. cbn [foldl mbind outcome_bind]. rewrite (selected_decided _ _ _ _ Ho).
  cbn [mbind outcome_bind]. rewrite IH by done. rewrite filter_cons.
  destruct (bool_decide_reflect (chosen height mc ol o)); rewrite ?decide_True, ?decide_False by done; cbn; f_equal; lia.
Qed.
End wallet.

#[export] Hint Resolve gated_with gated_bind gated_instance gated_c_bind gated_c_instance : mwc.

(** ** A life cycle *)

Import Toy Backtrack ToyPlatform ToySerde ToyMessage ToySlate ToyWallet ToyLib ToyConfig.

Module ToyLife.
(** The passphrase is [pw]; only the account [default] exists. *)
#[export] Instance life : LifeCycle := {|
  WalletSeed := str;
  seed_from_file _ p := if bool_decide (p = lit "pw") then ret (lit "seed") else err "wrong passphrase";
  seed_file_exists _ _ := inl true;
  init_file_impl _ _ _ _ s := ret (default (lit "new") s);
  recover_from_phrase _ _ _ := ret ();
  to_mnemonic s := inl s;
  new_wallet_impl _ _ := ret ();
  get_lc_provider := ret ();
  set_top_level_directory _ := ret ();
  open_wallet _ _ := ret ();
  lc_inst := ret ();
  set_parent_key_id_by_name a := if bool_decide (a = lit "default") then ret () else err "no account";
  close_wallet := ret ();
  spawn_updater _ := ret ();
  save_last_scanned _ _ := ret ();
  display _ := ret ();
  debug_peers _ := [];
|}.
Definition toy_config : Wallet713Config := set_config_home (lit "/h/c.toml") (Config_default Floonet).
Definition locked_session (max : option Z) : Session := {| wal := Wallet_new max; inst := toy_inst (Some (100, [], 5)) |}.
Definition open_session (max : option Z) : Session :=
  {| wal := set_backend true (Wallet_new max); inst := toy_inst (Some (100, [], 5)) |}.
End ToyLife.
Import ToyLife.

(** ** Properties *)


Lemma open_lockable max : lockable (open_session max).
Proof. split; [discriminate | reflexivity]. Qed.


(** A locked wallet does nothing.  Every function that needs the instance
    answers [NoWallet], without an effect on the wallet, the instance, the
    slate or the files; an invoice is refused before that when it is not
    accepted at all. *)
Theorem locked_wallet_refuses {L : CryptoLib} {SL : SlateLib} {W : WalletData} {D : DerivationLib} {WL : WalletLib} {LC : LifeCycle}
    {ST : Serde TxProof} {SC : ScanLib} checks fuel :
  (forall m, gated (getrootpublickey m)) /\ (forall k f, gated (Wallet_scan_outputs checks fuel k f)) /\ (forall a, gated (Wallet_getnextkey a)) /\
  gated Wallet_node_info /\ (forall a, gated (account_exists a)) /\ gated update_tip_as_last_scanned /\ gated list_accounts /\
  (forall a b, gated (rename_account a b)) /\ (forall a, gated (create_account a)) /\ (forall a b, gated (Wallet_info a b)) /\
  (forall a, gated (get_id a)) /\ gated txs_count /\ (forall a b c d e f, gated (txs a b c d e f)) /\
  (forall a b c, gated (total_value checks a b c)) /\ (forall a b c, gated (output_count a b c)) /\
  (forall a, gated (all_output_count a)) /\ (forall a b c d, gated (outputs a b c d)) /\
  (forall a b c d e f g h i j, gated (initiate_send_tx a b c d e f g h i j)) /\
  (forall a b c, gated (Wallet_initiate_receive_tx a b c)) /\ (forall a b, gated (repost a b)) /\ (forall a, gated (cancel a)) /\
  gated restore_state /\ (forall a b, gated (Wallet_check_repair a b)) /\ gated Wallet_sync /\
  (forall a, gated (Wallet_dump_wallet_data a)) /\ (forall a, gated (Wallet_build_coinbase a)) /\
  (forall a b c, gated (Wallet_tx_lock_outputs a b c)) /\ (forall a, gated (submit a)) /\
  (forall a b, gated (Wallet_retrieve_summary_info a b)) /\ (forall a b c, gated (Wallet_retrieve_outputs a b c)) /\
  (forall a b c, gated (Wallet_retrieve_txs a b c)) /\ (forall a, gated (Wallet_get_stored_tx a)) /\
  (forall a b, gated (Wallet_post_tx a b)) /\ gated Wallet_node_height /\ (forall a, gated (Wallet_derive_address_key a)) /\
  (forall a, gated (get_tx_proof a)) /\ (forall a b c d, gated_c (process_sender_initiated_slate a b c d)) /\
  gated_c finalize_slate /\ gated_c finalize_invoice_slate /\
  (forall a c s, backend (wal s) = false -> exists k, process_receiver_initiated_slate a (c, s) = (fail k, (c, s)) /\
     (k = NoWallet \/ k = DoesNotAcceptInvoices \/ k = InvoiceAmountTooBig (slate_amount (slate c)))).
Proof.
  unfold getrootpublickey, Wallet_scan_outputs, Wallet_getnextkey, Wallet_node_info, account_exists, update_tip_as_last_scanned,
    list_accounts, rename_account, create_account, Wallet_info, get_id, txs_count, txs, total_value, output_count,
    all_output_count, outputs, initiate_send_tx, Wallet_initiate_receive_tx, repost, cancel, restore_state,
    Wallet_check_repair, Wallet_sync, Wallet_dump_wallet_data, Wallet_build_coinbase, Wallet_tx_lock_outputs, submit,
    Wallet_retrieve_summary_info, Wallet_retrieve_outputs, Wallet_retrieve_txs, Wallet_get_stored_tx, Wallet_post_tx,
    Wallet_node_height, Wallet_derive_address_key, get_tx_proof.
  split_and!; intros; try solve [eauto with mwc].
  all: try apply gated_c_bind, gated_c_instance.
  - rename H into Hb. unfold process_receiver_initiated_slate, mbind, stM_bind, on_session, get_wal, st_lift. cbn.
    destruct (max_auto_accept (wal s)) as [m|]; cbn; [|eauto]. destruct (m <? slate_amount (slate c)); cbn; [eauto 6|].
    rewrite gated_instance by done. eauto.
Qed.

(** C20: invoices.  One is only paid up to the configured amount: without one,
    or above it, the answer is the error for that and nothing has happened; so
    if anything changed at all the amount was accepted.  An accepted invoice is
    paid from the active account with 10 confirmations, at most 500 outputs and
    one change output, and the outputs of the paid slate are locked under
    participant 1. *)
Theorem invoice_threshold {L : CryptoLib} {SL : SlateLib} {W : WalletData} {D : DerivationLib} {WL : WalletLib} {LC : LifeCycle}
    address c (s : Session) :
  match max_auto_accept (wal s) with
  | None => process_receiver_initiated_slate address (c, s) = (fail DoesNotAcceptInvoices, (c, s))
  | Some max =>
      if max <? slate_amount (slate c)
      then process_receiver_initiated_slate address (c, s) = (fail (InvoiceAmountTooBig (slate_amount (slate c))), (c, s))
      else
        forall b sl w1 w2 w3 w4 w5,
        backend (wal s) = true -> held (inst s) = false ->
        lib_update_wallet_state (world (inst s)) = (inl b, w1) -> lc_wallet_inst w1 = (inl (), w2) ->
        lib_process_invoice_tx (slate c)
          {| src_acct_name := Some (active_account (wal s)); ita_amount := slate_amount (slate c);
             minimum_confirmations := 10; max_outputs := 500; num_change_outputs := 1;
             selection_strategy_is_use_all := false; ita_message := None; target_slate_version := None;
             ita_address := address |} w2 = (inl sl, w3) ->
        lc_wallet_inst w3 = (inl (), w4) -> lib_tx_lock_outputs sl address 1 w4 = (inl (), w5) ->
        process_receiver_initiated_slate address (c, s)
          = (Ok (), ({| slate := sl; tx_proof := tx_proof c |}, {| wal := wal s; inst := set_world w5 (inst s) |}))
  end.
Proof.
  unfold process_receiver_initiated_slate, mbind, stM_bind, on_session, get_wal, st_lift. cbn.
  destruct (max_auto_accept (wal s)) as [max|]; cbn; [|done].
  destruct (max <? slate_amount (slate c)); cbn; [done|].
  intros b sl w1 w2 w3 w4 w5 Hb Hh H1 H2 H3 H4 H5. destruct s as [w [h wo p pr co]]. cbn in *. subst h.
  unfold get_wallet_instance, mbind, stM_bind, get_wal. cbn. rewrite Hb. cbn.
  unfold on_instance, invoice_tx, lib_locking, mbind, stM_bind, call, wallet_lock. cbn. rewrite H1. cbn.
  unfold mbind, stM_bind, call. cbn. rewrite H2. cbn. rewrite H3. cbn. rewrite Hb. cbn.
  unfold tx_lock_outputs, wallet_lock, mbind, stM_bind, call. cbn. rewrite H4. cbn. rewrite H5. done.
Qed.

Definition invoice_cell : Cell := {| slate := a_slate; tx_proof := None |}.
Lemma invoice_threshold_witness :
  process_receiver_initiated_slate None (invoice_cell, open_session (Some 4))
    = (fail (InvoiceAmountTooBig 5), (invoice_cell, open_session (Some 4))) /\
  exists s', process_receiver_initiated_slate None (invoice_cell, open_session (Some 5))
    = (Ok (), ({| slate := step_slate a_slate; tx_proof := None |}, s')).
Proof.
  split.
  - exact (invoice_threshold None invoice_cell (open_session (Some 4))).
  - eexists. exact (invoice_threshold None invoice_cell (open_session (Some 5)) _ _ _ _ _ _ _
      eq_refl eq_refl eq_refl eq_refl eq_refl eq_refl eq_refl).
Defined.

(** C35: balances.  When the height and the outputs are known, the count is the
    number of the eligible outputs (those of the list, if there is one), and
    the value is the sum of theirs; a sum that does not fit in 64 bits panics
    with overflow checks and is taken modulo 2^64 without. *)
Theorem balance_correct {L : CryptoLib} {SL : SlateLib} {W : WalletData} {D : DerivationLib} {WL : WalletLib} {LC : LifeCycle}
    checks refresh mc ol (s : Session) h b s1 v outs s2 :
  backend (wal s) = true -> on_instance node_height s = (Ok (h, b), s1) ->
  on_instance (retrieve_outputs false refresh None None None) s1 = (Ok (v, outs), s2) ->
  Forall (decided h mc ol) outs ->
  let those := filter (chosen h mc ol) outs in
  let sum := sum_outputs those in
  output_count refresh mc ol s = (Ok (length those), s2) /\
  total_value checks refresh mc ol s = (if sum <? 2 ^ 64 then Ok sum else if checks then Panic else Ok (sum mod 2 ^ 64), s2).
Proof.
  intros Hb Hh Ho Hd those sum. unfold output_count, total_value, get_wallet_instance, mbind, stM_bind, get_wal.
  unfold mbind, stM_bind. rewrite Hb. cbn. rewrite Hh, Ho. unfold st_lift, total, count.
  rewrite (count_fold h mc ol outs 0 Hd), (total_fold checks h mc ol outs 0 Hd) by lia.
  rewrite Z.add_0_l. done.
Qed.

Lemma balance_correct_witness :
  exists s, total_value true false 10 (Some [lit "c2"]) (open_session None) = (Ok 7, s) /\
    output_count false 10 None (open_session None) = (Ok 2%nat, s).
Proof.
  eexists. split.
  - refine (proj2 (balance_correct true false 10 (Some [lit "c2"]) (open_session None) _ _ _ _ _ _ eq_refl eq_refl eq_refl _)).
    repeat constructor; vm_compute; congruence || eauto.
  - refine (proj1 (balance_correct true false 10 None (open_session None) _ _ _ _ _ _ eq_refl eq_refl eq_refl _)).
    repeat constructor; vm_compute; congruence || eauto.
Defined.
