(* ===== verification/Broker.v ===== *)
(** * Brokers: the traits

    [broker/types.rs]: a publisher sends slates, a subscriber delivers what
    arrives to a handler.  The traits are classes over the state they work on,
    so the clients of a trait are modelled and verified against the class. *)

From S2P Require Import Prelude Str Errors Crypto Address TxProof Config.

Inductive CloseReason : Type := Normal | Abnormal (e : Error).

Class Publisher {SL : SlateLib} (S : Type) : Type := {
  post_slate : Slate -> Address -> stM S Error ();
}.

(** [on_slate] is given references to a slate and a proof that are dropped
    after the call; its effects are on the state.  No method returns an error. *)
Class SubscriptionHandler {L : CryptoLib} {SL : SlateLib} (S : Type) : Type := {
  on_open : stM S Error ();
  on_slate : Address -> Slate -> option TxProof -> option Wallet713Config -> stM S Error ();
  on_close : CloseReason -> stM S Error ();
  on_dropped : stM S Error ();
  on_reestablished : stM S Error ();
}.

(** ** The calls on the handler *)

Inductive Call {L : CryptoLib} {SL : SlateLib} : Type :=
| COpen
| CSlate (from : Address) (x : Slate) (proof : option TxProof)
| CClose (reason : CloseReason)
| CDropped
| CReestablished.

(** The handler that records its calls. *)
#[export] Instance tracer {L : CryptoLib} {SL : SlateLib} : SubscriptionHandler (list Call) := {|
  on_open := st_modify (fun t => t ++ [COpen]);
  on_slate from x proof _ := st_modify (fun t => t ++ [CSlate from x proof]);
  on_close r := st_modify (fun t => t ++ [CClose r]);
  on_dropped := st_modify (fun t => t ++ [CDropped]);
  on_reestablished := st_modify (fun t => t ++ [CReestablished]);
|}.

(** ** The life of a subscription *)

(** The life of a subscription as its handler sees it. *)
Inductive Phase : Type := Fresh | Up | Down | Closed.
#[export] Instance Phase_eq_dec : EqDecision Phase.
Proof. solve_decision. Defined.

Section trace.
Context {L : CryptoLib} {SL : SlateLib}.

Definition next_phase (p : Phase) (c : Call) : option Phase :=
  match p, c with
  | Fresh, COpen => Some Up
  | Up, CSlate _ _ _ => Some Up
  | Up, CDropped => Some Down
  | Down, CReestablished => Some Up
  | Fresh, CClose _ | Up, CClose _ | Down, CClose _ => Some Closed
  | _, _ => None
  end.
Fixpoint run_phase (p : Phase) (cs : list Call) : option Phase :=
  match cs with
  | [] => Some p
  | c :: cs => p ← next_phase p c; run_phase p cs
  end.

Lemma run_phase_snoc p cs c q : run_phase p cs = Some q -> run_phase p (cs ++ [c]) = next_phase q c.
Proof.
  revert p. induction cs as [|x cs IH]; intros p; cbn; [intros [= ->]; by destruct (next_phase q c)|].
  destruct (next_phase p x) as [p'|]; [apply IH | done].
Qed.
End trace.
