(* ===== verification/Grinbox.v ===== *)
(** * The grinbox broker

    [broker/grinbox.rs] and [broker/protocol.rs]: posting slates through the
    relay, and the listener: its connections, their callbacks, the retries with
    growing delays, and stopping.  A websocket connection is the sequence of
    its events. *)

From S2P Require Import Prelude Str Errors Regex Base58 Crypto Address Message TxProof Config Broker.
Local Open Scope Z_scope.

(** ** The protocol *)

Inductive ProtocolError : Type :=
| UnknownError
| InvalidRequest
| InvalidSignature
| InvalidChallenge
| TooManySubscriptions.

Inductive ProtocolRequest : Type :=
| RequestChallenge
| Subscribe (address signature : str)
| PostSlate (from to text signature : str)
| Unsubscribe (address : str).

Inductive ProtocolResponse : Type :=
| ResponseOk
| ResponseError (kind : ProtocolError) (description : str)
| ResponseChallenge (text : str)
| ResponseSlate (from text signature challenge : str).

(** The texts, without their colours. *)
Definition ProtocolError_display (e : ProtocolError) : str :=
  match e with
  | UnknownError => lit "unknown error!"
  | InvalidRequest => lit "invalid request!"
  | InvalidSignature => lit "invalid signature!"
  | InvalidChallenge => lit "invalid challenge!"
  | TooManySubscriptions => lit "too many subscriptions!"
  end.
Definition ProtocolRequest_display (r : ProtocolRequest) : str :=
  match r with
  | RequestChallenge => lit "Challenge"
  | Subscribe address _ => lit "Subscribe to " ++ address
  | Unsubscribe address => lit "Unsubscribe from " ++ address
  | PostSlate from to _ _ => lit "PostSlate from " ++ from ++ lit " to " ++ to
  end.
Definition ProtocolResponse_display (r : ProtocolResponse) : str :=
  match r with
  | ResponseOk => lit "Ok"
  | ResponseError kind _ => lit "error: " ++ ProtocolError_display kind
  | ResponseChallenge text => lit "Challenge " ++ text
  | ResponseSlate from _ _ _ => lit "Slate from " ++ from
  end.

(** ** The broker *)

Record ConnectionMetadata : Type := { retries : Z; connected_at_least_once : bool }.
Definition ConnectionMetadata_new : ConnectionMetadata := {| retries := 0; connected_at_least_once := false |}.

(** The broker shared by publisher and subscriber, the websocket's queue and
    the handler's state.  [inner]: there is a sender; [send_ok]: the queue of
    the current connection takes frames. *)
Record Grinbox {S : Type} : Type := {
  inner : bool;
  send_ok : bool;
  frames : list str;
  meta : ConnectionMetadata;
  printed : list str;
  slept : list Z;              (* seconds *)
  hs : S;
}.
Arguments Grinbox : clear implicits.

Section state.
Context {S : Type}.
Abbreviation GM A := (stM (Grinbox S) Error A).

Definition set_inner (b : bool) (g : Grinbox S) : Grinbox S :=
  {| inner := b; send_ok := send_ok g; frames := frames g; meta := meta g; printed := printed g; slept := slept g; hs := hs g |}.
Definition set_meta (m : ConnectionMetadata) (g : Grinbox S) : Grinbox S :=
  {| inner := inner g; send_ok := send_ok g; frames := frames g; meta := m; printed := printed g; slept := slept g; hs := hs g |}.
Definition set_hs (h : S) (g : Grinbox S) : Grinbox S :=
  {| inner := inner g; send_ok := send_ok g; frames := frames g; meta := meta g; printed := printed g; slept := slept g; hs := h |}.
Definition add_frame (f : str) (g : Grinbox S) : Grinbox S :=
  {| inner := inner g; send_ok := send_ok g; frames := frames g ++ [f]; meta := meta g; printed := printed g; slept := slept g; hs := hs g |}.
Definition add_line (l : str) (g : Grinbox S) : Grinbox S :=
  {| inner := inner g; send_ok := send_ok g; frames := frames g; meta := meta g; printed := printed g ++ [l]; slept := slept g; hs := hs g |}.
Definition add_sleep (secs : Z) (g : Grinbox S) : Grinbox S :=
  {| inner := inner g; send_ok := send_ok g; frames := frames g; meta := meta g; printed := printed g; slept := slept g ++ [secs]; hs := hs g |}.

(** [sender.send(text)]. *)
Definition ws_send (text : str) : GM () := fun g =>
  if send_ok g then (Ok (), add_frame text g) else (Err (External (lit "ws")), g).
(** A method of the handler, under its lock. *)
Definition handler_call {A} (m : stM S Error A) : GM A := fun g => let '(r, h) := m (hs g) in (r, set_hs h g).

Definition is_running : GM bool := fun g => (Ok (inner g), g).
(** [sender.close(..)] lets the connection end; its result is ignored. *)
Definition stop : GM () := st_modify (set_inner false).
End state.

Section grinbox.
Context {L : CryptoLib} {R : RegexEngine} {P : Platform} {SL : SlateLib} {SE : Serde EncryptedMessage}
  {SQ : Serde ProtocolRequest} {SR : Serde ProtocolResponse}.
Context {S : Type}.
Abbreviation GM A := (stM (Grinbox S) Error A).

(** [generate_signature]: [expect] panics when signing fails. *)
Definition generate_signature (challenge : str) (secret_key : SecretKey) : result str :=
  signature ← unwrap_result (sign_challenge challenge secret_key); Ok (sig_to_hex signature).

(** The request [post_slate] sends; the salt and the nonce are random. *)
Definition slate_request (salt nonce : str) (x : Slate) (to from : GrinboxAddress) (secret_key : SecretKey) : result ProtocolRequest :=
  pkey ← GrinboxAddress_public_key to;
  text ← ok_or (External (lit "json")) (slate_to_json x);
  message ← map_err (fun _ => External (lit "could not encrypt slate!")) (EncryptedMessage_new text to pkey secret_key salt nonce);
  message_ser ← json_text message;
  let challenge := message_ser in
  signature ← generate_signature challenge secret_key;
  from ← GrinboxAddress_stripped from;
  to ← GrinboxAddress_stripped to;
  Ok (PostSlate from to message_ser signature).

Definition broker_post_slate (salt nonce : str) (x : Slate) (to from : GrinboxAddress) (secret_key : SecretKey) : GM () :=
  running ← is_running;
  if running : bool then
    request ← st_lift (slate_request salt nonce x to from secret_key);
    sender ← is_running;
    if sender : bool then
      text ← st_lift (unwrap (to_json request));
      st_map_err (fun _ => Kind (GenericError (lit "failed posting slate!"))) (ws_send text)
    else st_err (Kind (GenericError (lit "failed posting slate!")))
  else st_err (Kind (ClosedListener (lit "mwcmq"))).

(** [GrinboxPublisher] and [GrinboxSubscriber] hold the same. *)
Record GrinboxPublisher : Type := {
  pub_address : GrinboxAddress;
  pub_secret_key : SecretKey;
  pub_unsecure : bool;
  pub_config : Wallet713Config;
}.

Definition GrinboxPublisher_post_slate (self : GrinboxPublisher) (salt nonce : str) (x : Slate) (to : Address) : GM () :=
  to ← st_lift (GrinboxAddress_from_str (Address_display to));
  broker_post_slate salt nonce x to (pub_address self) (pub_secret_key self).

(** ** The client of one connection *)

Context {H : SubscriptionHandler S}.

(** The client has the publisher's address, key and configuration; the
    challenge it stores is never read and is left out. *)
Definition client_send (request : ProtocolRequest) : GM () :=
  text ← st_lift (unwrap (to_json request)); ws_send text.
Definition client_subscribe (c : GrinboxPublisher) (challenge : str) : GM () :=
  signature ← st_lift (generate_signature challenge (pub_secret_key c));
  st_match (client_send (Subscribe (public_key_text (pub_address c)) signature)) mret (fun _ => st_lift Panic).

Definition client_on_open : GM () := fun g =>
  match (if connected_at_least_once (meta g) then handler_call on_reestablished g else handler_call on_open g) with
  | (Ok _, g) => (Ok (), set_meta {| retries := 0; connected_at_least_once := true |} g)
  | r => r
  end.

Definition client_on_message (c : GrinboxPublisher) (msg : str) : GM () :=
  match of_json msg with
  | None => st_modify (add_line (lit "Error: could not parse response"))
  | Some (ResponseChallenge text) => client_subscribe c text
  | Some (ResponseSlate from text signature challenge) =>
      match from_response from text challenge signature (pub_secret_key c) (Some (pub_address c)) with
      | Ok (x, tx_proof) => handler_call (on_slate (AGrinbox (address tx_proof)) x (Some tx_proof) (Some (pub_config c)))
      | Err err => st_modify (add_line (lit "Error: " ++ ErrorKind_display err))
      | Panic => st_lift Panic
      | Hang => st_lift Hang
      end
  | Some (ResponseError kind description) =>
      st_modify (add_line (lit "Error: " ++ ProtocolResponse_display (ResponseError kind description)))
  | Some ResponseOk => mret ()
  end.

Definition KEEPALIVE_TOKEN : Z := 1.
Definition KEEPALIVE_INTERVAL_MS : Z := 30000.

(** The pings are not kept. *)
Definition client_on_timeout (event : Z) : GM () :=
  if event =? KEEPALIVE_TOKEN then mret () else st_err (External (lit "Invalid timeout token encountered!")).

(** ** The listener *)

Inductive Event : Type :=
| EMessage (msg : str)
| ETimeout (token : Z)
| EStop.                    (* another thread stops the listener *)

(** One call of [connect]: whether the client was created (not when the
    connection itself could not be made), whether the handshake was made, what
    happened, whether [connect] returned an error, and whether the listener was
    stopped during the sleep after it. *)
Record Connection : Type := {
  created : bool;
  opened : bool;
  events : list Event;
  failed : bool;
  stop_in_sleep : bool;
}.

Definition event_step (c : GrinboxPublisher) (e : Event) : GM () :=
  match e with
  | EMessage msg => client_on_message c msg
  | ETimeout token => st_match (client_on_timeout token) mret (fun _ => mret ())   (* the connection's affair *)
  | EStop => stop
  end.
Fixpoint run_events (c : GrinboxPublisher) (es : list Event) : GM () :=
  match es with
  | [] => mret ()
  | e :: es => event_step c e ≫= fun _ => run_events c es
  end.

(** [connect(url, factory)]. *)
Definition connect (c : GrinboxPublisher) (k : Connection) : GM () :=
  if created k then
    st_modify (set_inner true) ≫= fun _ =>
    (if opened k then client_on_open else mret ()) ≫= fun _ =>
    run_events c (events k)
  else mret ().

(** What follows a lost connection: [checks], overflow checks. *)
Definition back_off (checks : bool) (k : Connection) : GM () := fun g =>
  match (if (retries (meta g) =? 0) && connected_at_least_once (meta g) then handler_call on_dropped g else (Ok (), g)) with
  | (Ok _, g) =>
      match @arith Error checks 64 (2 ^ retries (meta g)) with
      | Ok p =>
          let g := add_sleep (Z.min 32 p) g in
          let g := if stop_in_sleep k then set_inner false g else g in
          match @arith Error checks 32 (retries (meta g) + 1) with
          | Ok n => (Ok (), set_meta {| retries := n; connected_at_least_once := connected_at_least_once (meta g) |} g)
          | _ => (Panic, g)
          end
      | _ => (Panic, g)
      end
  | r => r
  end.

(** [subscribe], over the connections it makes; [Hang] when it is still
    running after the last one. *)
Fixpoint subscribe_loop (checks : bool) (c : GrinboxPublisher) (ks : list Connection) : GM () :=
  match ks with
  | [] => st_lift Hang
  | k :: ks =>
      connect c k ≫= fun _ =>
      running ← is_running;
      if running : bool then back_off checks k ≫= fun _ => subscribe_loop checks c ks
      else
        handler_call (on_close (if failed k then Abnormal (Kind GrinboxWebsocketAbnormalTermination) else Normal)) ≫= fun _ =>
        st_modify (set_inner false)
  end.
Definition subscribe (checks : bool) (c : GrinboxPublisher) (ks : list Connection) : GM () :=
  st_modify (set_meta ConnectionMetadata_new) ≫= fun _ => subscribe_loop checks c ks.

Definition websocket_url (c : GrinboxPublisher) : str :=
  (if pub_unsecure c then lit "ws://" else lit "wss://") ++ domain (pub_address c) ++ lit ":" ++
  to_dec (default DEFAULT_GRINBOX_PORT (port (pub_address c))).
End grinbox.

(** ** The life of a subscription *)

Section trace.
Context {L : CryptoLib} {R : RegexEngine} {P : Platform} {SL : SlateLib} {SE : Serde EncryptedMessage}
  {SQ : Serde ProtocolRequest} {SR : Serde ProtocolResponse}.
Abbreviation GT := (Grinbox (list Call)).

(** A connection delivers messages only once it is open. *)
Definition wf_connection (k : Connection) : Prop :=
  (opened k = true -> created k = true) /\
  (opened k = false -> Forall (fun e => forall m, e <> EMessage m) (events k)).

(** What the metadata and the phase have to do with each other. *)
Definition at_rest (g : GT) (p : Phase) : Prop :=
  run_phase Fresh (hs g) = Some p /\
  match p with
  | Fresh => connected_at_least_once (meta g) = false
  | Down => connected_at_least_once (meta g) = true /\ 0 < retries (meta g)
  | _ => False
  end /\ 0 <= retries (meta g).
Definition up (g : GT) : Prop :=
  run_phase Fresh (hs g) = Some Up /\ meta g = {| retries := 0; connected_at_least_once := true |}.

Lemma on_message_up c m g : up g ->
  let '(r, g') := client_on_message c m g in (forall e, r <> Err e) /\ up g'.
Proof.
  intros [Hp Hm]. unfold client_on_message. destruct (of_json m) as [[| | |]|]; cbn; try done.
  - unfold client_subscribe, mbind, stM_bind, st_lift, st_match, client_send.
    destruct (generate_signature text (pub_secret_key c)) as [sg|e| |] eqn:Hg; try done.
    + unfold mbind, stM_bind, st_lift. destruct (to_json _); cbn; [|done]. unfold ws_send. by destruct (send_ok g).
    + exfalso. unfold generate_signature in Hg. by destruct (sign_challenge _ _).
  - destruct (from_response _ _ _ _ _ _) as [[x proof]|e| |]; try done. cbn. split; [done|]. split; [|done]. cbn.
    by rewrite (run_phase_snoc _ _ _ _ Hp).
Qed.

Lemma event_up c e g : up g -> let '(r, g') := event_step c e g in (forall x, r <> Err x) /\ up g'.
Proof.
  intros Hu. destruct e as [m|tok|]; cbn [event_step].
  - by apply on_message_up.
  - unfold st_match, client_on_timeout. by destruct (tok =? KEEPALIVE_TOKEN).
  - unfold stop, st_modify. done.
Qed.
Lemma events_up c es : forall g, up g -> let '(r, g') := run_events c es g in (forall x, r <> Err x) /\ up g'.
Proof.
  induction es as [|e es IH]; intros g Hu; [done|]. cbn [run_events]. unfold mbind, stM_bind.
  pose proof (event_up c e g Hu) as H1. destruct (event_step c e g) as [[[]|x| |] g1]; destruct H1 as [H0 H1]; [by apply IH|done..].
Qed.

(** Without messages only stopping can happen. *)
Lemma events_quiet c es : forall g, Forall (fun e => forall m, e <> EMessage m) es ->
  exists b, run_events c es g = (Ok (), set_inner b g) /\ (b = inner g \/ b = false).
Proof.
  induction es as [|e es IH]; intros g Hq; [exists (inner g); split; [by destruct g | auto]|].
  apply Forall_cons in Hq as [He Hq]. cbn [run_events]. unfold mbind, stM_bind.
  destruct e as [m|tok|]; [by destruct (He m)| |]; cbn [event_step].
  - assert (st_match (client_on_timeout tok) mret (fun _ => mret ()) g = (Ok (), g)) as ->
      by (unfold st_match, client_on_timeout; by destruct (tok =? KEEPALIVE_TOKEN)). by apply IH.
  - change (stop g) with (Ok () : result (), set_inner false g). cbv beta iota.
    destruct (IH (set_inner false g) Hq) as (b & -> & Hb). exists b. split; [done|]. right. cbn in Hb. by destruct Hb.
Qed.

Lemma connect_spec c k g p :
  wf_connection k -> at_rest g p ->
  let '(r, g') := connect c k g in
  (forall x, r <> Err x) /\
  if opened k then up g' else r = Ok () /\ at_rest g' p /\ meta g' = meta g.
Proof.
  intros [Hwo Hwc] (Hp & Hm & Hr). unfold connect. destruct (opened k) eqn:Ho.
  - rewrite Hwo by done. unfold mbind, stM_bind, st_modify.
    assert (exists g1, client_on_open (set_inner true g) = (Ok (), g1) /\ up g1) as (g1 & -> & Hu).
    { unfold client_on_open. cbn [meta set_inner]. destruct p; try done.
      - rewrite Hm. cbn. eexists. split; [reflexivity|]. split; [|done]. cbn. by rewrite (run_phase_snoc _ _ _ _ Hp).
      - destruct Hm as [-> _]. cbn. eexists. split; [reflexivity|]. split; [|done]. cbn. by rewrite (run_phase_snoc _ _ _ _ Hp). }
    by apply events_up.
  - destruct (created k); [|done]. unfold mbind, stM_bind, st_modify, mret, stM_ret.
    destruct (events_quiet c (events k) (set_inner true g) (Hwc eq_refl)) as (b & -> & _). done.
Qed.

Lemma pow_nonneg n : 0 <= n -> 0 < 2 ^ n.
Proof. intros. apply Z.pow_pos_nonneg; lia. Qed.

Lemma back_off_spec checks k g p :
  (up g \/ at_rest g p) -> retries (meta g) + 1 < 2 ^ 32 ->
  let '(r, g') := back_off checks k g in
  (r = Ok () /\ (exists q, at_rest g' q) /\ retries (meta g') = retries (meta g) + 1) \/
  (r = Panic /\ exists q, run_phase Fresh (hs g') = Some q /\ q <> Closed).
Proof.
  intros Hg Hb. unfold back_off.
  assert (exists g1 q, (if (retries (meta g) =? 0) && connected_at_least_once (meta g) then handler_call on_dropped g else (Ok () : result (), g)) = (Ok (), g1)
    /\ run_phase Fresh (hs g1) = Some q /\ meta g1 = meta g /\ 0 <= retries (meta g) /\
    ((q = Down /\ connected_at_least_once (meta g) = true) \/ (q = Fresh /\ connected_at_least_once (meta g) = false)))
    as (g1 & q & -> & Hq & Hm & Hr & Hph).
  { destruct Hg as [[Hp Hmeta]|(Hp & Hm & Hr)].
    - rewrite Hmeta. cbn. eexists _, Down. split; [reflexivity|]. cbn. rewrite (run_phase_snoc _ _ _ _ Hp). split_and!; [done|done|lia|by left].
    - destruct p; [|done| |done].
      + rewrite Hm, andb_false_r. exists g, Fresh. split_and!; try done. by right.
      + destruct Hm as [Hc Hpos]. destruct (Z.eqb_spec (retries (meta g)) 0); [lia|]. cbn. exists g, Down. split_and!; try done. by left. }
  rewrite Hm. destruct (@arith Error checks 64 (2 ^ retries (meta g))) as [v|e| |].
  - assert (meta (if stop_in_sleep k then set_inner false (add_sleep (Z.min 32 v) g1) else add_sleep (Z.min 32 v) g1) = meta g /\
            hs (if stop_in_sleep k then set_inner false (add_sleep (Z.min 32 v) g1) else add_sleep (Z.min 32 v) g1) = hs g1) as [E1 E2]
      by (by destruct (stop_in_sleep k)).
    rewrite E1. rewrite arith_in_range by lia. left. split; [done|]. split; [|done].
    exists q. unfold at_rest. cbn [hs meta set_meta retries connected_at_least_once]. rewrite E2. split_and!; [done| |lia].
    destruct Hph as [[-> Hc]|[-> Hc]]; [split; [done|lia] | done].
  - right. split; [done|]. exists q. split; [done|]. destruct Hph as [[-> _]|[-> _]]; done.
  - right. split; [done|]. exists q. split; [done|]. destruct Hph as [[-> _]|[-> _]]; done.
  - right. split; [done|]. exists q. split; [done|]. destruct Hph as [[-> _]|[-> _]]; done.
Qed.

Lemma close_spec reason g q :
  run_phase Fresh (hs g) = Some q -> q <> Closed ->
  exists g1, (handler_call (on_close reason) ≫= fun _ => st_modify (set_inner false)) g = (Ok (), g1) /\
    run_phase Fresh (hs g1) = Some Closed /\ inner g1 = false.
Proof.
  intros Hq Hc. eexists. split; [reflexivity|]. split; [|done]. cbn. rewrite (run_phase_snoc _ _ _ _ Hq). by destruct q.
Qed.

Lemma subscribe_trace checks c ks : forall g p,
  Forall wf_connection ks -> at_rest g p -> retries (meta g) + Z.of_nat (length ks) < 2 ^ 32 ->
  let '(r, g') := subscribe_loop checks c ks g in
  exists q, run_phase Fresh (hs g') = Some q /\ (r = Ok () <-> q = Closed) /\ (r = Ok () -> inner g' = false) /\ forall e, r <> Err e.
Proof.
  induction ks as [|k ks IH]; intros g p Hwf Hrest Hb; cbn [subscribe_loop].
  { destruct Hrest as (Hp & Hm & _). cbn. exists p. split_and!; [done| |done|done]. split; [done|]. by intros ->. }
  apply Forall_cons in Hwf as [Hk Hwf]. unfold mbind at 1, stM_bind at 1.
  pose proof (connect_spec c k g p Hk Hrest) as Hc. pose proof (proj2 (proj2 Hrest)) as Hr0.
  destruct (connect c k g) as [[[]|e| |] g1]; destruct Hc as [Hne Hc].
  2: { by destruct (Hne e). }
  2, 3: destruct (opened k); [destruct Hc as [Hc _]; exists Up; done | by destruct Hc].
  assert (Hg1 : up g1 \/ at_rest g1 p) by (destruct (opened k); [by left | right; apply Hc]).
  assert (Hret : retries (meta g1) <= retries (meta g)).
  { destruct (opened k); [destruct Hc as [_ ->]; exact Hr0 | destruct Hc as (_ & _ & ->); lia]. }
  unfold mbind at 1, stM_bind at 1, is_running. destruct (inner g1).
  - unfold mbind at 1, stM_bind at 1. cbn [length] in Hb.
    pose proof (back_off_spec checks k g1 p Hg1 ltac:(lia)) as Hbo.
    destruct (back_off checks k g1) as [r g2]. destruct Hbo as [(-> & (q & Hq) & Hr2)|(-> & q & Hq & Hcl)].
    + apply (IH g2 q); [done..|lia].
    + exists q. done.
  - assert (exists q, run_phase Fresh (hs g1) = Some q /\ q <> Closed) as (q & Hq & Hcl).
    { destruct Hg1 as [[Hu _]|(Hp & Hm & _)]; [by exists Up|]. exists p. split; [done|]. by intros ->. }
    destruct (close_spec (if failed k then Abnormal (Kind GrinboxWebsocketAbnormalTermination) else Normal) g1 q Hq Hcl)
      as (g2 & -> & H2 & H3). exists Closed. done.
Qed.
End trace.

(** ** Growing delays *)

(** A connection whose handshake never succeeds. *)
Definition refused : Connection :=
  {| created := true; opened := false; events := []; failed := true; stop_in_sleep := false |}.
(** The seconds before the attempt after [k] failed ones. *)
Definition delay (k : Z) : Z := if k <? 64 then Z.min 32 (2 ^ k) else 0.

Section delays.
Context {L : CryptoLib} {R : RegexEngine} {P : Platform} {SL : SlateLib} {SE : Serde EncryptedMessage}
  {SQ : Serde ProtocolRequest} {SR : Serde ProtocolResponse} {S : Type} {H : SubscriptionHandler S}.

Lemma arith_pow checks r : 0 <= r ->
  @arith Error checks 64 (2 ^ r) = if r <? 64 then Ok (2 ^ r) else if checks then Panic else Ok 0.
Proof.
  intros Hr. unfold arith. destruct (Z.ltb_spec r 64) as [Hlt|Hge].
  - assert (in_width 64 (2 ^ r) = true) as ->; [|done]. apply in_width_spec.
    split; [apply Z.pow_nonneg; lia | apply Z.pow_lt_mono_r; lia].
  - assert (in_width 64 (2 ^ r) = false) as ->.
    { apply not_true_iff_false. rewrite in_width_spec. intros [_ Hx]. pose proof (Z.pow_le_mono_r 2 64 r ltac:(lia) ltac:(lia)). lia. }
    destruct checks; [done|]. do 2 f_equal. replace r with (64 + (r - 64)) by lia.
    rewrite Z.pow_add_r by lia. rewrite Z.mul_comm. apply Z_mod_mult.
Qed.

Lemma refused_turn checks c ks (g : Grinbox S) :
  0 <= retries (meta g) -> retries (meta g) + 1 < 2 ^ 32 -> connected_at_least_once (meta g) = false ->
  subscribe_loop checks c (refused :: ks) g =
    if (retries (meta g) <? 64) || negb checks
    then subscribe_loop checks c ks (set_meta {| retries := retries (meta g) + 1; connected_at_least_once := false |}
                                       (add_sleep (delay (retries (meta g))) (set_inner true g)))
    else (Panic, set_inner true g).
Proof.
  intros Hr Hb Hc. cbn [subscribe_loop]. unfold mbind, stM_bind, connect, st_modify, is_running, back_off. cbn.
  unfold mbind, stM_bind, mret, stM_ret. cbn. rewrite Hc, andb_false_r. rewrite arith_pow by done. unfold delay.
  destruct (Z.ltb_spec (retries (meta g)) 64) as [Hlt|Hge]; cbn [orb].
  - cbn. rewrite (proj2 (Z.ltb_lt _ _) Hlt). cbn. rewrite arith_in_range by lia. by rewrite Hc.
  - cbn. rewrite (proj2 (Z.ltb_ge _ _) Hge). destruct checks; cbn; [done|]. rewrite arith_in_range by lia. by rewrite Hc.
Qed.

Lemma refused_run checks c n : forall g : Grinbox S,
  0 <= retries (meta g) -> retries (meta g) + Z.of_nat n < 2 ^ 32 -> connected_at_least_once (meta g) = false ->
  let '(r, g') := subscribe_loop checks c (replicate n refused) g in
  if checks && (64 <? retries (meta g) + Z.of_nat n) && (0 <? n)%nat then r = Panic
  else r = Hang /\ slept g' = slept g ++ (delay <$> seqZ (retries (meta g)) (Z.of_nat n)) /\
    retries (meta g') = retries (meta g) + Z.of_nat n /\ hs g' = hs g.
Proof.
  induction n as [|n IH]; intros g Hr Hb Hc.
  - rewrite andb_false_r. cbn. rewrite app_nil_r, Z.add_0_r. done.
  - cbn [replicate]. rewrite refused_turn by (done || lia). rewrite andb_true_r.
    destruct (Z.ltb_spec (retries (meta g)) 64) as [Hlt|Hge]; [|destruct checks eqn:Hck]; cbn [orb negb].
    + specialize (IH (set_meta {| retries := retries (meta g) + 1; connected_at_least_once := false |}
        (add_sleep (delay (retries (meta g))) (set_inner true g)))).
      cbn [meta set_meta retries connected_at_least_once slept add_sleep set_inner hs] in IH.
      specialize (IH ltac:(lia) ltac:(lia) eq_refl).
      destruct (subscribe_loop _ _ _ _) as [r g'].
      replace (retries (meta g) + 1 + Z.of_nat n) with (retries (meta g) + Z.of_nat (Datatypes.S n)) in IH by lia.
      destruct (checks && (64 <? retries (meta g) + Z.of_nat (Datatypes.S n))) eqn:E; cbn [andb] in IH |- *.
      * destruct (0 <? n)%nat eqn:En; [exact IH|]. apply Nat.ltb_ge in En. apply andb_true_iff in E as [_ E%Z.ltb_lt]. lia.
      * destruct IH as (-> & -> & -> & ->). split_and!; try done.
        rewrite (seqZ_cons (retries (meta g)) (Z.of_nat (Datatypes.S n))) by lia.
        rewrite fmap_cons, <- (assoc_L (++)). do 4 f_equal; lia.
    + replace (64 <? retries (meta g) + Z.of_nat (Datatypes.S n)) with true; [done|]. symmetry. apply Z.ltb_lt. lia.
    + specialize (IH (set_meta {| retries := retries (meta g) + 1; connected_at_least_once := false |}
        (add_sleep (delay (retries (meta g))) (set_inner true g)))).
      cbn [meta set_meta retries connected_at_least_once slept add_sleep set_inner hs andb] in IH |- *.
      specialize (IH ltac:(lia) ltac:(lia) eq_refl).
      destruct (subscribe_loop _ _ _ _) as [r g']. destruct IH as (-> & -> & -> & ->). split_and!; try done; [|lia].
      rewrite (seqZ_cons (retries (meta g)) (Z.of_nat (Datatypes.S n))) by lia.
      rewrite fmap_cons, <- (assoc_L (++)). do 4 f_equal; lia.
Qed.

(** Being stopped in between does not matter to the next connection. *)
Lemma loop_inner checks c k ks b (g : Grinbox S) :
  created k = true -> subscribe_loop checks c (k :: ks) (set_inner b g) = subscribe_loop checks c (k :: ks) g.
Proof. intros Hc. cbn [subscribe_loop]. unfold mbind, stM_bind, connect. by rewrite Hc. Qed.

Definition with_stop (b : bool) (k : Connection) : Connection :=
  {| created := created k; opened := opened k; events := events k; failed := failed k; stop_in_sleep := b |}.

Lemma back_off_stop checks k (g : Grinbox S) :
  match back_off checks (with_stop false k) g with
  | (Ok _, g') => exists b, back_off checks (with_stop true k) g = (Ok (), set_inner b g')
  | (Panic, _) => True
  | (r, g') => back_off checks (with_stop true k) g = (r, g')
  end.
Proof.
  unfold back_off. cbn [stop_in_sleep with_stop].
  destruct (if (retries (meta g) =? 0) && _ then _ else _) as [[[]|e| |] g1]; try done.
  destruct (@arith Error checks 64 _) as [p|e| |]; try done.
  change (retries (meta (set_inner false (add_sleep (Z.min 32 p) g1)))) with (retries (meta (add_sleep (Z.min 32 p) g1))).
  destruct (@arith Error checks 32 _) as [n|e| |]; try done. by exists false.
Qed.

Lemma loop_cons checks c k ks (g : Grinbox S) :
  subscribe_loop checks c (k :: ks) g =
    match connect c k g with
    | (Ok _, g1) =>
        if inner g1 then
          match back_off checks k g1 with
          | (Ok _, g2) => subscribe_loop checks c ks g2
          | r => r
          end
        else
          (handler_call (on_close (if failed k then Abnormal (Kind GrinboxWebsocketAbnormalTermination) else Normal)) ≫= fun _ =>
           st_modify (set_inner false)) g1
    | r => r
    end.
Proof.
  cbn [subscribe_loop]. unfold mbind at 1, stM_bind at 1. destruct (connect c k g) as [[[]|e| |] g1]; try done.
  unfold mbind at 1, stM_bind at 1, is_running. destruct (inner g1); [|done].
  unfold mbind, stM_bind. by destruct (back_off checks k g1) as [[[]|e| |] g2].
Qed.

Lemma stop_undone checks c k k' ks (g : Grinbox S) :
  created k' = true -> fst (subscribe_loop checks c (with_stop false k :: k' :: ks) g) <> Panic ->
  subscribe_loop checks c (with_stop true k :: k' :: ks) g = subscribe_loop checks c (with_stop false k :: k' :: ks) g.
Proof.
  intros Hc. rewrite !(loop_cons checks c (with_stop _ k)).
  change (connect c (with_stop true k) g) with (connect c (with_stop false k) g).
  destruct (connect c (with_stop false k) g) as [[[]|e| |] g1]; try done.
  destruct (inner g1); [|done]. intros Hne. pose proof (back_off_stop checks k g1) as Hb.
  destruct (back_off checks (with_stop false k) g1) as [[[]|e| |] g2]; [|by rewrite Hb|done|by rewrite Hb].
  destruct Hb as [b ->]. by apply loop_inner.
Qed.
End delays.

(** ** Concrete codecs *)

Import Toy Backtrack ToyPlatform ToySerde ToyMessage ToySlate ToyConfig.

Module ToyProtocol.
#[export, refine] Instance request_packed : Packed ProtocolRequest := {|
  to_fields r := match r with
    | RequestChallenge => [lit "c"]
    | Subscribe a s => [lit "s"; a; s]
    | PostSlate f t m s => [lit "p"; f; t; m; s]
    | Unsubscribe a => [lit "u"; a]
    end;
  of_fields l := match l with
    | [t] => Some RequestChallenge
    | [t; a] => Some (Unsubscribe a)
    | [t; a; s] => Some (Subscribe a s)
    | [t; f; to; m; s] => Some (PostSlate f to m s)
    | _ => None
    end |}.
Proof. by intros []. Defined.
Definition error_of (s : str) : ProtocolError :=
  if bool_decide (s = lit "0") then UnknownError else if bool_decide (s = lit "1") then InvalidRequest
  else if bool_decide (s = lit "2") then InvalidSignature else if bool_decide (s = lit "3") then InvalidChallenge
  else TooManySubscriptions.
Definition error_text (e : ProtocolError) : str :=
  match e with
  | UnknownError => lit "0" | InvalidRequest => lit "1" | InvalidSignature => lit "2" | InvalidChallenge => lit "3"
  | TooManySubscriptions => lit "4"
  end.
#[export, refine] Instance response_packed : Packed ProtocolResponse := {|
  to_fields r := match r with
    | ResponseOk => []
    | ResponseChallenge t => [t]
    | ResponseError k d => [error_text k; d]
    | ResponseSlate f t s c => [f; t; s; c]
    end;
  of_fields l := match l with
    | [] => Some ResponseOk
    | [t] => Some (ResponseChallenge t)
    | [k; d] => Some (ResponseError (error_of k) d)
    | [f; t; s; c] => Some (ResponseSlate f t s c)
    | _ => None
    end |}.
Proof. intros [|[]| |]; done. Defined.

Definition a_client : GrinboxPublisher :=
  {| pub_address := toy_from; pub_secret_key := toy_sk 7; pub_unsecure := false; pub_config := Config_default Mainnet |}.
Definition b_client : GrinboxPublisher :=
  {| pub_address := toy_dest; pub_secret_key := toy_sk 9; pub_unsecure := false; pub_config := Config_default Mainnet |}.
Definition idle {S : Type} (h : S) : Grinbox S :=
  {| inner := false; send_ok := true; frames := []; meta := ConnectionMetadata_new; printed := []; slept := []; hs := h |}.
End ToyProtocol.
Import ToyProtocol.

(** ** Properties *)

(** A request as the one it is for reads it. *)
Lemma request_read {L : CryptoLib} {Laws : CryptoLaws L} {R : RegexEngine} {RL : RegexLaws R} {P : Platform}
    {SL : SlateLib} {SE : Serde EncryptedMessage} {SEL : SerdeLaws EncryptedMessage}
    salt nonce x text to A B (sender receiver : GrinboxPublisher) from to' str_ sig :
  from_secret_key (pub_secret_key sender) = Some A -> public_key_text (pub_address sender) = key_text A ->
  mq_wf (pub_address sender) ->
  from_secret_key (pub_secret_key receiver) = Some B -> public_key_text (pub_address receiver) = key_text B ->
  public_key_text to = key_text B ->
  salt <> [] -> nonce <> [] ->
  slate_to_json x = Some text -> utf8_valid text = true -> deserialize_upgrade text = Some x ->
  slate_request salt nonce x to (pub_address sender) (pub_secret_key sender) = Ok (PostSlate from to' str_ sig) ->
  exists proof, from_response from str_ [] sig (pub_secret_key receiver) (Some (pub_address receiver)) = Ok (x, proof) /\
    address proof = normalise (pub_address sender) /\
    verify_extract proof (Some (pub_address receiver)) = Ok (Some to, x).
Proof.
  intros Ha Hka Hwf Hb Hkb Hto Hs Hn Hj Hu Hd Hreq. unfold slate_request in Hreq.
  unfold GrinboxAddress_public_key, mq_public_key in Hreq. rewrite Hto, key_text_parse in Hreq.
  cbn [mbind outcome_bind] in Hreq. rewrite Hj in Hreq. cbn [ok_or mbind outcome_bind] in Hreq.
  apply bind_Ok in Hreq as (em & Hem%map_err_Ok & Hreq). apply bind_Ok in Hreq as (ms & Hms & Hreq).
  cbn zeta in Hreq. apply bind_Ok in Hreq as (sg & Hsg & Hreq).
  destruct (stripped_parse (pub_address sender) Hwf) as [(ft & Hft & Hfp) _]. rewrite Hft in Hreq.
  cbn [mbind outcome_bind] in Hreq. apply bind_Ok in Hreq as (tt_ & _ & Hreq). injection Hreq as <- <- <- <-.
  unfold generate_signature in Hsg. destruct (sign_challenge ms (pub_secret_key sender)) as [s| | |] eqn:Hsign; try done.
  injection Hsg as <-. unfold json_text in Hms. destruct (to_json em) as [msg|] eqn:Hjm; [|done]. injection Hms as <-.
  destruct (from_response_complete ft (normalise (pub_address sender)) A (pub_secret_key sender) (pub_secret_key receiver) B
    to (pub_address receiver) (Some (pub_address receiver)) text x salt nonce em msg [] s) as (proof & H1 & H2 & _ & _ & _ & H6);
    auto; [by rewrite Hto, Hkb | by rewrite app_nil_r |].
  exists proof. auto.
Qed.

(** C4: delivery.  What one wallet posts for an address, another that holds
    the key of the address reads: when the relay hands the request's message on
    (without a challenge of its own), the listener gives its handler exactly
    the slate that was sent, from the sender's address, with a proof that
    verifies again. *)
Theorem grinbox_delivery {L : CryptoLib} {Laws : CryptoLaws L} {R : RegexEngine} {RL : RegexLaws R} {P : Platform}
    {SL : SlateLib} {SE : Serde EncryptedMessage} {SEL : SerdeLaws EncryptedMessage}
    {SQ : Serde ProtocolRequest} {SR : Serde ProtocolResponse} {SRL : SerdeLaws ProtocolResponse}
    {S : Type} {H : SubscriptionHandler S} salt nonce x text to A B (sender receiver : GrinboxPublisher) from to' str_ sig frame :
  from_secret_key (pub_secret_key sender) = Some A -> public_key_text (pub_address sender) = key_text A ->
  mq_wf (pub_address sender) ->
  from_secret_key (pub_secret_key receiver) = Some B -> public_key_text (pub_address receiver) = key_text B ->
  public_key_text to = key_text B ->
  salt <> [] -> nonce <> [] ->
  slate_to_json x = Some text -> utf8_valid text = true -> deserialize_upgrade text = Some x ->
  slate_request salt nonce x to (pub_address sender) (pub_secret_key sender) = Ok (PostSlate from to' str_ sig) ->
  to_json (ResponseSlate from str_ sig []) = Some frame ->
  exists proof, address proof = normalise (pub_address sender) /\
    verify_extract proof (Some (pub_address receiver)) = Ok (Some to, x) /\
    forall g : Grinbox S, client_on_message receiver frame g =
      handler_call (on_slate (AGrinbox (normalise (pub_address sender))) x (Some proof) (Some (pub_config receiver))) g.
Proof.
  intros Ha Hka Hwf Hb Hkb Hto Hs Hn Hj Hu Hd Hreq Hf.
  destruct (request_read salt nonce x text to A B sender receiver from to' str_ sig) as (proof & H1 & H2 & H3); auto.
  exists proof. split_and!; [done|done|]. intros g. unfold client_on_message. rewrite (serde_roundtrip _ _ Hf), H1, H2. done.
Qed.

Definition toy_request : result ProtocolRequest :=
  slate_request (lit "saltsalt") (lit "noncenonceno") a_slate toy_dest toy_from (toy_sk 7).
Definition toy_frame : str :=
  match toy_request with Ok (PostSlate f _ m s) => default [] (to_json (ResponseSlate f m s [])) | _ => [] end.

Lemma toy_from_wf : mq_wf toy_from.
Proof. split_and!; [by exists (toy_pk 7) | split; [done | by repeat constructor] | done]. Qed.

Lemma grinbox_delivery_witness :
  exists proof, verify_extract proof (Some toy_dest) = Ok (Some toy_dest, a_slate) /\
    hs (snd (client_on_message b_client toy_frame (idle []))) = [CSlate (AGrinbox toy_from) a_slate (Some proof)].
Proof.
  assert (exists f t m s, toy_request = Ok (PostSlate f t m s) /\ toy_frame = default [] (to_json (ResponseSlate f m s []))) as (f & t & m & s & Hr & Hf).
  { unfold toy_frame. assert (match toy_request with Ok (PostSlate _ _ _ _) => true | _ => false end = true) as E by (vm_compute; reflexivity).
    destruct toy_request as [[| | |]| | |]; try discriminate E. eauto 6. }
  destruct (grinbox_delivery (lit "saltsalt") (lit "noncenonceno") a_slate a_text toy_dest (toy_pk 7) (toy_pk 9) a_client b_client
    f t m s (default [] (to_json (ResponseSlate f m s [])))) as (proof & H1 & H2 & H3);
    [reflexivity|reflexivity|exact toy_from_wf|reflexivity|reflexivity|reflexivity|discriminate|discriminate
    |reflexivity|vm_compute; reflexivity|vm_compute; reflexivity|exact Hr|reflexivity|].
  exists proof. split; [exact H2|]. rewrite Hf. rewrite H3. reflexivity.
Defined.

(** C36: the life of a subscription.  Whatever the connections do, the handler
    is told in order: opened once, then slates only while the connection is
    up, "dropped" once for each loss and "reestablished" once for each return,
    and closed once, at the end.  The subscription ends normally exactly when
    it has told the handler so, and then the broker counts as stopped; it never
    ends with an error. *)
Theorem subscription_lifecycle {L : CryptoLib} {R : RegexEngine} {P : Platform} {SL : SlateLib} {SE : Serde EncryptedMessage}
    {SQ : Serde ProtocolRequest} {SR : Serde ProtocolResponse} checks c ks (g : Grinbox (list Call)) :
  hs g = [] -> Forall wf_connection ks -> Z.of_nat (length ks) < 2 ^ 32 ->
  let '(r, g') := subscribe checks c ks g in
  exists phase, run_phase Fresh (hs g') = Some phase /\ (r = Ok () <-> phase = Closed) /\
    (r = Ok () -> inner g' = false) /\ forall e, r <> Err e.
Proof.
  intros Hh Hwf Hl. unfold subscribe, mbind, stM_bind, st_modify.
  apply (subscribe_trace checks c ks (set_meta ConnectionMetadata_new g) Fresh Hwf); [|exact Hl].
  split; [|done]. cbn. by rewrite Hh.
Qed.

Definition toy_connections : list Connection :=
  [{| created := true; opened := true; events := [EMessage toy_frame]; failed := true; stop_in_sleep := false |};
   refused;
   {| created := true; opened := true; events := [ETimeout 1; EStop]; failed := false; stop_in_sleep := false |}].
Abbreviation toy_subscription := (subscribe true b_client toy_connections (idle [])).

Lemma toy_connections_wf : Forall wf_connection toy_connections.
Proof.
  unfold toy_connections. repeat apply Forall_cons_2; [..|apply Forall_nil_2]; (split; cbn; [done|]); try done.
Qed.

Lemma subscription_lifecycle_witness :
  fst toy_subscription = Ok () /\ length (hs (snd toy_subscription)) = 5%nat /\
  run_phase Fresh (hs (snd toy_subscription)) = Some Closed.
Proof.
  assert (is_ok (fst toy_subscription) = true /\ length (hs (snd toy_subscription)) = 5%nat) as [H1 H2]
    by (vm_compute; split; reflexivity).
  pose proof (subscription_lifecycle true b_client toy_connections (idle []) eq_refl) as T.
  destruct toy_subscription as [[[]|e| |] g']; [|discriminate H1..].
  destruct T as (ph & T1 & T2 & _); [exact toy_connections_wf | reflexivity |].
  split; [reflexivity|]. split; [exact H2|]. cbn. rewrite T1. f_equal. apply T2. reflexivity.
Defined.

(** C37: the delays.  After [k] attempts in a row that never got through, the
    next one waits 2^k seconds and at most 32.  With overflow checks the 65th
    delay is not computed any more: the listener's thread panics; without them
    that delay and all later ones are 0 seconds.  And a stop that comes during
    a delay is undone by the next connection. *)
Theorem reconnect_delays {L : CryptoLib} {R : RegexEngine} {P : Platform} {SL : SlateLib} {SE : Serde EncryptedMessage}
    {SQ : Serde ProtocolRequest} {SR : Serde ProtocolResponse} {S : Type} {H : SubscriptionHandler S} checks c (g : Grinbox S) :
  (forall n, Z.of_nat n < 2 ^ 32 ->
     let '(r, g') := subscribe checks c (replicate n refused) g in
     if checks && (64 <? Z.of_nat n) then r = Panic
     else r = Hang /\ slept g' = slept g ++ (delay <$> seqZ 0 (Z.of_nat n)) /\ hs g' = hs g) /\
  (forall k k' ks, created k' = true ->
     fst (subscribe checks c (with_stop false k :: k' :: ks) g) <> Panic ->
     subscribe checks c (with_stop true k :: k' :: ks) g = subscribe checks c (with_stop false k :: k' :: ks) g).
Proof.
  split.
  - intros n Hn. unfold subscribe, mbind, stM_bind, st_modify.
    pose proof (refused_run checks c n (set_meta ConnectionMetadata_new g)) as T.
    cbn [meta set_meta ConnectionMetadata_new retries connected_at_least_once slept hs] in T.
    specialize (T ltac:(lia) ltac:(lia) eq_refl). rewrite Z.add_0_l in T.
    destruct (subscribe_loop _ _ _ _) as [r g'].
    destruct (checks && (64 <? Z.of_nat n)) eqn:E; cbn [andb] in T.
    + apply andb_true_iff in E as [_ E%Z.ltb_lt]. destruct (0 <? n)%nat eqn:En; [exact T|]. apply Nat.ltb_ge in En. lia.
    + destruct T as (? & ? & _ & ?). done.
  - intros k k' ks Hc Hne. by apply stop_undone.
Qed.

Lemma reconnect_delays_witness :
  slept (snd (subscribe true b_client (replicate 7 refused) (idle []))) = [1; 2; 4; 8; 16; 32; 32].
Proof.
  pose proof (proj1 (reconnect_delays true b_client (idle [])) 7%nat eq_refl) as T.
  destruct (subscribe true b_client (replicate 7 refused) (idle [])) as [r g'].
  destruct T as (_ & T & _). cbn [snd]. etransitivity; [exact T | reflexivity].
Defined.
