(* ===== verification/Mwcmqs.v ===== *)
(** * The mwcmqs broker

    [broker/mwcmq.rs]: posting slates over https and the listener that polls
    the server: what it does with each answer, when it warns, sleeps,
    reconnects and ends.  The server's answers, and what other threads do to
    the shared flag meanwhile, are arguments. *)

From S2P Require Import Prelude Str Errors Regex Base58 Crypto Address Message TxProof Config Broker.
Local Open Scope Z_scope.

(** ** Requests, answers and the console *)

(** The parameters of a form are a [HashMap]: their order is not fixed. *)
Inductive Request : Type :=
| Get (url : str) (timeout_secs : Z)
| Post (url : str) (form : gmap str str).

(** What becomes of a request: the client cannot be built, sending fails with
    the text of the error, or an answer comes whose body may be unreadable. *)
Inductive Reply : Type :=
| NoClient
| SendFailed (err : str)
| Received (body : option str).

(** [read_to_string]: an i/o error or a body that is not UTF-8 is an error. *)
Definition read_to_string (body : option str) : option str :=
  b ← body; if utf8_valid b then Some b else None.

(** The lines the broker prints. *)
Inductive Notice : Type :=
| NotRecently (to : str)
| NotFor (to : str) (seconds : Z)
| FailedToStart (domain : str) (port : Z)
| ListenerStarted
| LostConnection
| Reestablished
| IoError
| NewLogin
| MessageError (messages : list str) (error : str) (code : Z)
| SlateError (err : ErrorKind)
| ListenerStopped.

(** [format!("{:?}", s)] of a string; bytes above 127 are taken as printable. *)
Definition debug_char (c : ascii) : str :=
  if Ascii.eqb c dq then ["\"%char; dq] else if Ascii.eqb c "\" then lit "\\" else
  let n := code c in
  if n =? 9 then lit "\t" else if n =? 10 then lit "\n" else if n =? 13 then lit "\r" else if n =? 0 then lit "\0" else
  if (n <? 32) || (n =? 127) then lit "\u{" ++ (if n <? 16 then [hex_digit n] else hex_byte c) ++ lit "}"
  else [c].
Definition debug_str (s : str) : str := dq :: concat (debug_char <$> s) ++ [dq].

(** The broker as its publisher, its listener and other threads share it. *)
Record Mqs {S : Type} : Type := {
  inner : bool;
  requests : list Request;
  notices : list Notice;
  slept : list Z;             (* milliseconds *)
  hs : S;
}.
Arguments Mqs : clear implicits.

Section state.
Context {S : Type}.
Definition set_inner (b : bool) (m : Mqs S) : Mqs S :=
  {| inner := b; requests := requests m; notices := notices m; slept := slept m; hs := hs m |}.
Definition add_request (q : Request) (m : Mqs S) : Mqs S :=
  {| inner := inner m; requests := requests m ++ [q]; notices := notices m; slept := slept m; hs := hs m |}.
Definition add_notice (n : Notice) (m : Mqs S) : Mqs S :=
  {| inner := inner m; requests := requests m; notices := notices m ++ [n]; slept := slept m; hs := hs m |}.
Definition add_sleep (ms : Z) (m : Mqs S) : Mqs S :=
  {| inner := inner m; requests := requests m; notices := notices m; slept := slept m ++ [ms]; hs := hs m |}.
Definition set_hs (h : S) (m : Mqs S) : Mqs S :=
  {| inner := inner m; requests := requests m; notices := notices m; slept := slept m; hs := h |}.

Definition is_running : stM (Mqs S) Error bool := fun m => (Ok (inner m), m).
Definition broker_stop : stM (Mqs S) Error () := st_modify (set_inner false).
End state.

(** [format!("{:?}", signature)] of the secp256k1 library. *)
Class SignatureDebug {L : CryptoLib} : Type := debug_signature : Signature -> str.

Section mwcmqs.
Context {L : CryptoLib} {R : RegexEngine} {P : Platform} {SL : SlateLib} {SE : Serde EncryptedMessage} {SD : SignatureDebug}.
Context {S : Type}.
Abbreviation MM A := (stM (Mqs S) Error A).

(** [MWCMQPublisher] and [MWCMQSubscriber] hold the same; the broker's
    configuration is a copy of theirs. *)
Record MWCMQPublisher : Type := {
  pub_address : MWCMQSAddress;
  pub_secret_key : SecretKey;
  pub_config : Wallet713Config;
}.

Definition at_encoded (s : str) : str := replace s (lit "@") (lit "%40").
Definition server (config : Wallet713Config) : str :=
  lit "https://" ++ mwcmqs_domain config ++ lit ":" ++ to_dec (mwcmqs_port config).
Definition sender_url (config : Wallet713Config) (stripped : str) : str :=
  server config ++ lit "/sender?address=" ++ at_encoded stripped.

(** ** Posting *)

(** The message and its signature; the salt and the nonce are random. *)
Definition mqs_message (salt nonce : str) (x : Slate) (to : MWCMQSAddress) (secret_key : SecretKey) : result (str * str) :=
  pkey ← MWCMQSAddress_public_key to;
  let to_str := replace (debug_str (public_key_text to) ++ lit "@" ++ domain to ++ lit ":" ++
                         to_dec (default DEFAULT_MWCMQS_PORT (port to))) [dq] [] in
  text ← ok_or (External (lit "json")) (slate_to_json x);
  destination ← GrinboxAddress_from_str to_str;
  message ← map_err (fun _ => External (lit "could not encrypt slate!"))
              (EncryptedMessage_new text destination pkey secret_key salt nonce);
  message_ser ← json_text message;
  signature ← unwrap_result (sign_challenge message_ser secret_key);
  Ok (message_ser, sig_to_hex signature).

Definition message_form (mser from signature : str) : gmap str str :=
  <[lit "signature" := signature]> (<[lit "from" := from]> (<[lit "mapmessage" := mser]> ∅)).

Definition InvalidRespose_ {A} (text : string) : MM A := st_err (Kind (InvalidRespose (lit text))).

(** What the server says about the addressee: a number after the first space. *)
Definition check_last_seen (to : str) (resp_str : str) : MM () :=
  match split " " resp_str !! 1%nat with
  | None => InvalidRespose_ "mwcmqs"
  | Some d =>
      match parse_i64 d with
      | None => InvalidRespose_ "mwcmqs"
      | Some last_seen =>
          if 10000000000 <? last_seen then st_modify (add_notice (NotRecently to))
          else if 150000 <? last_seen then st_modify (add_notice (NotFor to (last_seen / 1000)))
          else mret ()
      end
  end.

Definition broker_post_slate (reply : Reply) (salt nonce : str) (x : Slate) (to from : MWCMQSAddress)
    (secret_key : SecretKey) (config : Wallet713Config) : MM () :=
  running ← is_running;
  if negb running then st_err (Kind (ClosedListener (lit "mwcmqs"))) else
  '(mser, signature) ← st_lift (mqs_message salt nonce x to secret_key);
  match reply with
  | NoClient => st_err (External (lit "reqwest"))
  | _ =>
      fromstripped ← st_lift (MWCMQSAddress_stripped from);
      tostripped ← st_lift (MWCMQSAddress_stripped to);
      st_modify (add_request (Post (sender_url config tostripped) (message_form mser fromstripped signature))) ≫= fun _ =>
      match reply with
      | Received body =>
          match read_to_string body with
          | None => InvalidRespose_ "mwcmqs i/o error"
          | Some resp_str => check_last_seen tostripped resp_str
          end
      | _ => InvalidRespose_ "mwcmqs connection error"
      end
  end.

Definition MWCMQPublisher_post_slate (self : MWCMQPublisher) (reply : Reply) (salt nonce : str) (x : Slate) (to : Address) : MM () :=
  to ← st_lift (MWCMQSAddress_from_str (Address_display to));
  broker_post_slate reply salt nonce x to (pub_address self) (pub_secret_key self) (pub_config self).

(** [Subscriber::stop] posts a message to its own address, so that a pending
    request returns; the answer says whether that worked. *)
Definition Subscriber_stop (self : MWCMQPublisher) (reply : Reply) : MM bool :=
  match reply with
  | NoClient => st_lift Panic
  | _ =>
      stripped ← st_lift (MWCMQSAddress_stripped (pub_address self));
      st_modify (add_request (Post (sender_url (pub_config self) stripped) {[lit "mapmessage" := lit "nil"]})) ≫= fun _ =>
      broker_stop ≫= fun _ =>
      mret (match reply with Received _ => true | _ => false end)
  end.

(** ** The listener's variables

    [delcount] and [first_response] are never used and left out; [loop_count]
    always equals [count] (an [i32], here unbounded). *)
Record Listener : Type := {
  count : Z;
  connected : bool;
  isnginxerror : bool;
  is_in_warning : bool;
  is_error : bool;
  url : str;
}.
Definition next_count (l : Listener) : Listener :=
  {| count := count l + 1; connected := connected l; isnginxerror := isnginxerror l; is_in_warning := is_in_warning l;
     is_error := is_error l; url := url l |}.
Definition set_connected (b : bool) (l : Listener) : Listener :=
  {| count := count l; connected := b; isnginxerror := isnginxerror l; is_in_warning := is_in_warning l;
     is_error := is_error l; url := url l |}.
Definition set_isnginxerror (b : bool) (l : Listener) : Listener :=
  {| count := count l; connected := connected l; isnginxerror := b; is_in_warning := is_in_warning l;
     is_error := is_error l; url := url l |}.
Definition set_is_in_warning (b : bool) (l : Listener) : Listener :=
  {| count := count l; connected := connected l; isnginxerror := isnginxerror l; is_in_warning := b;
     is_error := is_error l; url := url l |}.
Definition set_is_error (l : Listener) : Listener :=
  {| count := count l; connected := connected l; isnginxerror := isnginxerror l; is_in_warning := is_in_warning l;
     is_error := true; url := url l |}.
Definition set_url (u : str) (l : Listener) : Listener :=
  {| count := count l; connected := connected l; isnginxerror := isnginxerror l; is_in_warning := is_in_warning l;
     is_error := is_error l; url := u |}.

Abbreviation LM A := (stM (Mqs S * Listener) Error A).
Definition vars (f : Listener -> Listener) : LM () := st_modify (fun '(m, l) => (m, f l)).
Definition get_vars : LM Listener := fun s => (Ok (snd s), s).
Definition get_inner : LM bool := fun s => (Ok (inner (fst s)), s).
Definition say (n : Notice) : LM () := st_modify (fun '(m, l) => (add_notice n m, l)).
Definition sleep (ms : Z) : LM () := st_modify (fun '(m, l) => (add_sleep ms m, l)).
Definition outside (b : option bool) : LM () :=
  st_modify (fun '(m, l) => (match b with Some b => set_inner b m | None => m end, l)).
Definition when_ (b : bool) (m : LM ()) : LM () := if b then m else mret ().

Definition print_error (messages : list str) (error : string) (code : Z) : LM () :=
  say (MessageError messages (lit error) code).
(** [print_error(..); is_error = true]. *)
Definition fatal (messages : list str) (error : string) (code : Z) : LM () :=
  print_error messages error code ≫= fun _ => vars set_is_error.
Definition new_login : LM () := running ← get_inner; when_ running (say NewLogin).
(** An answer of nginx: the server behind it is down. *)
Definition nginx_down : LM () :=
  vars (set_connected false) ≫= fun _ =>
  l ← get_vars;
  when_ (negb (isnginxerror l)) (vars (set_is_in_warning true) ≫= fun _ => say LostConnection) ≫= fun _ =>
  vars (set_isnginxerror true) ≫= fun _ =>
  sleep 5000.
Definition back_again : LM () :=
  say Reestablished ≫= fun _ => vars (set_is_in_warning false) ≫= fun _ => vars (set_isnginxerror false).

(** ** Reading an answer *)

Context {H : SubscriptionHandler S}.

(** What the listener asks for: the next messages, those up to [del_to] deleted. *)
Definition listener_url (c : MWCMQPublisher) (stripped del_to time_now signature : str) : str :=
  server (pub_config c) ++ lit "/listener?address=" ++ at_encoded stripped ++ lit "&delTo=" ++ del_to ++
  lit "&time_now=" ++ time_now ++ lit "&signature=" ++ signature.

(** The id before the semicolon at [index], without what precedes a space. *)
Definition last_message_id (text : str) (index : nat) : str :=
  let id := take index text in
  match find_char " " id with Some start => drop (1 + start) id | None => id end.

(** The lines of a message list after the first; [set_id] makes the url. *)
Fixpoint read_lines (set_id : str -> LM ()) (lines : list str) : LM (list str) :=
  match lines with
  | [] => mret []
  | line :: lines =>
      match split " " line !! 1%nat with
      | None => read_lines set_id lines
      | Some p =>
          match find_char ";" p with
          | Some index =>
              set_id (last_message_id p index) ≫= fun _ =>
              ret ← read_lines set_id lines; mret (drop (1 + index) p :: ret)
          | None =>
              if bool_decide (p = lit "closenewlogin") then new_login ≫= fun _ => mret []   (* break: leaves this loop *)
              else fatal [] "message id expected" (-103) ≫= fun _ => read_lines set_id lines
          end
      end
  end.

(** The messages of an answer, or how the listener goes on without any. *)
Inductive Read : Type :=
| Messages (msgvec : list str)
| Again                        (* continue *)
| Leave.                       (* break *)

Definition newline : str := [chr 10].
Definition read_body (set_id : str -> LM ()) (resp_str : str) : LM Read :=
  if starts_with (lit "messagelist: ") resp_str then
    ret ← read_lines set_id (drop 1 (split (chr 10) resp_str)); mret (Messages ret)
  else
    match find_char ";" resp_str with
    | Some index =>
        set_id (last_message_id resp_str index) ≫= fun _ => mret (Messages [drop (1 + index) resp_str])
    | None =>
        if contains (lit "nginx") resp_str then nginx_down ≫= fun _ => mret Again
        else if bool_decide (resp_str = lit "message: closenewlogin" ++ newline) then new_login ≫= fun _ => mret Leave
        else if bool_decide (resp_str = lit "message: mapmessage=nil") then mret Again
        else fatal [] "message id expected" (-102) ≫= fun _ => mret Again
    end.

(** ** Handling one message *)

Definition from_value (v : str) : str := replace (trim v) (lit "%40") (lit "@").
Definition percent_decode (v : str) : str :=
  let r1 := replace v (lit "%22") [dq] in
  let r2 := replace r1 (lit "%7B") (lit "{") in
  let r3 := replace r2 (lit "%7D") (lit "}") in
  let r4 := replace r3 (lit "%3A") (lit ":") in
  let r5 := replace r4 (lit "%2C") (lit ",") in
  trim r5.

(** The last of the fields that starts with [name=], as [read] makes it. *)
Fixpoint find_field (name : str) (read : str -> str) (code : Z) (msgvec fields : list str) (acc : str) : LM str :=
  match fields with
  | [] => mret acc
  | f :: fields =>
      if starts_with (name ++ lit "=") f then
        match split "=" f !! 1%nat with
        | Some v => find_field name read code msgvec fields (read v)
        | None => fatal msgvec "vec.len <= 1" code ≫= fun _ => find_field name read code msgvec fields acc
        end
      else find_field name read code msgvec fields acc
  end.

Definition call_handler {A} (f : stM S Error A) : LM A :=
  fun s => let '(r, h) := f (hs (fst s)) in (r, (set_hs h (fst s), snd s)).

(** The slate in the message text [r5]: whether the loop over fields ends. *)
Definition deliver_slate (c : MWCMQPublisher) (msgvec : list str) (from signature r5 : str) : LM bool :=
  me ← st_lift (unwrap_result (get_grinbox_address (pub_config c)));
  match from_response from r5 [] signature (pub_secret_key c) (Some me) with
  | Err err => say (SlateError err) ≫= fun _ => mret false
  | Panic => st_lift Panic
  | Hang => st_lift Hang
  | Ok (x, tx_proof) =>
      match MWCMQSAddress_from_str from with
      | Err _ => fatal msgvec "error parsing from" (-12) ≫= fun _ => mret false
      | Panic => st_lift Panic
      | Hang => st_lift Hang
      | Ok from =>
          call_handler (on_slate (AMWCMQS from) x (Some tx_proof) (Some (pub_config c))) ≫= fun _ => mret true
      end
  end.
Fixpoint deliver (c : MWCMQPublisher) (msgvec : list str) (from signature : str) (fields : list str) : LM () :=
  match fields with
  | [] => mret ()
  | f :: fields =>
      if starts_with (lit "mapmessage=") f then
        match split "=" f !! 1%nat with
        | Some v =>
            finished ← deliver_slate c msgvec from signature (percent_decode v);
            if finished : bool then mret () else deliver c msgvec from signature fields
        | None => fatal msgvec "vec2.len <= 1" (-5) ≫= fun _ => deliver c msgvec from signature fields
        end
      else deliver c msgvec from signature fields
  end.

Definition close_messages : list str := [lit "message: closenewlogin" ++ newline; lit "closenewlogin"].
Definition nil_messages : list str :=
  [lit "message: mapmessage=nil" ++ newline; lit "mapmessage=nil"; lit "mapmessage=nil" ++ newline].

(** The fields of a message: after its first space if it has one. *)
Definition message_fields (msg : str) : list str :=
  match split " " msg with
  | [v] => split "&" v
  | _ :: v :: _ => split "&" v
  | [] => []
  end.

(** One message of the answer: whether the listener ends. *)
Definition handle_message (c : MWCMQPublisher) (msgvec : list str) (msg : str) : LM bool :=
  if bool_decide (msg ∈ close_messages) then new_login ≫= fun _ => mret true
  else if bool_decide (msg ∈ nil_messages) then mret false
  else
    let fields := message_fields msg in
    if negb (length fields =? 3)%nat then
      (if contains (lit "nginx") msg then nginx_down else fatal msgvec "splitxveclen != 3" (-2)) ≫= fun _ => mret false
    else
      l ← get_vars;
      when_ (isnginxerror l) (vars (set_isnginxerror false) ≫= fun _ => vars (set_connected true)) ≫= fun _ =>
      from ← find_field (lit "from") from_value (-3) msgvec fields [];
      signature ← find_field (lit "signature") trim (-4) msgvec fields [];
      deliver c msgvec from signature fields ≫= fun _ => mret false.
Fixpoint handle_messages (c : MWCMQPublisher) (msgvec rest : list str) : LM bool :=
  match rest with
  | [] => mret false
  | msg :: rest =>
      break_out ← handle_message c msgvec msg;
      if break_out : bool then mret true else handle_messages c msgvec rest
  end.

(** ** One turn of the loop: whether there is a next one *)

(** The answer to the turn's request, and what other threads set the flag to
    before the turn looks at it and while the request is pending. *)
Record Turn : Type := { before : option bool; reply : Reply; during : option bool }.

Definition on_send_failed (err : str) : LM () :=
  l ← get_vars;
  if negb (contains (lit "timed out") err) then
    when_ (connected l) (vars (set_is_in_warning true) ≫= fun _ => say LostConnection) ≫= fun _ =>
    sleep 5000 ≫= fun _ => vars (set_connected false)
  else if count l =? 1 then say ListenerStarted ≫= fun _ => vars (set_connected true)
  else when_ (negb (connected l) && is_in_warning l) back_again ≫= fun _ => vars (set_connected true).

Definition on_connected : LM () :=
  l ← get_vars;
  if count l =? 1 then say ListenerStarted
  else if negb (connected l) && negb (isnginxerror l) then
    when_ (is_in_warning l) back_again ≫= fun _ => vars (set_connected true)
  else when_ (negb (isnginxerror l)) (vars (set_connected true)).
Definition on_response (set_id : str -> LM ()) (c : MWCMQPublisher) (body : option str) : LM bool :=
  on_connected ≫= fun _ =>
  match read_to_string body with
  | None => say IoError ≫= fun _ => sleep 5000 ≫= fun _ => mret true
  | Some resp_str =>
      r ← read_body set_id resp_str;
      match r with
      | Again => mret true
      | Leave => mret false
      | Messages msgvec => break_out ← handle_messages c msgvec msgvec; mret (negb break_out)
      end
  end.

Definition turn (set_id : str -> LM ()) (first_url : str) (c : MWCMQPublisher) (t : Turn) : LM bool :=
  outside (before t) ≫= fun _ =>
  l ← get_vars;
  if is_error l then mret false else
  vars next_count ≫= fun _ =>
  running ← get_inner;
  if negb running then mret false else
  match reply t with
  | NoClient => fatal [] "couldn't instantiate client" (-101) ≫= fun _ => mret true
  | _ =>
      l ← get_vars;
      st_modify (fun '(m, l') =>
        (add_request (Get (if count l =? 1 then first_url else url l) (if connected l then 120 else 2)) m, l')) ≫= fun _ =>
      outside (during t) ≫= fun _ =>
      match reply t with
      | Received body => on_response set_id c body
      | SendFailed err => on_send_failed err ≫= fun _ => mret true
      | NoClient => mret true
      end
  end.

(** The loop over the answers; [Hang] when it still listens after the last. *)
Fixpoint listen (set_id : str -> LM ()) (first_url : str) (c : MWCMQPublisher) (ts : list Turn) : LM () :=
  match ts with
  | [] => st_lift Hang
  | t :: ts => more ← turn set_id first_url c t; if more : bool then listen set_id first_url c ts else mret ()
  end.

(** The debug text of a signature without the name around it. *)
Definition signature_text (s : Signature) : str :=
  replace (replace (debug_signature s) (lit "Signature(") []) (lit ")") [].

(** [subscribe]: [clock] is the answer to the request for the server's time. *)
Definition subscribe (c : MWCMQPublisher) (clock : Reply) (ts : list Turn) : MM () :=
  st_modify (set_inner true) ≫= fun _ =>
  stripped ← st_lift (MWCMQSAddress_stripped (pub_address c));
  match clock with
  | NoClient => mret ()
  | _ => st_modify (add_request (Get (server (pub_config c) ++ lit "/timenow?address=" ++ at_encoded stripped) 10))
  end ≫= fun _ =>
  let answer := match clock with Received body => read_to_string body | _ => None end in
  let time_now := default [] answer in
  signature ← st_lift (unwrap_result (sign_challenge time_now (pub_secret_key c)));
  let url_for id := listener_url c stripped id time_now (signature_text signature) in
  match answer with
  | None => st_modify (add_notice (FailedToStart (mwcmqs_domain (pub_config c)) (mwcmqs_port (pub_config c))))
  | Some _ =>
      (fun m =>
        let l := {| count := 0; connected := false; isnginxerror := false; is_in_warning := false; is_error := false;
                    url := url_for (lit "nil") |} in
        let '(r, (m, _)) := listen (fun id => vars (set_url (url_for id))) (url_for (lit "nil") ++ lit "&first=true") c ts (m, l) in
        (r, m)) ≫= fun _ =>
      st_modify (add_notice ListenerStopped)
  end ≫= fun _ =>
  st_modify (set_inner false).
End mwcmqs.

(** ** What the server forwards *)

Section forwarded.
Context {L : CryptoLib} {Laws : CryptoLaws L} {R : RegexEngine} {RL : RegexLaws R} {P : Platform}.

(** The characters of a message that a form escapes, with their codes. *)
Definition form_escapes : escapes :=
  [(dq, lit "%22"); ("{"%char, lit "%7B"); ("}"%char, lit "%7D"); (":"%char, lit "%3A"); (","%char, lit "%2C")].
(** A character that needs no other escape. *)
Definition plain (c : ascii) : bool := visible c && negb (mem c (lit "%&=")).

Lemma percent_code_lit a b : a <> "%"%char -> b <> "%"%char -> percent_code ["%"%char; a; b].
Proof. intros. by exists a, b. Qed.
#[local] Hint Resolve percent_code_lit : core.

Lemma plain_not_in s c : all plain s -> plain c = false -> c ∉ s.
Proof. apply all_not_in. Qed.
Lemma plain_visible s : all plain s -> Forall (λ c, visible c = true) s.
Proof. apply all_impl. unfold plain. by intros c [? _]%andb_true_iff. Qed.

Lemma percent_decode_encode s : all plain s -> percent_decode (percent_encode form_escapes s) = s.
Proof.
  intros Hs. pose proof (plain_not_in s "%" Hs eq_refl) as Hp. unfold percent_decode, form_escapes.
  assert (forall c p T, percent_code p -> Forall (λ e, percent_code e.2 ∧ e.2 ≠ p) T -> bool_decide (c ∈ T.*1) = false ->
    replace (percent_encode ((c, p) :: T) s) p [c] = percent_encode T s) as Hstep.
  { intros c p T H1 H2 H3%bool_decide_eq_false. by destruct (decode_step c p T s H1 H2 Hp). }
  change (lit "{") with ["{"%char]. change (lit "}") with ["}"%char].
  change (lit ":") with [":"%char]. change (lit ",") with [","%char].
  rewrite !Hstep by (repeat constructor; cbn; auto; by apply percent_code_lit).
  rewrite percent_encode_nil. by apply trim_visible, plain_visible.
Qed.

Lemma at_decode s : all plain s -> from_value (at_encoded s) = s.
Proof.
  intros Hs. unfold from_value, at_encoded. change (lit "@") with ["@"%char]. rewrite replace_encode.
  rewrite trim_visible.
  - destruct (decode_step "@" (lit "%40") [] s) as [->|H]; [by apply percent_code_lit|constructor| |apply percent_encode_nil|by apply elem_of_nil in H].
    by apply plain_not_in.
  - apply Forall_forall. intros d [H|(e & He & H)]%elem_of_percent_encode.
    + eapply Forall_forall in H; [|by apply plain_visible]. done.
    + apply list_elem_of_singleton in He as ->. cbn in H. rewrite !elem_of_cons, elem_of_nil in H.
      destruct H as [->|[->|[->|[]]]]; done.
Qed.

(** The stripped text of a well-formed address. *)
Lemma stripped_plain dd a : mq_wf a ->
  all plain (public_key_text a ++ tail_text (display_tail dd a)).
Proof.
  intros Hwf. pose proof (display_tail_ok dd a Hwf) as Ht. destruct Hwf as ([k Hk] & _).
  destruct (key_text_ok k) as [_ Hb]. rewrite <- Hk in Hb.
  assert (forall p, (forall c, p c = true -> plain c = true) -> forall s, all p s -> all plain s) as Himp
    by (intros p H s Hs; by apply (Forall_impl _ _ _ Hs)).
  assert (forall c, domain_class c = true -> plain c = true) as H1 by (intros [[] [] [] [] [] [] [] []]; by vm_compute).
  assert (forall c, is_digit c = true -> plain c = true) as H2 by (intros [[] [] [] [] [] [] [] []]; by vm_compute).
  assert (forall c, base58_class c = true -> plain c = true) as H3 by (intros [[] [] [] [] [] [] [] []]; by vm_compute).
  apply Forall_app; split; [by apply (Himp base58_class)|].
  destruct (display_tail dd a) as [[d [p|]]|]; cbn [tail_text tail_ok] in *; [| |constructor].
  - destruct Ht as (_ & Hd & Hp). constructor; [done|]. apply Forall_app; split; [by apply (Himp domain_class)|].
    constructor; [done|]. by apply (Himp is_digit).
  - destruct Ht as (_ & Hd & _). constructor; [done|]. by apply (Himp domain_class).
Qed.

(** What stands for plain characters in a form. *)
Definition form_class (c : ascii) : bool := visible c && negb (mem c (lit "&=")).
Lemma form_encoded T s : all plain s -> Forall (fun e => all form_class (snd e)) T -> all form_class (percent_encode T s).
Proof.
  intros Hs HT. apply Forall_forall. intros d [Hd|(e & He & Hd)]%elem_of_percent_encode.
  - eapply Forall_forall in Hs; [|exact Hd]. revert Hs. unfold plain, form_class. cbn.
    rewrite !andb_true_iff, !negb_true_iff, !orb_false_iff. tauto.
  - rewrite Forall_forall in HT. specialize (HT e He). unfold all in HT. rewrite Forall_forall in HT. by apply HT.
Qed.

(** The stripped text of an address reads as an address of both kinds. *)
Lemma mqs_stripped a : mq_wf a ->
  exists ft fa, MWCMQSAddress_stripped a = Ok ft /\ all plain ft /\ MWCMQSAddress_from_str ft = Ok (normalise a) /\
    GrinboxAddress_from_str ft = Ok fa /\ public_key_text fa = public_key_text a.
Proof.
  intros Hwf. exists (public_key_text a ++ tail_text (display_tail DEFAULT_MWCMQS_DOMAIN a)).
  pose proof (display_tail_ok DEFAULT_MWCMQS_DOMAIN a Hwf) as Ht.
  assert (exists p, parse_port (tail_port (display_tail DEFAULT_MWCMQS_DOMAIN a)) = Ok p) as [p Hp].
  { destruct Hwf as (_ & _ & Hp). unfold display_tail, normalise. cbn [port]. unfold port_ok in Hp.
    destruct (port a) as [p|]; [destruct (p =? DEFAULT_GRINBOX_PORT)|]; try (destruct (bool_decide _); cbn; eauto).
    exists (Some p). unfold tail_port. cbn [mbind option_bind snd]. by apply parse_port_to_dec. }
  destruct (proj1 Hwf) as [k Hk]. eexists. split_and!.
  - apply mq_stripped; [by repeat constructor | done].
  - by apply stripped_plain.
  - eapply (mq_roundtrip _ _ []); auto using scheme_ok_mwcmqs.
  - rewrite Hk. apply (mq_from_key_text _ _ [] _ _ p); auto using scheme_ok_mwcmq.
  - by rewrite Hk.
Qed.

(** The text of the destination that is put into the message. *)
Lemma destination_text to k : mq_wf to -> public_key_text to = key_text k ->
  exists d, GrinboxAddress_from_str (replace (debug_str (public_key_text to) ++ lit "@" ++ domain to ++ lit ":" ++
      to_dec (default DEFAULT_MWCMQS_PORT (port to))) [dq] []) = Ok d /\ public_key_text d = key_text k.
Proof.
  intros (_ & [Hne Hd] & Hp) Hk. set (p := default DEFAULT_MWCMQS_PORT (port to)).
  assert (Hpr : 0 <= p < 2 ^ 16) by (subst p; unfold port_ok in Hp; destruct (port to); cbn; [done | unfold DEFAULT_MWCMQS_PORT; lia]).
  assert (Htail : tail_ok (Some (domain to, Some (to_dec p)))) by (split_and!; [done..|apply to_dec_is_digit; lia]).
  destruct (key_text_ok k) as [_ Hb]. rewrite Hk.
  assert (debug_str (key_text k) = dq :: key_text k ++ [dq]) as ->.
  { assert (Hone : forall c, base58_class c = true -> debug_char c = [c])
      by (intros [[] [] [] [] [] [] [] []]; by vm_compute).
    unfold debug_str. do 2 f_equal. clear -Hone Hb. induction Hb as [|c s Hc _ IH]; [done|]. rewrite fmap_cons. cbn [concat].
    by rewrite IH, Hone. }
  rewrite replace_encode. change (dq :: key_text k ++ [dq]) with ([dq] ++ key_text k ++ [dq]). rewrite !percent_encode_app.
  change (percent_encode [(dq, [])] [dq]) with (@nil ascii). rewrite app_nil_r. cbn [app].
  rewrite !percent_encode_absent.
  - eexists. split; [rewrite <- (app_nil_l (key_text k ++ _))|].
    + change (lit "@" ++ domain to ++ lit ":" ++ to_dec p) with (tail_text (Some (domain to, Some (to_dec p)))).
      apply (mq_from_key_text _ _ [] k (Some (domain to, Some (to_dec p))) (Some p)); auto using scheme_ok_mwcmq.
      unfold tail_port. cbn [mbind option_bind snd]. by apply parse_port_to_dec.
    + reflexivity.
  - by apply (all_not_in is_digit); [apply to_dec_is_digit; lia|].
  - by rewrite <- mem_elem_of.
  - by apply (all_not_in domain_class).
  - by rewrite <- mem_elem_of.
  - by apply (all_not_in base58_class).
Qed.

Lemma to_hex_plain bs : all plain (to_hex bs).
Proof.
  induction bs as [|b bs IH]; [constructor|]. change (to_hex (b :: bs)) with (hex_byte b ++ to_hex bs).
  apply Forall_app. split; [|done]. apply Forall_forall. intros c Hc%list_elem_of_In. revert c Hc. apply forallb_forall.
  by destruct b as [[] [] [] [] [] [] [] []]; vm_compute.
Qed.
End forwarded.

(** ** Delivering a forwarded message *)

Section delivery.
Context {L : CryptoLib} {Laws : CryptoLaws L} {R : RegexEngine} {RL : RegexLaws R} {P : Platform} {SL : SlateLib}
  {SE : Serde EncryptedMessage} {SEL : SerdeLaws EncryptedMessage} {SD : SignatureDebug} {S : Type} {H : SubscriptionHandler S}.

Definition field (name v : str) : str := name ++ "="%char :: v.
(** [fields] holds [name=v] and no other field of that name. *)
Definition only_field (name v : str) (fields : list str) : Prop :=
  field name v ∈ fields /\ forall f, f ∈ fields -> starts_with (name ++ lit "=") f = true -> f = field name v.

Lemma field_starts name v : starts_with (name ++ lit "=") (field name v) = true.
Proof. unfold field. change ("="%char :: v) with (lit "=" ++ v). rewrite (assoc_L (++)). apply starts_with_app. Qed.
Lemma field_split name v : "="%char ∉ name -> "="%char ∉ v -> split "=" (field name v) = [name; v].
Proof. intros. unfold field. rewrite split_app by done. by rewrite split_none. Qed.

Lemma find_field_spec name read code msgvec v fields (s : Mqs S * Listener) : "="%char ∉ name -> "="%char ∉ v ->
  forall acc, (forall f, f ∈ fields -> starts_with (name ++ lit "=") f = true -> f = field name v) ->
  acc = read v \/ field name v ∈ fields -> find_field name read code msgvec fields acc s = (Ok (read v), s).
Proof.
  intros Hn Hv. induction fields as [|f fields IH]; intros acc Hu Hin.
  - destruct Hin as [->|[]%elem_of_nil]. done.
  - cbn [find_field]. destruct (starts_with (name ++ lit "=") f) eqn:Hf.
    + rewrite (Hu f) by (done || set_solver). rewrite field_split by done. cbn [lookup list_lookup].
      apply IH; [|by left]. intros g Hg. apply Hu. set_solver.
    + apply IH; [intros g Hg; apply Hu; set_solver|]. destruct Hin as [->|[<-|Hin]%elem_of_cons]; [by left| |by right].
      by rewrite field_starts in Hf.
Qed.

Lemma deliver_spec c msgvec from signature v fields (s : Mqs S * Listener) (r : result ()) s' : "="%char ∉ v ->
  only_field (lit "mapmessage") v fields ->
  deliver_slate c msgvec from signature (percent_decode v) s = (_ ← r; Ok true, s') ->
  deliver c msgvec from signature fields s = (r, s').
Proof.
  intros Hv [Hin Hu] Hd. induction fields as [|f fields IH]; [by apply elem_of_nil in Hin|]. cbn [deliver].
  change (lit "mapmessage=") with (lit "mapmessage" ++ lit "=").
  destruct (starts_with (lit "mapmessage" ++ lit "=") f) eqn:Hf.
  - rewrite (Hu f) by (done || set_solver). rewrite field_split by (done || by rewrite <- mem_elem_of). cbn [lookup list_lookup].
    unfold mbind at 1, stM_bind at 1. rewrite Hd. by destruct r as [[]|e| |].
  - apply IH; [|intros g Hg; apply Hu; set_solver]. apply elem_of_cons in Hin as [<-|Hin]; [|done]. by rewrite field_starts in Hf.
Qed.

Lemma deliver_slate_spec c msgvec from signature r5 me x proof a (s : Mqs S * Listener) :
  get_grinbox_address (pub_config c) = Ok me ->
  from_response from r5 [] signature (pub_secret_key c) (Some me) = Ok (x, proof) -> MWCMQSAddress_from_str from = Ok a ->
  deliver_slate c msgvec from signature r5 s =
    let '(r, h) := on_slate (AMWCMQS a) x (Some proof) (Some (pub_config c)) (hs (fst s)) in
    (_ ← r; Ok true, (set_hs h (fst s), snd s)).
Proof.
  intros Hme Hr Ha. unfold deliver_slate, mbind at 1, stM_bind at 1. rewrite Hme. cbn [unwrap_result st_lift]. rewrite Hr, Ha.
  unfold call_handler, mbind at 1, stM_bind at 1. destruct (on_slate _ _ _ _ _) as [[[]|e| |] h]; done.
Qed.

(** A message of three fields in any order. *)
Lemma handle_message_spec c msgvec v fromv sigv fields me x proof a (s : Mqs S * Listener) :
  only_field (lit "mapmessage") v fields -> only_field (lit "from") fromv fields -> only_field (lit "signature") sigv fields ->
  length fields = 3%nat -> Forall (fun f => "&"%char ∉ f /\ " "%char ∉ f) fields ->
  "="%char ∉ v -> "="%char ∉ fromv -> "="%char ∉ sigv ->
  get_grinbox_address (pub_config c) = Ok me ->
  from_response (from_value fromv) (percent_decode v) [] (trim sigv) (pub_secret_key c) (Some me) = Ok (x, proof) ->
  MWCMQSAddress_from_str (from_value fromv) = Ok a ->
  let '(r, (m', _)) := handle_message c msgvec (join (lit "&") fields) s in
  let '(r', h) := on_slate (AMWCMQS a) x (Some proof) (Some (pub_config c)) (hs (fst s)) in
  r = (_ ← r'; Ok false) /\ m' = set_hs h (fst s).
Proof.
  intros Hm Hf Hs Hl Hsep Hv Hfv Hsv Hme Hr Ha.
  assert (Hfields : message_fields (join (lit "&") fields) = fields).
  { unfold message_fields. rewrite split_none.
    - apply split_join_pieces; [by destruct fields|]. eapply Forall_impl; [done|]. cbn. tauto.
    - intros [Hx|(w & Hw & Hx)]%elem_of_join; [by apply mem_elem_of in Hx|]. rewrite Forall_forall in Hsep. by destruct (Hsep w Hw). }
  assert (Hamp : "&"%char ∈ join (lit "&") fields).
  { destruct fields as [|f1 [|f2 fs]]; [done..|]. cbn [join]. rewrite !elem_of_app. right; left. by apply mem_elem_of. }
  unfold handle_message.
  rewrite bool_decide_eq_false_2; [rewrite bool_decide_eq_false_2|].
  2, 3: intros Hin; cbv [close_messages nil_messages] in Hin; rewrite !elem_of_cons, elem_of_nil in Hin;
    destruct_or? Hin; try done; rewrite Hin in Hamp; by apply mem_elem_of in Hamp.
  cbn zeta. rewrite Hfields, Hl. cbn [Nat.eqb negb].
  destruct s as [m l]. unfold mbind at 1, stM_bind at 1, get_vars. cbn [snd fst]. unfold mbind at 1, stM_bind at 1.
  assert (exists l', when_ (isnginxerror l) (vars (set_isnginxerror false) ≫= fun _ => vars (set_connected true)) (m, l) = (Ok (), (m, l')))
    as [l' ->] by (destruct (isnginxerror l); cbn; eauto).
  destruct Hm as [Hm1 Hm2], Hf as [Hf1 Hf2], Hs as [Hs1 Hs2].
  unfold mbind at 1, stM_bind at 1. rewrite (find_field_spec _ _ _ _ fromv) by (done || (by right) || by rewrite <- mem_elem_of).
  unfold mbind at 1, stM_bind at 1. rewrite (find_field_spec _ _ _ _ sigv) by (done || (by right) || by rewrite <- mem_elem_of).
  pose proof (deliver_slate_spec c msgvec _ _ _ me x proof a (m, l') Hme Hr Ha) as Hd. cbn [fst snd] in Hd.
  destruct (on_slate (AMWCMQS a) x (Some proof) (Some (pub_config c)) (hs m)) as [r h] eqn:Ho.
  unfold mbind at 1, stM_bind at 1. rewrite (deliver_spec c msgvec _ _ v fields (m, l') r _ Hv (conj Hm1 Hm2) Hd).
  by destruct r as [[]|e| |].
Qed.

(** A setter of the url, as [subscribe] passes one. *)
Definition sets_url (set_id : str -> stM (Mqs S * Listener) Error ()) : Prop :=
  exists u, forall id, set_id id = vars (set_url (u id)).

(** The answer of one message. *)
Definition message_body (id : str) (fields : list str) : str :=
  lit "message: " ++ id ++ ";"%char :: join (lit "&") fields.

Lemma new_login_spec (m : Mqs S) l : exists m', new_login (m, l) = (Ok (), (m', l)) /\ hs m' = hs m.
Proof. unfold new_login, mbind, stM_bind, get_inner. cbn. destruct (inner m); cbn; eauto. Qed.
Lemma on_connected_spec (s : Mqs S * Listener) :
  exists m l, on_connected s = (Ok (), (m, l)) /\ hs m = hs (fst s) /\ inner m = inner (fst s) /\ is_error l = is_error (snd s).
Proof.
  destruct s as [m l]. unfold on_connected, mbind, stM_bind, get_vars. cbn [snd]. destruct (count l =? 1); [cbn; eauto 6|].
  destruct (connected l), (isnginxerror l), (is_in_warning l); cbn; eauto 6.
Qed.

Lemma on_response_single set_id c id fields v fromv sigv me x proof a (s : Mqs S * Listener) :
  sets_url set_id -> ";"%char ∉ id -> utf8_valid (message_body id fields) = true ->
  only_field (lit "mapmessage") v fields -> only_field (lit "from") fromv fields -> only_field (lit "signature") sigv fields ->
  length fields = 3%nat -> Forall (fun f => "&"%char ∉ f /\ " "%char ∉ f) fields ->
  "="%char ∉ v -> "="%char ∉ fromv -> "="%char ∉ sigv ->
  get_grinbox_address (pub_config c) = Ok me ->
  from_response (from_value fromv) (percent_decode v) [] (trim sigv) (pub_secret_key c) (Some me) = Ok (x, proof) ->
  MWCMQSAddress_from_str (from_value fromv) = Ok a ->
  let '(r, (m', _)) := on_response set_id c (Some (message_body id fields)) s in
  let '(r', h) := on_slate (AMWCMQS a) x (Some proof) (Some (pub_config c)) (hs (fst s)) in
  r = (_ ← r'; Ok true) /\ hs m' = h.
Proof.
  intros [u Hset] Hid Hu Hm Hf Hs Hl Hsep Hv Hfv Hsv Hme Hr Ha.
  unfold on_response, mbind at 1, stM_bind at 1. destruct (on_connected_spec s) as (m1 & l1 & Hp & Hh & _).
  rewrite Hp. cbn [read_to_string mbind option_bind]. rewrite Hu.
  unfold mbind at 1, stM_bind at 1, read_body.
  assert (starts_with (lit "messagelist: ") (message_body id fields) = false) as -> by done.
  assert (find_char ";" (message_body id fields) = Some (length (lit "message: " ++ id))) as ->.
  { unfold message_body. rewrite (assoc_L (++)). apply find_char_app. rewrite not_elem_of_app. split; [by rewrite <- mem_elem_of | done]. }
  rewrite Hset. unfold vars, mbind at 1, stM_bind at 1, st_modify. cbn [mret stM_ret].
  assert (drop (1 + length (lit "message: " ++ id)) (message_body id fields) = join (lit "&") fields) as ->.
  { unfold message_body. rewrite (assoc_L (++)), Nat.add_comm, <- drop_drop, drop_app_length. done. }
  pose proof (handle_message_spec c [join (lit "&") fields] v fromv sigv fields me x proof a
    (m1, set_url (u (last_message_id (message_body id fields) (length (lit "message: " ++ id)))) l1) Hm Hf Hs Hl Hsep Hv Hfv Hsv Hme Hr Ha) as Hh'.
  cbn [fst] in Hh'. unfold mret, stM_ret. cbn [handle_messages]. unfold mbind, stM_bind.
  destruct (handle_message _ _ _ _) as [r [m' l']]. rewrite Hh in Hh'.
  destruct (on_slate (AMWCMQS a) x (Some proof) (Some (pub_config c)) (hs (fst s))) as [r' h].
  destruct Hh' as [-> ->]. by destruct r' as [[]|e| |].
Qed.
End delivery.

(** The body of a form's fields, in some order. *)
Section fields.
Context {L : CryptoLib} {Laws : CryptoLaws L} {R : RegexEngine} {RL : RegexLaws R} {P : Platform}.

Definition message_fields_of (v fromv sigv : str) : list str :=
  [field (lit "mapmessage") v; field (lit "from") fromv; field (lit "signature") sigv].

Lemma message_form_lookup mser from signature :
  message_form mser from signature !! lit "mapmessage" = Some mser /\
  message_form mser from signature !! lit "from" = Some from /\
  message_form mser from signature !! lit "signature" = Some signature.
Proof.
  unfold message_form. split_and!; rewrite ?lookup_insert_ne by done; by rewrite lookup_insert_eq.
Qed.

Lemma permuted_fields v fromv sigv fields : fields ≡ₚ message_fields_of v fromv sigv ->
  only_field (lit "mapmessage") v fields /\ only_field (lit "from") fromv fields /\
  only_field (lit "signature") sigv fields /\ length fields = 3%nat.
Proof.
  intros Hp. unfold only_field.
  assert (forall name w, field name w ∈ message_fields_of v fromv sigv ->
    (forall f, f ∈ message_fields_of v fromv sigv -> starts_with (name ++ lit "=") f = true -> f = field name w) ->
    field name w ∈ fields /\ forall f, f ∈ fields -> starts_with (name ++ lit "=") f = true -> f = field name w) as Hof.
  { intros name w Hin Hu. split; [by rewrite Hp|]. intros f Hf. apply Hu. by rewrite <- Hp. }
  split_and!; [apply Hof..|by rewrite Hp]; try (cbv [message_fields_of]; set_solver);
    intros f Hf; cbv [message_fields_of] in Hf; rewrite !elem_of_cons, elem_of_nil in Hf; destruct_or? Hf; subst; done.
Qed.

Lemma form_fields v fromv sigv fields : all form_class v -> all form_class fromv -> all form_class sigv ->
  fields ≡ₚ message_fields_of v fromv sigv ->
  Forall (fun f => "&"%char ∉ f /\ " "%char ∉ f /\ all visible f) fields.
Proof.
  intros Hv Hf Hs ->.
  assert (forall name w, all form_class w -> all visible name -> "&"%char ∉ name -> " "%char ∉ name ->
    "&"%char ∉ field name w /\ " "%char ∉ field name w /\ all visible (field name w)) as Hw.
  { intros name w Hw Hn1 Hn2 Hn3. unfold field. rewrite !not_elem_of_app, !not_elem_of_cons.
    split_and!; try done; try by apply (all_not_in form_class).
    apply Forall_app. split; [done|]. constructor; [done|]. revert Hw. apply all_impl. unfold form_class. by intros c [? _]%andb_true_iff. }
  unfold message_fields_of. repeat apply Forall_cons_2; [..|by apply Forall_nil_2];
    (apply Hw; [done|by repeat constructor|by rewrite <- mem_elem_of..]).
Qed.
End fields.

(** ** What handling an answer leaves alone *)

Section calm.
Context {L : CryptoLib} {Laws : CryptoLaws L} {R : RegexEngine} {RL : RegexLaws R} {P : Platform} {SL : SlateLib}
  {SE : Serde EncryptedMessage} {SEL : SerdeLaws EncryptedMessage} {SD : SignatureDebug}.
Abbreviation TL := (Mqs (list Call) * Listener)%type.
Abbreviation TM A := (stM TL Error A).

(** [m] keeps [Q] of the calls so far, the flag and the requests, and returns no error. *)
Definition calm (Q : list Call -> Prop) {A} (m : TM A) : Prop := forall s, Q (hs (fst s)) ->
  let '(r, s') := m s in Q (hs (fst s')) /\ inner (fst s') = inner (fst s) /\ requests (fst s') = requests (fst s) /\
  forall e, r <> Err e.

Context (Q : list Call -> Prop).

Lemma calm_ret {A} (a : A) : calm Q (mret a).
Proof. intros s Hs. done. Qed.
Lemma calm_bind {A B} (m : TM A) (f : A -> TM B) : calm Q m -> (forall a, calm Q (f a)) -> calm Q (m ≫= f).
Proof.
  intros Hm Hf s Hs. unfold mbind, stM_bind. specialize (Hm s Hs). destruct (m s) as [[a|e| |] s1];
    [|destruct Hm as (? & ? & ? & Hm); split_and!; try done; intros e' [= ->]; by apply (Hm e')..].
  destruct Hm as (H1 & H2 & H3 & _). specialize (Hf a s1 H1). destruct (f a s1) as [r s2]. rewrite <- H2, <- H3. exact Hf.
Qed.
Lemma calm_get_vars : calm Q get_vars.
Proof. intros s Hs. done. Qed.
Lemma calm_get_inner : calm Q get_inner.
Proof. intros s Hs. done. Qed.
Lemma calm_vars f : calm Q (vars f).
Proof. intros [m l] Hs. done. Qed.
Lemma calm_say n : calm Q (say n).
Proof. intros [m l] Hs. done. Qed.
Lemma calm_sleep ms : calm Q (sleep ms).
Proof. intros [m l] Hs. done. Qed.
Lemma calm_lift {A} (r : result A) : (forall e, r <> Err e) -> calm Q (st_lift r).
Proof. intros Hr s Hs. done. Qed.
Lemma calm_when b (m : TM ()) : calm Q m -> calm Q (when_ b m).
Proof. destruct b; [done|]. intros _. apply calm_ret. Qed.
Lemma calm_fatal msgs e n : calm Q (fatal msgs e n).
Proof. apply calm_bind; [apply calm_say | intros; apply calm_vars]. Qed.
Lemma calm_new_login : calm Q new_login.
Proof. apply calm_bind; [apply calm_get_inner | intros; apply calm_when, calm_say]. Qed.
Lemma calm_unwrap {A} (r : result A) : calm Q (st_lift (unwrap_result r)).
Proof. apply calm_lift. by destruct r. Qed.

Lemma calm_unwrap_bind {A B} (r : result A) (f : A -> TM B) :
  (forall a, r = Ok a -> calm Q (f a)) -> calm Q (st_lift (unwrap_result r) ≫= f).
Proof. intros Hf s Hs. destruct r as [a|e| |]; [by apply (Hf a)|done..]. Qed.

Create HintDb calm.
#[local] Hint Resolve calm_ret calm_get_vars calm_get_inner calm_vars calm_say calm_sleep calm_when calm_fatal calm_new_login calm_unwrap : calm.
#[local] Hint Extern 1 (calm _ (_ ≫= _)) => apply calm_bind; [|intros] : calm.
#[local] Hint Extern 1 (calm _ (st_lift _)) => apply calm_lift; done : calm.
#[local] Hint Extern 2 (calm _ (if ?b then _ else _)) => destruct b : calm.
#[local] Hint Extern 2 (calm _ (match ?b with _ => _ end)) => destruct b : calm.

Lemma calm_nginx_down : calm Q nginx_down.
Proof. unfold nginx_down. eauto 12 with calm. Qed.
Lemma calm_back_again : calm Q back_again.
Proof. unfold back_again. eauto 12 with calm. Qed.
#[local] Hint Resolve calm_nginx_down calm_back_again : calm.

Lemma calm_read_lines set_id lines : (forall id, calm Q (set_id id)) -> calm Q (read_lines set_id lines).
Proof. intros Hset. induction lines as [|line lines IH]; cbn [read_lines]; eauto 12 with calm. Qed.
#[local] Hint Resolve calm_read_lines : calm.
Lemma calm_read_body set_id body : (forall id, calm Q (set_id id)) -> calm Q (read_body set_id body).
Proof. intros Hset. unfold read_body. eauto 12 with calm. Qed.

Lemma calm_find_field name read code msgvec fields acc : calm Q (find_field (S := list Call) name read code msgvec fields acc).
Proof. revert acc. induction fields as [|f fields IH]; intros acc; cbn [find_field]; eauto 12 with calm. Qed.
#[local] Hint Resolve calm_find_field : calm.

(** [Q] must also survive the calls the listener makes. *)
Context (c : MWCMQPublisher).
Context (Hcall : forall cs from r5 sig me x proof a, Q cs -> get_grinbox_address (pub_config c) = Ok me ->
  from_response from r5 [] sig (pub_secret_key c) (Some me) = Ok (x, proof) -> MWCMQSAddress_from_str from = Ok a ->
  Q (cs ++ [CSlate (AMWCMQS a) x (Some proof)])).

Lemma calm_deliver_slate msgvec from sig r5 : calm Q (deliver_slate (S := list Call) c msgvec from sig r5).
Proof.
  unfold deliver_slate. apply calm_unwrap_bind. intros me Hme.
  destruct (from_response _ _ _ _ _ _) as [[x proof]|e| |] eqn:Hr; [|eauto with calm..].
  destruct (MWCMQSAddress_from_str from) as [a|e| |] eqn:Ha; [|eauto with calm..].
  intros [m l] Hs. cbn. split_and!; [|done..]. by eapply Hcall.
Qed.
#[local] Hint Resolve calm_deliver_slate : calm.
Lemma calm_deliver msgvec from sig fields : calm Q (deliver (S := list Call) c msgvec from sig fields).
Proof. induction fields as [|f fields IH]; cbn [deliver]; eauto 12 with calm. Qed.
#[local] Hint Resolve calm_deliver : calm.
Lemma calm_handle_message msgvec msg : calm Q (handle_message (S := list Call) c msgvec msg).
Proof. unfold handle_message. cbn zeta. eauto 20 with calm. Qed.
#[local] Hint Resolve calm_handle_message : calm.
Lemma calm_handle_messages msgvec rest : calm Q (handle_messages (S := list Call) c msgvec rest).
Proof. induction rest as [|msg rest IH]; cbn [handle_messages]; eauto 12 with calm. Qed.
#[local] Hint Resolve calm_handle_messages calm_read_body : calm.

Lemma calm_on_send_failed err : calm Q (on_send_failed err).
Proof. unfold on_send_failed. eauto 20 with calm. Qed.
Lemma calm_on_connected : calm Q on_connected.
Proof. unfold on_connected. eauto 20 with calm. Qed.
#[local] Hint Resolve calm_on_connected : calm.
Lemma calm_on_response set_id body : (forall id, calm Q (set_id id)) -> calm Q (on_response set_id c body).
Proof. intros Hset. unfold on_response. eauto 20 with calm. Qed.

(** One turn: when it makes its request and what becomes of the flag. *)
Lemma turn_spec set_id first_url t s : (forall id, calm Q (set_id id)) -> Q (hs (fst s)) ->
  let i := default (inner (fst s)) (before t) in
  let '(r, s') := turn set_id first_url c t s in
  Q (hs (fst s')) /\ (forall e, r <> Err e) /\
  if is_error (snd s) || negb i then r = Ok false /\ inner (fst s') = i /\ requests (fst s') = requests (fst s)
  else match reply t with
       | NoClient => r = Ok true /\ is_error (snd s') = true /\ inner (fst s') = i /\ requests (fst s') = requests (fst s)
       | _ => inner (fst s') = default i (during t) /\ exists q, requests (fst s') = requests (fst s) ++ [q]
       end.
Proof.
  intros Hset Hs. destruct s as [m l]. cbn [fst snd] in *. cbn zeta. set (i := default (inner m) (before t)).
  assert (forall b (m : Mqs (list Call)) l, exists m1, outside b (m, l) = (Ok (), (m1, l)) /\ hs m1 = hs m /\ inner m1 = default (inner m) b /\
    requests m1 = requests m) as Hout by (intros [b|] m0 l0; eexists; split; done).
  unfold turn. unfold mbind at 1, stM_bind at 1. destruct (Hout (before t) m l) as (m1 & -> & E1 & E2 & E3). fold i in E2. clearbody i.
  unfold mbind at 1, stM_bind at 1, get_vars. cbn [snd]. destruct (is_error l); cbn [orb]; [cbn; by rewrite E1|].
  unfold mbind at 1, stM_bind at 1, vars, st_modify. unfold mbind at 1, stM_bind at 1, get_inner. cbn [fst]. rewrite E2.
  destruct i; cbn [negb]; [|cbn; rewrite E1; done].
  assert (forall (k : TM bool) m2 l2, calm Q k -> Q (hs m2) ->
    let '(r, s') := k (m2, l2) in Q (hs (fst s')) /\ (forall e, r <> Err e) /\ inner (fst s') = inner m2 /\ requests (fst s') = requests m2) as Hk.
  { intros k m2 l2 Hk Hq. specialize (Hk (m2, l2) Hq). destruct (k (m2, l2)) as [r s']. tauto. }
  destruct (reply t) as [|err|body].
  { unfold fatal, print_error, say, mbind, stM_bind, vars, st_modify, mret, stM_ret. cbn. by rewrite E1. }
  all: unfold mbind at 1, stM_bind at 1, get_vars; cbn [snd]; unfold mbind at 1, stM_bind at 1, st_modify;
    unfold mbind at 1, stM_bind at 1;
    match goal with |- context [outside ?b (?m0, ?l0)] => destruct (Hout b m0 l0) as (m2 & -> & F1 & F2 & F3) end;
    cbn in F1, F2, F3; rewrite E1 in F1; rewrite E2 in F2; rewrite E3 in F3.
  - match goal with |- context [(on_send_failed err ≫= ?f) (m2, ?l2)] => specialize (Hk (on_send_failed err ≫= f) m2 l2) end.
    match type of Hk with _ -> _ -> let '(_, _) := ?k in _ => destruct k as [r s'] end.
    destruct Hk as (H1 & H2 & H3 & H4); [apply calm_bind; [apply calm_on_send_failed | intros; apply calm_ret] | by rewrite F1 |].
    split_and!; [done|done|congruence|]. eexists. by rewrite H4, F3.
  - match goal with |- context [on_response set_id c body (m2, ?l2)] => specialize (Hk (on_response set_id c body) m2 l2) end.
    match type of Hk with _ -> _ -> let '(_, _) := ?k in _ => destruct k as [r s'] end.
    destruct Hk as (H1 & H2 & H3 & H4); [by apply calm_on_response | by rewrite F1 |].
    split_and!; [done|done|congruence|]. eexists. by rewrite H4, F3.
Qed.

Lemma listen_spec set_id first_url ts : (forall id, calm Q (set_id id)) -> forall s, Q (hs (fst s)) ->
  let '(r, s') := listen set_id first_url c ts s in Q (hs (fst s')) /\ forall e, r <> Err e.
Proof.
  intros Hset. induction ts as [|t ts IH]; intros s Hs; [done|]. cbn [listen]. unfold mbind, stM_bind.
  pose proof (turn_spec set_id first_url t s Hset Hs) as Ht. cbn zeta in Ht.
  destruct (turn set_id first_url c t s) as [r s1]. destruct Ht as (H1 & H2 & _).
  destruct r as [[]|e| |]; [by apply IH|done|by destruct (H2 e)|done..].
Qed.
End calm.

(** ** Whose slates the handler is given *)

Section authentic.
Context {L : CryptoLib} {Laws : CryptoLaws L} {R : RegexEngine} {RL : RegexLaws R} {P : Platform} {SL : SlateLib}
  {SE : Serde EncryptedMessage} {SEL : SerdeLaws EncryptedMessage}.

(** A slate handed over with an address: the key of the address signed the
    message the slate was sealed in, and the message is not for another key. *)
Definition authentic (c : MWCMQPublisher) (call : Call) : Prop :=
  match call with
  | CSlate (AMWCMQS a) x (Some proof) =>
      exists me pk em text, get_grinbox_address (pub_config c) = Ok me /\
        MWCMQSAddress_public_key a = Ok pk /\ GrinboxAddress_public_key (address proof) = Ok pk /\
        verify_signature (message proof) (signature proof) pk = Ok () /\ of_json (message proof) = Some em /\
        (forall d, destination em = Some d -> public_key_text d = public_key_text me) /\
        EncryptedMessage_key em pk (pub_secret_key c) = Ok (key proof) /\ decrypt_with_key em (key proof) = Ok text /\
        deserialize_upgrade text = Some x
  | _ => False
  end.

Lemma from_response_authentic c from r5 sig me x proof a : get_grinbox_address (pub_config c) = Ok me ->
  from_response from r5 [] sig (pub_secret_key c) (Some me) = Ok (x, proof) -> MWCMQSAddress_from_str from = Ok a ->
  authentic c (CSlate (AMWCMQS a) x (Some proof)).
Proof.
  intros Hme Hr Ha. apply from_response_sound in Hr as (pk & em & sg & text & Hm & Hc & Hf & Hpk & _ & _ & Hj & Hd & Hk & Htext & Hx & d & Hv).
  apply verify_extract_sound in Hv as (pk' & _ & _ & Hpk' & Hsig & _). rewrite Hpk in Hpk'. injection Hpk' as <-.
  destruct (mq_same_key _ _ _ _ _ Ha Hf) as (k & Hka & Hkg). rewrite <- Hm in Hj. rewrite Hc, app_nil_r in Hsig.
  exists me, pk, em, text. split_and!; try done.
  - unfold MWCMQSAddress_public_key, mq_public_key. rewrite Hka.
    unfold GrinboxAddress_public_key, mq_public_key in Hpk. by rewrite Hkg in Hpk.
  - intros d' Hd'. by apply (Hd d' me).
Qed.
End authentic.

(** ** Properties *)

Import Toy Backtrack ToyPlatform ToySerde ToyMessage ToySlate ToyConfig.

(** C24: delivery.  What one wallet posts for an address, another that holds
    the key of the address reads: when the server hands the posted form on,
    with its characters escaped as the listener expects and its fields in any
    order, the listener gives its handler exactly the slate that was sent, from
    the sender's address, with a proof that verifies again, and goes on. *)
Theorem mwcmqs_delivery {L : CryptoLib} {Laws : CryptoLaws L} {R : RegexEngine} {RL : RegexLaws R} {P : Platform}
    {SL : SlateLib} {SE : Serde EncryptedMessage} {SEL : SerdeLaws EncryptedMessage}
    {S : Type} {H : SubscriptionHandler S} salt nonce x text to A B (sender receiver : MWCMQPublisher) me
    mser sig from fields id set_id (s : Mqs S * Listener) :
  from_secret_key (pub_secret_key sender) = Some A -> public_key_text (pub_address sender) = key_text A ->
  mq_wf (pub_address sender) -> mq_wf to ->
  from_secret_key (pub_secret_key receiver) = Some B -> public_key_text to = key_text B ->
  get_grinbox_address (pub_config receiver) = Ok me -> public_key_text me = key_text B ->
  salt <> [] -> nonce <> [] ->
  slate_to_json x = Some text -> utf8_valid text = true -> deserialize_upgrade text = Some x ->
  mqs_message salt nonce x to (pub_secret_key sender) = Ok (mser, sig) -> all plain mser ->
  MWCMQSAddress_stripped (pub_address sender) = Ok from ->
  fields ≡ₚ message_fields_of (percent_encode form_escapes mser) (at_encoded from) sig ->
  sets_url set_id -> all is_ascii id -> ";"%char ∉ id ->
  exists proof d, verify_extract proof (Some me) = Ok (Some d, x) /\ public_key_text d = key_text B /\
    public_key_text (address proof) = key_text A /\
    let '(r, (m', _)) := on_response set_id receiver (Some (message_body id fields)) s in
    let '(r', h) := on_slate (AMWCMQS (normalise (pub_address sender))) x (Some proof) (Some (pub_config receiver)) (hs (fst s)) in
    hs m' = h /\ r = (_ ← r'; Ok true).
Proof.
  intros Ha Hka Hwf Hwt Hb Hto Hme Hkm Hs Hn Hj Hu Hd Hreq Hms Hst Hp Hset Hid Hsemi.
  unfold mqs_message, MWCMQSAddress_public_key, mq_public_key in Hreq. rewrite Hto, key_text_parse in Hreq.
  cbn [mbind outcome_bind] in Hreq. rewrite Hj in Hreq. cbn [ok_or mbind outcome_bind] in Hreq.
  destruct (destination_text to B Hwt Hto) as (d & Hdest & Hkd). rewrite Hto in Hdest. rewrite Hdest in Hreq.
  cbn [mbind outcome_bind] in Hreq. apply bind_Ok in Hreq as (em & Hem%map_err_Ok & Hreq). apply bind_Ok in Hreq as (ms & Hm & Hreq).
  apply bind_Ok in Hreq as (sg & Hsg & [= -> <-]). destruct (sign_challenge mser (pub_secret_key sender)) as [s0| | |] eqn:Hsign; try done.
  injection Hsg as ->. unfold json_text in Hm. destruct (to_json em) as [msg|] eqn:Hjm; [|done]. injection Hm as ->.
  destruct (mqs_stripped (pub_address sender) Hwf) as (ft & fa & Hft & Hfp & Hfm & Hfg & Hfk). rewrite Hst in Hft. injection Hft as <-.
  destruct (from_response_complete from fa A (pub_secret_key sender) (pub_secret_key receiver) B d me (Some me) text x salt nonce em mser [] sg)
    as (proof & H1 & H2 & _ & _ & _ & H6); auto; [by rewrite Hfk|by rewrite Hkd|by rewrite app_nil_r|].
  exists proof, d. split_and!; [done|done|by rewrite H2, Hfk|].
  assert (Hv : all form_class (percent_encode form_escapes mser)) by (apply form_encoded; [done|by repeat constructor]).
  assert (Hf : all form_class (at_encoded from)).
  { unfold at_encoded. change (lit "@") with ["@"%char]. rewrite replace_encode. apply form_encoded; [done|by repeat constructor]. }
  assert (Hg : all form_class (sig_to_hex sg)).
  { rewrite <- (percent_encode_nil (sig_to_hex sg)). apply form_encoded; [apply to_hex_plain|constructor]. }
  pose proof (form_fields _ _ _ _ Hv Hf Hg Hp) as Hff. destruct (permuted_fields _ _ _ _ Hp) as (O1 & O2 & O3 & O4).
  pose proof (on_response_single set_id receiver id fields (percent_encode form_escapes mser) (at_encoded from) (sig_to_hex sg)
    me x proof (normalise (pub_address sender)) s Hset Hsemi) as Hon.
  destruct (on_response _ _ _ _) as [r [m' l']]. destruct (on_slate _ _ _ _ _) as [r' h]. apply and_comm. apply Hon; auto.
  - apply utf8_valid_ascii. unfold message_body. apply Forall_app_2; [by repeat constructor|]. apply Forall_app_2; [done|]. apply Forall_cons_2; [done|].
    apply Forall_forall. intros c [Hc|(w & Hw & Hc)]%elem_of_join.
    + change (lit "&") with ["&"%char] in Hc. by apply list_elem_of_singleton in Hc as ->.
    + rewrite Forall_forall in Hff. destruct (Hff w Hw) as (_ & _ & Hvis). unfold all in Hvis. rewrite Forall_forall in Hvis.
      specialize (Hvis c Hc). cbn in Hvis. unfold visible in Hvis. by apply andb_true_iff in Hvis as [? _].
  - eapply Forall_impl; [exact Hff|]. cbn. tauto.
  - by apply (all_not_in form_class).
  - by apply (all_not_in form_class).
  - by apply (all_not_in form_class).
  - rewrite at_decode, percent_decode_encode, trim_visible by (done || by apply plain_visible, to_hex_plain). done.
  - by rewrite at_decode.
Qed.

(** Two wallets, by their keys. *)
Module ToyMqs.
#[export] Instance toy_signature_debug : SignatureDebug := fun s => lit "Signature(" ++ fst s ++ lit ")".
Definition toy_mqs_address (k : Z) : MWCMQSAddress :=
  {| public_key_text := key_text (toy_pk k); domain := lit "mqs.mwc.mw"; port := None |}.
Definition toy_publisher (k : Z) : MWCMQPublisher :=
  {| pub_address := toy_mqs_address k; pub_secret_key := toy_sk k; pub_config := set_address_key (toy_sk k) (Config_default Mainnet) |}.
Definition toy_posted : result (str * str) := mqs_message (lit "saltsalt") (lit "noncenonceno") a_slate (toy_mqs_address 9) (toy_sk 7).
Definition toy_set_id (id : str) : stM (Mqs (list Call) * Listener) Error () := vars (set_url id).
Definition toy_mqs (h : list Call) : Mqs (list Call) :=
  {| inner := true; requests := []; notices := []; slept := []; hs := h |}.
Definition toy_listener : Listener :=
  {| count := 1; connected := false; isnginxerror := false; is_in_warning := false; is_error := false; url := [] |}.
End ToyMqs.
Import ToyMqs.

Lemma toy_mqs_wf k : mq_wf (toy_mqs_address k).
Proof. split_and!; [by exists (toy_pk k) | split; [done | by repeat constructor] | done]. Qed.

Lemma mwcmqs_delivery_witness :
  exists mser sig from proof,
    hs (fst (snd (on_response toy_set_id (toy_publisher 9) (Some (message_body (lit "17")
      [field (lit "from") (at_encoded from); field (lit "signature") sig; field (lit "mapmessage") (percent_encode form_escapes mser)]))
      (toy_mqs [], toy_listener)))) = [CSlate (AMWCMQS (toy_mqs_address 7)) a_slate (Some proof)] /\
    public_key_text (address proof) = key_text (toy_pk 7).
Proof.
  assert (match toy_posted with Ok (m, _) => forallb plain m | _ => false end = true) as E by (vm_compute; reflexivity).
  destruct toy_posted as [[mser sig]|e| |] eqn:Hp; [|discriminate E..]. unfold toy_posted in Hp.
  assert (match get_grinbox_address (pub_config (toy_publisher 9)) with
          | Ok me => bool_decide (public_key_text me = key_text (toy_pk 9)) | _ => false end = true) as E2 by (vm_compute; reflexivity).
  destruct (get_grinbox_address (pub_config (toy_publisher 9))) as [me|e| |] eqn:Hme; [|discriminate E2..].
  pose proof (bool_decide_eq_true_1 _ E2) as Hk.
  assert (is_ok (MWCMQSAddress_stripped (toy_mqs_address 7)) = true) as E3 by (vm_compute; reflexivity).
  destruct (MWCMQSAddress_stripped (toy_mqs_address 7)) as [from|e| |] eqn:Hf; [|discriminate E3..].
  exists mser, sig, from.
  destruct (mwcmqs_delivery (lit "saltsalt") (lit "noncenonceno") a_slate a_text (toy_mqs_address 9) (toy_pk 7) (toy_pk 9)
    (toy_publisher 7) (toy_publisher 9) me mser sig from
    [field (lit "from") (at_encoded from); field (lit "signature") sig; field (lit "mapmessage") (percent_encode form_escapes mser)]
    (lit "17") toy_set_id (toy_mqs [], toy_listener)) as (proof & d & _ & _ & H2 & H3);
    [reflexivity|reflexivity|apply toy_mqs_wf|apply toy_mqs_wf|reflexivity|reflexivity|exact Hme|exact Hk|discriminate|discriminate
    |reflexivity|vm_compute; reflexivity|vm_compute; reflexivity|exact Hp| |exact Hf| |exists (fun id => id); reflexivity
    |repeat constructor|apply find_char_None; reflexivity|].
  - apply Forall_forall. intros c Hc. apply list_elem_of_In in Hc. revert c Hc. apply forallb_forall. exact E.
  - unfold message_fields_of. symmetry. apply (Permutation_app_comm [_] [_; _]).
  - exists proof. split; [|exact H2]. destruct (on_response _ _ _ _) as [r [m' l']]. destruct H3 as [H3 _]. exact H3.
Defined.

(** C25: authenticity.  Whatever the server answers, the listener only ever
    hands slates to its handler, each with a proof, and for each the key of the
    sender's address it names signed the message the slate was sealed in, for
    the listener's own key if the message names a destination.  The listener
    never ends with an error, and when it ends the broker counts as stopped. *)
Theorem mwcmqs_authentic {L : CryptoLib} {Laws : CryptoLaws L} {R : RegexEngine} {RL : RegexLaws R} {P : Platform}
    {SL : SlateLib} {SE : Serde EncryptedMessage} {SEL : SerdeLaws EncryptedMessage} {SD : SignatureDebug}
    c clock ts (m : Mqs (list Call)) :
  mq_wf (pub_address c) -> hs m = [] ->
  let '(r, m') := subscribe c clock ts m in
  Forall (authentic c) (hs m') /\ (forall e, r <> Err e) /\ (r = Ok () -> inner m' = false).
Proof.
  intros Hwf Hh. destruct (mqs_stripped (pub_address c) Hwf) as (ft & _ & Hst & _).
  unfold subscribe, mbind, stM_bind, st_modify. rewrite Hst. cbn [st_lift].
  match goal with |- context [match ?p (set_inner true m) with _ => _ end] =>
    assert (exists m1, p (set_inner true m) = (Ok (), m1) /\ hs m1 = []) as (m1 & Hp & Hm1)
      by (destruct clock; eexists; (split; [reflexivity | exact Hh])) end.
  rewrite Hp. destruct (sign_challenge _ _) as [sg|e| |]; cbn [unwrap_result st_lift]; [|by rewrite Hm1..].
  destruct (match clock with Received body => read_to_string body | _ => None end) as [now|];
    [|cbn; rewrite Hm1; split_and!; [constructor|done|done]].
  match goal with |- context [listen ?f ?u c ts ?s] => pose proof (listen_spec (Forall (authentic c)) c) as Hl;
    specialize (Hl ltac:(intros; apply Forall_app; split; [done|]; apply Forall_singleton; by eapply from_response_authentic)
      f u ts ltac:(intros; apply calm_vars) s) end.
  cbn [fst] in Hl. rewrite Hm1 in Hl. specialize (Hl (Forall_nil_2 _)).
  destruct (listen _ _ c ts _) as [r [m2 l2]]. cbn [fst] in Hl. destruct Hl as [H1 H2].
  destruct r as [[]|e| |]; cbn; [|by destruct (H2 e)|done..]. split_and!; done.
Qed.

Definition toy_body : str :=
  match toy_posted, MWCMQSAddress_stripped (toy_mqs_address 7) with
  | Ok (mser, sig), Ok from => message_body (lit "17")
      (message_fields_of (percent_encode form_escapes mser) (at_encoded from) sig)
  | _, _ => []
  end.
Definition toy_turns : list Turn :=
  [{| before := None; reply := SendFailed (lit "operation timed out"); during := None |};
   {| before := None; reply := Received (Some toy_body); during := None |};
   {| before := Some false; reply := NoClient; during := None |}].
Abbreviation toy_listening := (subscribe (toy_publisher 9) (Received (Some (lit "1580000000000"))) toy_turns (toy_mqs [])).

Lemma mwcmqs_authentic_witness :
  Forall (authentic (toy_publisher 9)) (hs (snd toy_listening)) /\ length (hs (snd toy_listening)) = 1%nat /\
  fst toy_listening = Ok ().
Proof.
  pose proof (mwcmqs_authentic (toy_publisher 9) (Received (Some (lit "1580000000000"))) toy_turns (toy_mqs []) (toy_mqs_wf 9) eq_refl) as T.
  assert (match toy_listening with (Ok _, m) => (length (hs m) =? 1)%nat | _ => false end = true) as E by (vm_compute; reflexivity).
  destruct toy_listening as [[[]|e| |] m]; [|discriminate E..]. cbn [fst snd]. destruct T as [T _].
  split; [exact T|]. split; [by apply Nat.eqb_eq | reflexivity].
Defined.

(** C28: stopping.  A listener that finds itself stopped ends at once, without
    another request.  One that is stopped while its request is pending still
    handles the answer, and ends then, whatever the answers after would be.
    But if another listener is started before it looks again, the flag they
    share is set again and the old one goes on with its next request. *)
Theorem mwcmqs_stop {L : CryptoLib} {Laws : CryptoLaws L} {R : RegexEngine} {RL : RegexLaws R} {P : Platform}
    {SL : SlateLib} {SE : Serde EncryptedMessage} {SEL : SerdeLaws EncryptedMessage}
    set_id first_url c t t' ts (s : Mqs (list Call) * Listener) :
  sets_url set_id ->
  (before t = Some false -> listen set_id first_url c (t :: ts) s =
     (Ok (), (set_inner false (fst s), if is_error (snd s) then snd s else next_count (snd s)))) /\
  (during t = Some false -> reply t <> NoClient -> default (inner (fst s)) (before t) = true ->
   match turn set_id first_url c t s with
   | (Ok true, s1) =>
       (before t' <> Some true -> fst (listen set_id first_url c (t :: t' :: ts) s) = Ok () /\
          requests (fst (snd (listen set_id first_url c (t :: t' :: ts) s))) = requests (fst s1)) /\
       (before t' = Some true -> reply t' <> NoClient -> is_error (snd s1) = false ->
          exists q, requests (fst (snd (turn set_id first_url c t' s1))) = requests (fst s1) ++ [q])
   | (Ok false, s1) => listen set_id first_url c (t :: t' :: ts) s = (Ok (), s1)
   | (r, s1) => snd (listen set_id first_url c (t :: t' :: ts) s) = s1
   end).
Proof.
  intros [u Hset].
  assert (Hcalm : forall id, calm (fun _ => True) (set_id id)) by (intros id; rewrite Hset; apply calm_vars).
  split.
  - intros Hb. destruct s as [m l]. cbn [listen]. unfold turn, outside, mbind, stM_bind, st_modify, get_vars. rewrite Hb. cbn.
    by destruct (is_error l).
  - intros Hd Hr Hi. pose proof (turn_spec (fun _ => True) c ltac:(done) set_id first_url t s Hcalm I) as Ht. cbn zeta in Ht.
    cbn [listen]. unfold mbind, stM_bind. destruct (turn set_id first_url c t s) as [[[]|e| |] s1]; try done.
    destruct Ht as (_ & _ & Ht). rewrite Hi in Ht. destruct (is_error (snd s)); [by destruct Ht|]. cbn [orb negb] in Ht.
    assert (inner (fst s1) = false) as Hi1 by (rewrite Hd in Ht; destruct (reply t); [done|by destruct Ht..]).
    pose proof (turn_spec (fun _ => True) c ltac:(done) set_id first_url t' s1 Hcalm I) as Ht'. cbn zeta in Ht'. rewrite Hi1 in Ht'.
    split.
    + intros Hb. destruct (turn set_id first_url c t' s1) as [r s2]. destruct Ht' as (_ & _ & Ht').
      assert (default false (before t') = false) as E by (destruct (before t') as [[]|]; done). rewrite E, orb_true_r in Ht'.
      destruct Ht' as (-> & _ & Hq). done.
    + intros Hb Hr' He. rewrite Hb, He in Ht'. cbn [default orb negb] in Ht'.
      destruct (turn set_id first_url c t' s1) as [r s2]. destruct Ht' as (_ & _ & Ht'). destruct (reply t'); [done|by destruct Ht'..].
Qed.

Lemma mwcmqs_stop_witness :
  let s := (toy_mqs [], toy_listener) in
  let t := {| before := None; reply := Received (Some (lit "message: mapmessage=nil")); during := Some false |} in
  let t' := {| before := None; reply := NoClient; during := None |} in
  listen toy_set_id [] (toy_publisher 9) ({| before := Some false; reply := NoClient; during := None |} :: [t]) s =
    (Ok (), (set_inner false (toy_mqs []), next_count toy_listener)) /\
  fst (listen toy_set_id [] (toy_publisher 9) [t; t'] s) = Ok () /\
  length (requests (fst (snd (listen toy_set_id [] (toy_publisher 9) [t; t'] s)))) = 1%nat.
Proof.
  intros s t t'. assert (Hset : sets_url toy_set_id) by (exists (fun id => id); reflexivity). split_and!.
  - exact (proj1 (mwcmqs_stop toy_set_id [] (toy_publisher 9) {| before := Some false; reply := NoClient; during := None |} t [t] s Hset) eq_refl).
  - pose proof (proj2 (mwcmqs_stop toy_set_id [] (toy_publisher 9) t t' [] s Hset) eq_refl ltac:(discriminate) eq_refl) as T.
    assert (match turn toy_set_id [] (toy_publisher 9) t s with (Ok b, _) => b | _ => false end = true) as E by (vm_compute; reflexivity).
    destruct (turn toy_set_id [] (toy_publisher 9) t s) as [[[]|e| |] s1]; try discriminate E. apply (proj1 T). discriminate.
  - vm_compute. reflexivity.
Defined.

(** A second login.  The message "closenewlogin" alone ends the listener.
    In a list of messages it only ends the reading of the list: the listener
    goes on, without the messages behind it. *)
Theorem mwcmqs_new_login {L : CryptoLib} {Laws : CryptoLaws L} {R : RegexEngine} {RL : RegexLaws R} {P : Platform}
    {SL : SlateLib} {SE : Serde EncryptedMessage} {S : Type} {H : SubscriptionHandler S}
    set_id c header rest (s : Mqs S * Listener) :
  let body := lit "messagelist: " ++ header ++ newline ++ lit "message: closenewlogin" ++ newline ++ rest in
  chr 10 ∉ header -> utf8_valid body = true ->
  (let '(r, s') := on_response set_id c (Some (lit "message: closenewlogin" ++ newline)) s in
   r = Ok false /\ hs (fst s') = hs (fst s)) /\
  let '(r, s') := on_response set_id c (Some body) s in
   r = Ok true /\ hs (fst s') = hs (fst s) /\ is_error (snd s') = is_error (snd s).
Proof.
  intros body Hh Hu. destruct (on_connected_spec s) as (m1 & l1 & Hp & Hhs & Hi & He).
  destruct (new_login_spec m1 l1) as (m2 & Hn & Hm2).
  unfold on_response, mbind, stM_bind. rewrite Hp. split.
  - set (b := lit "message: closenewlogin" ++ newline).
    assert (read_to_string (Some b) = Some b) as -> by done. unfold read_body.
    assert (starts_with (lit "messagelist: ") b = false) as -> by done. assert (find_char ";" b = None) as -> by done.
    assert (contains (lit "nginx") b = false) as -> by done. rewrite bool_decide_eq_true_2 by done.
    unfold mbind, stM_bind. cbv beta. rewrite Hn. cbn. by rewrite Hm2, Hhs.
  - unfold read_to_string. cbn [mbind option_bind]. rewrite Hu. unfold read_body.
    assert (starts_with (lit "messagelist: ") body = true) as -> by apply starts_with_app.
    assert (split (chr 10) body = (lit "messagelist: " ++ header) :: lit "message: closenewlogin" :: split (chr 10) rest) as ->.
    { subst body. unfold newline. rewrite (assoc_L (++)). rewrite <- !(assoc_L (++)). cbn [app].
      rewrite (assoc_L (++)), split_app, split_app; [done|by rewrite <- mem_elem_of|]. rewrite not_elem_of_app. split; [by rewrite <- mem_elem_of | done]. }
    cbn [drop read_lines]. change (split " " (lit "message: closenewlogin") !! 1%nat) with (Some (lit "closenewlogin")).
    cbv iota beta. assert (find_char ";" (lit "closenewlogin") = None) as -> by done. rewrite bool_decide_eq_true_2 by done.
    unfold mbind, stM_bind. cbv beta. rewrite Hn. cbn. by rewrite Hm2, Hhs, He.
Qed.

Lemma mwcmqs_new_login_witness :
  fst (on_response toy_set_id (toy_publisher 9) (Some (lit "message: closenewlogin" ++ newline)) (toy_mqs [], toy_listener)) = Ok false /\
  fst (on_response toy_set_id (toy_publisher 9)
    (Some (lit "messagelist: " ++ lit "2" ++ newline ++ lit "message: closenewlogin" ++ newline ++ lit "message: 18;x")) (toy_mqs [], toy_listener)) = Ok true.
Proof.
  destruct (mwcmqs_new_login toy_set_id (toy_publisher 9) (lit "2") (lit "message: 18;x") (toy_mqs [], toy_listener)) as [T1 T2];
    [apply find_char_None; reflexivity | reflexivity |].
  destruct (on_response _ _ (Some (lit "message: closenewlogin" ++ newline)) _) as [r1 s1].
  destruct (on_response _ _ _ _) as [r2 s2]. split; [apply T1 | apply T2].
Defined.

(** Posting.  Without a running listener nothing is sent.  Otherwise the
    form with the message, the sender and the signature is posted once, and the
    call succeeds exactly when the body of the answer is text whose second word
    is a 64-bit number; every other outcome is the error for an invalid
    response, although the slate may have arrived.  A number above 150000 ms
    warns, in whole seconds, or without them above 10000000 s. *)
Theorem mwcmqs_post_outcome {L : CryptoLib} {Laws : CryptoLaws L} {R : RegexEngine} {RL : RegexLaws R} {P : Platform}
    {SL : SlateLib} {SE : Serde EncryptedMessage} {S : Type} answer salt nonce x to from sk config mser sig ft tt_ (m : Mqs S) :
  mqs_message salt nonce x to sk = Ok (mser, sig) ->
  MWCMQSAddress_stripped from = Ok ft -> MWCMQSAddress_stripped to = Ok tt_ ->
  let '(r, m') := broker_post_slate answer salt nonce x to from sk config m in
  if negb (inner m) then r = Err (Kind (ClosedListener (lit "mwcmqs"))) /\ m' = m else
  match answer with
  | NoClient => (exists e, r = Err e) /\ m' = m
  | _ =>
      exists url form, requests m' = requests m ++ [Post url form] /\
        form !! lit "mapmessage" = Some mser /\ form !! lit "from" = Some ft /\ form !! lit "signature" = Some sig /\
        match body ← (match answer with Received body => read_to_string body | _ => None end); d ← split " " body !! 1%nat; parse_i64 d with
        | None => (exists t, r = Err (Kind (InvalidRespose t))) /\ notices m' = notices m
        | Some n => r = Ok () /\
            (n <= 150000 -> notices m' = notices m) /\
            (150000 < n <= 10000000000 -> notices m' = notices m ++ [NotFor tt_ (n / 1000)] /\ 150 <= n / 1000 <= 10000000) /\
            (10000000000 < n -> notices m' = notices m ++ [NotRecently tt_])
        end
  end.
Proof.
  intros Hm Hf Ht. destruct (message_form_lookup mser ft sig) as (F1 & F2 & F3).
  unfold broker_post_slate, mbind at 1, stM_bind at 1, is_running. destruct (inner m); cbn [negb]; [|done].
  unfold mbind at 1, stM_bind at 1. rewrite Hm. cbn [st_lift]. destruct answer as [|err|body]; [cbn; by eauto|..];
    unfold mbind at 1, stM_bind at 1; rewrite Hf; cbn [st_lift];
    unfold mbind at 1, stM_bind at 1; rewrite Ht; cbn [st_lift]; unfold mbind at 1, stM_bind at 1, st_modify.
  - cbn. eexists _, _. split; [reflexivity|]. do 3 (split; [eassumption|]). eauto.
  - destruct (read_to_string body) as [b|]; [|cbn; eexists _, _; split; [reflexivity|]; do 3 (split; [eassumption|]); by eauto].
    cbn [mbind option_bind]. unfold check_last_seen.
    destruct (split " " b !! 1%nat) as [d|]; [|cbn; eexists _, _; split; [reflexivity|]; do 3 (split; [eassumption|]); by eauto].
    cbn [mbind option_bind].
    destruct (parse_i64 d) as [n|]; [|cbn; eexists _, _; split; [reflexivity|]; do 3 (split; [eassumption|]); by eauto].
    destruct (Z.ltb_spec 10000000000 n); [|destruct (Z.ltb_spec 150000 n)]; cbn; eexists _, _; (split; [reflexivity|]);
      do 3 (split; [eassumption|]); split_and!; try done; try (intros; lia).
    intros _. split; [done|]. split; [apply Z.div_le_lower_bound; lia | apply Z.div_le_upper_bound; lia].
Qed.

Lemma mwcmqs_post_outcome_witness :
  exists m, broker_post_slate (Received (Some (lit "OK 200000"))) (lit "saltsalt") (lit "noncenonceno") a_slate
      (toy_mqs_address 9) (toy_mqs_address 7) (toy_sk 7) (Config_default Mainnet) (toy_mqs []) = (Ok (), m) /\
    exists to, notices m = [NotFor to 200].
Proof.
  assert (is_ok toy_posted = true) as E by (vm_compute; reflexivity). destruct toy_posted as [[mser sig]|e| |] eqn:Hp; [|discriminate E..]. unfold toy_posted in Hp.
  assert (is_ok (MWCMQSAddress_stripped (toy_mqs_address 7)) = true) as E1 by (vm_compute; reflexivity).
  destruct (MWCMQSAddress_stripped (toy_mqs_address 7)) as [ft|e| |] eqn:Hf; [|discriminate E1..].
  assert (is_ok (MWCMQSAddress_stripped (toy_mqs_address 9)) = true) as E2 by (vm_compute; reflexivity).
  destruct (MWCMQSAddress_stripped (toy_mqs_address 9)) as [t|e| |] eqn:Ht; [|discriminate E2..].
  pose proof (mwcmqs_post_outcome (Received (Some (lit "OK 200000"))) (lit "saltsalt") (lit "noncenonceno") a_slate
    (toy_mqs_address 9) (toy_mqs_address 7) (toy_sk 7) (Config_default Mainnet) mser sig ft t (toy_mqs [])) as T.
  specialize (T Hp Hf Ht).
  destruct (broker_post_slate _ _ _ _ _ _ _ _ _) as [r m]. cbn [inner toy_mqs negb] in T.
  destruct T as (u & form & _ & _ & _ & _ & T).
  assert ((body ← read_to_string (Some (lit "OK 200000")); d ← split " " body !! 1%nat; parse_i64 d) = Some 200000) as E3 by reflexivity.
  rewrite E3 in T. destruct T as (-> & _ & T & _). destruct (T ltac:(lia)) as [T' _]. exists m. split; [reflexivity|]. exists t. exact T'.
Defined.
