(* ===== verification/Controller.v ===== *)
(** * The controller

    [struct Controller] of [main.rs]: what a listener does with the slates it
    receives.  A slate that still lacks a participant is an invoice to pay or a
    payment to receive, and is sent back; a complete one is finalized. *)

From S2P Require Import Prelude Str Errors Regex Crypto Address Message TxProof AddressBook Config WalletTypes Hasher VerifyProof WalletApi Wallet Broker.
Local Open Scope Z_scope.

Section controller.
Context {L : CryptoLib} {R : RegexEngine} {P : Platform} {SL : SlateLib} {W : WalletData} {D : DerivationLib} {WL : WalletLib}
  {LC : LifeCycle} {PL : ProofLib} {ST : Serde TxProof} {K : KvStore} {J : ContactJson}.

Abbreviation S_ A := (stM Session Error A).
Abbreviation SC A := (stM (Cell * Session) Error A).

(** More participants are announced than have taken part. *)
Definition incomplete (x : Slate) : bool := (length (participant_data x) <? num_participants x)%nat.

(** The statics [RECV_ACCOUNT] and [RECV_PASS]. *)
Record Statics : Type := { RECV_ACCOUNT : option str; RECV_PASS : option str }.

Section process.
Variable recv : Statics.

(** [if config.is_some() && RECV_ACCOUNT.is_some() { w.unlock(..)? }]. *)
Definition switch_account (config : option Wallet713Config) (account : Wallet713Config -> str -> str) : S_ () :=
  match config, RECV_ACCOUNT recv with
  | Some config, Some dst_account => unlock config (account config dst_account) (default [] (RECV_PASS recv))
  | _, _ => mret ()
  end.

(** The payment branch, on the account payments are received on. *)
Definition receive_payment (address : option str) (config : option Wallet713Config) (dest_acct_name : option str) : SC () :=
  w ← on_session get_wal;
  let old_account := active_account w in
  on_session (switch_account config (fun _ dst => dst)) ≫= fun _ =>
  let dest_acct_name := match config, RECV_ACCOUNT recv with Some _, Some dst => Some dst | _, _ => dest_acct_name end in
  process_sender_initiated_slate address None None dest_acct_name ≫= fun _ =>
  on_session (switch_account config (fun _ _ => old_account)).

Definition process_incoming_slate (address : option str) (config : option Wallet713Config) (dest_acct_name : option str) :
    SC bool :=
  x ← the_slate;
  if incomplete x then
    (if bool_decide (slate_inputs x = []) then process_receiver_initiated_slate address
     else receive_payment address config dest_acct_name) ≫= fun _ =>
    mret false
  else
    st_match finalize_slate mret (fun _ => finalize_invoice_slate) ≫= fun _ =>
    mret true.
End process.

(** The controller's world: the wallet, the publisher's state, the address
    book and the statics. *)
Record Ctl {N : Type} : Type := { ses : Session; net : N; book : Db; statics : Statics }.
Arguments Ctl : clear implicits.

Section handler.
Context {N : Type} {Pub : Publisher N}.
Variable name : str.
Abbreviation CM A := (stM (Ctl N) Error A).

Definition on_ses {A} (m : S_ A) : CM A := fun s =>
  let '(r, x) := m (ses s) in (r, {| ses := x; net := net s; book := book s; statics := statics s |}).
Definition on_net {A} (m : stM N Error A) : CM A := fun s =>
  let '(r, x) := m (net s) in (r, {| ses := ses s; net := x; book := book s; statics := statics s |}).
Definition message_line (line : str) : CM () := on_ses (print line).

(** [display_from]: the contact's name, or the address without its scheme. *)
Definition display_from (from : Address) : CM str := fun s =>
  match Address_stripped from with
  | Ok stripped =>
      (Ok (match fst (get_contact_by_address (Address_display from) (book s)) with
           | Ok contact => AddressBook.name contact
           | _ => stripped
           end), s)
  | Err e => (Err e, s)
  | Panic => (Panic, s)
  | Hang => (Hang, s)
  end.

(** The line about the slate; [participant_data[0]] can be out of range. *)
Definition announce (x : Slate) (from : str) : CM () :=
  let amount := amount_to_hr_string (slate_amount x) false in
  let intro := lit "slate [" ++ slate_id x ++ lit "] received " in
  if incomplete x then
    first ← st_lift (unwrap (head (participant_data x)));
    message_line (
      intro ++ lit "from [" ++ from ++ lit "] for [" ++ amount ++ lit "] MWCs." ++
      match first.2 with
      | Some message => lit " Message: [" ++ [chr 34] ++ message ++ [chr 34] ++ lit "]"
      | None => []
      end)
  else message_line (intro ++ lit "back from [" ++ from ++ lit "] for [" ++ amount ++ lit "] MWCs").

(** The processing of the slate in its cell, and the slate it leaves. *)
Definition process (address : option str) (x : Slate) (proof : option TxProof) (config : option Wallet713Config)
    (dest : option str) : CM (bool * Slate) := fun s =>
  match process_incoming_slate (statics s) address config dest ({| slate := x; tx_proof := proof |}, ses s) with
  | (r, (c, s')) =>
      ((b ← r; Ok (b, slate c)), {| ses := s'; net := net s; book := book s; statics := statics s |})
  end.

(** [GrinboxAddress::from_str(..).expect("invalid mwcmq address")]. *)
Definition check_from (from : Address) : result () :=
  match address_type from with
  | Grinbox => _ ← unwrap_result (GrinboxAddress_from_str (Address_display from)); Ok ()
  | _ => Ok ()
  end.

Definition Controller_on_slate (from : Address) (x : Slate) (proof : option TxProof) (config : option Wallet713Config) : CM () :=
  shown ← display_from from;
  announce x shown ≫= fun _ =>
  _ ← st_lift (check_from from);
  account ← on_ses (w ← get_wal; mret (active_account w));
  st_match (process (Some (Address_display from)) x proof config (Some account))
    (fun '(is_finalized, x) =>
       if is_finalized : bool then message_line (lit "slate [" ++ slate_id x ++ lit "] finalized successfully")
       else
         st_match (on_net (post_slate x from)) mret
           (fun e => message_line (lit "ERROR: " ++ Error_display e) ≫= fun _ => st_lift Panic) ≫= fun _ =>
         message_line (lit "slate [" ++ slate_id x ++ lit "] sent back to [" ++ shown ++ lit "] successfully"))
    (fun e => message_line (lit "Error: " ++ Error_display e)).

Definition Controller_on_open : CM () := message_line (lit "listener started for [" ++ name ++ lit "]").
Definition Controller_on_close (reason : CloseReason) : CM () :=
  message_line (match reason with
                | Normal => lit "listener [" ++ name ++ lit "] stopped"
                | Abnormal _ => lit "ERROR: listener [" ++ name ++ lit "] stopped unexpectedly"
                end).
Definition Controller_on_dropped : CM () :=
  message_line (lit "WARNING: listener [" ++ name ++ lit "] lost connection. it will keep trying to restore connection in the background.").
Definition Controller_on_reestablished : CM () :=
  message_line (lit "INFO: listener [" ++ name ++ lit "] reestablished connection.").

#[global] Instance Controller : SubscriptionHandler (Ctl N) := {|
  on_open := Controller_on_open;
  on_slate := Controller_on_slate;
  on_close := Controller_on_close;
  on_dropped := Controller_on_dropped;
  on_reestablished := Controller_on_reestablished;
|}.

(** ** What a slate does to the wallet and to the network *)

Definition said (line : str) (s : Session) : Session := {| wal := wal s; inst := snd (say line (inst s)) |}.

Lemma message_line_eq line s :
  message_line line s = (Ok (), {| ses := said line (ses s); net := net s; book := book s; statics := statics s |}).
Proof. destruct s as [[w i] n b st]. reflexivity. Qed.

Lemma announce_spec x shown s :
  (announce x shown s = (Panic, s) /\ incomplete x = true /\ participant_data x = []) \/
  ((incomplete x = true -> participant_data x <> []) /\ exists line, announce x shown s = message_line line s).
Proof.
  unfold announce. cbn zeta. destruct (incomplete x); [|right; eauto].
  destruct (participant_data x) as [|[k m] l]; [left; done|]. right. split; [done|].
  eexists. unfold mbind, stM_bind, st_lift. cbn. reflexivity.
Qed.

Lemma display_from_state from s : snd (display_from from s) = s.
Proof. unfold display_from. by destruct (Address_stripped from). Qed.
Lemma stripped_no_error from e : Address_stripped from <> Err e.
Proof.
  assert (Hs : forall (t : str) i e, @slice_from Error t i <> Err e) by (intros t i e'; unfold slice_from, slice; by destruct (_ && _)).
  destruct from; cbn; try done; apply Hs.
Qed.
End handler.

Lemma process_incoming_flag recv address config dest c s b cs :
  process_incoming_slate recv address config dest (c, s) = (Ok b, cs) -> b = negb (incomplete (slate c)).
Proof.
  unfold process_incoming_slate. unfold mbind at 1, stM_bind at 1. cbn [the_slate].
  destruct (incomplete (slate c)); unfold mbind, stM_bind.
  - match goal with |- context [(if ?q then ?f else ?g) ?z] => destruct ((if q then f else g) z) as [[[]| | |] cs'] end;
      try done. by intros [= <- _].
  - match goal with |- context [st_match ?m ?f ?g ?z] => destruct (st_match m f g z) as [[[]| | |] cs'] end; try done. by intros [= <- _].
Qed.

(** ** Receiving a payment *)

Lemma sender_slate_spec address key_id amounts dest c s :
  held (inst s) = false ->
  let '(r, (c', s')) := process_sender_initiated_slate address key_id amounts dest (c, s) in
  wal s' = wal s /\ held (inst s') = false /\ tx_proof c' = tx_proof c /\
  match r with
  | Ok _ => True
  | Err e => c' = c /\ (e = Kind NoWallet /\ is_locked (wal s) = true \/ e = Kind GrinWalletReceiveError)
  | Panic => c' = c
  | Hang => False
  end.
Proof.
  intros Hh. unfold process_sender_initiated_slate. unfold mbind at 1, stM_bind at 1. unfold on_session at 1.
  destruct (backend (wal s)) eqn:Hb.
  2: { rewrite gated_instance by done. split_and!; try done. left. unfold is_locked. by rewrite Hb. }
  assert (get_wallet_instance s = (Ok (), s)) as -> by (unfold get_wallet_instance, mbind, stM_bind, get_wal; by rewrite Hb).
  unfold mbind, stM_bind, the_slate. unfold st_map_err, on_session, on_instance.
  assert (well_behaved (receive_tx address (slate c) None key_id amounts dest)) as Hwb
    by (unfold receive_tx; lock_tac).
  specialize (Hwb (inst s) Hh). destruct (receive_tx _ _ _ _ _ _ (inst s)) as [r i]. destruct Hwb as (H1 & H2 & _).
  destruct r as [x|e| |]; cbn; split_and!; auto.
Qed.
End controller.

Arguments Ctl {L SL W D WL K} N : rename.

(** Whether the handler gets past the sender's address: it is shown without its
    scheme, and one of Grinbox is read again. *)
Definition legible {L : CryptoLib} {R : RegexEngine} {P : Platform} (from : Address) : bool :=
  is_ok (Address_stripped from) &&
  match address_type from with Grinbox => is_ok (GrinboxAddress_from_str (Address_display from)) | _ => true end.
Lemma wf_legible {L : CryptoLib} {Laws : CryptoLaws L} {R : RegexEngine} {RL : RegexLaws R} {P : Platform} from :
  Address_wf from -> legible from = true.
Proof.
  unfold legible. destruct from as [a|a|a|a]; cbn [Address_wf]; intros Hwf; try done.
  - by destruct (stripped_parse a Hwf) as [_ (t & H & _)]; cbn [Address_stripped]; rewrite H.
  - destruct (stripped_parse a Hwf) as [(t & H & _) _]. cbn [Address_stripped address_type Address_display]. rewrite H.
    cbn [is_ok andb].
    unfold GrinboxAddress_display, GrinboxAddress_from_str, GRINBOX_ADDRESS_REGEX. rewrite mq_display_tail.
    by rewrite mq_roundtrip by auto using scheme_ok_mwcmq.
Qed.

(** ** A publisher *)

Import Toy Backtrack ToyPlatform ToySerde ToyMessage ToySlate ToyWallet ToyLib ToyConfig ToyLife ToyProof ToyStore.

Module ToyNet.
Record toy_net : Type := { up : bool; sent : list (Slate * Address) }.
#[export] Instance publisher : Publisher toy_net := {|
  post_slate x to := fun n =>
    if up n then (Ok (), {| up := true; sent := sent n ++ [(x, to)] |}) else (fail (ClosedListener (lit "mwcmq")), n);
|}.
Definition toy_ctl (up : bool) (max : option Z) (st : Statics) : Ctl toy_net :=
  {| ses := open_session max; net := {| up := up; sent := [] |}; book := (∅ : gmap str str); statics := st |}.
End ToyNet.
Import ToyNet.

(** ** Properties *)

(** The receive account.  When payments are received on an account of
    their own, a received payment ends with the account that was active before
    active again.  An error on the way is [WalletUnlockFailed], or the wallet's
    refusal; when the wallet refuses the payment, or the second unlocking
    fails, the active account stays the receive account.  Without a receive
    account the wallet object never changes. *)
Theorem receiving_account {L : CryptoLib} {SL : SlateLib} {W : WalletData} {D : DerivationLib} {WL : WalletLib}
    {LC : LifeCycle} recv address config dest c (s : Session) :
  lockable s -> held (inst s) = false ->
  let '(r, (c', s')) := receive_payment recv address config dest (c, s) in
  let old := active_account (wal s) in
  r <> Hang /\
  match config, RECV_ACCOUNT recv with
  | Some cfg, Some dst =>
      match r with
      | Ok _ => active_account (wal s') = old /\ is_locked (wal s') = false /\ held (inst s') = false
      | Err e =>
          (e = Kind WalletUnlockFailed /\ c' = c /\ active_account (wal s') = old) \/
          (e = Kind GrinWalletReceiveError /\ c' = c /\ active_account (wal s') = dst /\ is_locked (wal s') = false) \/
          (e = Kind WalletUnlockFailed /\ active_account (wal s') = dst)
      | _ => True
      end
  | _, _ => wal s' = wal s
  end.
Proof.
  intros Hl Hh. unfold receive_payment. unfold mbind at 1, stM_bind at 1, on_session at 1, get_wal.
  unfold switch_account. destruct config as [cfg|]; [destruct (RECV_ACCOUNT recv) as [dst|]|].
  - cbn [fst snd]. unfold mbind at 1, stM_bind at 1, on_session at 1.
    pose proof (unlock_spec cfg dst (default [] (RECV_PASS recv)) s Hl) as H1.
    destruct (unlock cfg dst (default [] (RECV_PASS recv)) s) as [[[]|e| |] s1];
      [|split; [done|]; left; destruct H1 as (_ & H1 & H2 & _); auto | done | by destruct H1].
    destruct H1 as (_ & Ho1 & Ha1 & Hh1 & Hr1 & Hu1). unfold mbind at 1, stM_bind at 1.
    pose proof (sender_slate_spec address None None (Some dst) c s1 Hh1) as H2.
    destruct (process_sender_initiated_slate address None None (Some dst) (c, s1)) as [[[]|e| |] [c2 s2]];
      destruct H2 as (Hw & Hh2 & _ & H2); [|split; [done|]; right; left; rewrite Hw; destruct H2 as [-> [[-> Hx]| ->]]; [congruence | auto] | done..].
    assert (lockable s2) as Hl2.
    { split; [rewrite Hw, Hu1; by destruct (bool_decide _) | done]. }
    unfold on_session. pose proof (unlock_spec cfg (active_account (wal s)) (default [] (RECV_PASS recv)) s2 Hl2) as H3.
    destruct (unlock cfg _ _ s2) as [[[]|e| |] s3].
    + destruct H3 as (_ & ? & ? & ? & _). done.
    + destruct H3 as (_ & ? & H3 & _). split; [done|]. right; right. rewrite H3, Hw. done.
    + done.
    + by destruct H3.
  - cbn. unfold mbind, stM_bind, on_session, mret, stM_ret. pose proof (sender_slate_spec address None None dest c s Hh) as H2.
    destruct (process_sender_initiated_slate address None None dest (c, s)) as [[[]|e| |] [c2 s2]]; destruct H2 as (Hw & _ & _ & H2); done.
  - cbn. unfold mbind, stM_bind, on_session, mret, stM_ret. pose proof (sender_slate_spec address None None dest c s Hh) as H2.
    destruct (process_sender_initiated_slate address None None dest (c, s)) as [[[]|e| |] [c2 s2]]; destruct H2 as (Hw & _ & _ & H2); done.
Qed.

(** The account [savings] does not exist; [full] is refused by the library. *)
Definition recv_default : Statics := {| RECV_ACCOUNT := Some (lit "default"); RECV_PASS := Some (lit "pw") |}.
Definition two_of_one : Slate := a_slate.
Definition pay_cell : Cell := {| slate := two_of_one; tx_proof := None |}.

Lemma receiving_account_witness :
  exists c' s', receive_payment recv_default None (Some toy_config) None (pay_cell, open_session None) = (Ok (), (c', s')) /\
    active_account (wal s') = lit "default" /\ is_locked (wal s') = false.
Proof.
  assert (is_ok (fst (receive_payment recv_default None (Some toy_config) None (pay_cell, open_session None))) = true) as H
    by (vm_compute; reflexivity).
  pose proof (receiving_account recv_default None (Some toy_config) None pay_cell (open_session None)
    (open_lockable None) eq_refl) as T.
  destruct (receive_payment recv_default None (Some toy_config) None (pay_cell, open_session None)) as [[[]|e| |] [c' s']];
    [|discriminate H..].
  destruct T as (_ & T1 & T2 & _). exists c', s'. split; [reflexivity|]. split; [exact T1 | exact T2].
Defined.

(** C38: handling a slate.  The handler never reports an error.  If the sender's
    address can be shown and read, as every well-formed one can, it panics before
    anything only on a slate that announces participants but has no data of any;
    every other slate it gives to the wallet, with or without a message.  An
    incomplete slate the wallet treats is answered by exactly one message, the
    slate the wallet made of it, to where it came from; if that cannot be sent the
    listener panics, with the wallet's side of the transaction done.  A complete
    slate is finalized and nothing is sent.  If the wallet refuses the slate
    nothing is sent either, and the handler returns all the same. *)
Theorem on_slate_correct {L : CryptoLib} {Laws : CryptoLaws L} {R : RegexEngine} {RL : RegexLaws R} {P : Platform} {SL : SlateLib} {W : WalletData} {D : DerivationLib}
    {WL : WalletLib} {LC : LifeCycle} {PL : ProofLib} {ST : Serde TxProof} {K : KvStore} {J : ContactJson}
    {N : Type} {Pub : Publisher N} from x proof config (s : Ctl N) :
  let '(r, s') := Controller_on_slate from x proof config s in
  (forall e, r <> Err e) /\ book s' = book s /\ statics s' = statics s /\
  (Address_wf from -> legible from = true) /\
  if negb (legible from) then r <> Ok () /\ net s' = net s /\ wal (ses s') = wal (ses s)
  else if incomplete x && bool_decide (participant_data x = []) then r = Panic /\ s' = s
  else exists line, let start := said line (ses s) in
    match process_incoming_slate (statics s) (Some (Address_display from)) config (Some (active_account (wal (ses s))))
            ({| slate := x; tx_proof := proof |}, start) with
    | (Ok true, (c, s1)) => incomplete x = false /\ r = Ok () /\ net s' = net s /\ wal (ses s') = wal s1
    | (Ok false, (c, s1)) =>
        incomplete x = true /\ wal (ses s') = wal s1 /\
        match post_slate (slate c) from (net s) with
        | (Ok _, n) => r = Ok () /\ net s' = n
        | (Hang, n) => r = Hang /\ net s' = n
        | (_, n) => r = Panic /\ net s' = n
        end
    | (Err e, (c, s1)) => r = Ok () /\ net s' = net s /\ wal (ses s') = wal s1
    | (Panic, (c, s1)) => r = Panic /\ net s' = net s /\ wal (ses s') = wal s1
    | (Hang, (c, s1)) => r = Hang /\ net s' = net s /\ wal (ses s') = wal s1
    end.
Proof.
  pose proof (wf_legible from) as Hwf. unfold legible in *.
  unfold Controller_on_slate. unfold mbind at 1, stM_bind at 1. pose proof (display_from_state from s) as Hd.
  pose proof (stripped_no_error from) as Hne.
  destruct (display_from from s) as [rd sd] eqn:Hdf. cbn in Hd. subst sd. unfold display_from in Hdf.
  destruct (Address_stripped from) as [txt|e| |]; injection Hdf as <-; cbn [is_ok andb negb] in *;
    [|by destruct (Hne e)|split_and!; done..].
  unfold mbind at 1, stM_bind at 1.
  match goal with |- context [announce x ?sh s] => destruct (announce_spec x sh s) as [(Ha & Hi & Hp)|(Hnp & line & Ha)]; rewrite Ha end.
  { rewrite Hi, (bool_decide_eq_true_2 _ Hp). cbn [andb]. split_and!; try done. by destruct (negb _). }
  rewrite message_line_eq. unfold mbind at 1, stM_bind at 1, st_lift at 1.
  assert (incomplete x && bool_decide (participant_data x = []) = false) as ->.
  { destruct (incomplete x); [|done]. apply bool_decide_eq_false_2. by apply Hnp. }
  assert (match check_from from with
    | Ok _ => match address_type from with Grinbox => is_ok (GrinboxAddress_from_str (Address_display from)) | _ => true end = true
    | Err _ => False
    | _ => match address_type from with Grinbox => is_ok (GrinboxAddress_from_str (Address_display from)) | _ => true end = false end) as Hg.
  { unfold check_from. destruct from; cbn; try done. by destruct (GrinboxAddress_from_str _). }
  destruct (check_from from) as [[]|e| |]; [|done|rewrite Hg in *; split_and!; done..]. rewrite Hg in *. cbn [negb] in *.
  unfold mbind at 1, stM_bind at 1, on_ses at 1, get_wal, mbind at 1, stM_bind at 1. cbn [ses net book statics wal said mret stM_ret].
  unfold st_match at 1, process at 1. cbn [ses net book statics].
  destruct (process_incoming_slate _ _ _ _ _) as [rp [c s1]] eqn:Hproc. cbn [fst snd].
  destruct rp as [b|e| |]; cbn [mbind outcome_bind].
  - pose proof (process_incoming_flag _ _ _ _ _ _ _ _ Hproc) as Hb. cbn [slate] in Hb.
    assert (Hinc : incomplete x = negb b) by (by rewrite Hb, negb_involutive). destruct b; cbn [negb] in Hinc.
    + rewrite message_line_eq. cbn [ses net book statics]. split_and!; try done.
      exists line. cbn zeta. rewrite Hproc. done.
    + unfold mbind, stM_bind, st_match, on_net. cbn [ses net book statics].
      destruct (post_slate (slate c) from (net s)) as [[[]|e| |] n] eqn:Hpost; cbn; rewrite ?message_line_eq;
        cbn [ses net book statics wal said];
        (split_and!; [done..|]; exists line; cbn zeta; rewrite Hproc; split_and!; [done|done|by rewrite Hpost]).
  - rewrite message_line_eq. cbn [ses net book statics]. split_and!; try done. exists line. cbn zeta. by rewrite Hproc.
  - split_and!; try done. exists line. cbn zeta. by rewrite Hproc.
  - split_and!; try done. exists line. cbn zeta. by rewrite Hproc.
Qed.

(** A slate without a message, one without any data, from a well-formed address. *)
Definition sender_address : Address := AMWCMQS toy_dest.
Definition no_recv : Statics := {| RECV_ACCOUNT := None; RECV_PASS := None |}.
Definition incoming (data : list (str * option str)) : Slate :=
  {| ts_id := lit "0001"; ts_amount := 5; ts_fee := 1; ts_participants := 2; ts_data := data |}.
Lemma on_slate_correct_witness :
  (let '(r, s') := Controller_on_slate sender_address (incoming [(lit "k", None)]) None None (toy_ctl true (Some 5) no_recv) in
   r = Ok () /\ statics s' = no_recv /\ (fun p => snd p) <$> sent (net s') = [sender_address]) /\
  Controller_on_slate sender_address (incoming []) None None (toy_ctl true None no_recv) = (Panic, toy_ctl true None no_recv).
Proof.
  split.
  - pose proof (on_slate_correct sender_address (incoming [(lit "k", None)]) None None (toy_ctl true (Some 5) no_recv)) as T.
    assert (is_ok (fst (Controller_on_slate sender_address (incoming [(lit "k", None)]) None None (toy_ctl true (Some 5) no_recv))) = true) as Hr
      by (vm_compute; reflexivity).
    assert ((fun p => snd p) <$> sent (net (snd (Controller_on_slate sender_address (incoming [(lit "k", None)]) None None (toy_ctl true (Some 5) no_recv)))) = [sender_address]) as Hs
      by (vm_compute; reflexivity).
    destruct (Controller_on_slate sender_address (incoming [(lit "k", None)]) None None (toy_ctl true (Some 5) no_recv)) as [[[]|e| |] s']; [|discriminate Hr..].
    destruct T as (_ & _ & T & _). split; [reflexivity|]. split; [exact T|exact Hs].
  - pose proof (on_slate_correct sender_address (incoming []) None None (toy_ctl true None no_recv)) as T.
    assert (negb (legible sender_address) = false) as Hl by (vm_compute; reflexivity).
    destruct (Controller_on_slate sender_address (incoming []) None None (toy_ctl true None no_recv)) as [r s'].
    destruct T as (_ & _ & _ & _ & T). rewrite Hl in T. destruct T as [-> ->]. reflexivity.
Defined.
