(* ===== verification/Json.v ===== *)
(** * JSON values

    [serde_json::Value], its indexing and the comparisons the program makes
    with it.  Texts of values are the class [JsonText]. *)

From S2P Require Import Prelude Str Errors.

(** An object keeps its members by key; a number is an integer here. *)
Inductive Value : Type :=
| VNull
| VBool (b : bool)
| VNumber (n : Z)
| VString (s : str)
| VArray (l : list Value)
| VObject (members : list (str * Value)).

(** [v["key"]] and [v[i]] of a value that is not changed: [Null] when there is
    no such member. *)
Definition member (k : str) (v : Value) : Value :=
  match v with
  | VObject ms => match list_find (fun m => m.1 = k) ms with Some (_, m) => m.2 | None => VNull end
  | _ => VNull
  end.
Definition item (i : nat) (v : Value) : Value :=
  match v with VArray l => default VNull (l !! i) | _ => VNull end.
Fixpoint members (ks : list str) (v : Value) : Value :=
  match ks with [] => v | k :: ks => members ks (member k v) end.

Definition as_str (v : Value) : option str := match v with VString s => Some s | _ => None end.
Definition as_array (v : Value) : option (list Value) := match v with VArray l => Some l | _ => None end.
(** [v == "text"], [v == true] and [v == json!(null)]. *)
Definition is_text (s : str) (v : Value) : bool := match v with VString t => bool_decide (t = s) | _ => false end.
Definition is_true (v : Value) : bool := match v with VBool b => b | _ => false end.
Definition is_null (v : Value) : bool := match v with VNull => true | _ => false end.

Class JsonText : Type := {
  value_of_text : str -> option Value;     (* [serde_json::from_str] *)
  text_of_value : Value -> option str;     (* [serde_json::to_string] *)
}.
Class JsonTextLaws (J : JsonText) : Prop := json_text_roundtrip v t : text_of_value v = Some t -> value_of_text t = Some v.

Lemma member_here k v ms : member k (VObject ((k, v) :: ms)) = v.
Proof. unfold member. cbn. by rewrite decide_True. Qed.
Lemma member_skip k k' v ms : k' <> k -> member k (VObject ((k', v) :: ms)) = member k (VObject ms).
Proof. intros H. unfold member. cbn. rewrite decide_False by done. by destruct (list_find _ ms) as [[? ?]|]. Qed.

(** [v["key"] = x] on an object that has no such member yet. *)
Definition add_member (k : str) (x v : Value) : Value :=
  match v with VObject ms => VObject (ms ++ [(k, x)]) | _ => v end.
(** A literal: [json!({..})]. *)
Definition object (ms : list (string * Value)) : Value := VObject (map (fun m => (lit m.1, m.2)) ms).
Definition jtext (s : string) : Value := VString (lit s).

(** A text for every value: its tree, as the binary digits of its code. *)
Module ToyJson.
Definition leaf : Type := Z + bool + str.
Fixpoint to_tree (v : Value) : gen_tree leaf :=
  match v with
  | VNull => GenNode 0 []
  | VBool b => GenLeaf (inl (inr b))
  | VNumber n => GenLeaf (inl (inl n))
  | VString s => GenLeaf (inr s)
  | VArray l => GenNode 1 (map to_tree l)
  | VObject ms => GenNode 2 (map (fun m => GenNode 0 [GenLeaf (inr m.1); to_tree m.2]) ms)
  end.
Fixpoint of_tree (t : gen_tree leaf) : Value :=
  match t with
  | GenLeaf (inl (inr b)) => VBool b
  | GenLeaf (inl (inl n)) => VNumber n
  | GenLeaf (inr s) => VString s
  | GenNode 1 l => VArray (map of_tree l)
  | GenNode 2 l => VObject (map (fun m => match m with GenNode _ [GenLeaf (inr k); t] => (k, of_tree t) | _ => ([], VNull) end) l)
  | GenNode _ _ => VNull
  end.
Fixpoint of_to_tree (v : Value) : of_tree (to_tree v) = v.
Proof.
  destruct v as [|b|n|s|l|ms]; cbn; [done..| |]; f_equal.
  - induction l as [|v l IH]; cbn; [done|]. by rewrite of_to_tree, IH.
  - induction ms as [|[k v] ms IH]; cbn; [done|]. by rewrite of_to_tree, IH.
Qed.

Fixpoint digits (p : positive) : str :=
  match p with xH => [] | xO p => "0"%char :: digits p | xI p => "1"%char :: digits p end.
Fixpoint of_digits (s : str) : positive :=
  match s with [] => xH | c :: s => if Ascii.eqb c "0" then xO (of_digits s) else xI (of_digits s) end.
Lemma of_digits_digits p : of_digits (digits p) = p.
Proof. induction p as [p IH|p IH|]; cbn; by rewrite ?IH. Qed.

#[export] Instance texts : JsonText := {|
  text_of_value v := Some (digits (encode (to_tree v)));
  value_of_text s := of_tree <$> decode (of_digits s);
|}.
#[export] Instance texts_laws : JsonTextLaws texts.
Proof. intros v t [= <-]. cbn. rewrite of_digits_digits, decode_encode. cbn. by rewrite of_to_tree. Qed.
End ToyJson.
