(* ===== verification/Keybase.v ===== *)
(** * The Keybase broker

    [broker/keybase.rs]: slates as chat messages, sent and read by running the
    Keybase client with a request in JSON.  What the client answers is a
    parameter with a state of its own. *)

From S2P Require Import Prelude Str Errors Regex Crypto Address TxProof Config Broker Json.
Local Open Scope Z_scope.

Definition TOPIC_SLATE_NEW : str := lit "grin_slate_new".
Definition TOPIC_WALLET713_SLATES : str := lit "wallet713_grin_slate".
Definition TOPIC_SLATE_SIGNED : str := lit "grin_slate_signed".
Definition SLEEP_DURATION : Z := 5000.

(** The world of the client: whether a path exists, the exit status of [which]
    or [where], what [keybase chat api -m <request>] prints (an error: it cannot
    be started), and the order in which a [HashSet] is walked through. *)
Class KeybaseCli (K : Type) : Type := {
  path_exists : K -> str -> bool;
  locate : str -> str -> stM K Error bool;
  chat_api : str -> str -> stM K Error str;
  hash_order : K -> list (str * str) -> list (str * str);
}.
Class KeybaseLaws {K : Type} (C : KeybaseCli K) : Prop := hash_order_perm k l : hash_order k l ≡ₚ l.

(** ** The client *)

Section broker.
Context {SL : SlateLib} {P : Platform} {JT : JsonText} {K : Type} {C : KeybaseCli K}.
Abbreviation KM A := (stM K Error A).

Definition KeybaseBroker_new (keybase_binary : option str) : KM () :=
  match windows, keybase_binary with
  | true, Some binary => fun k => if path_exists k binary then (Ok (), k) else (fail KeybaseNotFound, k)
  | _, _ =>
      success ← locate (if windows then lit "where" else lit "which") (default (lit "keybase") keybase_binary);
      if success : bool then mret () else st_err (Kind KeybaseNotFound)
  end.

Definition json_or {A} (o : option A) : KM A := st_lift (ok_or (External (lit "json")) o).

Definition api_send (keybase_binary : option str) (payload : str) : KM Value :=
  output ← st_match (chat_api (default (lit "keybase") keybase_binary) payload) mret (fun _ => st_lift Panic);
  if utf8_valid output then json_or (value_of_text output) else st_err (External (lit "utf8")).

Definition request (method : string) (options : Value) : Value :=
  object [("method"%string, jtext method); ("params"%string, object [("options"%string, options)])].

(** *** Reading *)

Definition read_options (channel topic : str) : Value :=
  object [("channel"%string, object [("name"%string, VString channel); ("topic_type"%string, jtext "dev"); ("topic_name"%string, VString topic)]);
          ("unread_only"%string, VBool true); ("peek"%string, VBool false)].
(** The text and its sender of an unread message with a text. *)
Definition unread_text (msg : Value) : option (str * str) :=
  if is_text (lit "text") (members [lit "msg"; lit "content"; lit "type"] msg) && is_true (members [lit "msg"; lit "unread"] msg) then
    let message := default [] (as_str (members [lit "msg"; lit "content"; lit "text"; lit "body"] msg)) in
    let sender := default [] (as_str (members [lit "msg"; lit "sender"; lit "username"] msg)) in
    if bool_decide (message <> []) && bool_decide (sender <> []) then Some (sender, message) else None
  else None.
Definition read_from_channel (channel topic : str) (keybase_binary : option str) : KM (list (str * str * str)) :=
  payload ← json_or (text_of_value (request "read" (read_options channel topic)));
  response ← api_send keybase_binary payload;
  mret ((fun m => (m.1, topic, m.2)) <$> omap unread_text (default [] (as_array (members [lit "result"; lit "messages"] response)))).

(** The channel and topic of a conversation with something unread. *)
Definition unread_channel (topics : list str) (msg : Value) : result (option (str * str)) :=
  topic ← unwrap (as_str (members [lit "channel"; lit "topic_name"] msg));
  if is_true (member (lit "unread") msg) && bool_decide (topic ∈ topics) then
    channel ← unwrap (as_str (members [lit "channel"; lit "name"] msg)); Ok (Some (channel, topic))
  else Ok None.
Fixpoint unread_channels (topics : list str) (msgs : list Value) : result (list (str * str)) :=
  match msgs with
  | [] => Ok []
  | msg :: msgs =>
      c ← unread_channel topics msg;
      cs ← unread_channels topics msgs;
      Ok (match c with Some c => if bool_decide (c ∈ cs) then cs else c :: cs | None => cs end)
  end.
Fixpoint read_channels (keybase_binary : option str) (channels : list (str * str)) : KM (list (str * str * str)) :=
  match channels with
  | [] => mret []
  | (channel, topic) :: channels =>
      messages ← read_from_channel channel topic keybase_binary;
      unread ← read_channels keybase_binary channels;
      mret (messages ++ unread)
  end.
Definition get_unread (keybase_binary : option str) (topics : list str) : KM (list (str * str * str)) :=
  payload ← json_or (text_of_value (request "list" (object [("topic_type"%string, jtext "dev")])));
  response ← api_send keybase_binary payload;
  channels ← st_lift (unread_channels topics (default [] (as_array (members [lit "result"; lit "conversations"] response))));
  k ← st_get;
  read_channels keybase_binary (hash_order k channels).

(** *** Sending *)

Definition send_options (channel topic body : str) (ttl : option str) : Value :=
  let options := object
    [("channel"%string, object [("name"%string, VString channel); ("topic_name"%string, VString topic); ("topic_type"%string, jtext "dev")]);
     ("message"%string, object [("body"%string, VString body)])] in
  match ttl with Some ttl => add_member (lit "exploding_lifetime") (VString ttl) options | None => options end.
Definition send (message : Slate) (channel topic : str) (ttl keybase_binary : option str) : KM () :=
  body ← json_or (slate_to_json message);
  payload ← json_or (text_of_value (request "send" (send_options channel topic body ttl)));
  response ← api_send keybase_binary payload;
  if is_text (lit "message sent") (members [lit "result"; lit "message"] response) then mret ()
  else st_err (Kind KeybaseMessageSendError).

Record KeybasePublisher : Type := { ttl : option str; keybase_binary : option str }.
Definition KeybasePublisher_new (ttl keybase_binary : option str) : KM KeybasePublisher :=
  KeybaseBroker_new keybase_binary ≫= fun _ => mret {| ttl := ttl; keybase_binary := keybase_binary |}.
End broker.

Section publisher.
Context {L : CryptoLib} {R : RegexEngine} {SL : SlateLib} {P : Platform} {JT : JsonText} {K : Type} {C : KeybaseCli K}.

Definition KeybasePublisher_post_slate (self : KeybasePublisher) (x : Slate) (to : Address) : stM K Error () :=
  keybase_address ← st_lift (KeybaseAddress_from_str (Address_display to));
  let ttl := if bool_decide (username keybase_address = lit "wallet713") then None else ttl self in
  let topic := default TOPIC_WALLET713_SLATES (topic keybase_address) in
  channel ← st_lift (Address_stripped to);
  send x channel topic ttl (keybase_binary self).
End publisher.

(** ** The listener *)

(** What its threads share, the client's world and the handler's state. *)
Record Keybase {K S : Type} : Type := {
  stop_signal : bool;
  cli : K;
  slept : list Z;              (* milliseconds *)
  hs : S;
}.
Arguments Keybase : clear implicits.

Section listener.
Context {L : CryptoLib} {R : RegexEngine} {SL : SlateLib} {P : Platform} {JT : JsonText} {K : Type} {C : KeybaseCli K}
  {S : Type} {H : SubscriptionHandler S}.
Abbreviation BM A := (stM (Keybase K S) Error A).

Definition set_stop (b : bool) (g : Keybase K S) : Keybase K S :=
  {| stop_signal := b; cli := cli g; slept := slept g; hs := hs g |}.
Definition set_cli (k : K) (g : Keybase K S) : Keybase K S :=
  {| stop_signal := stop_signal g; cli := k; slept := slept g; hs := hs g |}.
Definition add_sleep (ms : Z) (g : Keybase K S) : Keybase K S :=
  {| stop_signal := stop_signal g; cli := cli g; slept := slept g ++ [ms]; hs := hs g |}.
Definition set_hs (h : S) (g : Keybase K S) : Keybase K S :=
  {| stop_signal := stop_signal g; cli := cli g; slept := slept g; hs := h |}.
Definition on_cli {A} (m : stM K Error A) : BM A := fun g => let '(r, k) := m (cli g) in (r, set_cli k g).
Definition handler_call {A} (m : stM S Error A) : BM A := fun g => let '(r, h) := m (hs g) in (r, set_hs h g).

Definition stop : BM bool := st_modify (set_stop true) ≫= fun _ => mret true.
Definition is_running : BM bool := fun g => (Ok (negb (stop_signal g)), g).

(** [dyn SubscriptionHandler]: no method returns an error. *)
Definition deliver (m : str * str * str) : BM () :=
  let '(sender, topic, msg) := m in
  let reply_topic := if bool_decide (topic = TOPIC_SLATE_NEW) then TOPIC_SLATE_SIGNED else TOPIC_WALLET713_SLATES in
  x ← st_lift (ok_or (External (lit "json")) (deserialize_upgrade msg));
  handler_call (on_slate (AKeybase {| username := sender; topic := Some reply_topic |}) x None None).
Fixpoint deliver_all (unread : list (str * str * str)) : BM () :=
  match unread with [] => mret () | m :: unread => deliver m ≫= fun _ => deliver_all unread end.

Definition listened_topics : list str := [TOPIC_WALLET713_SLATES; TOPIC_SLATE_NEW; TOPIC_SLATE_SIGNED].
Definition when_ (b : bool) (m : BM ()) : BM () := if b then m else mret ().

(** Whether the loop goes on, with the two flags, or is left with a result. *)
Inductive Next : Type := Go (subscribed dropped : bool) | Leave (r : option ErrorKind).
(** What another thread has stored in the flag meanwhile. *)
Definition outside (before : option bool) : BM () :=
  match before with Some b => st_modify (set_stop b) | None => mret () end.
Definition round (keybase_binary : option str) (before : option bool) (subscribed dropped : bool) : BM Next :=
  outside before ≫= fun _ =>
  stopped ← (fun g => (Ok (stop_signal g), g));
  if stopped : bool then mret (Leave None)
  else
    st_match (on_cli (get_unread keybase_binary listened_topics))
      (fun unread =>
         when_ (negb subscribed) (handler_call on_open) ≫= fun _ =>
         when_ dropped (handler_call on_reestablished) ≫= fun _ =>
         deliver_all unread ≫= fun _ =>
         st_modify (add_sleep SLEEP_DURATION) ≫= fun _ => mret (Go true false))
      (fun _ =>
         if dropped then st_modify (add_sleep SLEEP_DURATION) ≫= fun _ => mret (Go subscribed true)
         else if subscribed then
           handler_call on_dropped ≫= fun _ => st_modify (add_sleep SLEEP_DURATION) ≫= fun _ => mret (Go subscribed true)
         else mret (Leave (Some KeybaseNotFound))).

(** The loop over its rounds; [Hang] when it still listens after the last. *)
Fixpoint listen (keybase_binary : option str) (rounds : list (option bool)) (subscribed dropped : bool) : BM (option ErrorKind) :=
  match rounds with
  | [] => st_lift Hang
  | t :: rounds =>
      n ← round keybase_binary t subscribed dropped;
      match n with
      | Go subscribed dropped => listen keybase_binary rounds subscribed dropped
      | Leave r => mret r
      end
  end.

(** [start]; the [?] behind a message that is not a slate leaves it too. *)
Definition start (keybase_binary : option str) (rounds : list (option bool)) : BM () :=
  st_modify (set_stop false) ≫= fun _ =>
  result ← listen keybase_binary rounds false false;
  match result with
  | Some e => handler_call (on_close (Abnormal (Kind e)))
  | None => handler_call (on_close Normal)
  end.
End listener.

(** ** The life of the listener *)

Section life.
Context {L : CryptoLib} {R : RegexEngine} {SL : SlateLib} {P : Platform} {JT : JsonText} {K : Type} {C : KeybaseCli K}.
Abbreviation G := (Keybase K (list Call)).

(** The phase the two flags of the loop stand for. *)
Definition flags_phase (subscribed dropped : bool) : Phase :=
  if dropped then Down else if subscribed then Up else Fresh.
Definition sound (subscribed dropped : bool) (g : G) : Prop :=
  run_phase Fresh (hs g) = Some (flags_phase subscribed dropped) /\ (dropped = true -> subscribed = true) /\
  (subscribed = false -> hs g = []).
(** Left by the [?] behind a message that is not a slate: opened, not closed,
    and not stopped either. *)
Definition abandoned (e : Error) (g : G) : Prop :=
  run_phase Fresh (hs g) = Some Up /\ stop_signal g = false /\ e = External (lit "json").
Definition panicked (g : G) : Prop := exists p, run_phase Fresh (hs g) = Some p /\ p <> Closed.

Lemma deliver_all_spec unread : forall g : G, run_phase Fresh (hs g) = Some Up ->
  let '(r, g') := deliver_all unread g in
  run_phase Fresh (hs g') = Some Up /\ stop_signal g' = stop_signal g /\ cli g' = cli g /\
  match r with Ok _ => True | Err e => e = External (lit "json") | _ => False end.
Proof.
  induction unread as [|[[u topic] msg] unread IH]; intros g Hg; [done|].
  cbn [deliver_all]. unfold mbind, stM_bind, deliver, mbind, stM_bind, st_lift.
  destruct (deserialize_upgrade msg) as [x|]; cbn; [|done].
  match goal with |- context [deliver_all unread ?s] => specialize (IH s) end.
  cbn in IH. rewrite (run_phase_snoc _ _ _ _ Hg) in IH. specialize (IH eq_refl).
  destruct (deliver_all unread _) as [r g']. exact IH.
Qed.

Lemma round_spec bin before sub drop (g : G) : sound sub drop g ->
  let '(r, g') := round bin before sub drop g in
  match r with
  | Ok (Go sub' drop') => sound sub' drop' g'
  | Ok (Leave None) => hs g' = hs g /\ stop_signal g' = true /\ cli g' = cli g
  | Ok (Leave (Some e)) => e = KeybaseNotFound /\ hs g' = [] /\ stop_signal g' = false
  | Err e => abandoned e g'
  | _ => panicked g'
  end.
Proof.
  intros (Hp & Hd & Hf).
  assert (exists g1, outside before g = (Ok (), g1) /\ hs g1 = hs g /\ cli g1 = cli g)
    as (g1 & Hb & Hh & Hc) by (destruct before; eexists; done).
  unfold round, mbind, stM_bind. rewrite Hb. destruct (stop_signal g1) eqn:Hs; [done|].
  unfold st_match, on_cli. destruct (get_unread bin listened_topics (cli g1)) as [[unread|e| |] k].
  - (* opened or reestablished, then the messages *)
    assert (exists g2, (when_ (negb sub) (handler_call on_open) ≫= fun _ : () => when_ drop (handler_call on_reestablished)) (set_cli k g1) = (Ok (), g2)
      /\ run_phase Fresh (hs g2) = Some Up /\ stop_signal g2 = false) as (g2 & H2 & Hp2 & Hs2).
    { destruct sub, drop; try (by rewrite Hd in Hf by done); try (specialize (Hd eq_refl); done); eexists; (split; [reflexivity|]); split; try done; cbn;
        rewrite Hh, ?(run_phase_snoc _ _ _ _ Hp); done. }
    unfold mbind, stM_bind in H2. cbn [mbind stM_bind].
    destruct (when_ (negb sub) (handler_call on_open) (set_cli k g1)) as [[[]|e| |] g2'] eqn:E2; [|discriminate H2..].
    rewrite H2. pose proof (deliver_all_spec unread g2 Hp2) as Hdel. destruct (deliver_all unread g2) as [[[]|e| |] g3];
      destruct Hdel as (Hp3 & Hs3 & _ & Hr); [|by rewrite Hs2 in Hs3|done..]. done.
  - cbn [hs set_cli]. destruct drop; [cbn; unfold sound; cbn; rewrite Hh; done|]. destruct sub.
    + cbn. split_and!; [|done..]. cbn. by rewrite Hh, (run_phase_snoc _ _ _ _ Hp).
    + cbn. rewrite Hh. by rewrite (Hf eq_refl).
  - exists (flags_phase sub drop). cbn. rewrite Hh. split; [done|]. by destruct sub, drop.
  - exists (flags_phase sub drop). cbn. rewrite Hh. split; [done|]. by destruct sub, drop.
Qed.

(** What the handler is told of a message that is a slate. *)
Definition heard (m : str * str * str) (c : Call) : Prop :=
  exists x, deserialize_upgrade m.2 = Some x /\
    c = CSlate (AKeybase {| username := m.1.1;
                            topic := Some (if bool_decide (m.1.2 = lit "grin_slate_new") then lit "grin_slate_signed" else lit "wallet713_grin_slate") |}) x None.
(** ... and before the messages. *)
Definition opening (subscribed dropped : bool) : list Call :=
  (if subscribed then [] else [COpen]) ++ (if dropped then [CReestablished] else []).

Lemma deliver_heard m c (g : G) : heard m c -> deliver m g = (Ok (), set_hs (hs g ++ [c]) g).
Proof.
  intros (x & Hx & ->). destruct m as [[sender topic] msg]. cbn [fst snd] in *. unfold deliver, mbind, stM_bind, st_lift. by rewrite Hx.
Qed.
Lemma deliver_unheard m (g : G) : deserialize_upgrade m.2 = None -> deliver m g = (Err (External (lit "json")), g).
Proof. intros Hx. destruct m as [[sender topic] msg]. cbn [fst snd] in *. unfold deliver, mbind, stM_bind, st_lift. by rewrite Hx. Qed.
Lemma deliver_heard_all unread calls : Forall2 heard unread calls -> forall rest (g : G),
  deliver_all (unread ++ rest) g = deliver_all rest (set_hs (hs g ++ calls) g).
Proof.
  induction 1 as [|m c unread calls Hm _ IH]; intros rest g; cbn [app deliver_all].
  - rewrite app_nil_r. by destruct g.
  - unfold mbind, stM_bind. rewrite (deliver_heard _ _ _ Hm), IH. cbn [hs set_hs]. by rewrite <- app_assoc.
Qed.
(** A round in which the client answers: the messages are delivered in order, up
    to the first that is not a slate, which ends the listener. *)
Lemma round_answered bin sub drop (g : G) unread k : stop_signal g = false ->
  get_unread bin listened_topics (cli g) = (Ok unread, k) ->
  round bin None sub drop g =
    let '(r, g') := deliver_all unread (set_hs (hs g ++ opening sub drop) (set_cli k g)) in
    match r with Ok _ => (Ok (Go true false), add_sleep 5000 g') | Err e => (Err e, g') | Panic => (Panic, g') | Hang => (Hang, g') end.
Proof.
  intros Hs Hu. unfold round, outside, mbind, stM_bind. cbn [mret stM_ret]. rewrite Hs. unfold st_match, on_cli. rewrite Hu.
  assert (forall b (c : Call) (m : stM (list Call) Error ()) (g0 : G), m = st_modify (fun t => t ++ [c]) ->
    when_ b (handler_call m) g0 = (Ok (), set_hs (hs g0 ++ if b then [c] else []) g0)) as Hw.
  { intros b c m [st c0 sl h] ->. destruct b; cbn; by rewrite ?app_nil_r. }
  rewrite (Hw _ COpen), (Hw _ CReestablished) by done. cbn [hs set_hs set_cli].
  replace ((hs g ++ if negb sub then [COpen] else []) ++ if drop then [CReestablished] else []) with (hs g ++ opening sub drop)
    by (unfold opening; rewrite <- app_assoc; by destruct sub).
  change (set_hs (hs g ++ opening sub drop) (set_hs ?x ?y)) with (set_hs (hs g ++ opening sub drop) y).
  by destruct (deliver_all unread _) as [[[]|e| |] g'].
Qed.

Lemma keybase_listen_spec bin rounds : forall sub drop (g : G), sound sub drop g ->
  let '(r, g') := listen bin rounds sub drop g in
  match r with
  | Ok None => (exists p, run_phase Fresh (hs g') = Some p /\ p <> Closed) /\ stop_signal g' = true
  | Ok (Some e) => e = KeybaseNotFound /\ hs g' = [] /\ stop_signal g' = false
  | Err e => abandoned e g'
  | _ => panicked g'
  end.
Proof.
  induction rounds as [|t rounds IH]; intros sub drop g Hg.
  { cbn. exists (flags_phase sub drop). split; [apply Hg|]. by destruct sub, drop. }
  cbn [listen]. unfold mbind, stM_bind. pose proof (round_spec bin t sub drop g Hg) as Hr.
  destruct (round bin t sub drop g) as [[[sub' drop'|[e|]]|e| |] g1]; [by apply IH|done| |done..].
  destruct Hr as (Hh & Hs & _). split; [|done]. exists (flags_phase sub drop). rewrite Hh. split; [apply Hg|]. by destruct sub, drop.
Qed.
End life.

Section unread.
Context {SL : SlateLib} {P : Platform} {JT : JsonText} {K : Type} {C : KeybaseCli K}.

(** [m] always comes back. *)
Definition ends {S A} (m : stM S Error A) : Prop := forall s, fst (m s) <> Hang.
Lemma ends_bind {S A B} (m : stM S Error A) (f : A -> stM S Error B) : ends m -> (forall a, ends (f a)) -> ends (m ≫= f).
Proof.
  intros Hm Hf s. unfold mbind, stM_bind. specialize (Hm s). destruct (m s) as [[a|e| |] s1]; cbn in Hm |- *; [apply Hf|done..].
Qed.
Lemma ends_lift {S A} (r : result A) : r <> Hang -> ends (S := S) (st_lift r).
Proof. intros H s. done. Qed.
Lemma ends_ok_or {S A} e (o : option A) : ends (S := S) (st_lift (ok_or e o)).
Proof. apply ends_lift. by destruct o. Qed.
Lemma ends_ret {S A} (a : A) : ends (S := S) (mret a).
Proof. intros s. done. Qed.
#[local] Hint Resolve ends_bind ends_ok_or ends_ret : core.

Lemma unread_channel_cases topics msg :
  match unread_channel topics msg with
  | Ok _ => is_Some (as_str (members [lit "channel"; lit "topic_name"] msg))
  | Panic => as_str (members [lit "channel"; lit "topic_name"] msg) = None \/ as_str (members [lit "channel"; lit "name"] msg) = None
  | _ => False
  end.
Proof.
  unfold unread_channel. destruct (as_str (members [lit "channel"; lit "topic_name"] msg)) as [t|]; cbn [unwrap mbind outcome_bind]; [|by left].
  destruct (is_true _ && _); [|done].
  destruct (as_str (members [lit "channel"; lit "name"] msg)); cbn [unwrap mbind outcome_bind]; [done | by right].
Qed.
Lemma unread_channels_cases topics msgs :
  match unread_channels topics msgs with
  | Ok _ => forall msg, msg ∈ msgs -> returns (unread_channel topics msg)
  | Panic => exists msg, msg ∈ msgs /\ unread_channel topics msg = Panic
  | _ => False
  end.
Proof.
  induction msgs as [|m msgs IH]; cbn [unread_channels]; [by intros msg ?%elem_of_nil|].
  pose proof (unread_channel_cases topics m) as Hm. destruct (unread_channel topics m) as [o|e| |] eqn:E; cbn [mbind outcome_bind]; try done.
  - destruct (unread_channels topics msgs) as [cs|e| |]; cbn [mbind outcome_bind]; try done.
    + intros msg [->|H]%elem_of_cons; [by rewrite E | by apply IH].
    + destruct IH as (msg & H & Hp). exists msg. split; [by constructor | done].
  - exists m. split; [by constructor | done].
Qed.

Context (Hcli : forall program payload, ends (chat_api (K := K) program payload)).

Lemma api_send_ends bin payload : ends (api_send bin payload).
Proof.
  apply ends_bind; [|intros out; destruct (utf8_valid out); [apply ends_ok_or | intros s; done]].
  intros k. unfold st_match. pose proof (Hcli (default (lit "keybase") bin) payload k) as H.
  by destruct (chat_api _ payload k) as [[| | |] k'].
Qed.
#[local] Hint Resolve api_send_ends : core.

Lemma read_channels_ends bin channels : ends (read_channels bin channels).
Proof.
  induction channels as [|[c t] channels IH]; cbn [read_channels]; [apply ends_ret|].
  unfold read_from_channel, json_or. auto 10.
Qed.
Lemma get_unread_ends bin topics : ends (get_unread bin topics).
Proof.
  unfold get_unread, json_or. apply ends_bind; [auto|]. intros payload. apply ends_bind; [auto|]. intros response.
  apply ends_bind; [apply ends_lift; intros H|].
  { pose proof (unread_channels_cases topics (default [] (as_array (members [lit "result"; lit "conversations"] response)))) as Hc. by rewrite H in Hc. }
  intros channels. apply ends_bind; [intros s; done|].
  intros k. apply read_channels_ends.
Qed.
End unread.

Section stopping.
Context {L : CryptoLib} {R : RegexEngine} {SL : SlateLib} {P : Platform} {JT : JsonText} {K : Type} {C : KeybaseCli K}.

Lemma round_ends bin before sub drop (g : Keybase K (list Call)) :
  (forall program payload, ends (chat_api (K := K) program payload)) -> sound sub drop g -> fst (round bin before sub drop g) <> Hang.
Proof.
  intros Hcli (Hp & Hd & Hf). unfold round. apply ends_bind; [destruct before; intros s; done|]. intros [].
  apply ends_bind; [intros s; done|]. intros [|]; [apply ends_ret|]. intros g1. unfold st_match, on_cli.
  pose proof (get_unread_ends Hcli bin listened_topics (cli g1)) as Hg. destruct (get_unread _ _ (cli g1)) as [[unread|e| |] k]; [|clear Hg|done..].
  - apply ends_bind; [destruct sub; intros s; done|]. intros []. apply ends_bind; [destruct drop; intros s; done|]. intros [].
    apply ends_bind; [|intros []; apply ends_bind; intros s; done].
    clear. induction unread as [|[[u topic] msg] unread IH]; cbn [deliver_all]; [apply ends_ret|].
    apply ends_bind; [|intros []; exact IH]. unfold deliver. apply ends_bind; [apply ends_ok_or|]. intros x s. done.
  - by destruct drop, sub.
Qed.

Lemma listen_ends bin rounds : (forall program payload, ends (chat_api (K := K) program payload)) -> Some true ∈ rounds ->
  forall sub drop (g : Keybase K (list Call)), sound sub drop g -> fst (listen bin rounds sub drop g) <> Hang.
Proof.
  intros Hcli. induction rounds as [|t rounds IH]; intros Hin sub drop g Hg; [by apply not_elem_of_nil in Hin|].
  cbn [listen]. unfold mbind, stM_bind. pose proof (round_ends bin t sub drop g Hcli Hg) as He. pose proof (round_spec bin t sub drop g Hg) as Hr.
  destruct (decide (t = Some true)) as [->|Ht]; [done|].
  apply elem_of_cons in Hin as [E|Hin]; [by rewrite E in Ht|].
  destruct (round bin t sub drop g) as [[[sub' drop'|r]|e| |] g1]; try done. by apply IH.
Qed.
End stopping.

Section channels.
Context {SL : SlateLib}.

Lemma unread_channel_Some topics msg c : unread_channel topics msg = Ok (Some c) <->
  as_str (members [lit "channel"; lit "topic_name"] msg) = Some c.2 /\ is_true (member (lit "unread") msg) = true /\ c.2 ∈ topics /\
  as_str (members [lit "channel"; lit "name"] msg) = Some c.1.
Proof.
  unfold unread_channel. destruct c as [name topic]. cbn [fst snd].
  destruct (as_str (members [lit "channel"; lit "topic_name"] msg)) as [t|]; cbn [unwrap mbind outcome_bind]; [|naive_solver].
  destruct (is_true _); cbn [andb]; [|naive_solver]. case_bool_decide; [|naive_solver].
  destruct (as_str _) as [n|]; cbn [unwrap mbind outcome_bind]; naive_solver.
Qed.

Lemma unread_channels_spec topics msgs cs : unread_channels topics msgs = Ok cs ->
  NoDup cs /\ forall c, c ∈ cs <-> exists msg, msg ∈ msgs /\ unread_channel topics msg = Ok (Some c).
Proof.
  revert cs. induction msgs as [|m msgs IH]; intros cs H; cbn [unread_channels] in H.
  { injection H as <-. split; [constructor|]. intros c. rewrite elem_of_nil. split; [done|]. intros (m & Hm%elem_of_nil & _). done. }
  apply bind_Ok in H as (o & Ho & H). apply bind_Ok in H as (cs' & Hcs & [= <-]). destruct (IH _ Hcs) as [Hnd Hin].
  assert (forall c, o = Some c \/ c ∈ cs' <-> exists msg, msg ∈ m :: msgs /\ unread_channel topics msg = Ok (Some c)) as Hc.
  { intros c. rewrite Hin. split.
    - intros [->|(m' & Hm' & Hc)]; [exists m | exists m']; (split; [|done]); by constructor.
    - intros (m' & [->|Hm']%elem_of_cons & Hc); [left; congruence | right; eauto]. }
  destruct o as [c|]; [case_bool_decide as Hd|].
  - split; [done|]. intros c'. rewrite <- Hc. naive_solver.
  - split; [by constructor|]. intros c'. rewrite elem_of_cons, <- Hc. naive_solver.
  - split; [done|]. intros c'. rewrite <- Hc. naive_solver.
Qed.

End channels.

(** ** Properties *)

Import Toy Backtrack ToyPlatform ToySlate ToyJson.

(** The client that answers what it has been given to answer and records what
    it is asked. *)
Module ToyCli.
#[export] Instance toy_cli : KeybaseCli (list str * list str) := {|
  path_exists _ _ := true;
  locate _ _ := mret true;
  chat_api _ payload := fun '(asked, answers) => match answers with
    | a :: answers => (Ok a, (asked ++ [payload], answers))
    | [] => (Err (External (lit "spawn")), (asked, []))
    end;
  hash_order _ l := l;
|}.
#[export] Instance toy_cli_laws : KeybaseLaws toy_cli.
Proof. intros k l. done. Qed.
Definition say (v : Value) : str := default [] (text_of_value v).
Definition conversation (name topic : string) : Value :=
  object [("channel"%string, object [("name"%string, jtext name); ("topic_name"%string, jtext topic)]); ("unread"%string, VBool true)].
Definition conversations (l : list Value) : Value :=
  object [("result"%string, object [("conversations"%string, VArray l)])].
Definition chat_message (sender : string) (body : str) : Value :=
  object [("msg"%string, object
    [("content"%string, object [("type"%string, jtext "text"); ("text"%string, object [("body"%string, VString body)])]);
     ("unread"%string, VBool true); ("sender"%string, object [("username"%string, jtext sender)])])].
Definition chat_messages (l : list Value) : Value :=
  object [("result"%string, object [("messages"%string, VArray l)])].
Definition listening (answers : list Value) : Keybase (list str * list str) (list Call) :=
  {| stop_signal := true; cli := ([], say <$> answers); slept := []; hs := [] |}.
End ToyCli.
Import ToyCli.

(** C30: a slate over Keybase.  Posting runs the client once, with a request
    whose channel is the user, whose topic is the one of the address or the
    default, and whose body is the slate; the message does not explode when it
    goes to the bot.  Whatever else is unread in that channel, a message with
    this body reaches the handler as the same slate from its sender, with the
    topic to answer under. *)
Theorem keybase_delivery {L : CryptoLib} {Laws : CryptoLaws L} {R : RegexEngine} {RL : RegexLaws R} {SL : SlateLib} {P : Platform}
    {JT : JsonText} {JL : JsonTextLaws JT} {K : Type} {C : KeybaseCli K} (self : KeybasePublisher) a (x : Slate) t p (k : K) :
  let topic_ := default TOPIC_WALLET713_SLATES (topic a) in
  let ttl_ := if bool_decide (username a = lit "wallet713") then None else ttl self in
  Address_wf (AKeybase a) -> slate_to_json x = Some t -> deserialize_upgrade t = Some x -> t <> [] ->
  text_of_value (request "send" (send_options (username a) topic_ t ttl_)) = Some p ->
  (exists v, value_of_text p = Some v /\
    let options := members [lit "params"; lit "options"] v in
    members [lit "channel"; lit "name"] options = VString (username a) /\
    members [lit "channel"; lit "topic_name"] options = VString topic_ /\
    members [lit "message"; lit "body"] options = VString t /\
    member (lit "exploding_lifetime") options = match ttl_ with Some s => VString s | None => VNull end) /\
  (let '(r, k') := KeybasePublisher_post_slate self x (AKeybase a) k in
   k' = snd (chat_api (default (lit "keybase") (keybase_binary self)) p k) /\
   (r = Ok () <-> exists response, fst (api_send (keybase_binary self) p k) = Ok response /\
      is_text (lit "message sent") (members [lit "result"; lit "message"] response) = true)) /\
  forall bin channel topic payload out response ms msg sender k1 k2 (g : Keybase K (list Call)),
    text_of_value (request "read" (read_options channel topic)) = Some payload ->
    chat_api (default (lit "keybase") bin) payload k1 = (Ok out, k2) -> utf8_valid out = true -> value_of_text out = Some response ->
    as_array (members [lit "result"; lit "messages"] response) = Some ms -> msg ∈ ms -> sender <> [] ->
    is_text (lit "text") (members [lit "msg"; lit "content"; lit "type"] msg) = true ->
    is_true (members [lit "msg"; lit "unread"] msg) = true ->
    members [lit "msg"; lit "content"; lit "text"; lit "body"] msg = VString t ->
    members [lit "msg"; lit "sender"; lit "username"] msg = VString sender ->
    exists unread, read_from_channel channel topic bin k1 = (Ok unread, k2) /\ (sender, topic, t) ∈ unread /\
      deliver (sender, topic, t) g = (Ok (), set_hs (hs g ++ [CSlate (AKeybase {| username := sender;
        topic := Some (if bool_decide (topic = TOPIC_SLATE_NEW) then TOPIC_SLATE_SIGNED else TOPIC_WALLET713_SLATES) |}) x None]) g).
Proof.
  intros topic_ ttl_ [Hu Ht] Hx Hd Hne Hp. split; [|split].
  - exists (request "send" (send_options (username a) topic_ t ttl_)). split; [by apply json_text_roundtrip|].
    by destruct ttl_.
  - unfold KeybasePublisher_post_slate, mbind, stM_bind, st_lift. cbn [Address_display Address_stripped].
    assert (KeybaseAddress_from_str (KeybaseAddress_display a) = Ok a) as ->.
    { unfold KeybaseAddress_display. destruct a as [u o]. cbn in Hu, Ht |- *.
      rewrite <- (keybase_from_str_matched (lit "keybase://") u o) by auto. by destruct o. }
    cbv zeta. fold ttl_ topic_. unfold send, mbind, stM_bind, json_or, st_lift. rewrite Hx. cbn [ok_or].
    change (KeybaseAddress_stripped a) with (username a). rewrite Hp. cbn [ok_or].
    assert (snd (api_send (keybase_binary self) p k) = snd (chat_api (default (lit "keybase") (keybase_binary self)) p k)) as Hk.
    { unfold api_send, mbind, stM_bind, st_match, json_or, st_lift, st_err. destruct (chat_api _ p k) as [[out|e| |] k']; try done.
      cbn. by destruct (utf8_valid out). }
    destruct (api_send (keybase_binary self) p k) as [[response|e| |] k'] eqn:E; cbn [fst snd] in Hk |- *; subst k'; [|naive_solver..].
    destruct (is_text _ _) eqn:Hs; (split; [done|]); split; [eauto|done|done|]. intros (response' & [= <-] & Hs'). congruence.
  - intros bin channel topic payload out response ms msg sender k1 k2 g Hpay Hcli Hutf Hval Hms Hin Hse H1 H2 H3 H4.
    exists ((fun m => (m.1, topic, m.2)) <$> omap unread_text ms). split_and!.
    + unfold read_from_channel, api_send, st_match, mbind, stM_bind, json_or, st_lift. rewrite Hpay. cbn [ok_or].
      rewrite Hcli. unfold mret, stM_ret. rewrite Hutf, Hval. cbn [ok_or]. by rewrite Hms.
    + apply list_elem_of_fmap. exists (sender, t). split; [done|]. apply list_elem_of_omap. exists msg. split; [done|].
      unfold unread_text. rewrite H1, H2, H3, H4. cbn. by rewrite !bool_decide_eq_true_2 by done.
    + unfold deliver, mbind, stM_bind, st_lift. rewrite Hd. done.
Qed.

Lemma keybase_delivery_witness :
  let self := {| ttl := Some (lit "1h"); keybase_binary := None |} in
  let to := {| username := lit "bo"; topic := None |} in
  let sent := say (object [("result"%string, object [("message"%string, jtext "message sent")])]) in
  exists p, KeybasePublisher_post_slate self a_slate (AKeybase to) ([], [sent]) = (Ok (), ([p], [])) /\
    forall g : Keybase (list str * list str) (list Call),
    exists unread,
      read_from_channel (lit "al") TOPIC_WALLET713_SLATES None ([], [say (chat_messages [chat_message "al" a_text])])
        = (Ok unread, ([say (request "read" (read_options (lit "al") TOPIC_WALLET713_SLATES))], [])) /\
      (lit "al", TOPIC_WALLET713_SLATES, a_text) ∈ unread /\
      deliver (lit "al", TOPIC_WALLET713_SLATES, a_text) g
        = (Ok (), set_hs (hs g ++ [CSlate (AKeybase {| username := lit "al"; topic := Some TOPIC_WALLET713_SLATES |}) a_slate None]) g).
Proof.
  intros self to sent.
  pose (p := say (request "send" (send_options (lit "bo") TOPIC_WALLET713_SLATES a_text (Some (lit "1h"))))).
  assert (Address_wf (AKeybase to)) as Hwf.
  { split; [|exact I]. split; [cbn; lia | by repeat constructor]. }
  assert (slate_to_json a_slate = Some a_text /\ deserialize_upgrade a_text = Some a_slate) as [Hx Hd] by (vm_compute; split; reflexivity).
  assert (a_text <> []) as Hne by (intros H; assert (length a_text = 0%nat) as H0 by (rewrite H; reflexivity); vm_compute in H0; discriminate H0).
  assert (text_of_value (request "send" (send_options (username to) (default TOPIC_WALLET713_SLATES (topic to)) a_text
    (if bool_decide (username to = lit "wallet713") then None else ttl self))) = Some p) as Hp by (vm_compute; reflexivity).
  destruct (keybase_delivery self to a_slate a_text p ([], [sent]) Hwf Hx Hd Hne Hp) as (_ & Hpost & Hread).
  exists p. split.
  - destruct (KeybasePublisher_post_slate self a_slate (AKeybase to) ([], [sent])) as [r k'].
    destruct Hpost as [-> Hr]. f_equal. apply Hr. 
    exists (object [("result"%string, object [("message"%string, jtext "message sent")])]). split; vm_compute; reflexivity.
  - intros g. set (response := chat_messages [chat_message "al" a_text]).
    assert (utf8_valid (say response) = true) as Hutf by (vm_compute; reflexivity).
    assert (value_of_text (say response) = Some response) as Hval by (apply json_text_roundtrip; reflexivity).
    apply (Hread None (lit "al") TOPIC_WALLET713_SLATES _ (say response) response [chat_message "al" a_text] (chat_message "al" a_text)
      (lit "al") ([], [say response]) _ g eq_refl eq_refl Hutf Hval eq_refl);
      [apply list_elem_of_here | discriminate | reflexivity..].
Defined.

(** C31: the life of the listener.  The handler is told in order: opened once,
    slates only while the client answers, "dropped" and "reestablished" in
    turns, closed once at the end.  It is closed normally exactly when it was
    stopped, and with an error only when the client did not answer from the
    beginning.  When the client answers, the handler is told of every message, in
    order, with its sender and the topic to answer under, and the listener goes
    on after the pause; but the first message that is not a slate ends it with an
    error, after the slates before it and without those behind it, and without
    closing it.  Then, and when it has been closed with an error, it still counts
    as running. *)
Theorem keybase_lifecycle {L : CryptoLib} {R : RegexEngine} {SL : SlateLib} {P : Platform} {JT : JsonText} {K : Type} {C : KeybaseCli K}
    bin rounds (g : Keybase K (list Call)) :
  hs g = [] ->
  (let '(r, g') := start bin rounds g in
   exists phase, run_phase Fresh (hs g') = Some phase /\ (r = Ok () <-> phase = Closed) /\
     (r = Ok () -> is_running g' = (Ok false, g') /\ last (hs g') = Some (CClose Normal) \/
                   is_running g' = (Ok true, g') /\ hs g' = [CClose (Abnormal (Kind KeybaseNotFound))]) /\
     (forall e, r = Err e -> e = External (lit "json") /\ phase = Up /\ is_running g' = (Ok true, g'))) /\
  forall (g : Keybase K (list Call)) rounds subscribed dropped unread k,
    stop_signal g = false -> get_unread bin listened_topics (cli g) = (Ok unread, k) ->
    (forall calls, Forall2 heard unread calls ->
       listen bin (None :: rounds) subscribed dropped g =
       listen bin rounds true false
         {| stop_signal := false; cli := k; slept := slept g ++ [5000]; hs := (hs g ++ opening subscribed dropped) ++ calls |}) /\
    (forall before calls m after, unread = before ++ m :: after -> Forall2 heard before calls -> deserialize_upgrade m.2 = None ->
       listen bin (None :: rounds) subscribed dropped g =
       (Err (External (lit "json")), {| stop_signal := false; cli := k; slept := slept g; hs := (hs g ++ opening subscribed dropped) ++ calls |})).
Proof.
  intros Hg. split.
  { unfold start, mbind, stM_bind, st_modify.
  pose proof (keybase_listen_spec bin rounds false false (set_stop false g)) as Hl. cbn [hs set_stop] in Hl.
  destruct (listen _ _ _ _ _) as [[[e|]|e| |] g'].
  - destruct Hl as (-> & Hh & Hs); [unfold sound; cbn; by rewrite Hg|]. exists Closed. cbn. unfold is_running. cbn. rewrite Hh, Hs. cbn. naive_solver.
  - destruct Hl as ((p & Hp & Hne) & Hs); [unfold sound; cbn; by rewrite Hg|]. exists Closed. cbn. unfold is_running. cbn. rewrite Hs.
    rewrite (run_phase_snoc _ _ _ _ Hp), last_snoc. destruct p; naive_solver.
  - destruct Hl as (Hp & Hs & ->); [unfold sound; cbn; by rewrite Hg|]. exists Up. unfold is_running. rewrite Hs. naive_solver.
  - destruct Hl as (p & Hp & Hne); [unfold sound; cbn; by rewrite Hg|]. exists p. naive_solver.
  - destruct Hl as (p & Hp & Hne); [unfold sound; cbn; by rewrite Hg|]. exists p. naive_solver. }
  clear g Hg. intros g rounds' sub drop unread k Hs Hu. cbn [listen]. unfold mbind, stM_bind. rewrite (round_answered _ _ _ _ _ _ Hs Hu). split.
  - intros calls Hc. rewrite <- (app_nil_r unread), (deliver_heard_all _ _ Hc). cbn. unfold add_sleep, set_hs, set_cli. cbn. by rewrite Hs.
  - intros before calls m after -> Hc Hm. rewrite (deliver_heard_all _ _ Hc). cbn [deliver_all]. unfold mbind, stM_bind.
    rewrite (deliver_unheard _ _ Hm). cbn. unfold set_hs, set_cli. cbn. by rewrite Hs.
Qed.

Lemma keybase_lifecycle_witness :
  let g := listening [conversations []; conversations [conversation "al" "grin_slate_new"]; chat_messages [chat_message "al" (lit "x")]] in
  let '(r, g') := start None [None; None] g in
  r = Err (External (lit "json")) /\ run_phase Fresh (hs g') = Some Up /\ is_running g' = (Ok true, g').
Proof.
  intros g. pose proof (keybase_lifecycle None [None; None] g eq_refl) as T.
  assert (fst (start None [None; None] g) = Err (External (lit "json"))) as E by (vm_compute; reflexivity).
  destruct (start None [None; None] g) as [r g']. cbn [fst] in E.
  destruct T as [(phase & Hp & _ & _ & He) _]. destruct (He _ E) as (_ & -> & Hr). split; [exact E|]. split; [exact Hp | exact Hr].
Defined.

(** Stopping.  When the client always comes back, a listener that is
    stopped ends: whatever happens before, the loop is left at the latest when
    it looks at the flag the next time, without running the client again. *)
Theorem keybase_stops {L : CryptoLib} {R : RegexEngine} {SL : SlateLib} {P : Platform} {JT : JsonText} {K : Type} {C : KeybaseCli K}
    bin rounds (g : Keybase K (list Call)) :
  (forall program payload, ends (chat_api (K := K) program payload)) -> hs g = [] -> Some true ∈ rounds ->
  fst (start bin rounds g) <> Hang /\
  forall rounds' sub drop, listen bin (Some true :: rounds') sub drop g = (Ok None, set_stop true g).
Proof.
  intros Hcli Hg Hin. split; [|done]. unfold start, mbind, stM_bind, st_modify.
  pose proof (listen_ends bin rounds Hcli Hin false false (set_stop false g)) as Hl.
  destruct (listen _ _ _ _ _) as [[[e|]|e| |] g']; try done.
  exfalso. apply Hl; [|done]. unfold sound. cbn. by rewrite Hg.
Qed.

Lemma keybase_stops_witness :
  let g := listening [conversations []; conversations []] in
  fst (start None [None; None; Some true] g) <> Hang.
Proof.
  intros g. apply (keybase_stops None [None; None; Some true] g); [|reflexivity|].
  - intros program payload [asked [|answer answers]]; discriminate.
  - apply list_elem_of_further, list_elem_of_further, list_elem_of_here.
Defined.

(** What is read.  The listener asks for the messages of exactly the
    conversations of its topics that have something unread, each once, in some
    order.  A conversation whose topic is not a text makes it panic, also one
    of another application. *)
Theorem keybase_channels {K : Type} {C : KeybaseCli K} {CL : KeybaseLaws C} (topics : list str) msgs (k : K) :
  match unread_channels topics msgs with
  | Ok cs => NoDup (hash_order k cs) /\
      (forall name topic, (name, topic) ∈ hash_order k cs <->
         topic ∈ topics /\ exists msg, msg ∈ msgs /\ is_true (member (lit "unread") msg) = true /\
           members [lit "channel"; lit "topic_name"] msg = VString topic /\ members [lit "channel"; lit "name"] msg = VString name) /\
      forall msg, msg ∈ msgs -> exists topic, members [lit "channel"; lit "topic_name"] msg = VString topic
  | Panic => exists msg, msg ∈ msgs /\
      (as_str (members [lit "channel"; lit "topic_name"] msg) = None \/ as_str (members [lit "channel"; lit "name"] msg) = None)
  | _ => False
  end.
Proof.
  assert (forall v s, as_str v = Some s <-> v = VString s) as Hstr by (intros v t; destruct v; cbn; naive_solver).
  pose proof (unread_channels_cases topics msgs) as Hc. destruct (unread_channels topics msgs) as [cs|e| |] eqn:E; [|done| |done].
  - destruct (unread_channels_spec _ _ _ E) as [Hnd Hin]. split; [by rewrite hash_order_perm|]. split.
    + intros name topic. rewrite hash_order_perm, Hin. setoid_rewrite unread_channel_Some. cbn [fst snd].
      setoid_rewrite Hstr. clear. naive_solver.
    + intros msg H%Hc. pose proof (unread_channel_cases topics msg) as Hu. destruct (unread_channel topics msg); try done.
      destruct Hu as [t Ht]. exists t. by apply Hstr.
  - destruct Hc as (msg & H & Hp). exists msg. split; [done|]. pose proof (unread_channel_cases topics msg) as Hu. by rewrite Hp in Hu.
Qed.

Lemma keybase_channels_witness :
  unread_channels listened_topics [conversation "al" "chess"; conversation "bo" "grin_slate_new"] = Ok [(lit "bo", TOPIC_SLATE_NEW)] /\
  NoDup (hash_order ([], []) [(lit "bo", TOPIC_SLATE_NEW)]).
Proof.
  pose proof (keybase_channels (C := toy_cli) listened_topics [conversation "al" "chess"; conversation "bo" "grin_slate_new"] ([], [])) as T.
  assert (unread_channels listened_topics [conversation "al" "chess"; conversation "bo" "grin_slate_new"] = Ok [(lit "bo", TOPIC_SLATE_NEW)])
    as E by (vm_compute; reflexivity).
  rewrite E in T. split; [exact E | apply T].
Defined.
