(* ===== verification/Parser.v ===== *)
(** * The command declarations

    [cli/parser.rs]: the declarations given to clap, and how a line becomes
    the words that clap matches.  clap is the class [Clap]: what it promises
    about a match is [conforms] to the declarations. *)

From S2P Require Import Prelude Str Errors.

(** ** Declarations *)

(** [Arg::from_usage]: an argument with its name, its flags, whether it takes a
    value, must be there, may do without its value, or takes several. *)
Record ArgSpec : Type := {
  arg_name : str;
  short : option ascii;
  long : option str;
  takes_value : bool;
  required : bool;
  min_values_0 : bool;
  multiple : bool;
}.
(** A command with its arguments, its groups (a name, its members, and whether
    one of them is required) and its own commands. *)
Inductive App : Type :=
| MkApp (name : str) (args : list ArgSpec) (groups : list (str * list str * bool)) (subcommands : list App).
Definition app_name (a : App) : str := let '(MkApp n _ _ _) := a in n.
Definition app_args (a : App) : list ArgSpec := let '(MkApp _ l _ _) := a in l.
Definition app_groups (a : App) : list (str * list str * bool) := let '(MkApp _ _ g _) := a in g.
Definition app_subcommands (a : App) : list App := let '(MkApp _ _ _ s) := a in s.

Section declare.
Local Open Scope char_scope.
Definition flag (name : string) (short : option ascii) (long : string) : ArgSpec :=
  {| arg_name := lit name; short := short; long := Some (lit long); takes_value := false; required := false;
     min_values_0 := false; multiple := false |}.
Definition valued (name : string) (short : option ascii) (long : string) (required : bool) : ArgSpec :=
  {| arg_name := lit name; short := short; long := Some (lit long); takes_value := true; required := required;
     min_values_0 := false; multiple := false |}.
Definition positional (name : string) : ArgSpec :=
  {| arg_name := lit name; short := None; long := None; takes_value := true; required := true;
     min_values_0 := false; multiple := false |}.
Definition optional_value (a : ArgSpec) : ArgSpec :=
  {| arg_name := arg_name a; short := short a; long := long a; takes_value := takes_value a; required := required a;
     min_values_0 := true; multiple := multiple a |}.
Definition many (a : ArgSpec) : ArgSpec :=
  {| arg_name := arg_name a; short := short a; long := long a; takes_value := takes_value a; required := required a;
     min_values_0 := min_values_0 a; multiple := true |}.
Definition command (name : string) := MkApp (lit name).

Definition app_exit : App :=
  command "exit" [] [] [].
Definition app_config : App :=
  command "config" [flag "generate-address" (Some "g") "generate-next-address";
     valued "generate-address-index" (Some "i") "index" false;
     valued "data-path" (Some "d") "data-path" false;
     flag "disable-history" (Some "h") "disable-history";
     valued "domain" None "domain" false;
     valued "port" (Some "p") "port" false;
     valued "node-uri" (Some "n") "node-uri" false;
     valued "node-secret" (Some "s") "secret" false] [] [].
Definition app_address : App :=
  command "address" [] [] [].
Definition app_init : App :=
  command "init" [optional_value (valued "passphrase" (Some "p") "passphrase" false)] [] [].
Definition app_lock : App :=
  command "lock" [] [] [].
Definition app_unlock : App :=
  command "unlock" [valued "account" (Some "a") "account" false;
     optional_value (valued "passphrase" (Some "p") "passphrase" false)] [] [].
Definition app_account : App :=
  command "account" [] [] [command "create" [positional "name"] [] [];
     command "rename" [positional "old_account";
       positional "new_account"] [] [];
     command "switch" [positional "name";
       valued "account" (Some "a") "account" false;
       optional_value (valued "passphrase" (Some "p") "passphrase" false)] [] []].
Definition app_accounts : App :=
  command "accounts" [] [] [].
Definition app_info : App :=
  command "info" [valued "confirmations" (Some "c") "confirmations" false] [] [command "--no-refresh" [] [] []].
Definition app_contacts : App :=
  command "contacts" [] [] [command "add" [positional "name";
       positional "address"] [] [];
     command "remove" [positional "name"] [] []].
Definition app_txs_count : App :=
  command "txs_count" [] [] [].
Definition app_txs : App :=
  command "txs" [valued "id" (Some "i") "id" false;
     valued "txid" (Some "t") "txid" false;
     flag "no-refresh" (Some "n") "no-refresh";
     valued "offset" (Some "o") "offset" false;
     valued "length" (Some "l") "length" false;
     flag "full" (Some "f") "show-full"] [] [].
Definition app_output_count : App :=
  command "output_count" [flag "show-spent" (Some "s") "show-spent"] [] [].
Definition app_outputs : App :=
  command "outputs" [flag "no-refresh" (Some "n") "no-refresh";
     flag "show-spent" (Some "s") "show-spent";
     valued "offset" (Some "o") "offset" false;
     valued "length" (Some "l") "length" false] [] [].
Definition app_listen : App :=
  command "listen" [flag "grinbox" (Some "m") "mwcmq";
     flag "keybase" (Some "k") "keybase";
     flag "mwcmqs" (Some "s") "mwcmqs"] [] [].
Definition app_stop : App :=
  command "stop" [flag "grinbox" (Some "m") "mwcmq";
     flag "keybase" (Some "k") "keybase";
     flag "mwcmqs" (Some "s") "mwcmqs"] [] [].
Definition app_send : App :=
  command "send" [valued "to" (Some "t") "to" false;
     valued "file" (Some "f") "file" false;
     positional "amount";
     valued "apisecret" (Some "a") "apisecret" false;
     valued "strategy" (Some "s") "strategy" false;
     valued "confirmations" (Some "c") "confirmations" false;
     valued "change-outputs" (Some "o") "change-outputs" false;
     valued "message" (Some "g") "message" false;
     valued "outputs" (Some "p") "outputs" false;
     valued "version" (Some "v") "version" false;
     valued "routputs" (Some "r") "r-outputs" false] [(lit "destination", [lit "to"; lit "file"], true)] [].
Definition app_invoice : App :=
  command "invoice" [valued "to" (Some "t") "to" true;
     positional "amount";
     valued "outputs" (Some "o") "outputs" false] [] [].
Definition app_repost : App :=
  command "repost" [valued "id" (Some "i") "id" true] [] [].
Definition app_cancel : App :=
  command "cancel" [valued "id" (Some "i") "id" true] [] [].
Definition app_restore : App :=
  command "restore" [optional_value (valued "passphrase" (Some "p") "passphrase" false)] [] [].
Definition app_recover : App :=
  command "recover" [optional_value (valued "passphrase" (Some "p") "passphrase" false);
     many (valued "words" (Some "m") "mnemonic" false);
     flag "display" (Some "d") "display"] [(lit "method", [lit "words"; lit "display"], true)] [].
Definition app_getnextkey : App :=
  command "getnextkey" [valued "amount" (Some "a") "amount" true] [] [].
Definition app_getrootpublickey : App :=
  command "getrootpublickey" [valued "message" (Some "m") "message" false] [] [].
Definition app_verifysignature : App :=
  command "verifysignature" [valued "message" (Some "m") "message" true;
     valued "signature" (Some "s") "signature" true;
     valued "pubkey" (Some "p") "pubkey" true] [] [].
Definition app_scan_outputs : App :=
  command "scan_outputs" [valued "pubkey_file" (Some "p") "pubkey_file" true] [] [].
Definition app_receive : App :=
  command "receive" [valued "file" (Some "f") "file" true;
     valued "key_id" (Some "k") "key_id" false;
     valued "recv_file" (Some "r") "recv_file" false] [] [].
Definition app_showpubkeys : App :=
  command "showpubkeys" [valued "file" (Some "f") "file" true] [] [].
Definition app_finalize : App :=
  command "finalize" [valued "file" (Some "f") "file" true] [] [].
Definition app_submit : App :=
  command "submit" [valued "file" (Some "f") "file" true] [] [].
Definition app_check : App :=
  command "check" [flag "no-delete_unconfirmed" (Some "n") "no-delete_unconfirmed";
     valued "start_height" (Some "h") "start_height" false] [] [].
Definition app_export_proof : App :=
  command "export-proof" [valued "id" (Some "i") "id" true;
     valued "file" (Some "f") "file" true] [] [].
Definition app_verify_proof : App :=
  command "verify-proof" [valued "file" (Some "f") "file" true] [] [].
Definition app_nodeinfo : App :=
  command "nodeinfo" [] [] [].
Definition app_set_recv : App :=
  command "set-recv" [positional "account";
     valued "password" (Some "p") "password" false] [] [].
Definition app_sync : App :=
  command "sync" [] [] [].
Definition app_dump_wallet_data : App :=
  command "dump-wallet-data" [valued "file" (Some "f") "file" false] [] [].
Definition app_txs_bulk_validate : App :=
  command "txs-bulk-validate" [valued "kernels" (Some "k") "kernels" true;
     valued "outputs" (Some "o") "outputs" true;
     valued "result" (Some "r") "result" true] [] [].

(** [Parser::parser]. *)
Definition parser : App :=
  MkApp [] [] []
    [app_exit; app_config; app_address; app_init; app_lock; app_unlock;
     app_account; app_accounts; app_info; app_contacts; app_txs_count; app_txs;
     app_output_count; app_outputs; app_listen; app_stop; app_send; app_invoice;
     app_repost; app_cancel; app_restore; app_recover; app_getnextkey; app_getrootpublickey;
     app_verifysignature; app_scan_outputs; app_receive; app_showpubkeys; app_finalize; app_submit;
     app_check; app_export_proof; app_verify_proof; app_nodeinfo; app_set_recv; app_sync;
     app_dump_wallet_data; app_txs_bulk_validate].
End declare.

(** ** clap *)

Inductive TokenType : Type := Whitespace | OtherToken.
#[export] Instance TokenType_eq_dec : EqDecision TokenType.
Proof. solve_decision. Defined.
(** The crates that split a line, take quotation marks off and match. *)
Class Clap : Type := {
  tokenize : str -> list (TokenType * str) + Error;
  unquote : str -> option str;
  ArgMatches : Type;
  is_present : ArgMatches -> str -> bool;
  value_of : ArgMatches -> str -> option str;
  values_of : ArgMatches -> str -> option (list str);
  subcommand_name : ArgMatches -> option str;
  subcommand_matches : ArgMatches -> str -> option ArgMatches;
  get_matches_from_safe : App -> list str -> ArgMatches + Error;
}.

Section parse.
Context {CL : Clap}.

Definition Parser_parse (line : str) : result ArgMatches :=
  tokens ← of_lib (tokenize (trim line));
  let tokens := filter (fun t => t.1 <> Whitespace) tokens in
  of_lib (get_matches_from_safe parser ((fun t => default t.2 (unquote t.2)) <$> tokens)).

(** What matches stand for: only what is declared is there, also an argument
    of a command's name; what is required is there, with a value; and the
    matches of the command that was given conform to its declaration. *)
Inductive conforms : App -> ArgMatches -> Prop :=
| conforms_intro app m :
    (forall n, is_present m n = true ->
       n ∈ (arg_name <$> app_args app) \/ n ∈ (fst ∘ fst <$> app_groups app) \/ subcommand_name m = Some n) ->
    (forall n v, value_of m n = Some v -> is_present m n = true) ->
    (forall a, a ∈ app_args app -> required a = true -> is_Some (value_of m (arg_name a))) ->
    (forall g, g ∈ app_groups app -> g.2 = true -> exists n, n ∈ g.1.2 /\ is_present m n = true) ->
    (forall a, a ∈ app_args app -> is_present m (arg_name a) = true -> takes_value a = true -> min_values_0 a = false ->
       is_Some (value_of m (arg_name a))) ->
    (forall s, subcommand_name m = Some s -> exists app' m',
       app' ∈ app_subcommands app /\ app_name app' = s /\ subcommand_matches m s = Some m' /\ conforms app' m') ->
    (forall s m', subcommand_matches m s = Some m' -> subcommand_name m = Some s) ->
    conforms app m.
End parse.
Class ClapLaws (CL : Clap) : Prop := matches_conform app words m : get_matches_from_safe app words = inl m -> conforms app m.

Lemma parse_conforms {CL : Clap} {Laws : ClapLaws CL} line m : Parser_parse line = Ok m -> conforms parser m.
Proof.
  unfold Parser_parse. destruct (tokenize (trim line)) as [ts|]; [|done]. cbn [of_lib mbind outcome_bind].
  destruct (get_matches_from_safe _ _) eqn:E; [|done]. intros [= <-]. by eapply matches_conform.
Qed.

(** A small matcher: words are separated by blanks, a value follows its flag. *)
Module ToyClap.
Inductive Matches : Type := MkMatches (given : list (str * list str)) (sub : option (str * Matches)).
Definition given (m : Matches) : list (str * list str) := let '(MkMatches g _) := m in g.
Definition sub (m : Matches) : option (str * Matches) := let '(MkMatches _ s) := m in s.
Definition values (m : Matches) (n : str) : option (list str) := snd <$> find (fun g => bool_decide (g.1 = n)) (given m).
Definition value (m : Matches) (n : str) : option str := values m n ≫= head.
Definition present (m : Matches) (n : str) : bool := bool_decide (fst <$> sub m = Some n) || bool_decide (is_Some (values m n)).

Fixpoint conformsb (app : App) (m : Matches) {struct m} : bool :=
  let '(MkMatches g s) := m in
  forallb (fun x => bool_decide (x.1 ∈ (arg_name <$> app_args app))) g &&
  forallb (fun a => negb (required a) || bool_decide (is_Some (value m (arg_name a)))) (app_args app) &&
  forallb (fun x => negb x.2 || existsb (present m) x.1.2) (app_groups app) &&
  forallb (fun a => negb (present m (arg_name a)) || negb (takes_value a) || min_values_0 a || bool_decide (is_Some (value m (arg_name a)))) (app_args app) &&
  match s with
  | None => true
  | Some (n, m') => existsb (fun app' => bool_decide (app_name app' = n) && conformsb app' m') (app_subcommands app)
  end.

Definition names_flag (w : str) (a : ArgSpec) : bool :=
  bool_decide (Some w = (fun l => lit "--" ++ l) <$> long a) || bool_decide (Some w = (fun c => ["-"%char; c]) <$> short a).
Definition starts_flag (w : str) : bool := match w with "-"%char :: _ => true | _ => false end.
Fixpoint matches (fuel : nat) (app : App) (positionals : list ArgSpec) (g : list (str * list str)) (words : list str) : option Matches :=
  match fuel, words with
  | S fuel, w :: words =>
      match find (fun a => bool_decide (app_name a = w)) (app_subcommands app) with
      | Some a => m ← matches fuel a (filter (fun a => long a = None) (app_args a)) [] words; Some (MkMatches g (Some (w, m)))
      | None =>
          match find (names_flag w) (app_args app), words with
          | Some a, v :: words' =>
              if takes_value a && negb (starts_flag v) then matches fuel app positionals (g ++ [(arg_name a, [v])]) words'
              else matches fuel app positionals (g ++ [(arg_name a, [])]) words
          | Some a, [] => Some (MkMatches (g ++ [(arg_name a, [])]) None)
          | None, _ => match positionals with
                       | a :: positionals => matches fuel app positionals (g ++ [(arg_name a, [w])]) words
                       | [] => None
                       end
          end
      end
  | _, _ => Some (MkMatches g None)
  end.

#[export] Instance clap : Clap := {|
  tokenize s := inl ((fun w => (OtherToken, w)) <$> filter (fun w => w <> []) (split " "%char s));
  unquote _ := None;
  ArgMatches := Matches;
  is_present := present;
  value_of := value;
  values_of := values;
  subcommand_name m := fst <$> sub m;
  subcommand_matches m n := match sub m with Some (n', m') => if bool_decide (n = n') then Some m' else None | None => None end;
  get_matches_from_safe app words :=
    match matches (length words) app [] [] words with
    | Some m => if conformsb app m then inl m else inr (External (lit "clap"))
    | None => inr (External (lit "clap"))
    end;
|}.

Fixpoint conformsb_spec (m : Matches) : forall app, conformsb app m = true -> conforms app (m : ArgMatches).
Proof.
  destruct m as [g s]. intros app H. simpl in H. apply andb_true_iff in H as [H H5].
  rewrite !andb_true_iff, !forallb_forall in H. destruct H as [[[H1 H2] H3] H4].
  assert (forall (x : ArgSpec) l, x ∈ l -> In x l) as Hin by (intros x l; apply list_elem_of_In).
  constructor.
  - intros n Hn. cbn in Hn. apply orb_true_iff in Hn as [Hn|Hn]; apply bool_decide_eq_true in Hn; [right; right; exact Hn|left].
    unfold values in Hn. destruct (find _ _) as [x|] eqn:E; [|by destruct Hn].
    apply find_some in E as [Hx Hd]. apply bool_decide_eq_true in Hd as <-. specialize (H1 x Hx).
    by apply bool_decide_eq_true in H1.
  - intros n v Hv. change (present (MkMatches g s) n = true). change (value (MkMatches g s) n = Some v) in Hv.
    unfold present, value in *. destruct (values (MkMatches g s) n); [|discriminate Hv]. by rewrite orb_true_r.
  - intros a Ha Hr. specialize (H2 a (Hin _ _ Ha)). rewrite Hr in H2. cbn [negb orb] in H2. by apply bool_decide_eq_true in H2.
  - intros x Hx Hr. specialize (H3 x ltac:(by apply list_elem_of_In)). rewrite Hr in H3. cbn [negb orb] in H3.
    apply existsb_exists in H3 as (n & Hn & Hp). exists n. split; [by apply list_elem_of_In | exact Hp].
  - intros a Ha Hp Ht Hm. specialize (H4 a (Hin _ _ Ha)). change (present (MkMatches g s) (arg_name a) = true) in Hp. rewrite Hp, Ht, Hm in H4. cbn [negb orb] in H4.
    by apply bool_decide_eq_true in H4.
  - intros n Hn. destruct s as [[n' m']|]; [|done]. injection Hn as <-. apply existsb_exists in H5 as (a & Ha & Hb).
    apply andb_true_iff in Hb as [Hb Hc]. apply bool_decide_eq_true in Hb as <-. exists a, m'.
    split_and!; [by apply list_elem_of_In|done|by cbn; rewrite bool_decide_eq_true_2|by apply conformsb_spec].
  - intros n m' Hn. destruct s as [[n' m'']|]; [|done]. cbn in Hn |- *. case_bool_decide; [by subst | done].
Qed.
#[export] Instance clap_laws : ClapLaws clap.
Proof.
  intros app words m. cbn. destruct (matches _ _ _ _ _) as [m'|]; [|done]. destruct (conformsb app m') eqn:E; [|done].
  intros [= <-]. by apply conformsb_spec.
Qed.
End ToyClap.
