(* ===== verification/Commands.v ===== *)
(** * The commands

    [do_command] of [main.rs] with the functions it calls: every command of the
    prompt, over the session's state.  A line on the console is given by the
    text it begins with. *)

From S2P Require Import Prelude Str Errors Regex Crypto Address Message TxProof AddressBook Config WalletTypes BulkValidate Hasher VerifyProof WalletApi Scan Wallet Broker Json Parser Controller.
Local Open Scope Z_scope.

(** ** What the commands work with *)

(** The three channels.  A broker is a publisher with its subscriber; it lives
    in the world of threads and networks. *)
Inductive Channel : Type := ChGrinbox | ChMwcmqs | ChKeybase.
#[export] Instance Channel_eq_dec : EqDecision Channel.
Proof. solve_decision. Defined.
Definition channel_name (c : Channel) : str :=
  match c with ChGrinbox => lit "mwcmq" | ChMwcmqs => lit "mwcmqs" | ChKeybase => lit "keybase" end.

Class Brokers {L : CryptoLib} {SL : SlateLib} (N : Type) : Type := {
  Handle : Type;
  broker_new : Channel -> Wallet713Config -> stM N Error Handle;   (* [Publisher::new] and [Subscriber::new] *)
  broker_spawn : Handle -> stM N Error ();                         (* the thread that listens *)
  broker_running : Handle -> N -> bool;
  broker_stop : Handle -> stM N Error bool;
  broker_post : Handle -> Slate -> Address -> stM N Error ();
  http_post_text : str -> option str -> Slate -> stM N Error str;  (* url, secret, request *)
}.

(** The environment of the process and functions of crates. *)
Class ShellLib {L : CryptoLib} {SL : SlateLib} {W : WalletData} {D : DerivationLib} {WL : WalletLib} : Type := {
  prompt_password : str;                     (* what is typed at the password prompt *)
  env_var : str -> option str;
  file_ok : str -> bool;                     (* [File::create] and [remove_file] *)
  amount_from_hr_string : str -> option Z;
  tx_fee : nat -> nat -> nat -> Z;
  uuid_parse_str : str -> option str;
  deserialize_transaction : str -> option Transaction;
  hash_from_vec : str -> str;
  util_from_hex : str -> str + Error;
  view_of : World -> WalletView;
}.

Section commands.
Context {L : CryptoLib} {R : RegexEngine} {P : Platform} {E : ConfigEnv} {SL : SlateLib} {W : WalletData} {D : DerivationLib} {WL : WalletLib}
  {LC : LifeCycle} {PL : ProofLib} {ST : Serde TxProof} {SE : Serde EncryptedMessage} {K : KvStore} {J : ContactJson} {JT : JsonText} {SC : ScanLib} {SH : ShellLib} {CL : Clap}
  {N : Type} {B : Brokers N}.
Variable checks : bool.        (* whether overflow checks are compiled in *)
Variable pages : nat.          (* the fuel of a scan *)

Abbreviation S_ A := (stM Session Error A).
Abbreviation SC_ A := (stM (Cell * Session) Error A).

Record Shell : Type := {
  config : Wallet713Config;
  files : Files;
  ses : Session;
  book : Db;
  statics : Statics;
  brokers : Channel -> option Handle;
  out_is_safe : bool;
  net : N;
  out : list str;
}.
Abbreviation HM A := (stM Shell Error A).

Definition set_session (x : Session) (s : Shell) : Shell :=
  {| config := config s; files := files s; ses := x; book := book s; statics := statics s; brokers := brokers s;
     out_is_safe := out_is_safe s; net := net s; out := out s |}.
Definition set_config (c : Wallet713Config) (fs : Files) (s : Shell) : Shell :=
  {| config := c; files := fs; ses := ses s; book := book s; statics := statics s; brokers := brokers s;
     out_is_safe := out_is_safe s; net := net s; out := out s |}.
Definition set_book (b : Db) (s : Shell) : Shell :=
  {| config := config s; files := files s; ses := ses s; book := b; statics := statics s; brokers := brokers s;
     out_is_safe := out_is_safe s; net := net s; out := out s |}.
Definition set_statics (x : Statics) (s : Shell) : Shell :=
  {| config := config s; files := files s; ses := ses s; book := book s; statics := x; brokers := brokers s;
     out_is_safe := out_is_safe s; net := net s; out := out s |}.
Definition set_broker (c : Channel) (h : option Handle) (s : Shell) : Shell :=
  {| config := config s; files := files s; ses := ses s; book := book s; statics := statics s;
     brokers := fun c' => if bool_decide (c' = c) then h else brokers s c';
     out_is_safe := out_is_safe s; net := net s; out := out s |}.
Definition set_safe (b : bool) (s : Shell) : Shell :=
  {| config := config s; files := files s; ses := ses s; book := book s; statics := statics s; brokers := brokers s;
     out_is_safe := b; net := net s; out := out s |}.
Definition set_net (n : N) (s : Shell) : Shell :=
  {| config := config s; files := files s; ses := ses s; book := book s; statics := statics s; brokers := brokers s;
     out_is_safe := out_is_safe s; net := n; out := out s |}.
Definition add_out (l : str) (s : Shell) : Shell :=
  {| config := config s; files := files s; ses := ses s; book := book s; statics := statics s; brokers := brokers s;
     out_is_safe := out_is_safe s; net := net s; out := out s ++ [l] |}.

Definition get {A} (f : Shell -> A) : HM A := fun s => (Ok (f s), s).
Definition on_ses {A} (m : S_ A) : HM A := fun s => let '(r, x) := m (ses s) in (r, set_session x s).
Definition on_net {A} (m : stM N Error A) : HM A := fun s => let '(r, x) := m (net s) in (r, set_net x s).
Definition on_book {A} (m : stM Db Error A) : HM A := fun s => let '(r, x) := m (book s) in (r, set_book x s).
(** A wallet call on a slate the command owns: what it becomes. *)
Definition on_slate_cell {A} (x : Slate) (m : SC_ A) : HM (A * Slate) := fun s =>
  let '(r, (c, x')) := m ({| slate := x; tx_proof := None |}, ses s) in
  (a ← r; Ok (a, slate c), set_session x' s).
Definition println (l : str) : HM () := st_modify (add_out l).
Definition say (l : string) : HM () := println (lit l).
Definition safe (b : bool) : HM () := st_modify (set_safe b).
Definition err {A} (k : ErrorKind) : HM A := st_err (Kind k).
Definition external {A} (s : string) (o : option A) : HM A := st_lift (ok_or (External (lit s)) o).

(** *** Files *)

(** [x.replace("~", &home_dir)]. *)
Definition in_home (x : str) : str := replace x (lit "~") (default (lit "~") dirs_home_dir).
Definition read_file (path : str) : HM str :=
  t ← get (fun s => files s !! path); t ← external "io" t;
  if utf8_valid t then mret t else st_err (External (lit "io")).
Definition write_file (path text : str) : HM () := st_modify (fun s => set_config (config s) (<[path := text]> (files s)) s).
Definition create_file (path : str) : HM () := if file_ok path then write_file path [] else st_err (External (lit "io")).
Definition read_slate (path : str) : HM Slate := t ← read_file path; external "json" (deserialize_upgrade t).

(** *** Arguments *)

Definition arg (m : ArgMatches) (n : string) : option str := value_of m (lit n).
Definition has (m : ArgMatches) (n : string) : bool := is_present m (lit n).
(** [args.value_of(n).unwrap()]. *)
Definition the_arg (m : ArgMatches) (n : string) : HM str := st_lift (unwrap (arg m n)).
Definition number (w : Z) (s : str) (e : ErrorKind) : HM Z := st_lift (ok_or (Kind e) (from_str_radix w 10 s)).

Definition getpassword : str := default prompt_password (env_var (lit "MWC_PASSWORD")).
Definition password_prompt (opt : option str) : str := default getpassword opt.
Definition passphrase_of (m : ArgMatches) : str :=
  if has m "passphrase" then password_prompt (arg m "passphrase") else [].
Definition has_passphrase (m : ArgMatches) : bool := bool_decide (is_Some (arg m "passphrase")).

(** ** The address *)

Definition show_address (include_index : bool) : HM () :=
  c ← get config;
  _ ← st_lift (Config.show_address c);
  say "Your mwcmq address" ≫= fun _ =>
  if include_index then say "Derived with index [" else mret ().
Definition derive_address_key : HM () :=
  g ← get (fun s => brokers s ChGrinbox);
  match g with
  | Some _ => err HasListener
  | None =>
      c ← get config;
      key ← on_ses (Wallet_derive_address_key (grinbox_address_index c));
      st_modify (fun s => set_config (set_address_key key (config s)) (files s) s) ≫= fun _ =>
      show_address false
  end.

Definition config_args (m : ArgMatches) : ConfigArgs :=
  {| arg_data_path := arg m "data-path"; arg_domain := arg m "domain"; arg_port := arg m "port";
     arg_node_uri := arg m "node-uri"; arg_node_secret := arg m "node-secret" |}.
Definition on_config {A} (m : stM (Wallet713Config * Files) Error A) : HM A := fun s =>
  let '(r, (c, fs)) := m (config s, files s) in (r, set_config c fs s).
Definition cmd_config (args : ArgMatches) : HM () :=
  c ← get config;
  new_address_index ← st_lift (new_index checks (has args "generate-address") (arg args "generate-address-index") c);
  match new_address_index with
  | Some _ => st_modify (fun s => set_config (set_address_index new_address_index (config s)) (files s) s)
  | None => mret ()
  end ≫= fun _ =>
  on_config (assign_config (config_args args) new_address_index) ≫= fun _ =>
  match new_address_index with
  | Some _ => derive_address_key ≫= fun _ => say "Derived with index ["
  | None => mret ()
  end.

(** ** Opening and locking *)

(** [if keybase_broker.is_some() || grinbox_broker.is_some()]. *)
Definition has_listener (s : Shell) : bool :=
  bool_decide (is_Some (brokers s ChKeybase)) || bool_decide (is_Some (brokers s ChGrinbox)).
Definition no_listener : HM () := b ← get has_listener; if b : bool then err HasListener else mret ().
Definition warn_empty (passphrase : str) : HM () :=
  if bool_decide (passphrase = []) then say "WARNING: wallet with no passphrase." else mret ().
Definition default_account : str := lit "default".

Definition cmd_init (args : ArgMatches) : HM () :=
  safe false ≫= fun _ =>
  no_listener ≫= fun _ =>
  let passphrase := passphrase_of args in
  safe (negb (has_passphrase args)) ≫= fun _ =>
  warn_empty passphrase ≫= fun _ =>
  c ← get config;
  seed ← on_ses (init c passphrase true);
  say "Press ENTER when you have done so" ≫= fun _ =>
  on_ses (complete seed c default_account passphrase true) ≫= fun _ =>
  on_ses update_tip_as_last_scanned ≫= fun _ =>
  derive_address_key.

Definition cmd_lock : HM () := no_listener ≫= fun _ => on_ses lock.

Definition cmd_unlock (args : ArgMatches) : HM () :=
  let account := default default_account (arg args "account") in
  let passphrase := passphrase_of args in
  safe (negb (has_passphrase args)) ≫= fun _ =>
  w ← on_ses get_wal;
  if negb (is_locked w) then err WalletAlreadyUnlocked
  else
    c ← get config;
    on_ses (unlock c account passphrase) ≫= fun _ =>
    derive_address_key.

Definition cmd_account (args : ArgMatches) : HM () :=
  safe (negb (has_passphrase args)) ≫= fun _ =>
  match subcommand_matches args (lit "create"), subcommand_matches args (lit "switch"), subcommand_matches args (lit "rename") with
  | Some args, _, _ => name ← the_arg args "name"; on_ses (create_account name)
  | None, Some args, _ =>
      account ← the_arg args "name";
      c ← get config;
      on_ses (unlock c account (passphrase_of args))
  | None, None, Some args =>
      old_account ← the_arg args "old_account";
      new_account ← the_arg args "new_account";
      on_ses (rename_account old_account new_account)
  | None, None, None => mret ()
  end.

Definition restore_from_seed (c : Wallet713Config) (passphrase : str) : HM () :=
  seed ← on_ses (init c passphrase false);
  on_ses (complete seed c default_account passphrase true) ≫= fun _ =>
  on_ses restore_state.
Definition cmd_restore (args : ArgMatches) : HM () :=
  safe false ≫= fun _ =>
  no_listener ≫= fun _ =>
  let passphrase := passphrase_of args in
  safe (negb (has_passphrase args)) ≫= fun _ =>
  say "restoring..." ≫= fun _ =>
  c ← get config;
  restore_from_seed c passphrase ≫= fun _ =>
  on_ses update_tip_as_last_scanned ≫= fun _ =>
  derive_address_key ≫= fun _ =>
  warn_empty passphrase ≫= fun _ =>
  say "wallet restoration done!".

(** The words of the environment go before those of the command. *)
Definition recover_words (words : list str) : list str :=
  match env_var (lit "MWC_MNEMONIC") with Some envvar => split " "%char envvar | None => words end.
Definition cmd_recover (args : ArgMatches) : HM () :=
  safe false ≫= fun _ =>
  no_listener ≫= fun _ =>
  let passphrase := passphrase_of args in
  safe (negb (has_passphrase args)) ≫= fun _ =>
  match values_of args (lit "words") with
  | Some words =>
      say "recovering..." ≫= fun _ =>
      say (if env_var (lit "MWC_MNEMONIC") then "Recovering with environment variable words: " else "Recovering with commandline specified words: ") ≫= fun _ =>
      let words := recover_words words in
      c ← get config;
      on_ses (restore_seed c words passphrase) ≫= fun _ =>
      restore_from_seed c passphrase ≫= fun _ =>
      derive_address_key ≫= fun _ =>
      warn_empty passphrase ≫= fun _ =>
      say "wallet restoration done!" ≫= fun _ =>
      safe false
  | None =>
      if has args "display" then c ← get config; on_ses (show_mnemonic c passphrase)
      else mret ()
  end.

(** ** Listeners *)

Definition unlock_default : HM () :=
  w ← on_ses get_wal;
  if is_locked w then c ← get config; on_ses (unlock c default_account []) else mret ().
(** The key of the address the listener is for. *)
Definition listener_address (c : Wallet713Config) (ch : Channel) : result () :=
  match ch with
  | ChMwcmqs => _ ← get_mwcmqs_address c; _ ← get_mwcmqs_secret_key c; Ok ()
  | ChGrinbox => _ ← get_grinbox_address c; _ ← get_grinbox_secret_key c; Ok ()
  | ChKeybase => Ok ()
  end.
(** [start_mwcmqs_listener], [start_grinbox_listener], [start_keybase_listener]. *)
Definition start_listener (ch : Channel) : HM Handle :=
  unlock_default ≫= fun _ =>
  println (lit "starting " ++ channel_name ch ++ lit " listener...") ≫= fun _ =>
  c ← get config;
  _ ← st_lift (listener_address c ch);
  h ← on_net (broker_new ch c);
  on_net (broker_spawn h) ≫= fun _ =>
  mret h.

Definition is_running (ch : Channel) (s : Shell) : bool :=
  match brokers s ch with Some h => broker_running h (net s) | None => false end.
Definition listen_on (ch : Channel) : HM () :=
  running ← get (is_running ch);
  if running : bool then err (AlreadyListening (channel_name ch))
  else h ← start_listener ch; st_modify (set_broker ch (Some h)).
Definition stop_on (ch : Channel) : HM () :=
  running ← get (is_running ch);
  if running : bool then
    println (lit "stopping " ++ channel_name ch ++ lit " listener...") ≫= fun _ =>
    h ← get (fun s => brokers s ch);
    success ← match h with Some h => on_net (broker_stop h) | None => mret false end;
    if bool_decide (ch <> ChMwcmqs) || success then st_modify (set_broker ch None)
    else say "WARNING: Could not contact mwcmqs. Network down?"
  else err (ClosedListener (channel_name ch)).
(** The channels a command is for, in the order they are handled in. *)
Definition channels_of (args : ArgMatches) : list Channel :=
  (if has args "grinbox" then [ChGrinbox] else []) ++
  (if has args "mwcmqs" || (negb (has args "keybase") && negb (has args "grinbox")) then [ChMwcmqs] else []) ++
  (if has args "keybase" then [ChKeybase] else []).
Fixpoint each (f : Channel -> HM ()) (l : list Channel) : HM () :=
  match l with [] => mret () | c :: l => f c ≫= fun _ => each f l end.
Definition cmd_listen (args : ArgMatches) : HM () := each listen_on (channels_of args).
Definition cmd_stop (args : ArgMatches) : HM () := each stop_on (channels_of args).

(** ** Information *)

Definition cmd_info (args : ArgMatches) : HM () :=
  let confirmations := default (lit "10") (arg args "confirmations") in
  n ← number 64 confirmations (InvalidMinConfirmations confirmations);
  on_ses (Wallet_info (negb (has args "--no-refresh")) n).
Definition debug_number (n : Z) : HM () := println (to_dec n).
Definition cmd_txs_count : HM () := n ← on_ses txs_count; debug_number (Z.of_nat n).

Definition positive (n : Z) : option Z := if 0 <? n then Some n else None.
(** The length and the start of a page; the second error names the length. *)
Definition pagination (args : ArgMatches) : HM (option Z * option Z) :=
  let length_ := default (lit "0") (arg args "length") in
  let offset := default (lit "0") (arg args "offset") in
  length_ ← number 32 length_ (InvalidPaginationLength length_);
  offset ← number 32 offset (InvalidPaginationStart (to_dec length_));
  mret (positive length_, positive offset).
Definition cmd_txs (args : ArgMatches) : HM () :=
  tx_id_ ← match arg args "id" with
           | Some s => i ← number 32 s (InvalidTxIdNumber s); mret (Some i)
           | None => mret None
           end;
  tx_slate_id_ ← match arg args "txid" with
                 | Some s => u ← st_lift (ok_or (Kind (InvalidTxUuid s)) (uuid_parse_str s)); mret (Some u)
                 | None => mret None
                 end;
  '(pagination_length, pagination_start) ← pagination args;
  on_ses (txs (negb (has args "no-refresh")) (has args "full") pagination_start pagination_length tx_id_ tx_slate_id_).
Definition on_files (m : Files -> result () * Files) : HM () := fun s =>
  let '(r, fs) := m (files s) in (r, set_config (config s) fs s).
Definition Wallet_txs_bulk_validate (kernels_fn outputs_fn result_fn : str) : HM () :=
  on_ses (with_wallet (wallet_lock (mret ()))) ≫= fun _ =>
  view ← get (fun s => view_of (world (inst (ses s))));
  on_files (txs_bulk_validate checks file_ok view kernels_fn outputs_fn result_fn).
Definition cmd_txs_bulk_validate (args : ArgMatches) : HM () :=
  kernels_fn ← the_arg args "kernels";
  outputs_fn ← the_arg args "outputs";
  result_fn ← the_arg args "result";
  Wallet_txs_bulk_validate kernels_fn outputs_fn result_fn ≫= fun _ =>
  say "Please check results in CSV format at ".
Definition cmd_output_count (args : ArgMatches) : HM () :=
  n ← on_ses (all_output_count (has args "show-spent")); debug_number (Z.of_nat n).
Definition cmd_outputs (args : ArgMatches) : HM () :=
  '(pagination_length, pagination_start) ← pagination args;
  on_ses (outputs (negb (has args "no-refresh")) (has args "show-spent") pagination_start pagination_length).

Definition cmd_contacts (args : ArgMatches) : HM () :=
  match subcommand_matches args (lit "add"), subcommand_matches args (lit "remove") with
  | Some add_args, _ => name ← the_arg add_args "name"; address ← the_arg add_args "address"; on_book (do_contacts_add name address)
  | None, Some add_args => name ← the_arg add_args "name"; on_book (do_contacts_remove name)
  | None, None => lines ← get (fun s => do_contacts_list (book s)); st_modify (fun s => foldl (fun s l => add_out l s) s lines)
  end.

(** [id.parse::<u32>()]. *)
Definition id_of (args : ArgMatches) : HM Z := id ← the_arg args "id"; number 32 id (InvalidTxId id).
Definition cmd_repost (args : ArgMatches) : HM () := id ← id_of args; on_ses (repost id false).
Definition cmd_cancel (args : ArgMatches) : HM () := id ← id_of args; on_ses (cancel id).
Definition cmd_getnextkey (args : ArgMatches) : HM () :=
  amount ← st_lift (unwrap (from_str_radix 64 10 (default (lit "0") (arg args "amount"))));
  if amount <=? 0 then say "Error: amount greater than 0 must be specified" else on_ses (Wallet_getnextkey amount).
Definition cmd_check (args : ArgMatches) : HM () :=
  let start_height := default (lit "1") (arg args "start_height") in
  n ← number 64 start_height (InvalidNumOutputs start_height);
  listening ← get (fun s => has_listener s || bool_decide (is_Some (brokers s ChMwcmqs)));
  if listening : bool then err HasListener
  else
    say "checking and repairing..." ≫= fun _ =>
    on_ses (Wallet_check_repair n (negb (has args "--no-delete_unconfirmed"))) ≫= fun _ =>
    say "check and repair done!".
Definition cmd_sync : HM () :=
  synced ← on_ses Wallet_sync;
  say (if synced : bool then "Your wallet data successfully synchronized with a node" else "Warning: Unable to sync wallet with a node").
Definition cmd_dump (args : ArgMatches) : HM () := on_ses (Wallet_dump_wallet_data (in_home <$> arg args "file")).
Definition cmd_set_recv (args : ArgMatches) : HM () :=
  account ← the_arg args "account";
  exists_ ← st_match (on_ses (account_exists account)) mret (fun _ => st_lift Panic);
  if exists_ : bool then
    st_modify (set_statics {| RECV_ACCOUNT := Some account; RECV_PASS := arg args "password" |}) ≫= fun _ =>
    say "Incoming funds will be received in account: "
  else say "Account ".
(** The wallet need not be open. *)
Definition Wallet_verifysignature (message signature pubkey : str) : result str :=
  map_err to_generic (verifysignature hash_from_vec util_from_hex message signature pubkey).
Definition cmd_verifysignature (args : ArgMatches) : HM () :=
  message ← the_arg args "message";
  signature ← the_arg args "signature";
  pubkey ← the_arg args "pubkey";
  line ← st_lift (Wallet_verifysignature message signature pubkey);
  println line.

(** ** Slates in files *)

(** The lines of a file of numbers; an empty one is none. *)
Definition output_amounts (text : str) : result (list Z) :=
  mapM (fun l => ok_or (External (lit "parse")) (from_str_radix 64 10 (trim l))) (text_lines text).
Definition recv_account (s : Shell) : option str := RECV_ACCOUNT (statics s).
Definition unlock_recv (c : Wallet713Config) (account : str) : HM () :=
  st ← get statics; on_ses (unlock c account (default [] (RECV_PASS st))).
(** The slate is processed on the account payments are received on. *)
Definition receive_slate (key_id : option str) (amounts : option (list Z)) (x : Slate) : HM Slate :=
  w ← on_ses get_wal;
  c ← get config;
  recv ← get recv_account;
  match recv with Some dst_account => unlock_recv c dst_account | None => mret () end ≫= fun _ =>
  '(_, x) ← on_slate_cell x (process_sender_initiated_slate (Some (lit "file")) key_id amounts (Some (default (active_account w) recv)));
  match recv with Some _ => unlock_recv c (active_account w) | None => mret () end ≫= fun _ =>
  mret x.
Definition cmd_receive (args : ArgMatches) : HM () :=
  input ← the_arg args "file";
  x ← read_slate (in_home input);
  let response := in_home input ++ lit ".response" in
  create_file response ≫= fun _ =>
  amounts ← match arg args "recv_file" with
            | Some rfile => text ← read_file (in_home rfile); l ← st_lift (output_amounts text); mret (Some l)
            | None => mret None
            end;
  x ← receive_slate (arg args "key_id") amounts x;
  _ ← st_lift (unwrap (head (participant_data x)));
  println (input ++ lit " received. amount = [") ≫= fun _ =>
  text ← external "json" (slate_to_json x);
  write_file response text ≫= fun _ =>
  println (input ++ lit ".response created successfully.").
Definition cmd_showpubkeys (args : ArgMatches) : HM () :=
  input ← the_arg args "file";
  x ← read_slate (in_home input);
  st_modify (fun s => foldl (fun s p => add_out (lit "pubkey[" ++ fst p) s) s (participant_data x)).
Definition cmd_finalize (args : ArgMatches) : HM () :=
  input ← the_arg args "file";
  x ← read_slate (in_home input);
  _ ← on_slate_cell x finalize_slate;
  println (input ++ lit " finalized.").
Definition cmd_submit (args : ArgMatches) : HM () :=
  input ← the_arg args "file";
  txn_file ← read_file (in_home input);
  tx_bin ← st_lift (of_lib (util_from_hex txn_file));
  txn ← external "ser" (deserialize_transaction tx_bin);
  on_ses (submit txn).

(** ** Sending *)

Definition http_rejected : HM Slate := err HttpRequest.
(** The name shown and the address: a contact's, or what was typed. *)
Definition destination_of (to : str) : HM (option str * Address) :=
  '(display_to, to) ← match to with
    | "@"%char :: name => contact ← on_book (get_contact name); mret (Some (get_name contact), get_address contact)
    | _ => mret (None, to)
    end;
  address ← st_lift (contact_address_of to);
  shown ← match display_to with Some n => mret n | None => st_lift (Address_stripped address) end;
  mret (Some shown, address).
Definition with_broker {A} (ch : Channel) (f : Handle -> HM A) : HM A :=
  b ← get (fun s => brokers s ch);
  match b with Some h => f h | None => err (ClosedListener (channel_name ch)) end.
(** The slate goes out; over http the answer is another slate. *)
Definition deliver_slate (apisecret : option str) (x : Slate) (to : Address) : HM Slate :=
  match address_type to with
  | MWCMQS => with_broker ChMwcmqs (fun h =>
      a ← st_lift (MWCMQSAddress_from_str (Address_display to));
      on_net (broker_post h x (AMWCMQS a)) ≫= fun _ => mret x)
  | Keybase => with_broker ChKeybase (fun h =>
      a ← st_lift (KeybaseAddress_from_str (Address_display to));
      on_net (broker_post h x (AKeybase {| username := username a; topic := Some (lit "grin_slate_new") |})) ≫= fun _ => mret x)
  | Grinbox => with_broker ChGrinbox (fun h => on_net (broker_post h x to) ≫= fun _ => mret x)
  | Https =>
      let url := Address_display to ++ lit "/v2/foreign" in
      if url_parse_ok url then
        text ← on_net (http_post_text url apisecret x);
        res ← st_lift (unwrap (value_of_text text));
        if is_null (member (lit "error") res) then
          text ← st_lift (unwrap (text_of_value (members [lit "result"; lit "Ok"] res)));
          external "json" (deserialize_upgrade text)
        else http_rejected
      else st_err (External (lit "url"))
  end.

(** What the arguments of [send] say, up to the amount. *)
Record SendArgs : Type := {
  strategy : str;
  routputs : Z;
  output_list : option (list str);
  confirmations : Z;
  change_outputs : Z;
  version : option Z;
}.
Definition strategies : list str := [lit "smallest"; lit "all"; lit "custom"].
Definition send_args (args : ArgMatches) : result SendArgs :=
  let strategy := default (lit "smallest") (arg args "strategy") in
  if negb (bool_decide (strategy ∈ strategies)) then fail InvalidStrategy else
  routputs ← ok_or (External (lit "parse")) (from_str_radix 64 10 (default (lit "1") (arg args "routputs")));
  output_list ← match arg args "outputs", bool_decide (strategy = lit "custom") with
                | None, true => fail CustomWithNoOutputs
                | None, false => Ok None
                | Some _, false => fail NonCustomWithOutputs
                | Some l, true => Ok (Some (split ","%char l))
                end;
  let confirmations := default (lit "10") (arg args "confirmations") in
  n ← ok_or (Kind (InvalidMinConfirmations confirmations)) (from_str_radix 64 10 confirmations);
  if n <? 1 then fail ZeroConfNotAllowed else
  let change := default (lit "1") (arg args "change-outputs") in
  change_outputs ← ok_or (Kind (InvalidNumOutputs change)) (from_str_radix 32 10 change);
  version ← match arg args "version" with
            | Some v => v ← ok_or (Kind (InvalidSlateVersion v)) (from_str_radix 16 10 v); Ok (Some v)
            | None => Ok None
            end;
  Ok {| strategy := strategy; routputs := routputs; output_list := output_list; confirmations := n;
        change_outputs := change_outputs; version := version |}.
(** [ALL]: everything that can be spent, less the fee for one change and one
    kernel. *)
Definition send_amount (a : SendArgs) (amount : str) : HM Z :=
  if bool_decide (amount = lit "ALL") then
    max_available ← on_ses (output_count true (confirmations a) (output_list a));
    total_value ← on_ses (total_value checks false (confirmations a) (output_list a));
    let fee := tx_fee max_available 1 1 in
    mret (if fee <=? total_value then total_value - fee else 0)
  else st_lift (ok_or (Kind (InvalidAmount amount)) (amount_from_hr_string amount)).
Definition initiate (a : SendArgs) (address : str) (amount : Z) (message : option str) (routputs : Z) : HM Slate :=
  on_ses (initiate_send_tx (Some address) amount (confirmations a) (strategy a) (change_outputs a) 500 message (output_list a)
    (version a) (Z.to_nat routputs)).

Definition send_to_file (a : SendArgs) (amount : Z) (message : option str) (input : str) : HM () :=
  create_file (in_home input) ≫= fun _ =>
  x ← initiate a (lit "file") amount message (routputs a);
  text ← external "json" (slate_to_json x);
  write_file (in_home input) text ≫= fun _ =>
  on_ses (Wallet_tx_lock_outputs x (Some (lit "file")) 0) ≫= fun _ =>
  println (input ++ lit " created successfully.").
Definition send_to (a : SendArgs) (amount : Z) (message apisecret : option str) (to : str) : HM () :=
  '(display_to, to) ← destination_of to;
  let address := Address_display to in
  x ← initiate a address amount message 1;
  on_ses (on_instance stop_printer) ≫= fun _ =>
  x ← deliver_slate apisecret x to;
  on_ses (Wallet_tx_lock_outputs x (Some address) 0) ≫= fun _ =>
  id ← on_ses (get_id (slate_id x));
  println (lit "txid=" ++ to_dec id) ≫= fun _ =>
  shown ← st_lift (unwrap display_to);
  println (lit "slate [" ++ slate_id x ++ lit "] for [") ≫= fun _ =>
  match address_type to with
  | Https =>
      _ ← on_slate_cell x finalize_slate;
      println (lit "slate [" ++ slate_id x ++ lit "] finalized successfully")
  | _ => mret ()
  end.
(** The thread that prints the progress is stopped only on the way to an
    address. *)
Definition cmd_send (args : ArgMatches) : HM () :=
  let message := arg args "message" in
  let apisecret := arg args "apisecret" in
  a ← st_lift (send_args args);
  amount ← the_arg args "amount";
  amount ← send_amount a amount;
  on_ses (on_instance start_printer) ≫= fun _ =>
  match arg args "file" with
  | Some input => send_to_file a amount message input
  | None => to ← the_arg args "to"; send_to a amount message apisecret to
  end.

Definition channel_of (a : Address) : option Channel :=
  match address_type a with Grinbox => Some ChGrinbox | MWCMQS => Some ChMwcmqs | Keybase => Some ChKeybase | Https => None end.
Definition cmd_invoice (args : ArgMatches) : HM () :=
  to ← the_arg args "to";
  let outputs := default (lit "1") (arg args "outputs") in
  n ← number 64 outputs (InvalidNumOutputs outputs);
  amount ← the_arg args "amount";
  amount ← st_lift (ok_or (Kind (InvalidAmount amount)) (amount_from_hr_string amount));
  '(display_to, to) ← destination_of to;
  x ← on_ses (Wallet_initiate_receive_tx (Some (Address_display to)) amount (Z.to_nat n));
  match channel_of to with
  | Some ch => with_broker ch (fun h => on_net (broker_post h x to))
  | None => err HttpRequest
  end ≫= fun _ =>
  shown ← st_lift (unwrap display_to);
  println (lit "invoice slate [" ++ slate_id x ++ lit "] for [").

(** ** Keys and proofs *)

Fixpoint read_keys (lines : list str) : HM (list PublicKey) :=
  match lines with
  | [] => mret []
  | l :: lines =>
      if bool_decide (l = []) then read_keys lines
      else st_match (st_lift (pk_of_hex l))
             (fun pk => pks ← read_keys lines; mret (pk :: pks))
             (fun _ => println (lit "WARNING: unable to read a public key `" ++ l) ≫= fun _ => read_keys lines)
  end.
Definition remove_output (output_fn : str) : HM () :=
  there ← get (fun s => bool_decide (is_Some (TxProof.files (proofs (inst (ses s))) !! [output_fn])));
  if negb there then mret ()
  else if file_ok output_fn then
    on_ses (on_instance (on_proofs (st_modify (fun p =>
      {| TxProof.dirs := TxProof.dirs p; TxProof.files := delete [output_fn] (TxProof.files p) |}))))
  else err (FileUnableToDelete output_fn).
Definition cmd_scan_outputs (args : ArgMatches) : HM () :=
  pub_key_file ← the_arg args "pubkey_file";
  text ← get (fun s => files s !! pub_key_file);
  text ← st_lift (ok_or (Kind (FileNotFound pub_key_file)) text);
  let output_fn := pub_key_file ++ lit ".commits" in
  remove_output output_fn ≫= fun _ =>
  (if utf8_valid text then mret () else err (FileNotFound pub_key_file)) ≫= fun _ =>
  pub_keys ← read_keys (text_lines text);
  say "Scaning outputs for " ≫= fun _ =>
  on_ses (Wallet_scan_outputs checks pages pub_keys output_fn) ≫= fun _ =>
  say "scanning of the outputs is completed! result file location: ".

Definition proof_ok (sender : option str) (receiver : str) (amount : Z) (outputs : list str) (kernel : str) : HM () :=
  let explorer := if is_mainnet then lit "https://explorer.mwc.mw/#" else lit "https://explorer.floonet.mwc.mw/#" in
  let line (kind : string) (x : str) := lit "   " ++ x ++ lit ": " ++ explorer ++ lit kind ++ x in
  st_modify (fun s => foldl (fun s l => add_out l s) s (
    [lit "this file proves that [" ++ amount_to_hr_string amount false ++ lit "] MWCs was sent to [" ++ receiver ++ lit "]" ++
       match sender with Some x => lit " from [" ++ x ++ lit "]" | None => [] end] ++
    match sender with
    | None => [lit "WARNING: this proof does not prove which address sent the funds, only which received it"]
    | Some _ => []
    end ++
    [lit "outputs:"] ++ map (line "o"%string) outputs ++ [lit "kernel:"; line "k"%string kernel;
     lit "WARNING: this proof should only be considered valid if the kernel is actually on-chain with sufficient confirmations"])).
Definition cmd_export_proof (args : ArgMatches) : HM () :=
  input ← the_arg args "file";
  id ← id_of args;
  tx_proof ← on_ses (get_tx_proof id);
  st_match (st_lift (Wallet_verify_tx_proof tx_proof))
    (fun '(sender, receiver, amount, outputs, kernel) =>
       create_file (in_home input) ≫= fun _ =>
       text ← external "json" (to_json tx_proof);
       write_file (in_home input) text ≫= fun _ =>
       println (lit "proof written to " ++ input) ≫= fun _ =>
       proof_ok sender receiver amount outputs kernel)
    (fun _ => say "unable to verify proof").
Definition cmd_verify_proof (args : ArgMatches) : HM () :=
  input ← the_arg args "file";
  there ← get (fun s => bool_decide (is_Some (files s !! in_home input)));
  if negb there then err (FileNotFound input)
  else
    proof ← read_file (in_home input);
    tx_proof ← external "json" (of_json proof);
    st_match (st_lift (Wallet_verify_tx_proof tx_proof))
      (fun '(sender, receiver, amount, outputs, kernel) => proof_ok sender receiver amount outputs kernel)
      (fun _ => say "unable to verify proof").

(** ** The dispatch *)

(** The commands of the declarations, and whatever else clap may report. *)
Definition table : list (string * (ArgMatches -> HM ())) :=
  [("config", cmd_config); ("address", fun _ => show_address true); ("init", cmd_init); ("lock", fun _ => cmd_lock);
   ("unlock", cmd_unlock); ("accounts", fun _ => on_ses list_accounts); ("account", cmd_account);
   ("listen", cmd_listen); ("stop", cmd_stop); ("info", cmd_info); ("txs_count", fun _ => cmd_txs_count); ("txs", cmd_txs);
   ("txs-bulk-validate", cmd_txs_bulk_validate); ("contacts", cmd_contacts); ("output_count", cmd_output_count);
   ("outputs", cmd_outputs); ("repost", cmd_repost); ("cancel", cmd_cancel); ("getnextkey", cmd_getnextkey);
   ("receive", cmd_receive); ("showpubkeys", cmd_showpubkeys); ("finalize", cmd_finalize); ("submit", cmd_submit);
   ("nodeinfo", fun _ => on_ses Wallet_node_info); ("send", cmd_send); ("invoice", cmd_invoice); ("restore", cmd_restore);
   ("recover", cmd_recover); ("check", cmd_check); ("sync", fun _ => cmd_sync); ("dump-wallet-data", cmd_dump);
   ("set-recv", cmd_set_recv); ("getrootpublickey", fun args => on_ses (getrootpublickey (arg args "message")));
   ("verifysignature", cmd_verifysignature); ("scan_outputs", cmd_scan_outputs); ("export-proof", cmd_export_proof);
   ("verify-proof", cmd_verify_proof)]%string.
Definition run_command (name : str) (args : ArgMatches) : HM () :=
  match find (fun c => bool_decide (lit c.1 = name)) table with
  | Some (_, f) => f args
  | None => println (lit "ERROR: subcommand `" ++ name ++ lit "` not implemented!")
  end.
Definition do_command (line : str) : HM () :=
  safe true ≫= fun _ =>
  m ← st_lift (Parser_parse line);
  match subcommand_name m with
  | None => mret ()
  | Some name => args ← st_lift (unwrap (subcommand_matches m name)); run_command name args
  end.
End commands.

(** ** What keeps the line out of the history *)

Section history.
Context {L : CryptoLib} {R : RegexEngine} {P : Platform} {E : ConfigEnv} {SL : SlateLib} {W : WalletData} {D : DerivationLib} {WL : WalletLib}
  {LC : LifeCycle} {PL : ProofLib} {ST : Serde TxProof} {SE : Serde EncryptedMessage} {K : KvStore} {J : ContactJson} {JT : JsonText} {SC : ScanLib} {SH : ShellLib} {CL : Clap}
  {N : Type} {B : Brokers N}.
Context (checks : bool) (pages : nat).
Abbreviation HM A := (stM (Shell (N := N)) Error A).

(** [m] leaves a part of the state alone; most of what the commands call works
    on the session, the network, the contacts and the console only. *)
Definition keeps {X} (π : Shell -> X) {A} (m : HM A) : Prop := forall s, π (snd (m s)) = π s.
Class Steady {X} (π : Shell (N := N) -> X) : Prop := {
  steady_ses x s : π (set_session x s) = π s;
  steady_net n s : π (set_net n s) = π s;
  steady_book b s : π (set_book b s) = π s;
  steady_out l s : π (add_out l s) = π s;
}.

Section steady.
Context {X} (π : Shell -> X) {S : Steady π}.
Lemma keeps_ret {A} (a : A) : keeps π (mret a).
Proof. done. Qed.
Lemma keeps_lift {A} (r : result A) : keeps π (st_lift r).
Proof. done. Qed.
Lemma keeps_err {A} e : keeps π (A := A) (st_err e).
Proof. done. Qed.
Lemma keeps_get {A} (f : Shell -> A) : keeps π (get f).
Proof. done. Qed.
Lemma keeps_bind {A B'} (m : HM A) (f : A -> HM B') : keeps π m -> (forall a, keeps π (f a)) -> keeps π (m ≫= f).
Proof.
  intros Hm Hf s. unfold mbind, stM_bind. specialize (Hm s). destruct (m s) as [[a|e| |] s1]; cbn in Hm |- *; [|done..].
  by rewrite Hf.
Qed.
Lemma keeps_match {A B'} (m : HM A) (f : A -> HM B') g : keeps π m -> (forall a, keeps π (f a)) -> (forall e, keeps π (g e)) -> keeps π (st_match m f g).
Proof.
  intros Hm Hf Hg s. unfold st_match. specialize (Hm s). destruct (m s) as [[a|e| |] s1]; cbn in Hm |- *; [by rewrite Hf|by rewrite Hg|done..].
Qed.
Lemma keeps_modify f : (forall s, π (f s) = π s) -> keeps π (st_modify f).
Proof. intros H s. apply H. Qed.
Lemma keeps_println l : keeps π (println l).
Proof. intros s. apply steady_out. Qed.
Lemma keeps_ses {A} (m : stM Session Error A) : keeps π (on_ses m).
Proof. intros s. unfold on_ses. destruct (m (ses s)). apply steady_ses. Qed.
Lemma keeps_net {A} (m : stM N Error A) : keeps π (on_net m).
Proof. intros s. unfold on_net. destruct (m (net s)). apply steady_net. Qed.
Lemma keeps_book {A} (m : stM Db Error A) : keeps π (on_book m).
Proof. intros s. unfold on_book. destruct (m (book s)). apply steady_book. Qed.
Lemma keeps_cell {A} x (m : stM (Cell * Session) Error A) : keeps π (on_slate_cell x m).
Proof. intros s. unfold on_slate_cell. destruct (m _) as [r [c y]]. apply steady_ses. Qed.
Lemma keeps_fold {A} (f : A -> str) l : keeps π (st_modify (fun s => foldl (fun s x => add_out (f x) s) s l)).
Proof.
  apply keeps_modify. intros s. revert s. induction l as [|x l IH]; intros s; cbn; [done|]. rewrite IH. apply steady_out.
Qed.
End steady.
#[export] Instance steady_safe : Steady out_is_safe.
Proof. done. Qed.
#[export] Instance steady_brokers : Steady brokers.
Proof. done. Qed.
Lemma keeps_config {A} (m : stM (Wallet713Config * Files) Error A) : keeps out_is_safe (on_config m).
Proof. intros s. unfold on_config. by destruct (m _) as [r [c fs]]. Qed.
End history.
Create HintDb keeps.
#[export] Hint Resolve steady_safe steady_brokers : keeps.
#[export] Hint Resolve keeps_ret keeps_lift keeps_err keeps_get keeps_match keeps_println keeps_ses keeps_net keeps_book keeps_config keeps_cell : keeps.
#[export] Hint Extern 1 (keeps _ (_ ≫= _)) => apply keeps_bind; [|intros] : keeps.
#[export] Hint Extern 1 (keeps _ (st_modify (fun s => foldl _ s _))) => first [exact (keeps_fold _ (fun x => x) _) | exact (keeps_fold _ _ _)] : keeps.
#[export] Hint Extern 2 (keeps _ (st_modify _)) => apply keeps_modify; done : keeps.
#[export] Hint Extern 2 (keeps _ (if ?b then _ else _)) => destruct b : keeps.
#[export] Hint Extern 2 (keeps _ (match ?x with _ => _ end)) => destruct x : keeps.
#[export] Hint Extern 3 (keeps _ (err _)) => apply keeps_err : keeps.
#[export] Hint Extern 3 (keeps _ (external _ _)) => apply keeps_lift : keeps.
#[export] Hint Extern 3 (keeps _ (number _ _ _)) => apply keeps_lift : keeps.
#[export] Hint Extern 3 (keeps _ (the_arg _ _)) => apply keeps_lift : keeps.
#[export] Hint Extern 3 (keeps _ (say _)) => unfold say; apply keeps_println : keeps.
#[export] Hint Extern 3 (keeps _ (write_file _ _)) => apply keeps_modify; done : keeps.

Section history_commands.
Context {L : CryptoLib} {R : RegexEngine} {P : Platform} {E : ConfigEnv} {SL : SlateLib} {W : WalletData} {D : DerivationLib} {WL : WalletLib}
  {LC : LifeCycle} {PL : ProofLib} {ST : Serde TxProof} {SE : Serde EncryptedMessage} {K : KvStore} {J : ContactJson} {JT : JsonText} {SC : ScanLib} {SH : ShellLib} {CL : Clap}
  {N : Type} {B : Brokers N}.
Context (checks : bool) (pages : nat).
Abbreviation HM A := (stM (Shell (N := N)) Error A).
Ltac keeps_tac := eauto 60 with keeps.

Lemma keeps_show_address b : keeps (N := N) out_is_safe (show_address b).
Proof. unfold show_address. keeps_tac. Qed.
Hint Resolve keeps_show_address : keeps.
Lemma keeps_derive : keeps (N := N) out_is_safe derive_address_key.
Proof. unfold derive_address_key. keeps_tac. Qed.
Hint Resolve keeps_derive : keeps.
Lemma keeps_read_file p : keeps (N := N) out_is_safe (read_file p).
Proof. unfold read_file. keeps_tac. Qed.
Hint Resolve keeps_read_file : keeps.
Lemma keeps_read_slate p : keeps (N := N) out_is_safe (read_slate p).
Proof. unfold read_slate. keeps_tac. Qed.
Hint Resolve keeps_read_slate : keeps.
Lemma keeps_create_file p : keeps (N := N) out_is_safe (create_file p).
Proof. unfold create_file. keeps_tac. Qed.
Hint Resolve keeps_create_file : keeps.
Lemma keeps_warn p : keeps (N := N) out_is_safe (warn_empty p).
Proof. unfold warn_empty. keeps_tac. Qed.
Lemma keeps_restore_seed c p : keeps (N := N) out_is_safe (restore_from_seed c p).
Proof. unfold restore_from_seed. keeps_tac. Qed.
Hint Resolve keeps_warn keeps_restore_seed : keeps.
Lemma keeps_id args : keeps (N := N) out_is_safe (id_of args).
Proof. unfold id_of. keeps_tac. Qed.
Lemma keeps_pagination args : keeps (N := N) out_is_safe (pagination args).
Proof. unfold pagination. keeps_tac. Qed.
Hint Resolve keeps_id keeps_pagination : keeps.
Lemma keeps_listen_on ch : keeps (N := N) out_is_safe (listen_on ch).
Proof. unfold listen_on, start_listener, unlock_default. keeps_tac. Qed.
Lemma keeps_stop_on ch : keeps (N := N) out_is_safe (stop_on ch).
Proof. unfold stop_on. keeps_tac. Qed.
Lemma keeps_each f l : (forall c, keeps out_is_safe (f c)) -> keeps (N := N) out_is_safe (each f l).
Proof. intros Hf. induction l as [|c l IH]; cbn [each]; keeps_tac. Qed.
Hint Resolve keeps_listen_on keeps_stop_on keeps_each : keeps.
Lemma keeps_destination to : keeps (N := N) out_is_safe (destination_of to).
Proof. unfold destination_of. apply keeps_bind; [|keeps_tac]. destruct to as [|[[] [] [] [] [] [] [] []] to]; keeps_tac. Qed.
Lemma keeps_broker {A} ch (f : Handle -> HM A) : (forall h, keeps out_is_safe (f h)) -> keeps out_is_safe (with_broker ch f).
Proof. intros Hf. unfold with_broker. keeps_tac. Qed.
Hint Resolve keeps_destination keeps_broker : keeps.
Lemma keeps_deliver a x to : keeps (N := N) out_is_safe (deliver_slate a x to).
Proof. unfold deliver_slate, http_rejected. keeps_tac. Qed.
Hint Resolve keeps_deliver : keeps.
Lemma keeps_send args : keeps (N := N) out_is_safe (cmd_send checks args).
Proof. unfold cmd_send, send_to, send_to_file, send_amount, initiate. keeps_tac. Qed.
Lemma keeps_receive args : keeps (N := N) out_is_safe (cmd_receive args).
Proof. unfold cmd_receive, receive_slate, unlock_recv. keeps_tac. Qed.
Lemma keeps_read_keys lines : keeps (N := N) out_is_safe (read_keys lines).
Proof. induction lines as [|l lines IH]; cbn [read_keys]; keeps_tac. Qed.
Lemma keeps_remove fn : keeps (N := N) out_is_safe (remove_output fn).
Proof. unfold remove_output. keeps_tac. Qed.
Lemma keeps_proof_ok a b c d e : keeps (N := N) out_is_safe (proof_ok a b c d e).
Proof. unfold proof_ok. cbv zeta. keeps_tac. Qed.
Hint Resolve keeps_send keeps_receive keeps_read_keys keeps_remove keeps_proof_ok : keeps.
(** The commands that decide about the flag. *)
Definition deciding : list str := [lit "init"; lit "unlock"; lit "restore"; lit "recover"].
(** The passphrase of [account switch] is none of [account]. *)
Lemma account_passphrase args : conforms app_account args -> has_passphrase args = false.
Proof.
  intros Hc. unfold has_passphrase, arg. destruct (value_of args (lit "passphrase")) as [v|] eqn:Ev; [|done].
  inversion Hc as [? ? H1 H2 _ _ _ H6 _]; subst. apply H2, H1 in Ev. destruct Ev as [Ev|[Ev|Ev]].
  - by apply elem_of_nil in Ev.
  - by apply elem_of_nil in Ev.
  - destruct (H6 _ Ev) as (app' & m' & Hin & Hn & _). cbn in Hin.
    rewrite !elem_of_cons, elem_of_nil in Hin. destruct_or? Hin; subst; done.
Qed.
Lemma account_safe args s : conforms app_account args -> out_is_safe (snd (cmd_account (N := N) args s)) = true.
Proof.
  intros Hc. pose proof (account_passphrase args Hc) as Hp.
  assert (keeps (N := N) out_is_safe (match subcommand_matches args (lit "create"), subcommand_matches args (lit "switch"), subcommand_matches args (lit "rename") with
    | Some args, _, _ => name ← the_arg args "name"; on_ses (create_account name)
    | None, Some args, _ => account ← the_arg args "name"; c ← get config; on_ses (unlock c account (passphrase_of args))
    | None, None, Some args => old_account ← the_arg args "old_account"; new_account ← the_arg args "new_account"; on_ses (rename_account old_account new_account)
    | None, None, None => mret () end)) as Hk by keeps_tac.
  unfold cmd_account. rewrite Hp. unfold mbind at 1, stM_bind at 1. cbn [safe st_modify]. by rewrite Hk.
Qed.
Lemma table_keeps : Forall (fun c => lit c.1 ∈ lit "account" :: deciding \/ forall args, keeps out_is_safe (c.2 args)) (table (N := N) checks pages).
Proof.
  unfold table. repeat apply Forall_cons_2; try apply Forall_nil_2; cbn [fst snd].
  all: first [left; unfold deciding; rewrite !elem_of_cons; tauto | right; intros args].
  all: unfold cmd_config, cmd_lock, no_listener, cmd_listen, cmd_stop, cmd_info, cmd_txs_count, cmd_txs, cmd_txs_bulk_validate, Wallet_txs_bulk_validate, on_files, cmd_contacts,
    cmd_output_count, cmd_outputs, cmd_repost, cmd_cancel, cmd_getnextkey, cmd_showpubkeys, cmd_finalize, cmd_submit, cmd_invoice,
    cmd_check, cmd_sync, cmd_dump, cmd_set_recv, cmd_verifysignature, cmd_scan_outputs, cmd_export_proof, cmd_verify_proof, debug_number.
  all: try solve [keeps_tac].
  repeat (apply keeps_bind; [keeps_tac|intros]); [|keeps_tac].
  intros s. by destruct (txs_bulk_validate _ _ _ _ _ _ (files s)).
Qed.
Lemma safe_then {A} b (m : HM A) s : keeps out_is_safe m -> out_is_safe (snd ((safe b ≫= fun _ => m) s)) = b.
Proof. intros Hm. unfold mbind, stM_bind. cbn [safe st_modify]. by rewrite Hm. Qed.

Lemma no_listener_spec (s : Shell (N := N)) :
  no_listener s = if has_listener s then (Err (Kind HasListener), s) else (Ok (), s).
Proof. unfold no_listener, mbind, stM_bind. cbn [get]. by destruct (has_listener s). Qed.

(** What is left of the flag: of the command, its arguments, whether a listener
    stands before the wallet, and whether the command succeeded. *)
Definition allowed (name : str) (args : ArgMatches) (listener succeeded : bool) : bool :=
  let no_passphrase := bool_decide (arg args "passphrase" = None) in
  let words := bool_decide (is_Some (values_of args (lit "words"))) in
  if bool_decide (name = lit "unlock") then no_passphrase
  else if bool_decide (name = lit "init") || bool_decide (name = lit "restore") then negb listener && no_passphrase
  else if bool_decide (name = lit "recover") then negb listener && no_passphrase && negb (words && succeeded)
  else true.
Lemma no_passphrase_eq args : negb (has_passphrase args) = bool_decide (arg args "passphrase" = None).
Proof. unfold has_passphrase. by destruct (arg args "passphrase"). Qed.

(** Behind the gate the flag says whether there is a passphrase. *)
Lemma gated_safe {A} args (m : HM A) (s : Shell (N := N)) : keeps out_is_safe m ->
  out_is_safe (snd ((safe false ≫= fun _ => no_listener ≫= fun _ => safe (negb (has_passphrase args)) ≫= fun _ => m) s)) =
    negb (has_listener s) && bool_decide (arg args "passphrase" = None).
Proof.
  intros Hm. unfold mbind at 1 2, stM_bind at 1 2. cbn [safe st_modify]. rewrite no_listener_spec.
  change (has_listener (set_safe false s)) with (has_listener s). destruct (has_listener s); [done|].
  by rewrite safe_then, no_passphrase_eq.
Qed.
Lemma init_safe args s : out_is_safe (snd (cmd_init (N := N) args s)) = negb (has_listener s) && bool_decide (arg args "passphrase" = None).
Proof. apply gated_safe. keeps_tac. Qed.
Lemma restore_safe args s : out_is_safe (snd (cmd_restore (N := N) args s)) = negb (has_listener s) && bool_decide (arg args "passphrase" = None).
Proof. apply gated_safe. keeps_tac. Qed.
Lemma unlock_safe args s : out_is_safe (snd (cmd_unlock (N := N) args s)) = bool_decide (arg args "passphrase" = None).
Proof. unfold cmd_unlock. by rewrite safe_then, no_passphrase_eq by keeps_tac. Qed.

(** [m] clears the flag if it returns, and leaves it alone otherwise. *)
Definition clears {A} (m : HM A) : Prop := forall s,
  let '(r, s') := m s in out_is_safe s' = if is_ok r then false else out_is_safe s.
Lemma clears_bind {A B'} (m : HM A) (f : A -> HM B') : keeps out_is_safe m -> (forall a, clears (f a)) -> clears (m ≫= f).
Proof.
  intros Hm Hf s. unfold mbind, stM_bind. specialize (Hm s). destruct (m s) as [[a|e| |] s1]; cbn in Hm |- *; [|rewrite Hm; done..].
  specialize (Hf a s1). destruct (f a s1) as [r s2]. by rewrite <- Hm.
Qed.
Lemma recover_safe args s :
  let '(r, s') := cmd_recover (N := N) args s in
  out_is_safe s' = negb (has_listener s) && bool_decide (arg args "passphrase" = None) &&
    negb (bool_decide (is_Some (values_of args (lit "words"))) && is_ok r).
Proof.
  unfold cmd_recover. unfold mbind at 1 2, stM_bind at 1 2. cbn [safe st_modify]. rewrite no_listener_spec.
  change (has_listener (set_safe false s)) with (has_listener s). destruct (has_listener s); [done|]. cbn [negb andb].
  destruct (values_of args (lit "words")) as [words|].
  - set (f := fun _ : () => _). assert (forall u, clears (f u)) as Hf.
    { intros u. unfold f. cbv zeta. repeat (apply clears_bind; [keeps_tac|intros]). intros s0. done. }
    unfold mbind, stM_bind. cbn [safe st_modify]. specialize (Hf () (set_safe (negb (has_passphrase args)) (set_safe false s))).
    destruct (f () _) as [r s']. cbn in Hf. rewrite Hf, no_passphrase_eq, (bool_decide_eq_true_2 (is_Some (Some words))) by eauto. cbn [andb].
    destruct (is_ok r); [by rewrite andb_false_r|by rewrite andb_true_r].
  - set (m := if has args "display" then _ else _).
    pose proof (safe_then (negb (has_passphrase args)) m (set_safe false s)) as Hm.
    destruct ((safe _ ≫= _) _) as [r s']. cbn [snd] in Hm. rewrite Hm by (unfold m; keeps_tac).
    rewrite no_passphrase_eq, (bool_decide_eq_false_2 (is_Some None)) by (by intros []). by rewrite andb_true_r.
Qed.

Lemma run_command_keeps name args s : name ∉ lit "account" :: deciding -> 
  out_is_safe (snd (run_command (N := N) checks pages name args s)) = out_is_safe s.
Proof.
  intros Hn. unfold run_command. destruct (find _ _) as [[n f]|] eqn:Ef; [|done].
  apply find_some in Ef as [Hin Heq]. apply bool_decide_eq_true in Heq. cbn in Heq. subst name.
  pose proof table_keeps as Ht. rewrite Forall_forall in Ht. destruct (Ht (n, f)) as [H|H]; [by apply list_elem_of_In|done|].
  apply H.
Qed.
Lemma run_command_secrets name args app s : app ∈ app_subcommands parser -> app_name app = name -> conforms app args ->
  out_is_safe s = true ->
  let '(r, s') := run_command (N := N) checks pages name args s in
  out_is_safe s' = allowed name args (has_listener s) (is_ok r).
Proof.
  intros Happ Ha Hconf Hs.
  destruct (decide (name ∈ deciding)) as [Hd|Hd].
  - unfold deciding in Hd. rewrite !elem_of_cons, elem_of_nil in Hd. destruct_or? Hd; clear Happ Ha Hconf; subst name.
    + change (run_command checks pages (lit "init") args) with (cmd_init (N := N) args). pose proof (init_safe args s) as H.
      destruct (cmd_init args s) as [r s']. exact H.
    + change (run_command checks pages (lit "unlock") args) with (cmd_unlock (N := N) args). pose proof (unlock_safe args s) as H.
      destruct (cmd_unlock args s) as [r s']. exact H.
    + change (run_command checks pages (lit "restore") args) with (cmd_restore (N := N) args). pose proof (restore_safe args s) as H.
      destruct (cmd_restore args s) as [r s']. exact H.
    + change (run_command checks pages (lit "recover") args) with (cmd_recover (N := N) args). exact (recover_safe args s).
  - assert (out_is_safe (snd (run_command (N := N) checks pages name args s)) = true) as H.
    { destruct (decide (name = lit "account")) as [->|Hna].
      - change (run_command checks pages (lit "account") args) with (cmd_account (N := N) args). apply account_safe.
        assert (app = app_account) as <-; [|done]. clear Hconf. cbn in Happ. rewrite !elem_of_cons, elem_of_nil in Happ.
        destruct_or? Happ; subst app; first [done | discriminate Ha].
      - rewrite run_command_keeps; [done|]. unfold deciding. rewrite elem_of_cons. by intros [?|?]. }
    destruct (run_command checks pages name args s) as [r s']. cbn in H. rewrite H. symmetry. unfold allowed.
    unfold deciding in Hd. rewrite !elem_of_cons, elem_of_nil in Hd.
    rewrite (bool_decide_eq_false_2 (name = lit "unlock")), (bool_decide_eq_false_2 (name = lit "init")),
      (bool_decide_eq_false_2 (name = lit "restore")), (bool_decide_eq_false_2 (name = lit "recover")) by tauto. done.
Qed.

End history_commands.

(** ** Arguments that are taken for granted *)

(** [app] requires the argument [n]. *)
Definition requires (n : str) (app : App) : bool :=
  existsb (fun a => bool_decide (arg_name a = n) && required a) (app_args app).

Section granted.
Context {CL : Clap}.
Lemma required_given app m n : conforms app m -> requires n app = true -> is_Some (value_of m n).
Proof.
  intros Hc Hr. inversion Hc as [? ? _ _ H3 _ _ _ _]; subst. apply existsb_exists in Hr as (a & Ha & Hb).
  apply andb_true_iff in Hb as [<-%bool_decide_eq_true Hr]. apply H3; [by apply list_elem_of_In|done].
Qed.
Lemma conforms_sub app m s m' : conforms app m -> subcommand_matches m s = Some m' ->
  exists app', app' ∈ app_subcommands app /\ app_name app' = s /\ conforms app' m'.
Proof.
  intros Hc Hm. inversion Hc as [? ? _ _ _ _ _ H6 H7]; subst. destruct (H6 _ (H7 _ _ Hm)) as (app' & m'' & H1 & H2 & H3 & H4).
  rewrite Hm in H3. injection H3 as <-. eauto.
Qed.
(** What is required of a command, and of a command below it. *)
Lemma required_below app m sub m' n : conforms app m -> subcommand_matches m sub = Some m' ->
  forallb (fun a => negb (bool_decide (app_name a = sub)) || requires n a) (app_subcommands app) = true -> is_Some (value_of m' n).
Proof.
  intros Hc Hm Hr. destruct (conforms_sub _ _ _ _ Hc Hm) as (a & Ha & <- & Hconf). rewrite forallb_forall in Hr.
  specialize (Hr a ltac:(by apply list_elem_of_In)). rewrite bool_decide_eq_true_2 in Hr by done. by apply (required_given a).
Qed.
Lemma absent app (m : ArgMatches) n : conforms app m -> n ∉ (arg_name <$> app_args app) -> n ∉ (fst ∘ fst <$> app_groups app) ->
  n ∉ (app_name <$> app_subcommands app) -> is_present m n = false.
Proof.
  intros Hc H1 H2 H3. destruct (is_present m n) eqn:E; [|done]. inversion Hc as [? ? Hi _ _ _ _ H6 _]; subst.
  destruct (Hi n E) as [?|[?|Hn]]; [done..|]. destruct (H6 _ Hn) as (a & ? & Ha & <- & _). destruct H3. by apply list_elem_of_fmap_2.
Qed.
Lemma group_given app (m : ArgMatches) g : conforms app m -> g ∈ app_groups app -> g.2 = true ->
  (forall n, n ∈ g.1.2 -> exists a, a ∈ app_args app /\ arg_name a = n /\ takes_value a = true /\ min_values_0 a = false) ->
  exists n, n ∈ g.1.2 /\ is_Some (value_of m n).
Proof.
  intros Hc Hg Hr Ha. inversion Hc as [? ? _ _ _ H4 H5 _ _]; subst. destruct (H4 g Hg Hr) as (n & Hn & Hp). exists n. split; [done|].
  destruct (Ha n Hn) as (a & Hin & <- & Ht & Hv). by apply H5.
Qed.
Lemma app_of app a : app ∈ app_subcommands parser -> app_name app = app_name a -> a ∈ app_subcommands parser -> app = a.
Proof.
  assert (NoDup (app_name <$> app_subcommands parser)) as Hd by (apply (bool_decide_unpack _); vm_compute; exact I).
  intros H1 H2 H3. apply list_elem_of_lookup in H1 as [i Hi], H3 as [j Hj].
  assert (i = j) as -> by (eapply NoDup_lookup; [exact Hd|by rewrite list_lookup_fmap, Hi|by rewrite list_lookup_fmap, Hj, H2]). congruence.
Qed.
End granted.

(** Every declared command but [exit] is in the table. *)
Lemma dispatched {L : CryptoLib} {R : RegexEngine} {P : Platform} {E : ConfigEnv} {SL : SlateLib} {W : WalletData} {D : DerivationLib}
    {WL : WalletLib} {LC : LifeCycle} {PL : ProofLib} {ST : Serde TxProof} {SE : Serde EncryptedMessage} {K : KvStore} {J : ContactJson}
    {JT : JsonText} {SC : ScanLib} {SH : ShellLib} {CL : Clap} {N : Type} {B : Brokers N} checks pages app :
  app ∈ app_subcommands parser ->
  app_name app = lit "exit" \/ exists c, find (fun c => bool_decide (lit c.1 = app_name app)) (table (N := N) checks pages) = Some c.
Proof.
  intros Happ.
  assert (forallb (fun app => bool_decide (app_name app = lit "exit") ||
    existsb (fun n => bool_decide (lit n = app_name app)) (map fst (table (N := N) checks pages))) (app_subcommands parser) = true) as H
    by (vm_compute; reflexivity).
  rewrite forallb_forall in H. specialize (H app ltac:(by apply list_elem_of_In)).
  apply orb_true_iff in H as [H|H]; [left; by apply bool_decide_eq_true in H|right].
  apply existsb_exists in H as (n & Hn & Hb). apply in_map_iff in Hn as (c & <- & Hin).
  destruct (find _ _) as [c'|] eqn:Ef; [by exists c'|]. by rewrite (find_none _ _ Ef _ Hin) in Hb.
Qed.

(** ** The listeners' slots *)

Section slots.
Context {L : CryptoLib} {R : RegexEngine} {P : Platform} {E : ConfigEnv} {SL : SlateLib} {W : WalletData} {D : DerivationLib} {WL : WalletLib}
  {LC : LifeCycle} {PL : ProofLib} {ST : Serde TxProof} {SE : Serde EncryptedMessage} {K : KvStore} {J : ContactJson} {JT : JsonText} {SC : ScanLib} {SH : ShellLib} {CL : Clap}
  {N : Type} {B : Brokers N}.
Abbreviation HM A := (stM (Shell (N := N)) Error A).

Lemma start_listener_slots ch : keeps (N := N) brokers (start_listener ch).
Proof. unfold start_listener, unlock_default. eauto 60 with keeps. Qed.

Lemma listen_on_spec ch (s : Shell (N := N)) :
  let '(r, s') := listen_on ch s in
  if is_running ch s then r = Err (Kind (AlreadyListening (channel_name ch))) /\ s' = s
  else match r with
       | Ok _ => exists h, forall c, brokers s' c = if bool_decide (c = ch) then Some h else brokers s c
       | _ => brokers s' = brokers s
       end.
Proof.
  unfold listen_on, mbind, stM_bind. cbn [get]. destruct (is_running ch s); [done|].
  pose proof (start_listener_slots ch s) as H. destruct (start_listener ch s) as [[h|e| |] s1]; cbn in H |- *; [|done..].
  exists h. intros c. by rewrite H.
Qed.
Lemma stop_on_spec ch (s : Shell (N := N)) :
  let '(r, s') := stop_on ch s in
  ses s' = ses s /\ config s' = config s /\
  if is_running ch s then
    (forall c, c <> ch -> brokers s' c = brokers s c) /\
    (brokers s' ch = None \/ brokers s' ch = brokers s ch /\ (r = Ok () -> ch = ChMwcmqs))
  else r = Err (Kind (ClosedListener (channel_name ch))) /\ s' = s.
Proof.
  unfold stop_on. unfold mbind at 1, stM_bind at 1. cbn [get]. destruct (is_running ch s) eqn:Hr; [|done].
  unfold is_running in Hr. destruct (brokers s ch) as [h|] eqn:Hb; [|done].
  unfold mbind, stM_bind. cbn. rewrite Hb. unfold on_net. cbn.
  destruct (broker_stop h (net s)) as [[b|e| |] n]; cbn [set_net]; [|split_and!; auto; right; split; done..].
  destruct (bool_decide (ch <> ChMwcmqs) || b) eqn:Hd; cbn; (split_and!; [done..|try done|]).
  - intros c Hc. by rewrite bool_decide_eq_false_2.
  - left. by rewrite bool_decide_eq_true_2.
  - right. split; [done|]. intros _. apply orb_false_iff in Hd as [Hd _]. apply bool_decide_eq_false in Hd.
    destruct (decide (ch = ChMwcmqs)); tauto.
Qed.

Lemma each_listen l : forall (s : Shell (N := N)),
  let '(r, s') := each listen_on l s in
  (forall ch, ch ∉ l -> brokers s' ch = brokers s ch) /\ (forall ch, is_Some (brokers s ch) -> is_Some (brokers s' ch)) /\
  (r = Ok () -> forall ch, ch ∈ l -> is_Some (brokers s' ch)).
Proof.
  induction l as [|c l IH]; intros s; cbn [each]; [split_and!; [done..|intros _ ch Hch; by apply elem_of_nil in Hch]|].
  unfold mbind, stM_bind. pose proof (listen_on_spec c s) as H. destruct (listen_on c s) as [r s1].
  assert ((forall ch, ch ∉ c :: l -> brokers s1 ch = brokers s ch) /\ (forall ch, is_Some (brokers s ch) -> is_Some (brokers s1 ch)) /\
    (r = Ok () -> is_Some (brokers s1 c))) as (H1 & H2 & H3).
  { destruct (is_running c s); [by destruct H as [-> ->]|]. destruct r as [[]|e| |]; [|rewrite H; done..].
    destruct H as [h H]. split_and!.
    - intros ch Hch. rewrite H, bool_decide_eq_false_2; [done|]. rewrite elem_of_cons in Hch. tauto.
    - intros ch Hch. rewrite H. case_bool_decide; [by eexists|done].
    - intros _. rewrite H, bool_decide_eq_true_2 by done. by eexists. }
  destruct r as [[]|e| |]; [|done..]. specialize (IH s1). destruct (each listen_on l s1) as [r s']. destruct IH as (I1 & I2 & I3). split_and!.
  - intros ch Hch. rewrite I1; [by apply H1|]. rewrite elem_of_cons in Hch. tauto.
  - auto.
  - intros Hr ch. rewrite elem_of_cons. intros [->|Hch]; auto.
Qed.
Lemma each_stop l : forall (s : Shell (N := N)),
  let '(r, s') := each stop_on l s in
  ses s' = ses s /\ config s' = config s /\ (forall ch, ch ∉ l -> brokers s' ch = brokers s ch) /\
  (forall ch, brokers s ch = None -> brokers s' ch = None) /\
  (r = Ok () -> forall ch, ch ∈ l -> ch <> ChMwcmqs -> brokers s' ch = None).
Proof.
  induction l as [|c l IH]; intros s; cbn [each]; [split_and!; [done..|intros _ ch Hch; by apply elem_of_nil in Hch]|].
  unfold mbind, stM_bind. pose proof (stop_on_spec c s) as H. destruct (stop_on c s) as [r s1]. destruct H as (Hs & Hc & H).
  assert ((forall ch, ch ∉ c :: l -> brokers s1 ch = brokers s ch) /\ (forall ch, brokers s ch = None -> brokers s1 ch = None) /\
    (r = Ok () -> c <> ChMwcmqs -> brokers s1 c = None)) as (H1 & H2 & H3).
  { destruct (is_running c s); [|by destruct H as [-> ->]]. destruct H as [H1 H2]. split_and!.
    - intros ch Hch. apply H1. rewrite elem_of_cons in Hch. tauto.
    - intros ch Hch. destruct (decide (ch = c)) as [->|Hn]; [|by rewrite H1]. destruct H2 as [?|[-> _]]; done.
    - intros Hr Hm. destruct H2 as [?|[_ ?]]; [done|]. tauto. }
  destruct r as [[]|e| |]; [|done..]. specialize (IH s1). destruct (each stop_on l s1) as [r s'].
  destruct IH as (I0 & I0' & I1 & I2 & I3). rewrite I0, I0'. split_and!; [done|done| |auto|].
  - intros ch Hch. rewrite I1; [by apply H1|]. rewrite elem_of_cons in Hch. tauto.
  - intros Hr ch. rewrite elem_of_cons. intros [->|Hch] Hm; auto.
Qed.

(** The runs of [listen] and of [stop] over the channels they are for, with what
    they end in.  The guard is looked at for every channel, in the state its
    turn comes in. *)
Inductive listens : list Channel -> Shell (N := N) -> result () * Shell -> Prop :=
| listens_all s : listens [] s (Ok (), s)
| listens_running c l s : is_running c s = true -> listens (c :: l) s (fail (AlreadyListening (channel_name c)), s)
| listens_failed c l s e s' : is_running c s = false -> start_listener c s = (Err e, s') -> listens (c :: l) s (Err e, s')
| listens_panic c l s s' : is_running c s = false -> start_listener c s = (Panic, s') -> listens (c :: l) s (Panic, s')
| listens_hang c l s s' : is_running c s = false -> start_listener c s = (Hang, s') -> listens (c :: l) s (Hang, s')
| listens_started c l s h s' q : is_running c s = false -> start_listener c s = (Ok h, s') ->
    listens l (set_broker c (Some h) s') q -> listens (c :: l) s q.
Definition stopping (c : Channel) : str := lit "stopping " ++ channel_name c ++ lit " listener...".
Inductive stops : list Channel -> Shell (N := N) -> result () * Shell -> Prop :=
| stops_all s : stops [] s (Ok (), s)
| stops_closed c l s : is_running c s = false -> stops (c :: l) s (fail (ClosedListener (channel_name c)), s)
| stops_stopped c l s h b n q : brokers s c = Some h -> broker_running h (net s) = true -> broker_stop h (net s) = (Ok b, n) ->
    b = true \/ c <> ChMwcmqs -> stops l (set_broker c None (set_net n (add_out (stopping c) s))) q -> stops (c :: l) s q
| stops_unreached l s h n q : brokers s ChMwcmqs = Some h -> broker_running h (net s) = true -> broker_stop h (net s) = (Ok false, n) ->
    stops l (add_out (lit "WARNING: Could not contact mwcmqs. Network down?") (set_net n (add_out (stopping ChMwcmqs) s))) q ->
    stops (ChMwcmqs :: l) s q
| stops_failed c l s h r n : brokers s c = Some h -> broker_running h (net s) = true -> broker_stop h (net s) = (r, n) -> is_ok r = false ->
    stops (c :: l) s (_ ← r; Ok (), set_net n (add_out (stopping c) s)).

Lemma listens_each l : forall s, listens l s (each listen_on l s).
Proof.
  induction l as [|c l IH]; intros s; cbn [each]; [constructor|]. unfold mbind at 1, stM_bind at 1.
  unfold listen_on at 1, mbind at 1, stM_bind at 1. cbn [get]. destruct (is_running c s) eqn:Hr; [by apply listens_running|].
  unfold mbind at 1, stM_bind at 1. destruct (start_listener c s) as [[h|e| |] s'] eqn:Hs.
  - eapply listens_started; [done..|]. apply IH.
  - by apply listens_failed.
  - by apply listens_panic.
  - by apply listens_hang.
Qed.
Lemma stops_each l : forall s, stops l s (each stop_on l s).
Proof.
  induction l as [|c l IH]; intros s; cbn [each]; [constructor|]. unfold mbind at 1, stM_bind at 1.
  unfold stop_on at 1, mbind at 1, stM_bind at 1. cbn [get]. destruct (is_running c s) eqn:Hr; [|by apply stops_closed].
  unfold is_running in Hr. destruct (brokers s c) as [h|] eqn:Hb; [|done].
  unfold mbind, stM_bind. cbn. rewrite Hb. unfold on_net. cbn [net add_out].
  destruct (broker_stop h (net s)) as [[b|e| |] n] eqn:Hstop.
  - destruct (bool_decide (c <> ChMwcmqs) || b) eqn:Hd; cbn.
    + eapply stops_stopped; [done..| |apply IH]. apply orb_true_iff in Hd as [Hd|Hd]; [right; by apply bool_decide_eq_true in Hd|by left].
    + apply orb_false_iff in Hd as [Hd ->]. apply bool_decide_eq_false in Hd. assert (c = ChMwcmqs) as -> by (destruct (decide (c = ChMwcmqs)); tauto).
      eapply stops_unreached; [done..|]. apply IH.
  - by eapply (stops_failed c l s h (Err e)).
  - by eapply (stops_failed c l s h Panic).
  - by eapply (stops_failed c l s h Hang).
Qed.

Lemma channels_nodup args : channels_of args <> [] /\ NoDup (channels_of args).
Proof.
  unfold channels_of. destruct (has args "grinbox"), (has args "mwcmqs"), (has args "keybase"); cbn;
    (split; [done | apply (bool_decide_unpack _); reflexivity]).
Qed.
End slots.

(** ** Single commands *)

Section single.
Context {L : CryptoLib} {R : RegexEngine} {P : Platform} {E : ConfigEnv} {SL : SlateLib} {W : WalletData} {D : DerivationLib} {WL : WalletLib}
  {LC : LifeCycle} {PL : ProofLib} {ST : Serde TxProof} {SE : Serde EncryptedMessage} {K : KvStore} {J : ContactJson} {JT : JsonText} {SC : ScanLib} {SH : ShellLib} {CL : Clap}
  {N : Type} {B : Brokers N}.

Lemma do_command_eq checks pages line m name args (s : Shell (N := N)) :
  Parser_parse line = Ok m -> subcommand_name m = Some name -> subcommand_matches m name = Some args ->
  do_command checks pages line s = run_command checks pages name args (set_safe true s).
Proof.
  intros Hm Hn Ha. unfold do_command, mbind at 1 2, stM_bind at 1 2. cbn [safe st_modify]. unfold st_lift at 1. rewrite Hm, Hn.
  unfold mbind, stM_bind, st_lift. by rewrite Ha.
Qed.
Lemma do_command_unparsed checks pages line (s : Shell (N := N)) :
  (forall m, Parser_parse line <> Ok m) -> out_is_safe (snd (do_command checks pages line s)) = true.
Proof.
  intros Hp. unfold do_command, mbind at 1 2, stM_bind at 1 2. cbn [safe st_modify]. unfold st_lift at 1.
  destruct (Parser_parse line) as [m|e| |]; [by destruct (Hp m)|done..].
Qed.
(** An accepted line: what is left of the flag. *)
Lemma do_command_kept {Laws : ClapLaws CL} checks pages line m name args (s : Shell (N := N)) :
  Parser_parse line = Ok m -> subcommand_name m = Some name -> subcommand_matches m name = Some args ->
  let '(r, s') := do_command checks pages line s in
  out_is_safe s' = allowed name args (has_listener s) (is_ok r).
Proof.
  intros Hm Hn Ha. rewrite (do_command_eq _ _ _ _ _ _ _ Hm Hn Ha).
  pose proof (parse_conforms _ _ Hm) as Hc. destruct (conforms_sub _ _ _ _ Hc Ha) as (app & Happ & Hx & Hconf).
  exact (run_command_secrets checks pages name args app (set_safe true s) Happ Hx Hconf eq_refl).
Qed.
Lemma listener_there (s : Shell (N := N)) :
  has_listener s || bool_decide (is_Some (brokers s ChMwcmqs)) = true <-> exists ch, is_Some (brokers s ch).
Proof.
  unfold has_listener. rewrite !orb_true_iff, !bool_decide_eq_true. split; [intros [[?|?]|?]; eauto|].
  intros [[] ?]; auto.
Qed.
Lemma check_spec args (s : Shell (N := N)) : has args "--no-delete_unconfirmed" = false ->
  cmd_check args s = match from_str_radix 64 10 (default (lit "1") (arg args "start_height")) with
  | None => (Err (Kind (InvalidNumOutputs (default (lit "1") (arg args "start_height")))), s)
  | Some n =>
      if has_listener s || bool_decide (is_Some (brokers s ChMwcmqs)) then (Err (Kind HasListener), s)
      else let '(r, x) := Wallet_check_repair n true (ses s) in
           let s' := set_session x (add_out (lit "checking and repairing...") s) in
           match r with Ok _ => (Ok (), add_out (lit "check and repair done!") s') | _ => (r, s') end
  end.
Proof.
  intros Hf. unfold cmd_check, number. rewrite Hf. unfold mbind at 1, stM_bind at 1, st_lift.
  destruct (from_str_radix 64 10 _) as [n|]; [|done]. cbn [ok_or]. unfold mbind at 1, stM_bind at 1. cbn [get].
  destruct (_ || _); [done|]. unfold mbind, stM_bind, say, println. cbn [st_modify]. unfold on_ses. cbn [ses add_out negb].
  by destruct (Wallet_check_repair n true (ses s)) as [[[]|e| |] x].
Qed.
Lemma id_of_spec args id e (f : Z -> stM Session Error ()) (s : Shell (N := N)) : value_of args (lit "id") = Some id -> e = InvalidTxId id ->
  (id ← id_of args; on_ses (f id)) s = match from_str_radix 32 10 id with Some n => on_ses (f n) s | None => (Err (Kind e), s) end.
Proof.
  intros Hid ->. unfold id_of, the_arg, number, arg, mbind, stM_bind, st_lift. rewrite Hid. cbn [unwrap].
  by destruct (from_str_radix 32 10 id).
Qed.
(** At most one of the commands below another was given. *)
Lemma one_below app m s s' a : conforms app m -> subcommand_matches m s = Some a -> s' <> s -> subcommand_matches m s' = None.
Proof.
  intros Hc Hs Hne. destruct (subcommand_matches m s') as [a'|] eqn:Hs'; [|done]. inversion Hc as [? ? _ _ _ _ _ _ H7]; subst.
  apply H7 in Hs, Hs'. congruence.
Qed.
Lemma the_arg_spec {A} args n v (f : str -> stM (Shell (N := N)) Error A) s : value_of args (lit n) = Some v ->
  (x ← the_arg args n; f x) s = f v s.
Proof. intros Hv. unfold the_arg, arg, mbind, stM_bind, st_lift. by rewrite Hv. Qed.
Lemma account_spec args (s : Shell (N := N)) : conforms app_account args ->
  let run := cmd_account args (set_safe true s) in
  (forall a, subcommand_matches args (lit "create") = Some a -> exists n, value_of a (lit "name") = Some n /\
     run = on_ses (create_account n) (set_safe true s)) /\
  (forall a, subcommand_matches args (lit "rename") = Some a -> exists n n', value_of a (lit "old_account") = Some n /\
     value_of a (lit "new_account") = Some n' /\ run = on_ses (rename_account n n') (set_safe true s)) /\
  (forall a, subcommand_matches args (lit "switch") = Some a -> exists n, value_of a (lit "name") = Some n /\
     run = on_ses (unlock (config s) n (passphrase_of a)) (set_safe true s)).
Proof.
  intros Hc. cbv zeta.
  assert (forall m : stM (Shell (N := N)) Error (), (safe (negb (has_passphrase args)) ≫= fun _ => m) (set_safe true s) = m (set_safe true s)) as Hs
    by (intros m; by rewrite account_passphrase).
  unfold cmd_account. split_and!; intros a Ha; rewrite Hs, Ha, ?(one_below _ _ _ (lit "create") _ Hc Ha), ?(one_below _ _ _ (lit "switch") _ Hc Ha) by done.
  - destruct (required_below _ _ _ _ (lit "name") Hc Ha) as [n Hv]; [vm_compute; reflexivity|]. exists n. split; [done|].
    by apply (the_arg_spec a "name" n (fun n => on_ses (create_account n))).
  - destruct (required_below _ _ _ _ (lit "old_account") Hc Ha) as [n Hv]; [vm_compute; reflexivity|].
    destruct (required_below _ _ _ _ (lit "new_account") Hc Ha) as [n' Hv']; [vm_compute; reflexivity|]. exists n, n'. split_and!; [done..|].
    rewrite (the_arg_spec _ _ _ _ _ Hv). by apply (the_arg_spec a "new_account" n' (fun n' => on_ses (rename_account n n'))).
  - destruct (required_below _ _ _ _ (lit "name") Hc Ha) as [n Hv]; [vm_compute; reflexivity|]. exists n. split; [done|].
    by rewrite (the_arg_spec _ _ _ _ _ Hv).
Qed.
Lemma contacts_command args (s : Shell (N := N)) : conforms app_contacts args ->
  let run := cmd_contacts args (set_safe true s) in
  (forall a, subcommand_matches args (lit "add") = Some a -> exists n t, value_of a (lit "name") = Some n /\
     value_of a (lit "address") = Some t /\ run = on_book (do_contacts_add n t) (set_safe true s)) /\
  (forall a, subcommand_matches args (lit "remove") = Some a -> exists n, value_of a (lit "name") = Some n /\
     run = on_book (do_contacts_remove n) (set_safe true s)).
Proof.
  intros Hc. cbv zeta. unfold cmd_contacts. split; intros a Ha.
  - destruct (required_below _ _ _ _ (lit "name") Hc Ha) as [n Hv]; [vm_compute; reflexivity|].
    destruct (required_below _ _ _ _ (lit "address") Hc Ha) as [t Hv']; [vm_compute; reflexivity|]. exists n, t. split_and!; [done..|].
    rewrite Ha, (the_arg_spec _ _ _ _ _ Hv). by apply (the_arg_spec a "address" t (fun t => on_book (do_contacts_add n t))).
  - destruct (required_below _ _ _ _ (lit "name") Hc Ha) as [n Hv]; [vm_compute; reflexivity|]. exists n. split; [done|].
    rewrite Ha, (one_below _ _ _ (lit "add") _ Hc Ha) by done. by apply (the_arg_spec a "name" n (fun n => on_book (do_contacts_remove n))).
Qed.
Lemma with_wallet_locked {A} (m : stM Inst Error A) (x : Session) : is_locked (wal x) = true ->
  with_wallet m x = (Err (Kind NoWallet), x).
Proof. unfold is_locked, with_wallet, get_wallet_instance, mbind, stM_bind. cbn. by destruct (backend (wal x)). Qed.
(** The slate in a file, and the amounts in another. *)
Definition slate_in (fs : Files) (path : str) : option Slate :=
  t ← fs !! path; if utf8_valid t then deserialize_upgrade t else None.
Definition amounts_in (fs : Files) (recv_file : option str) (amounts : option (list Z)) : Prop :=
  match recv_file with
  | None => amounts = None
  | Some path => exists t l, fs !! in_home path = Some t /\ utf8_valid t = true /\ output_amounts t = Ok l /\ amounts = Some l
  end.
(** What [receive] has the wallet do with a slate: the account for incoming
    payments, if there is one, is opened for it and the one before after it. *)
Definition treated (key_id : option str) (amounts : option (list Z)) (x : Slate) (s : Shell (N := N)) (y : Slate) (ses' : Session) : Prop :=
  let old := active_account (wal (ses s)) in
  let pass := default [] (RECV_PASS (statics s)) in
  exists ses1 c ses2,
    match RECV_ACCOUNT (statics s) with Some dst => unlock (config s) dst pass (ses s) = (Ok (), ses1) | None => ses1 = ses s end /\
    process_sender_initiated_slate (Some (lit "file")) key_id amounts (Some (default old (RECV_ACCOUNT (statics s))))
      ({| slate := x; tx_proof := None |}, ses1) = (Ok (), (c, ses2)) /\
    match RECV_ACCOUNT (statics s) with Some _ => unlock (config s) old pass ses2 = (Ok (), ses') | None => ses' = ses2 end /\
    y = slate c.

Lemma read_slate_spec path (s : Shell (N := N)) :
  exists r, read_slate path s = (r, s) /\ match slate_in (files s) path with Some x => r = Ok x | None => is_ok r = false end.
Proof.
  unfold read_slate, read_file, slate_in, mbind, stM_bind, external, st_lift. cbn.
  destruct (files s !! path) as [t|]; cbn; [|by eexists]. destruct (utf8_valid t); cbn; [|by eexists].
  destruct (deserialize_upgrade t); cbn; by eexists.
Qed.
Lemma amounts_spec recv_file (s : Shell (N := N)) :
  exists r, match recv_file with
            | Some rfile => text ← read_file (in_home rfile); l ← st_lift (output_amounts text); mret (Some l)
            | None => mret None
            end s = (r, s) /\ match r with Ok a => amounts_in (files s) recv_file a | _ => forall a, ~ amounts_in (files s) recv_file a end.
Proof.
  unfold amounts_in. destruct recv_file as [path|]; [|by eexists].
  unfold read_file, mbind, stM_bind, external, st_lift. cbn.
  destruct (files s !! in_home path) as [t|] eqn:Ht; cbn; [|by eexists; split; [done|]; intros a (? & ? & ? & _)].
  destruct (utf8_valid t) eqn:Hu; cbn; [|eexists; split; [done|]; intros a (? & ? & ? & ? & _); congruence].
  destruct (output_amounts t) as [l|e| |] eqn:Ho; cbn; (eexists; split; [done|]); [by exists t, l|intros a (? & ? & ? & ? & ? & _); congruence..].
Qed.
Lemma receive_slate_spec key_id amounts x (s : Shell (N := N)) :
  let '(r, s') := receive_slate key_id amounts x s in
  files s' = files s /\
  match r with Ok y => treated key_id amounts x s y (ses s') | _ => forall y ses', ~ treated key_id amounts x s y ses' end.
Proof.
  unfold receive_slate, treated, unlock_recv, recv_account, mbind, stM_bind, on_ses, on_slate_cell, get, get_wal. cbn.
  destruct (RECV_ACCOUNT (statics s)) as [dst|]; cbn.
  - destruct (unlock (config s) dst _ (ses s)) as [[[]|e| |] ses1] eqn:H1; cbn; [|split; [done|intros ?? (? & ? & ? & ? & _); congruence]..].
    destruct (process_sender_initiated_slate _ _ _ _ _) as [[[]|e| |] [c ses2]] eqn:H2; cbn;
      [|split; [done|intros ?? (? & ? & ? & ? & ? & _); congruence]..].
    destruct (unlock (config s) _ _ ses2) as [[[]|e| |] ses3] eqn:H3; cbn;
      [|split; [done|intros ?? (? & ? & ? & ? & ? & ? & _); congruence]..].
    split; [done|]. by exists ses1, c, ses2.
  - destruct (process_sender_initiated_slate _ _ _ _ _) as [[[]|e| |] [c ses2]] eqn:H2; cbn;
      [|split; [done|intros ?? (? & ? & ? & -> & ? & _); congruence]..].
    split; [done|]. by exists (ses s), c, ses2.
Qed.
Lemma treated_det key_id amounts x (s : Shell (N := N)) y ses' y' ses'' :
  treated key_id amounts x s y ses' -> treated key_id amounts x s y' ses'' -> y' = y /\ ses'' = ses'.
Proof.
  unfold treated. cbv zeta. destruct (RECV_ACCOUNT (statics s)) as [dst|]; intros (a & c & b & H1 & H2 & H3 & ->) (a' & c' & b' & H4 & H5 & H6 & ->).
  - rewrite H1 in H4. injection H4 as <-. rewrite H2 in H5. injection H5 as <- <-. rewrite H3 in H6. by injection H6 as <-.
  - subst a a'. rewrite H2 in H5. injection H5 as <- <-. by subst.
Qed.
End single.

(** ** Properties *)

Import Toy Backtrack ToyPlatform ToySerde ToyMessage ToySlate ToyWallet ToyLib ToyScan ToyConfig ToyLife ToyProof ToyStore ToyJson ToyClap.

(** A channel keeps what is posted; it runs until it is stopped. *)
Module ToyShell.
Record toy_net : Type := { listening : list Channel; posted : list (str * Address); up : bool }.
#[export] Instance toy_brokers : Brokers toy_net := {|
  Handle := Channel;
  broker_new ch _ := mret ch;
  broker_spawn ch := st_modify (fun n => {| listening := ch :: listening n; posted := posted n; up := up n |});
  broker_running ch n := bool_decide (ch ∈ listening n);
  broker_stop ch n := if up n then (Ok true, {| listening := filter (fun c => c <> ch) (listening n); posted := posted n; up := up n |})
                      else (Ok false, n);
  broker_post _ x to n := if up n then (Ok (), {| listening := listening n; posted := (slate_id x, to) :: posted n; up := up n |})
                          else (Err (External (lit "network")), n);
  http_post_text _ _ _ := st_err (External (lit "http"));
|}.
#[export] Instance toy_shell_lib : ShellLib := {|
  prompt_password := lit "pw";
  env_var _ := None;
  file_ok _ := true;
  amount_from_hr_string := from_str_radix 64 10;
  tx_fee _ _ _ := 1;
  uuid_parse_str := Some;
  deserialize_transaction s := Some [s];
  hash_from_vec s := s;
  util_from_hex := inl;
  view_of _ := {| view_outputs := []; view_txs := []; view_stored _ := None; view_parent := [] |};
|}.
Definition toy_shell (s : Session) (b : Channel -> option Channel) (n : toy_net) : Shell :=
  {| config := toy_config; files := ∅; ses := s; book := ∅; statics := {| RECV_ACCOUNT := None; RECV_PASS := None |};
     brokers := b; out_is_safe := true; net := n; out := [] |}.
Definition quiet_net : toy_net := {| listening := []; posted := []; up := true |}.
Definition locked_shell : Shell := toy_shell (locked_session None) (fun _ => None) quiet_net.
Definition open_shell : Shell := toy_shell (open_session None) (fun _ => None) quiet_net.
End ToyShell.
Import ToyShell.

(** C16: what goes into the history.  A line is kept out of it by these rules and
    no others.  [unlock]: when it has a passphrase in it.  [init] and [restore]:
    when it has one, or when a Grinbox or keybase listener is in the way.
    [recover]: for the same reasons, and when words were given and the recovery
    succeeded; so the words of a recovery that fails are kept.  Every other line
    is kept, whatever comes of it: one that does not parse, and one that switches
    the account or sets the account payments are received on, with its
    passphrase. *)
Theorem history_secrets {L : CryptoLib} {R : RegexEngine} {P : Platform} {E : ConfigEnv} {SL : SlateLib} {W : WalletData} {D : DerivationLib}
    {WL : WalletLib} {LC : LifeCycle} {PL : ProofLib} {ST : Serde TxProof} {SE : Serde EncryptedMessage} {K : KvStore} {J : ContactJson}
    {JT : JsonText} {SC : ScanLib} {SH : ShellLib} {CL : Clap} {Laws : ClapLaws CL} {N : Type} {B : Brokers N} checks pages line (s : Shell) :
  let '(r, s') := do_command checks pages line s in
  match Parser_parse line with
  | Ok m => forall name args, subcommand_name m = Some name -> subcommand_matches m name = Some args ->
      let listener := bool_decide (is_Some (brokers s ChKeybase)) || bool_decide (is_Some (brokers s ChGrinbox)) in
      let no_passphrase := bool_decide (Parser.value_of args (lit "passphrase") = None) in
      let words := bool_decide (is_Some (values_of args (lit "words"))) in
      out_is_safe s' =
        if bool_decide (name = lit "unlock") then no_passphrase
        else if bool_decide (name = lit "init") || bool_decide (name = lit "restore") then negb listener && no_passphrase
        else if bool_decide (name = lit "recover") then negb listener && no_passphrase && negb (words && is_ok r)
        else true
  | _ => out_is_safe s' = true
  end.
Proof.
  pose proof (fun m name args => do_command_kept checks pages line m name args s) as H.
  pose proof (do_command_unparsed checks pages line s) as Hu. destruct (do_command checks pages line s) as [r s'].
  destruct (Parser_parse line) as [m|e| |]; [|by apply Hu..]. intros name args Hn Ha. exact (H m name args eq_refl Hn Ha).
Qed.

Lemma history_secrets_witness :
  out_is_safe (snd (do_command true 0 (lit "unlock -p pw") locked_shell)) = false /\
  out_is_safe (snd (do_command true 0 (lit "account switch default -p pw") open_shell)) = true /\
  out_is_safe (snd (do_command true 0 (lit "unlock -p pw more") locked_shell)) = true.
Proof.
  split; [|split].
  - pose proof (history_secrets true 0 (lit "unlock -p pw") locked_shell) as T.
    destruct (do_command true 0 (lit "unlock -p pw") locked_shell) as [r s'].
    destruct (Parser_parse (lit "unlock -p pw")) as [m|e| |] eqn:Hm; [|vm_compute in Hm; discriminate Hm..].
    vm_compute in Hm. injection Hm as <-.
    exact (T (lit "unlock") (MkMatches [(lit "passphrase", [lit "pw"])] None) eq_refl eq_refl).
  - pose proof (history_secrets true 0 (lit "account switch default -p pw") open_shell) as T.
    destruct (do_command true 0 (lit "account switch default -p pw") open_shell) as [r s'].
    destruct (Parser_parse (lit "account switch default -p pw")) as [m|e| |] eqn:Hm; [|vm_compute in Hm; discriminate Hm..].
    vm_compute in Hm. injection Hm as <-. exact (T (lit "account") _ eq_refl eq_refl).
  - pose proof (history_secrets true 0 (lit "unlock -p pw more") locked_shell) as T.
    destruct (do_command true 0 (lit "unlock -p pw more") locked_shell) as [r s'].
    destruct (Parser_parse (lit "unlock -p pw more")) as [m|e| |] eqn:Hm; [vm_compute in Hm; discriminate Hm|exact T..].
Defined.

(** C17: an accepted line.  It names a declared command, and the matches clap has
    for it conform to the declaration.  Every declared command but [exit], which
    the prompt takes itself, is run by its handler on those matches.  [info]
    needs no argument; [repost], [cancel], and the commands below [account] and
    [contacts] have all of theirs, so that they do not panic on a missing one:
    each does just what is said of it here with the values typed. *)
Theorem accepted_lines {L : CryptoLib} {R : RegexEngine} {P : Platform} {E : ConfigEnv} {SL : SlateLib} {W : WalletData} {D : DerivationLib}
    {WL : WalletLib} {LC : LifeCycle} {PL : ProofLib} {ST : Serde TxProof} {SE : Serde EncryptedMessage} {K : KvStore} {J : ContactJson}
    {JT : JsonText} {SC : ScanLib} {SH : ShellLib} {CL : Clap} {Laws : ClapLaws CL} {N : Type} {B : Brokers N} checks pages line m name :
  Parser_parse line = Ok m -> subcommand_name m = Some name ->
  exists app args, app ∈ app_subcommands parser /\ app_name app = name /\ subcommand_matches m name = Some args /\ conforms app args /\
    (name <> lit "exit" -> exists c, c ∈ table (N := N) checks pages /\ lit c.1 = name /\
       forall s, do_command checks pages line s = c.2 args (set_safe true s)) /\
    forall s : Shell (N := N),
      let run := do_command checks pages line s in
      let s0 := set_safe true s in
      let value := Parser.value_of in
      (name = lit "info" ->
         let typed := default (lit "10") (value args (lit "confirmations")) in
         run = match from_str_radix 64 10 typed with
               | Some n => on_ses (Wallet_info (negb (is_present args (lit "--no-refresh"))) n) s0
               | None => (Err (Kind (InvalidMinConfirmations typed)), s0)
               end) /\
      (name = lit "repost" -> exists id, value args (lit "id") = Some id /\
         run = match from_str_radix 32 10 id with Some n => on_ses (repost n false) s0 | None => (Err (Kind (InvalidTxId id)), s0) end) /\
      (name = lit "cancel" -> exists id, value args (lit "id") = Some id /\
         run = match from_str_radix 32 10 id with Some n => on_ses (cancel n) s0 | None => (Err (Kind (InvalidTxId id)), s0) end) /\
      (name = lit "account" ->
         (forall a, subcommand_matches args (lit "create") = Some a -> exists n, value a (lit "name") = Some n /\
            run = on_ses (create_account n) s0) /\
         (forall a, subcommand_matches args (lit "rename") = Some a -> exists n n', value a (lit "old_account") = Some n /\
            value a (lit "new_account") = Some n' /\ run = on_ses (rename_account n n') s0) /\
         (forall a, subcommand_matches args (lit "switch") = Some a -> exists n, value a (lit "name") = Some n /\
            run = on_ses (unlock (config s) n (passphrase_of a)) s0)) /\
      (name = lit "contacts" ->
         (forall a, subcommand_matches args (lit "add") = Some a -> exists n t, value a (lit "name") = Some n /\
            value a (lit "address") = Some t /\ run = on_book (do_contacts_add n t) s0) /\
         (forall a, subcommand_matches args (lit "remove") = Some a -> exists n, value a (lit "name") = Some n /\
            run = on_book (do_contacts_remove n) s0)).
Proof.
  intros Hm Hn. pose proof (parse_conforms _ _ Hm) as Hc. inversion Hc as [? ? _ _ _ _ _ H6 _]; subst.
  destruct (H6 _ Hn) as (app & args & Happ & Ha & Hargs & Hconf). exists app, args. split_and!; [done..| |].
  - intros Hexit. destruct (dispatched checks pages app Happ) as [He|(c & Hc2)]; [congruence|]. exists c.
    pose proof (find_some _ _ Hc2) as [Hin Hb]. apply bool_decide_eq_true in Hb.
    split_and!; [by apply list_elem_of_In|by rewrite <- Ha|]. intros s.
    rewrite (do_command_eq _ _ _ _ _ _ _ Hm Hn Hargs). unfold run_command. rewrite <- Ha, Hc2. by destruct c.
  - intros s. cbv zeta. rewrite (do_command_eq _ _ _ _ _ _ _ Hm Hn Hargs). split_and!; intros ->.
    + change (run_command checks pages (lit "info") args) with (cmd_info (N := N) args).
      unfold cmd_info, number, mbind, stM_bind, st_lift, arg, has. by destruct (from_str_radix 64 10 _).
    + destruct (required_below _ _ _ _ (lit "id") Hc Hargs) as [id Hid]; [vm_compute; reflexivity|]. exists id. split; [done|].
      by apply (id_of_spec args id _ (fun n => repost n false)).
    + destruct (required_below _ _ _ _ (lit "id") Hc Hargs) as [id Hid]; [vm_compute; reflexivity|]. exists id. split; [done|].
      by apply (id_of_spec args id _ cancel).
    + assert (app = app_account) as -> by exact (app_of app app_account Happ Ha (list_elem_of_lookup_2 (app_subcommands parser) 6 app_account eq_refl)).
      change (run_command checks pages (lit "account") args) with (cmd_account (N := N) args).
      exact (account_spec args s Hconf).
    + assert (app = app_contacts) as -> by exact (app_of app app_contacts Happ Ha (list_elem_of_lookup_2 (app_subcommands parser) 9 app_contacts eq_refl)).
      change (run_command checks pages (lit "contacts") args) with (cmd_contacts (N := N) args).
      exact (contacts_command args s Hconf).
Qed.

Lemma accepted_lines_witness : exists m, Parser_parse (lit "cancel -i 7") = Ok m /\ subcommand_name m = Some (lit "cancel") /\
  do_command true 0 (lit "cancel -i 7") open_shell = on_ses (cancel 7) (set_safe true open_shell).
Proof.
  destruct (Parser_parse (lit "cancel -i 7")) as [m|e| |] eqn:Hm; [|vm_compute in Hm; discriminate Hm..]. exists m.
  assert (subcommand_name m = Some (lit "cancel")) as Hn by (vm_compute in Hm; injection Hm as <-; reflexivity).
  split_and!; [done..|]. destruct (accepted_lines true 0 _ m (lit "cancel") Hm Hn) as (app & args & _ & _ & H1 & _ & _ & H2).
  destruct (H2 open_shell) as (_ & _ & H3 & _). destruct (H3 eq_refl) as (id & Hid & ->).
  vm_compute in Hm. injection Hm as <-. vm_compute in H1. injection H1 as <-. vm_compute in Hid. injection Hid as <-. reflexivity.
Defined.

(** [check].  It never keeps the unconfirmed transactions: the flag is asked
    for under a name that is not its own, so [--no-delete_unconfirmed] is not
    looked at.  The start height must be a number, and no listener, also not an
    mwcmqs one, may be there. *)
Theorem check_deletes {L : CryptoLib} {R : RegexEngine} {P : Platform} {E : ConfigEnv} {SL : SlateLib} {W : WalletData} {D : DerivationLib}
    {WL : WalletLib} {LC : LifeCycle} {PL : ProofLib} {ST : Serde TxProof} {SE : Serde EncryptedMessage} {K : KvStore} {J : ContactJson}
    {JT : JsonText} {SC : ScanLib} {SH : ShellLib} {CL : Clap} {Laws : ClapLaws CL} {N : Type} {B : Brokers N} checks pages line m args (s : Shell) :
  Parser_parse line = Ok m -> subcommand_name m = Some (lit "check") -> subcommand_matches m (lit "check") = Some args ->
  let start_height := default (lit "1") (arg args "start_height") in
  let '(r, s') := do_command checks pages line s in
  match from_str_radix 64 10 start_height with
  | None => r = Err (Kind (InvalidNumOutputs start_height)) /\ ses s' = ses s
  | Some n =>
      ((exists ch, is_Some (brokers s ch)) -> r = Err (Kind HasListener) /\ ses s' = ses s) /\
      ((forall ch, brokers s ch = None) -> (r, ses s') = Wallet_check_repair n true (ses s))
  end.
Proof.
  intros Hm Hn Ha. rewrite (do_command_eq _ _ _ _ _ _ _ Hm Hn Ha).
  pose proof (parse_conforms _ _ Hm) as Hc. destruct (conforms_sub _ _ _ _ Hc Ha) as (app & Happ & Hx & Hconf).
  assert (app = app_check) as -> by exact (app_of app app_check Happ Hx (list_elem_of_lookup_2 (app_subcommands parser) 30 app_check eq_refl)).
  change (run_command checks pages (lit "check") args) with (cmd_check (N := N) args). cbv zeta.
  rewrite (check_spec args) by (apply (absent app_check _ _ Hconf); apply (bool_decide_unpack _); reflexivity).
  destruct (from_str_radix 64 10 _) as [n|]; [|done]. pose proof (listener_there (set_safe true s)) as Hl.
  destruct (_ || _).
  - split; [done|]. intros Hno. destruct (proj1 Hl eq_refl) as [ch Hch]. cbn in Hch. rewrite Hno in Hch. by destruct Hch.
  - cbn [ses set_safe]. destruct (Wallet_check_repair n true (ses s)) as [[[]|e| |] s1]; (split; [|done]);
      intros Hch; by discriminate (proj2 Hl Hch).
Qed.

Lemma check_deletes_witness :
  (fst (do_command true 0 (lit "check -n") (toy_shell (open_session None) (fun c => Some c) quiet_net)) = Err (Kind HasListener)) /\
  (let '(r, s') := do_command true 0 (lit "check -n") open_shell in (r, ses s') = Wallet_check_repair 1 true (open_session None)).
Proof.
  destruct (Parser_parse (lit "check -n")) as [m|e| |] eqn:Hm; [|vm_compute in Hm; discriminate Hm..].
  pose proof Hm as Hm'. vm_compute in Hm'. injection Hm' as <-.
  pose proof (check_deletes true 0 (lit "check -n") (MkMatches [] (Some (lit "check", MkMatches [(lit "no-delete_unconfirmed", [])] None))) (MkMatches [(lit "no-delete_unconfirmed", [])] None)) as T. split.
  - specialize (T (toy_shell (open_session None) (fun c => Some c) quiet_net) Hm eq_refl eq_refl).
    destruct (do_command true 0 (lit "check -n") _) as [r s']. destruct T as [T _]. apply T. by exists ChMwcmqs, ChMwcmqs.
  - specialize (T open_shell Hm eq_refl eq_refl).
    destruct (do_command true 0 (lit "check -n") open_shell) as [r s']. destruct T as [_ T]. by apply T.
Defined.

(** C19: [listen] and [stop].  Each is for the channels that are named, for
    [mwcmqs] when none is, for none twice, and goes through them in order.  For
    every one of them, when its turn comes, it is looked at whether its broker
    runs: one that does is not started again, and one that does not cannot be
    stopped; the command ends there, what it did for the channels before stays,
    and nothing happens for the others.  (A broker whose thread has not begun does
    not run yet.)  Otherwise a new broker is made, started and put into the slot,
    or told to stop and taken out of it; only an mwcmqs broker that cannot be
    reached is left there, with a warning.  Other slots, and with [stop] the
    wallet, are left alone. *)
Theorem listener_commands {L : CryptoLib} {R : RegexEngine} {P : Platform} {E : ConfigEnv} {SL : SlateLib} {W : WalletData} {D : DerivationLib}
    {WL : WalletLib} {LC : LifeCycle} {PL : ProofLib} {ST : Serde TxProof} {SE : Serde EncryptedMessage} {K : KvStore} {J : ContactJson}
    {JT : JsonText} {SC : ScanLib} {SH : ShellLib} {CL : Clap} {N : Type} {B : Brokers N} args (s : Shell (N := N)) :
  exists l, l <> [] /\ NoDup l /\
  (forall c, c ∈ l <-> match c with
     | ChGrinbox => is_present args (lit "grinbox") = true
     | ChKeybase => is_present args (lit "keybase") = true
     | ChMwcmqs => is_present args (lit "mwcmqs") = true \/
         is_present args (lit "grinbox") = false /\ is_present args (lit "keybase") = false end) /\
  listens l s (cmd_listen args s) /\ stops l s (cmd_stop args s) /\
  (let '(r, s') := cmd_listen args s in
   (forall c, c ∉ l -> brokers s' c = brokers s c) /\ (forall c, is_Some (brokers s c) -> is_Some (brokers s' c)) /\
   (r = Ok () -> forall c, c ∈ l -> is_Some (brokers s' c))) /\
  (let '(r, s') := cmd_stop args s in
   ses s' = ses s /\ config s' = config s /\
   (forall c, c ∉ l -> brokers s' c = brokers s c) /\ (forall c, brokers s c = None -> brokers s' c = None) /\
   (r = Ok () -> forall c, c ∈ l -> c <> ChMwcmqs -> brokers s' c = None)).
Proof.
  destruct (channels_nodup args) as [Hne Hnd]. exists (channels_of args). split_and!; [done|done| | | | |].
  - intros c. unfold channels_of, has. destruct (is_present args (lit "grinbox")), (is_present args (lit "mwcmqs")), (is_present args (lit "keybase"));
      cbn; rewrite ?elem_of_cons, ?elem_of_nil; destruct c; naive_solver.
  - apply listens_each.
  - apply stops_each.
  - apply each_listen.
  - apply each_stop.
Qed.

(** With the Grinbox listener running, [listen -m -s] starts nothing. *)
Lemma listener_commands_witness :
  let args := MkMatches [(lit "grinbox", []); (lit "mwcmqs", [])] None in
  let running c := toy_shell (open_session None) (fun c' => if bool_decide (c' = c) then Some c else None) {| listening := [c]; posted := []; up := true |} in
  (fst (cmd_listen args (running ChGrinbox)) = fail (AlreadyListening (lit "mwcmq"))) /\
  exists l, listens l (running ChGrinbox) (cmd_listen args (running ChGrinbox)) /\ ChMwcmqs ∈ l /\ ChKeybase ∉ l.
Proof.
  intros args running. destruct (listener_commands (CL := clap) args (running ChGrinbox)) as (l & _ & _ & Hl & H & _). split; [vm_compute; reflexivity|].
  exists l. split; [exact H|]. split; [apply Hl; left; reflexivity|]. intros Hin%Hl. discriminate Hin.
Defined.

(** C18: the gate in front of the wallet.  With a Grinbox or keybase listener in
    its slot the wallet is neither locked nor made anew nor restored: those
    commands fail before they touch it.  An mwcmqs listener does not count: the
    wallet is locked under it, and it stays. *)
Theorem session_gates {L : CryptoLib} {R : RegexEngine} {P : Platform} {E : ConfigEnv} {SL : SlateLib} {W : WalletData} {D : DerivationLib}
    {WL : WalletLib} {LC : LifeCycle} {PL : ProofLib} {ST : Serde TxProof} {SE : Serde EncryptedMessage} {K : KvStore} {J : ContactJson}
    {JT : JsonText} {SC : ScanLib} {SH : ShellLib} {CL : Clap} {N : Type} {B : Brokers N} args (s : Shell (N := N)) :
  lockable (ses s) ->
  (is_Some (brokers s ChGrinbox) \/ is_Some (brokers s ChKeybase) ->
     cmd_lock s = (Err (Kind HasListener), s) /\
     forall cmd, cmd ∈ [cmd_init; cmd_restore; cmd_recover] -> cmd args s = (Err (Kind HasListener), set_safe false s)) /\
  (brokers s ChGrinbox = None -> brokers s ChKeybase = None ->
     let '(r, s') := cmd_lock s in r = Ok () /\ is_locked (wal (ses s')) = true /\ brokers s' = brokers s /\ net s' = net s).
Proof.
  intros Hl. split.
  - intros Hb. assert (forall b, has_listener (set_safe b s) = true) as Hh.
    { intros b. unfold has_listener. cbn. destruct Hb as [H|H]; rewrite (bool_decide_eq_true_2 _ H); [apply orb_true_r|done]. }
    split.
    + unfold cmd_lock, mbind, stM_bind. rewrite no_listener_spec. change (has_listener s) with (has_listener (set_safe true s)). by rewrite Hh.
    + intros cmd. rewrite !elem_of_cons, elem_of_nil. intros [->|[->|[->|[]]]]; unfold cmd_init, cmd_restore, cmd_recover;
        unfold mbind at 1 2, stM_bind at 1 2; cbn [safe st_modify]; by rewrite no_listener_spec, Hh.
  - intros H1 H2. unfold cmd_lock, mbind, stM_bind. rewrite no_listener_spec. unfold has_listener. rewrite H1, H2. cbn.
    unfold on_ses. destruct (lock_spec (ses s) Hl) as (i & -> & _). done.
Qed.

Lemma session_gates_witness :
  cmd_lock (toy_shell (open_session None) (fun c => Some c) quiet_net)
    = (Err (Kind HasListener), toy_shell (open_session None) (fun c => Some c) quiet_net) /\
  let only_mwcmqs c := if bool_decide (c = ChMwcmqs) then Some c else None in
  let '(r, s') := cmd_lock (toy_shell (open_session None) only_mwcmqs quiet_net) in
  is_locked (wal (ses s')) = true /\ brokers s' ChMwcmqs = Some ChMwcmqs.
Proof.
  split.
  - apply (session_gates (CL := clap) (MkMatches [] None) (toy_shell (open_session None) (fun c => Some c) quiet_net) (open_lockable None)). left. by exists ChGrinbox.
  - pose proof (session_gates (CL := clap) (MkMatches [] None) (toy_shell (open_session None) (fun c => if bool_decide (c = ChMwcmqs) then Some c else None) quiet_net)
      (open_lockable None)) as [_ T]. specialize (T eq_refl eq_refl). cbv zeta. destruct (cmd_lock _) as [r s'].
    destruct T as (_ & H1 & H2 & _). split; [exact H1|]. rewrite H2. reflexivity.
Defined.

(** C39: [receive].  The slate is read first; nothing is written, and the wallet
    not asked, when that fails or the response file cannot be made.  Then the
    response file is there, empty, before the wallet has seen the slate.  The
    command returns exactly when the amounts, if a file of them is named, can be
    read, this session's wallet takes the slate on the account that is active or
    the one set for incoming payments, that account is opened before and the old
    one again after, and the slate it made has a text and a first participant;
    the response file then has that text, and the wallet is left as these steps
    leave it.  Whatever fails among them leaves the response file empty, over a
    response that was there.  No other file is written. *)
Theorem receive_response {L : CryptoLib} {R : RegexEngine} {P : Platform} {E : ConfigEnv} {SL : SlateLib} {W : WalletData} {D : DerivationLib}
    {WL : WalletLib} {LC : LifeCycle} {PL : ProofLib} {ST : Serde TxProof} {SE : Serde EncryptedMessage} {K : KvStore} {J : ContactJson}
    {JT : JsonText} {SC : ScanLib} {SH : ShellLib} {CL : Clap} {N : Type} {B : Brokers N} args input (s : Shell (N := N)) :
  arg args "file" = Some input ->
  let response := in_home input ++ lit ".response" in
  let made := <[response := []]> (files s) in
  let '(r, s') := cmd_receive args s in
  match slate_in (files s) (in_home input) with
  | Some x =>
      if file_ok response then
        let accepted ses' text := exists amounts y, amounts_in made (arg args "recv_file") amounts /\
          treated (arg args "key_id") amounts x s y ses' /\ participant_data y <> [] /\ slate_to_json y = Some text in
        (r = Ok () /\ exists text, accepted (ses s') text /\ files s' = <[response := text]> (files s)) \/
        (is_ok r = false /\ files s' = made /\ forall ses' text, ~ accepted ses' text)
      else r = Err (External (lit "io")) /\ s' = s
  | None => is_ok r = false /\ s' = s
  end.
Proof.
  intros Ha. cbv zeta. unfold cmd_receive. unfold mbind at 1, stM_bind at 1, the_arg at 1, st_lift at 1. rewrite Ha. cbn [unwrap].
  unfold mbind at 1, stM_bind at 1. destruct (read_slate_spec (in_home input) s) as (r0 & -> & Hr0).
  destruct (slate_in _ _) as [x|]; [subst r0|by destruct r0]. unfold mbind at 1, stM_bind at 1, create_file.
  destruct (file_ok _); [|done]. unfold write_file at 1. cbn [st_modify]. set (s0 := set_config (config s) _ s).
  unfold mbind at 1, stM_bind at 1. destruct (amounts_spec (arg args "recv_file") s0) as (ra & -> & Hra). cbn [files s0 set_config] in Hra.
  destruct ra as [amounts|e| |]; [|right; split_and!; [done..|]; intros ses' text (a & y & Hin & _); by apply (Hra a)..].
  unfold mbind at 1, stM_bind at 1. pose proof (receive_slate_spec (arg args "key_id") amounts x s0) as Hrec.
  assert (forall a, amounts_in (<[in_home input ++ lit ".response" := []]> (files s)) (arg args "recv_file") a -> a = amounts) as Hone.
  { revert Hra. unfold amounts_in. destruct (arg args "recv_file") as [f|]; [|by intros -> ? ->].
    intros (t & l & H1 & _ & H2 & ->) a (t' & l' & H3 & _ & H4 & ->). congruence. }
  change (forall y ses', treated (arg args "key_id") amounts x s0 y ses') with (forall y ses', treated (arg args "key_id") amounts x s y ses') in Hrec.
  destruct (receive_slate _ _ _ s0) as [[y|e| |] s1]; destruct Hrec as [Hf Hrec];
    [|right; split_and!; [done|done|]; intros ses' text (a & y & Hin%Hone & Ht & _); subst a; by apply (Hrec y ses')..].
  assert (forall y' ses', treated (arg args "key_id") amounts x s y' ses' -> y' = y /\ ses' = ses s1) as Hdet by (intros y' ses'; by apply treated_det).
  unfold mbind at 1, stM_bind at 1, st_lift at 1.
  destruct (participant_data y) as [|p ps] eqn:Hp; cbn [head unwrap];
    [right; split_and!; [done|done|]; intros ses' text (a & y' & Hin%Hone & Ht & Hne & _); subst a; apply Hdet in Ht as [-> _]; congruence|].
  unfold mbind, stM_bind, println, external, st_lift. cbn [st_modify].
  destruct (slate_to_json y) as [text|] eqn:Hj; cbn [ok_or];
    [|right; split_and!; [done|done|]; intros ses' text (a & y' & Hin%Hone & Ht & _ & Hj'); subst a; apply Hdet in Ht as [-> _]; congruence].
  left. split; [done|]. exists text. split.
  - exists amounts, y. split_and!; [done|exact Hrec|by rewrite Hp|done].
  - cbn. rewrite Hf. apply insert_insert_eq.
Qed.

(** A slate in a file, and an old response. *)
Definition a_slate_shell (x : Session) : Shell :=
  set_config toy_config (<[lit "s.tx.response" := lit "old"]> (<[lit "s.tx" := a_text]> ∅)) (toy_shell x (fun _ => None) quiet_net).
Definition receive_args : ArgMatches := MkMatches [(lit "file", [lit "s.tx"])] None.
Lemma receive_response_witness :
  (let '(r, s') := cmd_receive receive_args (a_slate_shell (locked_session None)) in
   is_ok r = false /\ files s' !! lit "s.tx.response" = Some []) /\
  (let '(r, s') := cmd_receive receive_args (a_slate_shell (open_session None)) in
   r = Ok () /\ exists y text, treated None None a_slate (a_slate_shell (open_session None)) y (ses s') /\
     slate_to_json y = Some text /\ files s' !! lit "s.tx.response" = Some text).
Proof.
  assert (forall x, slate_in (files (a_slate_shell x)) (in_home (lit "s.tx")) = Some a_slate) as Hin by (intros x; vm_compute; reflexivity).
  pose proof (fun x => receive_response receive_args (lit "s.tx") (a_slate_shell x) eq_refl) as T. cbv zeta in T.
  split.
  - specialize (T (locked_session None)). rewrite Hin in T. cbn [file_ok toy_shell_lib] in T.
    assert (is_ok (fst (cmd_receive receive_args (a_slate_shell (locked_session None)))) = false) as Hr by (vm_compute; reflexivity).
    destruct (cmd_receive receive_args (a_slate_shell (locked_session None))) as [r s']. cbn [fst] in Hr. split; [exact Hr|].
    destruct T as [[-> _]|(_ & T & _)]; [discriminate Hr|]. rewrite T. apply lookup_insert_eq.
  - specialize (T (open_session None)). rewrite Hin in T. cbn [file_ok toy_shell_lib] in T.
    assert (is_ok (fst (cmd_receive receive_args (a_slate_shell (open_session None)))) = true) as Hr by (vm_compute; reflexivity).
    destruct (cmd_receive receive_args (a_slate_shell (open_session None))) as [r s']. cbn [fst] in Hr.
    destruct T as [(-> & text & (amounts & y & H1 & H2 & _ & H3) & H4)|(T & _)]; [|rewrite T in Hr; discriminate Hr].
    change (amounts = None) in H1. subst amounts. split; [reflexivity|]. exists y, text. split; [exact H2|]. split; [exact H3|].
    rewrite H4. apply lookup_insert_eq.
Defined.

(** Commands that end the program.  [set-recv] unwraps what the wallet says
    of the account, so on a locked wallet it panics, and [getnextkey] panics on
    an amount that is not a number; neither has changed anything by then. *)
Theorem commands_panic {L : CryptoLib} {R : RegexEngine} {P : Platform} {E : ConfigEnv} {SL : SlateLib} {W : WalletData} {D : DerivationLib}
    {WL : WalletLib} {LC : LifeCycle} {PL : ProofLib} {ST : Serde TxProof} {SE : Serde EncryptedMessage} {K : KvStore} {J : ContactJson}
    {JT : JsonText} {SC : ScanLib} {SH : ShellLib} {CL : Clap} {Laws : ClapLaws CL} {N : Type} {B : Brokers N} checks pages line m name args (s : Shell) :
  Parser_parse line = Ok m -> subcommand_name m = Some name -> subcommand_matches m name = Some args ->
  (name = lit "set-recv" -> is_locked (wal (ses s)) = true -> do_command checks pages line s = (Panic, set_safe true s)) /\
  (name = lit "getnextkey" -> forall a, arg args "amount" = Some a -> from_str_radix 64 10 a = None ->
     do_command checks pages line s = (Panic, set_safe true s)).
Proof.
  intros Hm Hn Ha. rewrite (do_command_eq _ _ _ _ _ _ _ Hm Hn Ha). split.
  - intros -> Hl. change (run_command checks pages (lit "set-recv") args) with (cmd_set_recv (N := N) args).
    destruct (required_below _ _ _ _ (lit "account") (parse_conforms _ _ Hm) Ha) as [a Hv]; [vm_compute; reflexivity|].
    unfold cmd_set_recv, the_arg, arg, mbind, stM_bind, st_lift. rewrite Hv. cbn [unwrap]. unfold st_match, on_ses, account_exists, mbind, stM_bind.
    rewrite with_wallet_locked by done. by destruct s.
  - intros -> a Hv Hz. change (run_command checks pages (lit "getnextkey") args) with (cmd_getnextkey (N := N) args).
    unfold cmd_getnextkey. rewrite Hv. cbn [default]. unfold mbind, stM_bind, st_lift. cbn. by rewrite Hz.
Qed.

Lemma commands_panic_witness :
  fst (do_command true 0 (lit "set-recv savings") locked_shell) = Panic /\
  fst (do_command true 0 (lit "getnextkey -a 1.5") open_shell) = Panic.
Proof.
  split.
  - destruct (Parser_parse (lit "set-recv savings")) as [m|e| |] eqn:Hm; [|vm_compute in Hm; discriminate Hm..].
    pose proof (commands_panic true 0 _ m (lit "set-recv") (MkMatches [(lit "account", [lit "savings"])] None) locked_shell Hm) as T.
    vm_compute in Hm. injection Hm as <-. by rewrite (proj1 (T eq_refl eq_refl) eq_refl eq_refl).
  - destruct (Parser_parse (lit "getnextkey -a 1.5")) as [m|e| |] eqn:Hm; [|vm_compute in Hm; discriminate Hm..].
    pose proof (commands_panic true 0 _ m (lit "getnextkey") (MkMatches [(lit "amount", [lit "1.5"])] None) open_shell Hm) as T.
    vm_compute in Hm. injection Hm as <-. by rewrite (proj2 (T eq_refl eq_refl) eq_refl _ eq_refl eq_refl).
Defined.
