(* ===== verification/Channels.v ===== *)
(** * The channels behind the commands

    The commands know a channel by the class [Brokers].  Here is what they need
    of it ([BrokerLaws]), what the listeners' slots go through with it, and the
    three channels as an implementation: publishers and subscribers of
    [broker/mwcmq.rs], [broker/grinbox.rs] and [broker/keybase.rs] that share a
    broker, in a store of brokers. *)

From S2P Require Import Prelude Str Errors Regex Crypto Address Message TxProof AddressBook Config WalletTypes BulkValidate Hasher VerifyProof WalletApi Scan Wallet Broker Grinbox Mwcmqs Json Keybase Parser Controller Commands.
Local Open Scope Z_scope.

(** ** The interface *)

(** A handle is [known] once it has been made; two handles [share] when they
    are ends of one broker.  Making a broker or starting its thread leaves the
    others as they are, and its own listener does not run yet; stopping ends it.
    Through a message queue nothing is sent unless its listener runs. *)
Class BrokerLaws {L : CryptoLib} {SL : SlateLib} {N : Type} (B : Brokers N) : Type := {
  known : Handle -> N -> Prop;
  shares : Handle -> Handle -> Prop;
  shares_sym h h' : shares h h' -> shares h' h;
  new_fresh ch c n h n' : broker_new ch c n = (Ok h, n') ->
    known h n' /\ broker_running h n' = false /\ forall h', known h' n -> ~ shares h h';
  new_keeps ch c n r n' : broker_new ch c n = (r, n') ->
    forall h', known h' n -> known h' n' /\ broker_running h' n' = broker_running h' n;
  spawn_keeps h n r n' : broker_spawn h n = (r, n') ->
    forall h', known h' n -> known h' n' /\ broker_running h' n' = broker_running h' n;
  stop_ends h n b n' : known h n -> broker_stop h n = (Ok b, n') -> broker_running h n' = false;
  stop_keeps h n r n' : broker_stop h n = (r, n') ->
    forall h', known h' n -> known h' n' /\ (~ shares h h' -> broker_running h' n' = broker_running h' n);
  post_closed ch c n h n' x a m : broker_new ch c n = (Ok h, n') -> ch <> ChKeybase -> broker_running h m = false ->
    fst (broker_post h x a m) <> Ok ();
}.

(** ** The slots *)

Section slots.
Context {L : CryptoLib} {R : RegexEngine} {P : Platform} {E : ConfigEnv} {SL : SlateLib} {W : WalletData} {D : DerivationLib} {WL : WalletLib}
  {LC : LifeCycle} {PL : ProofLib} {ST : Serde TxProof} {SE : Serde EncryptedMessage} {K : KvStore} {J : ContactJson} {JT : JsonText} {SC : ScanLib} {SH : ShellLib} {CL : Clap}
  {N : Type} {B : Brokers N} {BL : BrokerLaws B}.
Abbreviation Sh := (Shell (N := N)).
Abbreviation HM A := (stM Sh Error A).

(** Every slot has a broker of its own. *)
Definition slots_ok (s : Sh) : Prop :=
  (forall ch h, brokers s ch = Some h -> known h (Commands.net s)) /\
  (forall ch ch' h h', ch <> ch' -> brokers s ch = Some h -> brokers s ch' = Some h' -> ~ shares h h').
(** From [n] to [n'] what was known goes on as it did. *)
Definition carries (n n' : N) : Prop :=
  forall h, known h n -> known h n' /\ broker_running h n' = broker_running h n.

Lemma carries_refl n : carries n n.
Proof. done. Qed.
Lemma carries_trans n n' n'' : carries n n' -> carries n' n'' -> carries n n''.
Proof. intros H1 H2 h Hh. destruct (H1 h Hh) as [K1 R1], (H2 h K1) as [K2 R2]. split; [done|congruence]. Qed.
Lemma slots_carry (s s' : Sh) : brokers s' = brokers s -> carries (Commands.net s) (Commands.net s') -> slots_ok s ->
  slots_ok s' /\ forall ch, is_running ch s' = is_running ch s.
Proof.
  intros Hb Hc [H1 H2]. unfold slots_ok, is_running. rewrite Hb. split_and!; [|done|].
  - intros ch h Hh. by apply Hc, (H1 ch).
  - intros ch. destruct (brokers s ch) as [h|] eqn:Hh; [|done]. by apply Hc, (H1 ch).
Qed.

Lemma unlock_default_net : keeps (N := N) Commands.net unlock_default.
Proof.
  intros s. unfold unlock_default, mbind, stM_bind, get, on_ses. cbn. destruct (is_locked _); [|done]. cbn.
  by destruct (unlock _ _ _ _).
Qed.

Lemma start_listener_spec ch (s : Sh) :
  let '(r, s') := start_listener ch s in
  brokers s' = brokers s /\ carries (Commands.net s) (Commands.net s') /\
  (forall h, r = Ok h -> known h (Commands.net s') /\ broker_running h (Commands.net s') = false /\
     forall h', known h' (Commands.net s) -> ~ shares h h').
Proof.
  pose proof (start_listener_slots ch s) as Hb. destruct (start_listener ch s) as [r s'] eqn:E0. cbn in Hb. split; [done|].
  revert E0. unfold start_listener. unfold mbind at 1, stM_bind at 1. pose proof (unlock_default_net s) as Hn.
  destruct (unlock_default s) as [[[]|e| |] s1]; cbn in Hn; [|intros [= <- <-]; rewrite Hn; split; [apply carries_refl|done]..].
  unfold println. unfold mbind at 1, stM_bind at 1. cbn [st_modify]. unfold mbind at 1, stM_bind at 1. cbn [get config add_out].
  unfold mbind at 1, stM_bind at 1. cbn [st_lift].
  destruct (listener_address (config s1) ch) as [[]|e| |]; [|intros [= <- <-]; cbn; rewrite Hn; split; [apply carries_refl|done]..].
  unfold mbind at 1, stM_bind at 1. unfold on_net at 1. cbn [Commands.net add_out]. rewrite <- Hn.
  destruct (broker_new ch (config s1) (Commands.net s1)) as [[h|e| |] n1] eqn:E1;
    [|intros [= <- <-]; cbn; split; [exact (new_keeps _ _ _ _ _ E1)|done]..].
  unfold mbind, stM_bind, on_net. cbn [Commands.net set_net]. pose proof (new_keeps _ _ _ _ _ E1) as K1. pose proof (new_fresh _ _ _ _ _ E1) as (F1 & F2 & F3).
  destruct (broker_spawn h n1) as [[[]|e| |] n2] eqn:E2; intros [= <- <-]; cbn;
    (split; [by eapply carries_trans; [exact K1|exact (spawn_keeps _ _ _ _ E2)]|]); try done.
  intros h0 [= <-]. destruct (spawn_keeps _ _ _ _ E2 h F1) as [S1 S2]. split_and!; [done|by rewrite S2|done].
Qed.

(** What a command does to the listeners: [gone] do not run after it, the
    others as before, and none starts to. *)
Definition moved (gone : Channel -> Prop) (chosen : list Channel) (s s' : Sh) : Prop :=
  slots_ok s' /\ (forall c, c ∉ chosen -> is_running c s' = is_running c s) /\
  (forall c, is_running c s' = true -> is_running c s = true) /\ (forall c, gone c -> is_running c s' = false).
Lemma moved_refl l s : slots_ok s -> moved (fun _ => False) l s s.
Proof. intros H. split_and!; [done|done|done|by intros c []]. Qed.
Lemma moved_weaken (g g' : Channel -> Prop) l l' s s' : (forall c, c ∈ l -> c ∈ l') -> (forall c, g' c -> g c) -> moved g l s s' -> moved g' l' s s'.
Proof. intros Hl Hg (H1 & H2 & H3 & H4). split_and!; eauto. Qed.
Lemma moved_trans g g' l s s1 s2 : moved g l s s1 -> moved g' l s1 s2 -> moved (fun c => g c \/ g' c) l s s2.
Proof.
  intros (H1 & H2 & H3 & H4) (K1 & K2 & K3 & K4). split_and!; [done|intros c Hc; by rewrite K2, H2|auto|].
  intros c [Hg|Hg]; [|by apply K4]. destruct (is_running c s2) eqn:Hr; [|done]. specialize (K3 c Hr). rewrite (H4 c Hg) in K3. done.
Qed.

Lemma listen_on_moved ch (s : Sh) : slots_ok s ->
  let '(r, s') := listen_on ch s in moved (fun c => r = Ok () /\ c = ch) [ch] s s'.
Proof.
  intros Hok. unfold listen_on, mbind, stM_bind. cbn [get].
  destruct (is_running ch s) eqn:Hr; [eapply moved_weaken; [..|by apply (moved_refl [ch])]; [done|by intros c [? _]]|].
  pose proof (start_listener_spec ch s) as Hs. destruct (start_listener ch s) as [r s1]. destruct Hs as (Hb & Hc & Hh).
  destruct (slots_carry s s1 Hb Hc Hok) as [Hok1 Hr1].
  destruct r as [h|e| |]; cbn; [|eapply (moved_weaken (fun _ => False)); [done|by intros c [? _]|]; split_and!; naive_solver..].
  destruct (Hh h eq_refl) as (K1 & K2 & K3). destruct Hok1 as [O1 O2]. destruct Hok as [P1 P2].
  assert (forall c, is_running c (set_broker ch (Some h) s1) = if bool_decide (c = ch) then false else is_running c s) as Hrun.
  { intros c. unfold is_running at 1. cbn. case_bool_decide; [done|]. rewrite <- Hr1. reflexivity. }
  split_and!.
  - split; cbn.
    + intros c h0. case_bool_decide; [by intros [= <-]|apply O1].
    + intros c c' h0 h1 Hne. do 2 case_bool_decide; [congruence|intros [= <-]|intros Hx [= <-]|by apply O2].
      * rewrite Hb. intros Hx. by apply K3, (P1 c').
      * rewrite Hb in Hx. intros Hy%shares_sym. revert Hy. by apply K3, (P1 c).
  - intros c Hc'. rewrite Hrun, bool_decide_eq_false_2; [done|]. intros ->. apply Hc'. by left.
  - intros c. rewrite Hrun. by case_bool_decide.
  - intros c [_ ->]. by rewrite Hrun, bool_decide_eq_true_2.
Qed.

Lemma slots_cleared ch (s s' : Sh) : (forall c, brokers s' c = if bool_decide (c = ch) then None else brokers s c) ->
  Commands.net s' = Commands.net s -> slots_ok s -> slots_ok s'.
Proof.
  intros Hb Hn [H1 H2]. unfold slots_ok. rewrite Hn. split.
  - intros c h. rewrite Hb. case_bool_decide; [done|apply H1].
  - intros c c' h h' Hne. rewrite !Hb. do 2 case_bool_decide; [done..|by apply H2].
Qed.
Lemma stop_on_moved ch (s : Sh) : slots_ok s ->
  let '(r, s') := stop_on ch s in moved (fun c => r = Ok () /\ c = ch) [ch] s s'.
Proof.
  intros Hok. unfold stop_on. unfold mbind at 1, stM_bind at 1. cbn [get].
  destruct (is_running ch s) eqn:Hr; [|eapply moved_weaken; [..|by apply (moved_refl [ch])]; [done|by intros c [? _]]].
  unfold mbind, stM_bind, println. cbn [st_modify get]. cbn [brokers add_out].
  destruct (brokers s ch) as [h|] eqn:Hb; [|unfold is_running in Hr; by rewrite Hb in Hr]. unfold on_net. cbn [Commands.net add_out].
  destruct Hok as [H1 H2]. pose proof (H1 ch h Hb) as Hk. destruct (broker_stop h (Commands.net s)) as [rs n] eqn:Es.
  pose proof (stop_keeps _ _ _ _ Es) as Hkeep. set (s1 := set_net n (add_out _ s)).
  assert (slots_ok s1) as Hok1 by (split; [|done]; intros c h0 Hc; by apply Hkeep, (H1 c)).
  assert (forall c, c <> ch -> is_running c s1 = is_running c s) as Hrun.
  { intros c Hc. unfold is_running. cbn. destruct (brokers s c) as [h0|] eqn:Hc0; [|done]. apply Hkeep; [by apply (H1 c)|].
    by apply (H2 ch c). }
  assert (forall b, rs = Ok b -> is_running ch s1 = false) as Hend
    by (intros b ->; unfold is_running; cbn; rewrite Hb; exact (stop_ends _ _ _ _ Hk Es)).
  assert (forall (r : result ()) s2, slots_ok s2 -> (forall c, c <> ch -> is_running c s2 = is_running c s) -> (r = Ok () -> is_running ch s2 = false) ->
    moved (fun c => r = Ok () /\ c = ch) [ch] s s2) as Hfin.
  { intros r s2 F1 F2 F3. split_and!; [done|intros c Hc; apply F2; intros ->; apply Hc; by left| |intros c [Hc ->]; auto].
    intros c Hc. destruct (decide (c = ch)) as [->|Hne]; [done|]. by rewrite <- F2. }
  destruct rs as [b|e| |]; [|by apply Hfin..].
  destruct (bool_decide (ch <> ChMwcmqs) || b); apply Hfin; try done.
  - by eapply (slots_cleared ch s1).
  - intros c Hc. rewrite <- Hrun by done. unfold is_running. cbn. by rewrite bool_decide_eq_false_2.
  - intros _. unfold is_running. cbn. by rewrite bool_decide_eq_true_2.
  - intros _. exact (Hend b eq_refl).
Qed.

Lemma each_moved f l : (forall ch s, slots_ok s -> let '(r, s') := f ch s in moved (fun c => r = Ok () /\ c = ch) [ch] s s') ->
  forall s : Sh, slots_ok s -> let '(r, s') := each f l s in moved (fun c => r = Ok () /\ c ∈ l) l s s'.
Proof.
  intros Hf. induction l as [|ch l IH]; intros s Hok; cbn [each].
  - eapply moved_weaken; [..|by apply (moved_refl [])]; [done|]. intros c [_ Hc]. by apply elem_of_nil in Hc.
  - unfold mbind, stM_bind. pose proof (Hf ch s Hok) as H1. destruct (f ch s) as [[[]|e| |] s1].
    2-4: eapply moved_weaken; [..|exact H1]; [intros c ->%list_elem_of_singleton; by left|by intros c [? _]].
    pose proof (IH s1 (proj1 H1)) as H2. destruct (each f l s1) as [r s2].
    assert (moved (fun c => c = ch) (ch :: l) s s1) as M1
      by (revert H1; apply moved_weaken; [intros c ->%list_elem_of_singleton; by left|done]).
    assert (moved (fun c => r = Ok () /\ c ∈ l) (ch :: l) s1 s2) as M2 by (revert H2; apply moved_weaken; [intros c Hc; by right|done]).
    generalize (moved_trans _ _ _ _ _ _ M1 M2). apply moved_weaken; [done|].
    intros c [Hr Hc]. apply elem_of_cons in Hc as [->|Hc]; auto.
Qed.

(** *** Listeners without a slot *)

(** What an end of [h] does to the world: it writes its own broker. *)
Definition writes (h : Handle) (n n' : N) : Prop :=
  forall h', known h' n -> known h' n' /\ (~ shares h h' -> broker_running h' n' = broker_running h' n).
(** No slot reaches the broker of [h]. *)
Definition apart (h : Handle) (s : Sh) : Prop :=
  known h (Commands.net s) /\ forall c h', brokers s c = Some h' -> ~ shares h' h.
(** [f] does not reach the brokers that are in no slot. *)
Definition spares {A} (f : HM A) : Prop := forall h s r s', f s = (r, s') -> apart h s ->
  apart h s' /\ broker_running h (Commands.net s') = broker_running h (Commands.net s).

Lemma listen_on_spares ch : spares (listen_on ch).
Proof.
  intros h s r s' Hf [Hk Hs]. revert Hf. unfold listen_on, mbind, stM_bind. cbn [get].
  destruct (is_running ch s); [by intros [= <- <-]|].
  pose proof (start_listener_spec ch s) as Hl. destruct (start_listener ch s) as [r1 s1]. destruct Hl as (Hb & Hc & Hh).
  destruct (Hc h Hk) as [Hk1 Hr1]. destruct r1 as [h0|e| |]; intros [= <- <-]; unfold apart; [|by rewrite Hb..].
  split_and!; [done| |done]. cbn. intros c h'. case_bool_decide; [intros [= <-]; by apply (Hh h0 eq_refl)|rewrite Hb; apply Hs].
Qed.
Lemma stop_on_spares ch : spares (stop_on ch).
Proof.
  intros h s r s' Hf [Hk Hs]. revert Hf. unfold stop_on. unfold mbind at 1, stM_bind at 1. cbn [get].
  destruct (is_running ch s) eqn:Hr; [|by intros [= <- <-]].
  unfold mbind, stM_bind, println. cbn [st_modify get]. cbn [brokers add_out].
  destruct (brokers s ch) as [h0|] eqn:Hb; [|unfold is_running in Hr; by rewrite Hb in Hr]. unfold on_net. cbn [Commands.net add_out].
  destruct (broker_stop h0 (Commands.net s)) as [r1 n] eqn:Es. destruct (stop_keeps _ _ _ _ Es h Hk) as [Hk1 Hr1].
  specialize (Hr1 (Hs ch h0 Hb)). destruct r1 as [b|e| |]; [|by intros [= <- <-]..].
  destruct (bool_decide (ch <> ChMwcmqs) || b); intros [= <- <-]; [|done]. split; [|exact Hr1]. split; [exact Hk1|]. cbn.
  intros c h'. case_bool_decide; [done|apply Hs].
Qed.
Lemma each_spares f l : (forall ch, spares (f ch)) -> spares (each f l).
Proof.
  intros Hf. induction l as [|ch l IH]; intros h s r s'; cbn [each]; [by intros [= <- <-]|]. unfold mbind, stM_bind.
  destruct (f ch s) as [[[]|e| |] s1] eqn:E1; [|intros [= <- <-]; by eapply Hf..].
  intros E2 Ha. destruct (Hf _ _ _ _ _ E1 Ha) as [Ha1 <-]. by eapply IH.
Qed.
Lemma cmd_spares args h s : apart h s ->
  (let s' := snd (cmd_listen args s) in apart h s' /\ broker_running h (Commands.net s') = broker_running h (Commands.net s)) /\
  (let s' := snd (cmd_stop args s) in apart h s' /\ broker_running h (Commands.net s') = broker_running h (Commands.net s)).
Proof.
  intros Ha. split; (eapply each_spares; [|apply surjective_pairing|done]); [apply listen_on_spares|apply stop_on_spares].
Qed.

(** A broker whose slot is taken over, and one that is stopped. *)
Lemma replaced_apart ch h s s1 : known h (Commands.net s) ->
  (forall c h', c <> ch -> brokers s c = Some h' -> ~ shares h' h) -> is_running ch s = false -> listen_on ch s = (Ok (), s1) ->
  apart h s1 /\ broker_running h (Commands.net s1) = broker_running h (Commands.net s).
Proof.
  intros Hk Hs Hr. unfold listen_on, mbind, stM_bind. cbn [get]. rewrite Hr.
  pose proof (start_listener_spec ch s) as Hl. destruct (start_listener ch s) as [[h0|e| |] s0]; [|done..].
  destruct Hl as (Hb & Hc & Hh). destruct (Hh h0 eq_refl) as (_ & _ & Hfresh). destruct (Hc h Hk) as [Hk0 Hr0].
  intros [= <-]. split; [|done]. split; [done|]. cbn. intros c h'.
  case_bool_decide as Hne; [intros [= <-]; by apply Hfresh|rewrite Hb; by apply Hs].
Qed.
Lemma stopped_out ch h s s1 : slots_ok s -> brokers s ch = Some h -> stop_on ch s = (Ok (), s1) ->
  known h (Commands.net s1) /\ broker_running h (Commands.net s1) = false /\ is_running ch s1 = false /\
  forall c h', c <> ch -> brokers s1 c = Some h' -> ~ shares h' h.
Proof.
  intros [H1 H2] Hb. unfold stop_on. unfold mbind at 1, stM_bind at 1. cbn [get].
  destruct (is_running ch s) eqn:Hr; [|done]. unfold mbind, stM_bind, println. cbn [st_modify get]. cbn [brokers add_out]. rewrite Hb.
  unfold on_net. cbn [Commands.net add_out]. destruct (broker_stop h (Commands.net s)) as [[b|e| |] n] eqn:Es; [|done..].
  pose proof (H1 ch h Hb) as Hk. destruct (stop_keeps _ _ _ _ Es h Hk) as [Hk1 _]. pose proof (stop_ends _ _ _ _ Hk Es) as Hend.
  destruct (bool_decide (ch <> ChMwcmqs) || b); intros [= <-]; unfold is_running; cbn; rewrite ?Hb; (split_and!; [done|done| |]);
    try (by rewrite ?bool_decide_eq_true_2); intros c h' Hne; rewrite ?bool_decide_eq_false_2 by done; intros Hc; by apply (H2 c ch).
Qed.

(** *** Commands and threads in any order *)

Inductive step (s : Sh) : Sh -> Prop :=
| step_listen args : step s (snd (cmd_listen args s))
| step_stop args : step s (snd (cmd_stop args s))
| step_thread h n : known h (Commands.net s) -> writes h (Commands.net s) n -> step s (set_net n s).

Lemma cmd_moved args (s : Sh) : slots_ok s ->
  (let '(r, s') := cmd_listen args s in moved (fun c => r = Ok () /\ c ∈ channels_of args) (channels_of args) s s') /\
  (let '(r, s') := cmd_stop args s in moved (fun c => r = Ok () /\ c ∈ channels_of args) (channels_of args) s s').
Proof. split; by apply each_moved; [apply listen_on_moved || apply stop_on_moved|]. Qed.
Lemma step_slots s s' : step s s' -> slots_ok s -> slots_ok s'.
Proof.
  intros [args|args|h n Hk Hw] Hok.
  - pose proof (proj1 (cmd_moved args s Hok)) as H. destruct (cmd_listen args s). apply H.
  - pose proof (proj2 (cmd_moved args s Hok)) as H. destruct (cmd_stop args s). apply H.
  - destruct Hok as [H1 H2]. split; [|done]. intros c h' Hc. by apply Hw, (H1 c).
Qed.
Lemma step_apart s s' h : step s s' -> apart h s -> apart h s'.
Proof.
  intros [args|args|h' n Hk Hw] Ha; [by apply (cmd_spares args)..|].
  destruct Ha as [H1 H2]. split; [by apply Hw|done].
Qed.
End slots.

(** ** The three channels *)

(** A broker in memory, shared by whoever holds its place in the store. *)
Section channels.
Context {L : CryptoLib} {R : RegexEngine} {P : Platform} {E : ConfigEnv} {SL : SlateLib} {SE : Serde EncryptedMessage} {SD : SignatureDebug}
  {SQ : Serde ProtocolRequest} {SR : Serde ProtocolResponse} {JT : JsonText} {K : Type} {C : KeybaseCli K}
  {S : Type} {H : SubscriptionHandler S}.
Variable handler : S.          (* a controller as [Controller::new] makes it *)

Inductive Broker_ : Type :=
| GrinboxBroker (g : Grinbox S)
| MWCMQSBroker (m : Mqs S)
| KeybaseSignal (k : Keybase K S).
(** The brokers, the threads that listen, and what the outside answers: the
    Keybase client, the servers' replies and the random numbers to come. *)
Record Outside : Type := {
  made : list Broker_;
  threads : list nat;
  client : K;
  replies : list Reply;
  salts : list (str * str);
}.
Abbreviation OM A := (stM Outside Error A).

Definition set_made (l : list Broker_) (n : Outside) : Outside :=
  {| made := l; threads := threads n; client := client n; replies := replies n; salts := salts n |}.
Definition set_client (k : K) (n : Outside) : Outside :=
  {| made := made n; threads := threads n; client := k; replies := replies n; salts := salts n |}.
Definition set_replies (l : list Reply) (n : Outside) : Outside :=
  {| made := made n; threads := threads n; client := client n; replies := l; salts := salts n |}.
Definition set_salts (l : list (str * str)) (n : Outside) : Outside :=
  {| made := made n; threads := threads n; client := client n; replies := replies n; salts := l |}.
Definition add_thread (i : nat) (n : Outside) : Outside :=
  {| made := made n; threads := threads n ++ [i]; client := client n; replies := replies n; salts := salts n |}.

Definition next_reply : OM Reply := fun n =>
  match replies n with r :: l => (Ok r, set_replies l n) | [] => (Ok (SendFailed []), n) end.
Definition next_salt : OM (str * str) := fun n =>
  match salts n with r :: l => (Ok r, set_salts l n) | [] => (Ok ([], []), n) end.
Definition on_client {A} (m : stM K Error A) : OM A := fun n => let '(r, k) := m (client n) in (r, set_client k n).
Definition allocate (b : Broker_) : OM nat := fun n => (Ok (length (made n)), set_made (made n ++ [b]) n).

(** A step of a broker's code at its place; the kind of broker there never changes. *)
Definition at_grinbox {A} (i : nat) (f : stM (Grinbox S) Error A) : OM A := fun n =>
  match made n !! i with
  | Some (GrinboxBroker g) => let '(r, g) := f g in (r, set_made (<[i := GrinboxBroker g]> (made n)) n)
  | _ => (Panic, n)
  end.
Definition at_mwcmqs {A} (i : nat) (f : stM (Mqs S) Error A) : OM A := fun n =>
  match made n !! i with
  | Some (MWCMQSBroker m) => let '(r, m) := f m in (r, set_made (<[i := MWCMQSBroker m]> (made n)) n)
  | _ => (Panic, n)
  end.
Definition at_keybase {A} (i : nat) (f : stM (Keybase K S) Error A) : OM A := fun n =>
  match made n !! i with
  | Some (KeybaseSignal k) =>
      let '(r, k) := f (Keybase.set_cli (client n) k) in
      (r, set_client (cli k) (set_made (<[i := KeybaseSignal k]> (made n)) n))
  | _ => (Panic, n)
  end.

(** *** Making the ends *)

(** A publisher or subscriber: its fields, and where its broker is. *)
Record GrinboxEnd : Type := { grinbox_of : GrinboxPublisher; grinbox_broker : nat }.
Record MWCMQSEnd : Type := { mwcmqs_of : MWCMQPublisher; mwcmqs_broker : nat }.
Record KeybaseSubscriber : Type := { subscriber_binary : option str; stop_place : nat }.

Definition GrinboxBroker_new : OM nat :=
  allocate (GrinboxBroker {| Grinbox.inner := false; send_ok := false; frames := []; meta := ConnectionMetadata_new; printed := [];
                             Grinbox.slept := []; Grinbox.hs := handler |}).
Definition GrinboxPublisher_new (address : GrinboxAddress) (secret_key : SecretKey) (protocol_unsecure : bool) (config : Wallet713Config) : OM GrinboxEnd :=
  broker ← GrinboxBroker_new;
  mret {| grinbox_of := {| Grinbox.pub_address := address; Grinbox.pub_secret_key := secret_key; pub_unsecure := protocol_unsecure;
                           Grinbox.pub_config := config |};
          grinbox_broker := broker |}.
(** The copy of a broker is the same broker. *)
Definition GrinboxSubscriber_new (publisher : GrinboxEnd) : OM GrinboxEnd :=
  let p := grinbox_of publisher in
  mret {| grinbox_of := {| Grinbox.pub_address := Grinbox.pub_address p; Grinbox.pub_secret_key := Grinbox.pub_secret_key p;
                           pub_unsecure := pub_unsecure p; Grinbox.pub_config := Grinbox.pub_config p |};
          grinbox_broker := grinbox_broker publisher |}.
Definition MWCMQSBroker_new : OM nat :=
  allocate (MWCMQSBroker {| inner := false; requests := []; notices := []; Mwcmqs.slept := []; Mwcmqs.hs := handler |}).
Definition MWCMQPublisher_new (address : MWCMQSAddress) (secret_key : SecretKey) (config : Wallet713Config) : OM MWCMQSEnd :=
  broker ← MWCMQSBroker_new;
  mret {| mwcmqs_of := {| pub_address := address; pub_secret_key := secret_key; pub_config := config |}; mwcmqs_broker := broker |}.
Definition MWCMQSubscriber_new (publisher : MWCMQSEnd) : OM MWCMQSEnd :=
  let p := mwcmqs_of publisher in
  mret {| mwcmqs_of := {| pub_address := pub_address p; pub_secret_key := pub_secret_key p; pub_config := pub_config p |};
          mwcmqs_broker := mwcmqs_broker publisher |}.
Definition KeybaseSubscriber_new (keybase_binary : option str) : OM KeybaseSubscriber := fun n =>
  (i ← allocate (KeybaseSignal {| stop_signal := true; cli := client n; Keybase.slept := []; Keybase.hs := handler |});
   mret {| subscriber_binary := keybase_binary; stop_place := i |}) n.

(** What a slot holds: a publisher and its subscriber. *)
Inductive Ends : Type :=
| GrinboxEnds (publisher subscriber : GrinboxEnd)
| MWCMQSEnds (publisher subscriber : MWCMQSEnd)
| KeybaseEnds (publisher : KeybasePublisher) (subscriber : KeybaseSubscriber).
Definition place (h : Ends) : nat :=
  match h with
  | GrinboxEnds _ s => grinbox_broker s
  | MWCMQSEnds _ s => mwcmqs_broker s
  | KeybaseEnds _ s => stop_place s
  end.
Definition start_ends (ch : Channel) (config : Wallet713Config) : OM Ends :=
  match ch with
  | ChGrinbox =>
      grinbox_address ← st_lift (get_grinbox_address config);
      grinbox_secret_key ← st_lift (get_grinbox_secret_key config);
      publisher ← GrinboxPublisher_new grinbox_address grinbox_secret_key (Config.grinbox_protocol_unsecure config) config;
      subscriber ← GrinboxSubscriber_new publisher;
      mret (GrinboxEnds publisher subscriber)
  | ChMwcmqs =>
      mwcmqs_address ← st_lift (get_mwcmqs_address config);
      mwcmqs_secret_key ← st_lift (get_mwcmqs_secret_key config);
      publisher ← MWCMQPublisher_new mwcmqs_address mwcmqs_secret_key config;
      subscriber ← MWCMQSubscriber_new publisher;
      mret (MWCMQSEnds publisher subscriber)
  | ChKeybase =>
      subscriber ← KeybaseSubscriber_new (Config.keybase_binary config);
      publisher ← on_client (KeybasePublisher_new (default_keybase_ttl config) (Config.keybase_binary config));
      mret (KeybaseEnds publisher subscriber)
  end.
(** The thread is started; it has done nothing yet. *)
Definition spawn_ends (h : Ends) : OM () := st_modify (add_thread (place h)).

(** *** Using them *)

Definition ends_running (h : Ends) (n : Outside) : bool :=
  match made n !! place h with
  | Some (GrinboxBroker g) => Grinbox.inner g
  | Some (MWCMQSBroker m) => inner m
  | Some (KeybaseSignal k) => negb (stop_signal k)
  | None => false
  end.
Definition stop_ends_ (h : Ends) : OM bool :=
  match h with
  | GrinboxEnds _ s => at_grinbox (grinbox_broker s) Grinbox.stop ≫= fun _ => mret true
  | MWCMQSEnds _ s => reply ← next_reply; at_mwcmqs (mwcmqs_broker s) (Subscriber_stop (mwcmqs_of s) reply)
  | KeybaseEnds _ s => at_keybase (stop_place s) Keybase.stop
  end.
Definition post_ends (h : Ends) (x : Slate) (to : Address) : OM () :=
  match h with
  | GrinboxEnds p _ =>
      '(salt, nonce) ← next_salt;
      at_grinbox (grinbox_broker p) (GrinboxPublisher_post_slate (grinbox_of p) salt nonce x to)
  | MWCMQSEnds p _ =>
      '(salt, nonce) ← next_salt;
      reply ← next_reply;
      at_mwcmqs (mwcmqs_broker p) (MWCMQPublisher_post_slate (mwcmqs_of p) reply salt nonce x to)
  | KeybaseEnds p _ => on_client (KeybasePublisher_post_slate p x to)
  end.

Variable http : str -> option str -> Slate -> OM str.   (* the http client *)
#[export] Instance channels : Brokers Outside := {|
  Handle := Ends;
  broker_new := start_ends;
  broker_spawn := spawn_ends;
  broker_running := ends_running;
  Commands.broker_stop := stop_ends_;
  broker_post := post_ends;
  http_post_text := http;
|}.

(** *** One broker at a time *)

Definition same_kind (b b' : Broker_) : Prop :=
  match b, b' with
  | GrinboxBroker _, GrinboxBroker _ | MWCMQSBroker _, MWCMQSBroker _ | KeybaseSignal _, KeybaseSignal _ => True
  | _, _ => False
  end.
(** A pair of ends with its broker in the store. *)
Definition ends_known (h : Ends) (n : Outside) : Prop :=
  match h with
  | GrinboxEnds p s => grinbox_broker p = grinbox_broker s /\ exists g, made n !! grinbox_broker s = Some (GrinboxBroker g)
  | MWCMQSEnds p s => mwcmqs_broker p = mwcmqs_broker s /\ exists m, made n !! mwcmqs_broker s = Some (MWCMQSBroker m)
  | KeybaseEnds _ s => exists k, made n !! stop_place s = Some (KeybaseSignal k)
  end.
(** From [n] to [n'] only the broker at [i] has changed. *)
Definition only (i : nat) (n n' : Outside) : Prop :=
  (forall j b, j <> i -> made n !! j = Some b -> made n' !! j = Some b) /\
  (forall b, made n !! i = Some b -> exists b', made n' !! i = Some b' /\ same_kind b b').

Lemma same_kind_refl b : same_kind b b.
Proof. by destruct b. Qed.
Lemma same_kind_trans b b' b'' : same_kind b b' -> same_kind b' b'' -> same_kind b b''.
Proof. by destruct b, b', b''. Qed.
Lemma only_made i n n' : made n' = made n -> only i n n'.
Proof. intros Hm. split; rewrite Hm; eauto using same_kind_refl. Qed.
Lemma only_trans i n n' n'' : only i n n' -> only i n' n'' -> only i n n''.
Proof.
  intros [A1 A2] [B1 B2]. split; [by eauto|]. intros b Hb. destruct (A2 b Hb) as (b' & Hb' & K1). destruct (B2 b' Hb') as (b'' & Hb'' & K2).
  eauto using same_kind_trans.
Qed.
Lemma only_insert i b b' n n' : made n !! i = Some b -> same_kind b b' -> made n' = <[i := b']> (made n) -> only i n n'.
Proof.
  intros Hb Hk Hm. split; rewrite Hm.
  - intros j c Hj. by rewrite list_lookup_insert_ne.
  - intros c Hc. exists b'. rewrite list_lookup_insert_eq by eauto using lookup_lt_Some. split; [done|congruence].
Qed.
Lemma at_grinbox_only {A} i (f : stM (Grinbox S) Error A) n : only i n (snd (at_grinbox i f n)).
Proof.
  unfold at_grinbox. destruct (made n !! i) as [[g|m|k]|] eqn:Hb; [|by apply only_made..]. destruct (f g) as [r g'].
  eapply only_insert; [exact Hb| |reflexivity]; done.
Qed.
Lemma at_mwcmqs_only {A} i (f : stM (Mqs S) Error A) n : only i n (snd (at_mwcmqs i f n)).
Proof.
  unfold at_mwcmqs. destruct (made n !! i) as [[g|m|k]|] eqn:Hb; [by apply only_made| |by apply only_made..]. destruct (f m) as [r m'].
  eapply only_insert; [exact Hb| |reflexivity]; done.
Qed.
Lemma at_keybase_only {A} i (f : stM (Keybase K S) Error A) n : only i n (snd (at_keybase i f n)).
Proof.
  unfold at_keybase. destruct (made n !! i) as [[g|m|k]|] eqn:Hb; [by apply only_made..| |by apply only_made].
  destruct (f _) as [r k']. eapply only_insert; [exact Hb| |reflexivity]; done.
Qed.
Lemma next_reply_made n : made (snd (next_reply n)) = made n.
Proof. unfold next_reply. by destruct (replies n). Qed.

(** What a change at one place means for the other ends. *)
Lemma only_ends i n n' h : only i n n' -> ends_known h n ->
  ends_known h n' /\ (i <> place h -> ends_running h n' = ends_running h n).
Proof.
  intros [H1 H2] Hk. assert (exists b, made n !! place h = Some b) as [b Hb] by (destruct h; cbn in Hk |- *; naive_solver).
  destruct (decide (i = place h)) as [->|Hi].
  - destruct (H2 b Hb) as (b' & Hb' & K0). split; [|done].
    destruct h; cbn in *; [destruct Hk as [? [? Hk]]..|destruct Hk as [? Hk]]; rewrite Hk in Hb; injection Hb as <-; destruct b'; naive_solver.
  - pose proof (H1 _ b (not_eq_sym Hi) Hb) as Hb'. split; [|intros _; unfold ends_running; by rewrite Hb, Hb'].
    destruct h; cbn in *; [destruct Hk as [? [? Hk]]..|destruct Hk as [? Hk]]; rewrite Hk in Hb; injection Hb as <-; eauto.
Qed.
Lemma stop_ends_only h n : only (place h) n (snd (stop_ends_ h n)).
Proof.
  destruct h as [p s|p s|p s]; cbn [stop_ends_ place].
  - unfold mbind, stM_bind. pose proof (at_grinbox_only (grinbox_broker s) Grinbox.stop n) as Ho.
    by destruct (at_grinbox _ _ n) as [[[]|e| |] n'].
  - unfold mbind, stM_bind. pose proof (next_reply_made n) as Hm. destruct (next_reply n) as [[r|e| |] n']; cbn in Hm; [|by apply only_made..].
    eapply only_trans; [by apply only_made|apply at_mwcmqs_only].
  - apply at_keybase_only.
Qed.
Lemma stop_ends_stops h n b n' : ends_known h n -> stop_ends_ h n = (Ok b, n') -> ends_running h n' = false.
Proof.
  unfold ends_running. destruct h as [p s|p s|p s]; cbn [ends_known stop_ends_ place].
  - intros (_ & g & Hg). unfold mbind, stM_bind, at_grinbox. rewrite Hg. cbn. intros [= _ <-]. cbn.
    by rewrite list_lookup_insert_eq by eauto using lookup_lt_Some.
  - intros (_ & m & Hg). unfold mbind at 1, stM_bind at 1. pose proof (next_reply_made n) as Hm.
    destruct (next_reply n) as [[r|e| |] n1]; cbn in Hm; [|done..]. unfold at_mwcmqs. rewrite Hm, Hg.
    destruct (Subscriber_stop (mwcmqs_of s) r m) as [r1 m'] eqn:Es. intros [= -> <-]. cbn.
    rewrite list_lookup_insert_eq by (rewrite ?Hm; eauto using lookup_lt_Some).
    revert Es. unfold Subscriber_stop, mbind, stM_bind, st_lift. destruct r; [done|..];
      (destruct (MWCMQSAddress_stripped _); [|done..]); cbn; by intros [= _ <-].
  - intros (k & Hg). unfold at_keybase. rewrite Hg. cbn. intros [= _ <-]. cbn. by rewrite list_lookup_insert_eq by eauto using lookup_lt_Some.
Qed.

Lemma start_ends_spec ch c n :
  let '(r, n') := start_ends ch c n in
  only (length (made n)) n n' /\
  forall h, r = Ok h -> place h = length (made n) /\ ends_known h n' /\ ends_running h n' = false.
Proof.
  assert (forall b n', made n' = made n ++ [b] -> only (length (made n)) n n') as Ho.
  { intros b n' Hm. split; rewrite Hm; intros j.
    - intros b' _ Hj. by apply lookup_app_l_Some.
    - by rewrite lookup_ge_None_2. }
  assert (forall b, (made n ++ [b]) !! length (made n) = Some b) as Hat by (intros b; by apply list_lookup_middle).
  unfold start_ends. destruct ch.
  - unfold mbind, stM_bind, st_lift. destruct (get_grinbox_address c) as [a|e| |]; [|split; [by apply only_made|done]..].
    destruct (get_grinbox_secret_key c) as [k|e| |]; [|split; [by apply only_made|done]..]. cbn. split; [by eapply Ho|].
    intros h [= <-]. unfold ends_running. cbn. rewrite Hat. eauto.
  - unfold mbind, stM_bind, st_lift. destruct (get_mwcmqs_address c) as [a|e| |]; [|split; [by apply only_made|done]..].
    destruct (get_mwcmqs_secret_key c) as [k|e| |]; [|split; [by apply only_made|done]..]. cbn. split; [by eapply Ho|].
    intros h [= <-]. unfold ends_running. cbn. rewrite Hat. eauto.
  - unfold KeybaseSubscriber_new, allocate, on_client, mbind, stM_bind. cbn.
    destruct (KeybasePublisher_new (default_keybase_ttl c) _ _) as [[p|e| |] k]; (split; [by eapply Ho|]); [|done..].
    intros h [= <-]. unfold ends_running. cbn. rewrite Hat. eauto.
Qed.

(** Ends of a message queue share a broker, and send only while it listens. *)
Definition queue_ends (h : Ends) : Prop :=
  match h with
  | GrinboxEnds p s => grinbox_broker p = grinbox_broker s
  | MWCMQSEnds p s => mwcmqs_broker p = mwcmqs_broker s
  | KeybaseEnds _ _ => False
  end.
Lemma start_ends_queue ch c n : let '(r, _) := start_ends ch c n in forall h, ch <> ChKeybase -> r = Ok h -> queue_ends h.
Proof.
  destruct ch; [| |by destruct (start_ends _ c n)]; unfold start_ends, mbind, stM_bind, st_lift.
  - destruct (get_grinbox_address c) as [a|e| |]; [|done..]. destruct (get_grinbox_secret_key c) as [k|e| |]; [|done..]. by intros h _ [= <-].
  - destruct (get_mwcmqs_address c) as [a|e| |]; [|done..]. destruct (get_mwcmqs_secret_key c) as [k|e| |]; [|done..]. by intros h _ [= <-].
Qed.
Lemma post_ends_closed h x a n : queue_ends h -> ends_running h n = false -> fst (post_ends h x a n) <> Ok ().
Proof.
  unfold ends_running. destruct h as [p s|p s|p s]; cbn [queue_ends place]; [intros <-..|done]; unfold post_ends, mbind, stM_bind.
  - assert (made (snd (next_salt n)) = made n) as Hm by (unfold next_salt; by destruct (salts n)).
    destruct (next_salt n) as [[[salt nonce]|e| |] n1]; cbn in Hm; [|done..]. unfold at_grinbox. rewrite Hm.
    destruct (made n !! _) as [[g|m|k]|]; [|done..]. intros Hi. unfold GrinboxPublisher_post_slate, Grinbox.broker_post_slate, mbind, stM_bind, st_lift.
    destruct (GrinboxAddress_from_str _); cbn; [by rewrite Hi|done..].
  - assert (made (snd (next_salt n)) = made n) as Hm by (unfold next_salt; by destruct (salts n)).
    destruct (next_salt n) as [[[salt nonce]|e| |] n1]; cbn in Hm; [|done..].
    pose proof (next_reply_made n1) as Hm1. destruct (next_reply n1) as [[rep|e| |] n2]; cbn in Hm1; [|done..]. unfold at_mwcmqs. rewrite Hm1, Hm.
    destruct (made n !! _) as [[g|m|k]|]; [done| |done..]. intros Hi. unfold MWCMQPublisher_post_slate, broker_post_slate, mbind, stM_bind, st_lift.
    destruct (MWCMQSAddress_from_str _); cbn; [by rewrite Hi|done..].
Qed.

#[export] Program Instance channels_laws : BrokerLaws channels := {|
  known := ends_known;
  shares h h' := place h = place h';
|}.
Next Obligation. done. Qed.
Next Obligation.
  intros ch c n h n' Hn. pose proof (start_ends_spec ch c n) as Hs. cbn in Hn. rewrite Hn in Hs. destruct Hs as [_ Hs].
  destruct (Hs h eq_refl) as (Hp & Hk & Hr). split_and!; [done..|]. intros h' Hk' He.
  assert (made n !! place h' <> None) as Hl by (destruct h'; cbn in Hk' |- *; naive_solver).
  apply Hl, lookup_ge_None_2. lia.
Qed.
Next Obligation.
  intros ch c n r n' Hn h' Hk. pose proof (start_ends_spec ch c n) as Hs. cbn in Hn. rewrite Hn in Hs. destruct Hs as [Ho _].
  destruct (only_ends _ _ _ h' Ho Hk) as [Hk' Hr]. split; [done|]. apply Hr. intros He.
  assert (made n !! place h' <> None) as Hl by (destruct h'; cbn in Hk |- *; naive_solver).
  apply Hl, lookup_ge_None_2. lia.
Qed.
Next Obligation.
  intros h n r n' [= _ <-] h' Hk. destruct (only_ends (place h' + 1) n (add_thread (place h) n) h' (only_made _ _ _ eq_refl) Hk) as [Hk' Hr].
  split; [done|]. apply Hr. lia.
Qed.
Next Obligation. intros h n b n' Hk Hs. exact (stop_ends_stops h n b n' Hk Hs). Qed.
Next Obligation.
  intros h n r n' Hn h' Hk. pose proof (stop_ends_only h n) as Ho. cbn in Hn. rewrite Hn in Ho. exact (only_ends _ _ _ h' Ho Hk).
Qed.
Next Obligation.
  intros ch c n h n' x a m Hn Hne. apply post_ends_closed. pose proof (start_ends_queue ch c n) as Hq. cbn in Hn. rewrite Hn in Hq. auto.
Qed.

(** *** The threads *)

(** What the listener's thread does, up to wherever it is looked at: the code
    of its broker on its own broker. *)
Inductive thread_moves (h : Ends) (n : Outside) : Outside -> Prop :=
| moves_grinbox checks p s ks : h = GrinboxEnds p s ->
    thread_moves h n (snd (at_grinbox (grinbox_broker s) (Grinbox.subscribe checks (grinbox_of s) ks) n))
| moves_mwcmqs p s clock ts : h = MWCMQSEnds p s ->
    thread_moves h n (snd (at_mwcmqs (mwcmqs_broker s) (Mwcmqs.subscribe (mwcmqs_of s) clock ts) n))
| moves_keybase p s rounds : h = KeybaseEnds p s ->
    thread_moves h n (snd (at_keybase (stop_place s) (Keybase.start (subscriber_binary s) rounds) n)).

Lemma thread_writes h n n' : thread_moves h n n' -> writes (B := channels) h n n'.
Proof.
  intros Hm h' Hk. assert (only (place h) n n') as Ho
    by (destruct Hm as [? ? ? ? ->|? ? ? ? ->|? ? ? ->]; [apply at_grinbox_only|apply at_mwcmqs_only|apply at_keybase_only]).
  exact (only_ends _ _ _ h' Ho Hk).
Qed.
End channels.

(** ** Properties of the interface *)

(** C12: the listeners' slots.  However commands and threads alternate, every
    slot has a broker of its own.  [listen] and [stop] change only the channels
    they are for: another channel's listener runs afterwards exactly when it ran
    before.  Neither of them makes a listener run by itself (its thread does),
    and once [stop] has succeeded none of its channels has a running listener. *)
Theorem listeners_machine {L : CryptoLib} {R : RegexEngine} {P : Platform} {E : ConfigEnv} {SL : SlateLib} {W : WalletData} {D : DerivationLib}
    {WL : WalletLib} {LC : LifeCycle} {PL : ProofLib} {ST : Serde TxProof} {SE : Serde EncryptedMessage} {K : KvStore} {J : ContactJson}
    {JT : JsonText} {SC : ScanLib} {SH : ShellLib} {CL : Clap} {N : Type} {B : Brokers N} {BL : BrokerLaws B} (s s1 : Shell (N := N)) args :
  slots_ok s -> rtc step s s1 ->
  slots_ok s1 /\
  let chosen := channels_of args in
  (let '(r, s2) := cmd_listen args s1 in
   (forall c, c ∉ chosen -> is_running c s2 = is_running c s1) /\ (forall c, is_running c s2 = true -> is_running c s1 = true)) /\
  (let '(r, s2) := cmd_stop args s1 in
   (forall c, c ∉ chosen -> is_running c s2 = is_running c s1) /\ (forall c, is_running c s2 = true -> is_running c s1 = true) /\
   (r = Ok () -> forall c, c ∈ chosen -> is_running c s2 = false)).
Proof.
  intros Hok Hs. assert (slots_ok s1) as H1 by (induction Hs; eauto using step_slots). split; [done|].
  destruct (cmd_moved args s1 H1) as [Hl Ht]. cbv zeta. split.
  - destruct (cmd_listen args s1) as [r s2]. by destruct Hl as (_ & ? & ? & _).
  - destruct (cmd_stop args s1) as [r s2]. destruct Ht as (_ & ? & ? & Hg). split_and!; [done..|]. intros. by apply Hg.
Qed.

(** C13: the listener that is forgotten.  [listen] asks the broker whether its
    listener runs, and that is so only once the thread has begun.  A second
    [listen] before that replaces the broker in the slot; from then on no
    sequence of commands and threads reaches the first one, and no [listen] or
    [stop] changes whether it runs. *)
Theorem listener_forgotten {L : CryptoLib} {R : RegexEngine} {P : Platform} {E : ConfigEnv} {SL : SlateLib} {W : WalletData} {D : DerivationLib}
    {WL : WalletLib} {LC : LifeCycle} {PL : ProofLib} {ST : Serde TxProof} {SE : Serde EncryptedMessage} {K : KvStore} {J : ContactJson}
    {JT : JsonText} {SC : ScanLib} {SH : ShellLib} {CL : Clap} {N : Type} {B : Brokers N} {BL : BrokerLaws B} ch h (s s1 s2 : Shell (N := N)) :
  slots_ok s -> brokers s ch = Some h -> is_running ch s = false -> listen_on ch s = (Ok (), s1) -> rtc step s1 s2 ->
  (forall c h', brokers s2 c = Some h' -> ~ shares h' h) /\
  forall args, broker_running h (Commands.net (snd (cmd_listen args s2))) = broker_running h (Commands.net s2) /\
               broker_running h (Commands.net (snd (cmd_stop args s2))) = broker_running h (Commands.net s2).
Proof.
  intros [H1 H2] Hb Hr Hl Hs.
  destruct (replaced_apart ch h s s1 (H1 ch h Hb) ltac:(intros c h' Hc Hh'; exact (H2 c ch h' h Hc Hh' Hb)) Hr Hl) as [Ha _].
  assert (apart h s2) as Ha2 by (clear Hl; induction Hs; eauto using step_apart). split; [apply Ha2|].
  intros args. split; by apply cmd_spares.
Qed.

Import Toy Backtrack ToyPlatform ToySerde ToyMessage ToySlate ToyWallet ToyLib ToyScan ToyConfig ToyLife ToyProof ToyStore ToyJson ToyClap ToyShell ToyProtocol ToyMqs ToyCli.

(** The channels with nothing made yet; the calls of a handler are recorded. *)
Module ToyChannels.
Definition toy_world : Type := Outside (K := list str * list str) (S := list Call).
Definition toy_outside : toy_world := {| made := []; threads := []; client := ([], []); replies := []; salts := [] |}.
Definition no_http (url : str) (secret : option str) (x : Slate) : stM toy_world Error str := st_err (External (lit "http")).
#[export] Instance toy_channels : Brokers toy_world := channels [] no_http.
#[export] Instance toy_channels_laws : BrokerLaws toy_channels := channels_laws [] no_http.
Definition idle_shell : Shell (N := toy_world) (B := toy_channels) :=
  {| config := toy_config; files := ∅; ses := open_session None; book := ∅; statics := {| RECV_ACCOUNT := None; RECV_PASS := None |};
     brokers := fun _ => None; out_is_safe := true; net := toy_outside; out := [] |}.
Definition keybase_args : ArgMatches := MkMatches [(lit "keybase", [])] None.
Definition keybase_ends (i : nat) : Ends :=
  KeybaseEnds {| ttl := Some (lit "24h"); Keybase.keybase_binary := None |} {| subscriber_binary := None; stop_place := i |}.
(** After [listen --keybase], and with its thread begun. *)
Definition listened : Shell (N := toy_world) (B := toy_channels) := snd (cmd_listen keybase_args idle_shell).
Definition begun (i : nat) (s : Shell (N := toy_world) (B := toy_channels)) : Shell (N := toy_world) (B := toy_channels) :=
  set_net (snd (at_keybase i (Keybase.start None []) (Commands.net s))) s.
End ToyChannels.
Import ToyChannels.

Definition keybase_at (i : nat) (n : toy_world) : bool := match made n !! i with Some (KeybaseSignal _) => true | _ => false end.
Lemma begun_step i s : keybase_at i (Commands.net s) = true -> step s (begun i s).
Proof.
  intros Hi. assert (ends_known (keybase_ends i) (Commands.net s)) as Hk
    by (revert Hi; unfold keybase_at; cbn; destruct (made _ !! i) as [[]|]; naive_solver).
  apply (step_thread s (keybase_ends i : Handle (Brokers := toy_channels))); [exact Hk|].
  eapply thread_writes. exact (moves_keybase (keybase_ends i) _ _ {| subscriber_binary := None; stop_place := i |} [] eq_refl).
Qed.
Lemma idle_slots : slots_ok (B := toy_channels) idle_shell.
Proof. split; done. Qed.
Example begun_runs : is_running ChKeybase listened = false /\ is_running ChKeybase (begun 0 listened) = true.
Proof. split; vm_compute; reflexivity. Qed.
Lemma listened_begins : rtc step idle_shell (begun 0 listened).
Proof.
  eapply rtc_l; [exact (step_listen idle_shell keybase_args)|]. apply rtc_once, begun_step. vm_compute. reflexivity.
Qed.

Lemma listeners_machine_witness :
  is_running ChKeybase (begun 0 listened) = true /\
  fst (cmd_stop keybase_args (begun 0 listened)) = Ok () /\
  is_running ChKeybase (snd (cmd_stop keybase_args (begun 0 listened))) = false.
Proof.
  assert (fst (cmd_stop keybase_args (begun 0 listened)) = Ok ()) as Hr by (vm_compute; reflexivity).
  split_and!; [vm_compute; reflexivity|exact Hr|].
  pose proof (listeners_machine idle_shell (begun 0 listened) keybase_args idle_slots listened_begins) as (_ & _ & H).
  destruct (cmd_stop keybase_args (begun 0 listened)) as [r s2]. cbn in Hr. destruct H as (_ & _ & H). apply (H Hr).
  vm_compute. by left.
Defined.

(** Two [listen --keybase] before the first thread begins: both listeners run,
    and [stop --keybase] ends only the second. *)
Lemma listener_forgotten_witness :
  let s1 := snd (listen_on ChKeybase listened) in
  let s2 := begun 1 (begun 0 s1) in
  is_running ChKeybase s2 = true /\
  let s3 := snd (cmd_stop keybase_args s2) in
  is_running ChKeybase s3 = false /\ broker_running (keybase_ends 0 : Handle (Brokers := toy_channels)) (Commands.net s3) = true.
Proof.
  intros s1 s2. split; [vm_compute; reflexivity|]. split; [vm_compute; reflexivity|].
  assert (slots_ok (B := toy_channels) listened) as Hok by exact (step_slots _ _ (step_listen idle_shell keybase_args) idle_slots).
  assert (rtc step s1 s2) as Hs.
  { eapply rtc_l; [|apply rtc_once]; apply begun_step; vm_compute; reflexivity. }
  assert (fst (listen_on ChKeybase listened) = Ok ()) as Hr by (vm_compute; reflexivity).
  assert (listen_on ChKeybase listened = (Ok (), s1)) as Hl by (rewrite (surjective_pairing (listen_on _ _)), Hr; reflexivity).
  destruct (listener_forgotten (B := toy_channels) ChKeybase (keybase_ends 0) listened s1 s2 Hok ltac:(vm_compute; reflexivity) ltac:(vm_compute; reflexivity) Hl Hs)
    as (_ & Hrun).
  rewrite (proj2 (Hrun keybase_args)). vm_compute. reflexivity.
Defined.
