(* ===== verification/Startup.v ===== *)
(** * Startup and prompt

    [main] of [main.rs]: the configuration, the first wallet, opening it, the
    listeners and http servers that start by themselves, the daemon, and the
    prompt with its history.  What the process is given is an argument: the
    matches of its own arguments, the lines typed, and the world. *)

From S2P Require Import Prelude Str Errors Regex Crypto Address Message TxProof AddressBook Config WalletTypes BulkValidate Hasher VerifyProof WalletApi Scan Wallet Broker Json Parser Controller Commands.
Local Open Scope Z_scope.

(** [std::process::exit], and a return of [main] before its end. *)
Inductive Ending : Type := Exit (code : Z) | Returned.
(** The threads whose end [main] may wait for. *)
Inductive Thread : Type := KeybaseThread | OwnerThread | ForeignThread.

(** The editor of the prompt, and crates and threads. *)
Class Terminal {K : KvStore} : Type := {
  load_history : option str -> list str;              (* of the text of the file *)
  add_history_entry : list str -> str -> list str;
  history_text : list str -> str;
  build_server_config : str -> str -> bool;           (* certificate, key *)
  join : Thread -> outcome Ending ();                 (* panics with the thread *)
  open_store : str -> option Db;                      (* the directory of the database *)
}.
Class TerminalLaws {K : KvStore} (T : Terminal) : Prop :=
  history_entries h l e : e ∈ add_history_entry h l -> e ∈ h \/ e = l.

(** The arguments of the process. *)
Definition main_app : App :=
  MkApp [] [valued "config-path" (Some "c"%char) "config" false; valued "log-config-path" (Some "l"%char) "log-config-path" false;
     valued "account" (Some "a"%char) "account" false; flag "disable-history" (Some "z"%char) "disable-history";
     valued "passphrase" (Some "p"%char) "passphrase" false; flag "daemon" (Some "d"%char) "daemon";
     flag "floonet" (Some "f"%char) "floonet"; valued "ready-phrase" (Some "r"%char) "ready-phrase" false] []
    [command "init" [] [] []; command "recover" [many (valued "words" (Some "m"%char) "mnemonic" false)] [] []; command "state" [] [] []].

Section startup.
Context {L : CryptoLib} {R : RegexEngine} {P : Platform} {E : ConfigEnv} {SL : SlateLib} {W : WalletData} {D : DerivationLib} {WL : WalletLib}
  {LC : LifeCycle} {PL : ProofLib} {ST : Serde TxProof} {SE : Serde EncryptedMessage} {K : KvStore} {J : ContactJson} {JT : JsonText} {SC : ScanLib} {SH : ShellLib} {CL : Clap}
  {N : Type} {B : Brokers N} {T : Terminal}.
Variable checks : bool.        (* whether overflow checks are compiled in *)
Variable pages : nat.          (* the fuel of a scan *)

(** An http server with what its router was built from: the slots as they were. *)
Record Server : Type := {
  serves : Thread;
  at_address : str;
  server_secret : option str;
  with_foreign : option bool;
  server_tls : bool;
  server_brokers : Channel -> option Handle;
  server_config : Wallet713Config;
}.
Record Main : Type := {
  shell : Shell (N := N);
  stdin : list str;
  history : list str;
  servers : list Server;
  keybase_thread : bool;       (* whether there is a handle to wait for *)
}.
Abbreviation MM A := (stM Main Ending A).

Definition set_shell (s : Shell) (x : Main) : Main :=
  {| shell := s; stdin := stdin x; history := history x; servers := servers x; keybase_thread := keybase_thread x |}.
Definition set_stdin (l : list str) (x : Main) : Main :=
  {| shell := shell x; stdin := l; history := history x; servers := servers x; keybase_thread := keybase_thread x |}.
Definition set_history (h : list str) (x : Main) : Main :=
  {| shell := shell x; stdin := stdin x; history := h; servers := servers x; keybase_thread := keybase_thread x |}.
Definition add_server (v : Server) (x : Main) : Main :=
  {| shell := shell x; stdin := stdin x; history := history x; servers := servers x ++ [v]; keybase_thread := keybase_thread x |}.
Definition set_keybase_thread (x : Main) : Main :=
  {| shell := shell x; stdin := stdin x; history := history x; servers := servers x; keybase_thread := true |}.

(** A function of the commands; its error is a value here. *)
Definition try_ {A} (m : stM Shell Error A) : MM (A + Error) := fun x =>
  let '(r, s) := m (shell x) in
  (match r with Ok a => Ok (inl a) | Err e => Ok (inr e) | Panic => Panic | Hang => Hang end, set_shell s x).
Definition view {A} (f : Shell -> A) : MM A := fun x => (Ok (f (shell x)), x).
Definition modify (f : Shell -> Shell) : MM () := st_modify (fun x => set_shell (f (shell x)) x).
Definition tell (l : string) : MM () := modify (add_out (lit l)).
Definition exit_with (code : Z) : MM () := st_err (Exit code).
Definition error_line : MM () := tell "ERROR: ".
(** [io::stdin().read_line(&mut line).unwrap()]: nothing at the end. *)
Definition read_line : MM (option str) := fun x =>
  match stdin x with
  | [] => (Ok None, x)
  | l :: rest => (if utf8_valid l then Ok (Some l) else Panic, set_stdin rest x)
  end.
Definition chosen (m : ArgMatches) (n : string) : bool := bool_decide (is_Some (subcommand_matches m (lit n))).

(** *** Configuration *)

Definition chain_of (m : ArgMatches) : ChainTypes := if has m "floonet" then Floonet else Mainnet.
Definition welcome (m : ArgMatches) : stM Files Error Wallet713Config :=
  do_config (config_args m) (chain_of m) None (arg m "config-path").
(** [Backend::new]: the database is in a directory of its own. *)
Definition DB_DIR : str := lit "contacts".
Definition Backend_new (data_path : str) : option Db := open_store (path_push data_path DB_DIR).

Definition started (c : Wallet713Config) (fs : Files) (db : Db) (i : Inst) (n : N) (input : list str) : Main :=
  {| shell := {| config := c; files := fs; ses := {| wal := Wallet_new (max_auto_accept_invoice c); inst := i |}; book := db;
                 statics := {| RECV_ACCOUNT := None; RECV_PASS := None |}; brokers := fun _ => None; out_is_safe := false;
                 net := n; out := [] |};
     stdin := input; history := []; servers := []; keybase_thread := false |}.

(** *** The first wallet *)

Definition first_choice (m : ArgMatches) : MM str :=
  if chosen m "recover" then mret (lit "recover")
  else if chosen m "init" then mret (lit "init")
  else
    tell "Please choose an option" ≫= fun _ =>
    line ← read_line;
    match line with
    | Some line => mret line
    | None => error_line ≫= fun _ => st_err (Exit 1)
    end.
Definition recovery_words (m : ArgMatches) : MM str :=
  match subcommand_matches m (lit "recover") with
  | Some recover => if has recover "words" then st_lift (unwrap (arg recover "words")) else mret []
  | None =>
      line ← read_line;
      match line with
      | Some mnemonic => mret (trim mnemonic)
      | None => error_line ≫= fun _ => st_err (Exit 1)
      end
  end.
Definition command_or_exit (cmd : str) : MM () :=
  r ← try_ (do_command checks pages cmd);
  match r with inl _ => mret () | inr _ => error_line ≫= fun _ => exit_with 1 end.
Definition first_wallet (m : ArgMatches) : MM () :=
  line ← first_choice m;
  passphrase ← (if has m "passphrase" then st_lift (unwrap (arg m "passphrase")) else mret []);
  let line := trim line in
  if bool_decide (line ∈ [lit "1"; lit "init"; []]) then
    tell "Initialising a new wallet" ≫= fun _ =>
    command_or_exit (lit "init -p " ++ passphrase)
  else if bool_decide (line ∈ [lit "2"; lit "recover"; lit "restore"]) then
    tell "Recovering from mnemonic" ≫= fun _ =>
    mnemonic ← recovery_words m;
    command_or_exit (lit "recover -m " ++ mnemonic ++ lit " -p " ++ passphrase)
  else if bool_decide (line ∈ [lit "3"; lit "exit"]) then st_err Returned
  else error_line ≫= fun _ => exit_with 1.
Definition seed_there (m : ArgMatches) : MM () :=
  if chosen m "init" then tell "Seed file already exists! Not initializing" ≫= fun _ => exit_with 1
  else if chosen m "recover" then tell "Seed file already exists! Not recovering" ≫= fun _ => exit_with 1
  else mret ().

(** *** Opening *)

Definition unlock_with (account passphrase : str) : stM Shell Error () :=
  c ← get config; on_ses (unlock c account passphrase).
Definition open_at_start (m : ArgMatches) : MM () :=
  locked ← view (fun s => is_locked (wal (ses s)));
  if locked : bool then
    let account := default (lit "default") (arg m "account") in
    has_wallet ←
      (if has m "passphrase" then
         r ← try_ (unlock_with account (password_prompt (arg m "passphrase")));
         match r with inl _ => mret true | inr _ => error_line ≫= fun _ => st_err (Exit 1) end
       else
         r ← try_ (unlock_with account []);
         mret (match r with inl _ => true | inr _ => false end));
    if has_wallet : bool then
      der ← try_ derive_address_key;
      match der with inl _ => mret () | inr _ => error_line end
    else tell "Unlock your existing wallet or type `init` to initiate a new one"
  else mret ().

(** *** What starts by itself *)

(** [grinbox_listener_auto_start] starts the mwcmqs listener. *)
Definition auto_start : MM () :=
  c ← view config;
  (if grinbox_listener_auto_start c then
     r ← try_ (start_listener ChMwcmqs);
     match r with inr _ => error_line | inl h => modify (set_broker ChMwcmqs (Some h)) end
   else mret ()) ≫= fun _ =>
  c ← view config;
  if keybase_listener_auto_start c then
    r ← try_ (start_listener ChKeybase);
    match r with
    | inr _ => error_line
    | inl h => modify (set_broker ChKeybase (Some h)) ≫= fun _ => st_modify set_keybase_thread
    end
  else mret ().

(** Whether the servers use TLS. *)
Definition tls_config (c : Wallet713Config) : MM bool :=
  if is_tls_enabled c then
    tell "TLS is enabled. Wallet will use secure connection for Rest API" ≫= fun _ =>
    file ← st_lift (unwrap (tls_certificate_file c));
    key ← st_lift (unwrap (tls_certificate_key c));
    if build_server_config file key then mret true
    else error_line ≫= fun _ => st_err (Exit 1)
  else tell "WARNING: TLS configuration is not set, non secure HTTP connection will be used." ≫= fun _ => mret false.
Definition start_server (thread : Thread) (address : str) (secret : option str) (foreign : option bool) (tls : bool) : MM () :=
  st_modify (fun x => add_server {| serves := thread; at_address := address; server_secret := secret; with_foreign := foreign;
    server_tls := tls; server_brokers := brokers (shell x); server_config := config (shell x) |} x).
Definition start_apis : MM () :=
  c ← view config;
  if owner_api c || foreign_api c then
    tls ← tls_config c;
    (match owner_api_ c with
     | Some true =>
         tell "starting listener for owner api on [" ≫= fun _ =>
         (match owner_api_secret c with None => tell "WARNING: no api secret for owner api" | Some _ => mret () end) ≫= fun _ =>
         start_server OwnerThread (owner_api_address c) (owner_api_secret c) (owner_api_include_foreign c) tls
     | _ => mret ()
     end) ≫= fun _ =>
    match foreign_api_ c with
    | Some true =>
        tell "starting listener for foreign api on [" ≫= fun _ =>
        (match foreign_api_secret c with Some _ => tell "WARNING: setting the foreign_api_secret will prevent" | None => mret () end) ≫= fun _ =>
        start_server ForeignThread (foreign_api_address c) (foreign_api_secret c) None tls
    | _ => mret ()
    end
  else mret ().

(** *** The daemon *)

(** [grinbox_listener_handle] is never set, and there is none for mwcmqs. *)
Fixpoint join_all (threads : list Thread) : MM () :=
  match threads with
  | [] => mret ()
  | t :: threads => st_lift (join t) ≫= fun _ => join_all threads
  end.
Definition waited_for (x : Main) : list Thread :=
  (if keybase_thread x then [KeybaseThread] else []) ++ map serves (servers x).
Definition daemon : MM () := fun x => (join_all (waited_for x) ≫= fun _ => st_err Returned) x.

(** *** The prompt *)

Definition CLI_HISTORY_PATH : str := lit ".history".
Definition history_path (c : Wallet713Config) : str := path_push (default_home_path (chain c)) CLI_HISTORY_PATH.
Definition stop_mwcmqs : MM () :=
  running ← view (is_running ChMwcmqs);
  if running : bool then
    h ← view (fun s => brokers s ChMwcmqs);
    match h with Some h => _ ← try_ (on_net (broker_stop h)); mret () | None => mret () end
  else mret ().
Definition remember (command : str) : MM () := fun x =>
  (Ok (), if out_is_safe (shell x) && negb (disable_history (config (shell x)))
          then set_history (add_history_entry (history x) command) x else x).
(** What [readline] answers, call by call; [None] is an error, as at the end of
    the input. *)
Fixpoint prompt_loop (prompt_plus : str) (lines : list (option str)) : MM () :=
  (if bool_decide (prompt_plus = []) then mret () else modify (add_out prompt_plus)) ≫= fun _ =>
  match lines with
  | [] => st_lift Hang
  | None :: _ => mret ()
  | Some command :: lines =>
      let command := trim command in
      if bool_decide (command = lit "exit") then stop_mwcmqs
      else
        modify (set_safe false) ≫= fun _ =>
        result ← try_ (do_command checks pages command);
        (match result with inr _ => tell "Error: " | inl _ => mret () end) ≫= fun _ =>
        remember command ≫= fun _ =>
        prompt_loop prompt_plus lines
  end.
Definition prompt (m : ArgMatches) (lines : list (option str)) : MM () :=
  c ← view config;
  let path := history_path c in
  st_modify (fun x => set_history (load_history (files (shell x) !! path)) x) ≫= fun _ =>
  prompt_loop (default [] (arg m "ready-phrase")) lines ≫= fun _ =>
  st_modify (fun x =>
    if file_ok path then set_shell (set_config (config (shell x)) (<[path := history_text (history x)]> (files (shell x))) (shell x)) x else x).

(** *** [main] *)

Definition startup (m : ArgMatches) : MM () :=
  (if has m "disable-history" then modify (fun s => set_config (set_disable_history true (config s)) (files s) s) else mret ()) ≫= fun _ =>
  tell "Welcome to wallet713 for MWC v" ≫= fun _ =>
  c ← view config;
  w ← view (fun s => world (inst (ses s)));
  has_seed ← st_lift (match seed_exists c w with Ok b => Ok b | Err _ | Panic => Panic | Hang => Hang end);
  if chosen m "state" then
    tell (if has_seed : bool then "Initialized" else "Uninitialized") ≫= fun _ => exit_with 0
  else
    (if has_seed : bool then seed_there m else first_wallet m) ≫= fun _ =>
    open_at_start m ≫= fun _ =>
    tell "Use `help` to see available commands" ≫= fun _ =>
    auto_start ≫= fun _ =>
    start_apis.
Definition main_from (m : ArgMatches) (lines : list (option str)) : MM () :=
  startup m ≫= fun _ => if has m "daemon" then daemon else prompt m lines.
(** From the files; a configuration or a book that cannot be opened panics. *)
Definition main (m : ArgMatches) (fs : Files) (i : Inst) (n : N) (input : list str) (lines : list (option str)) :
    outcome Ending () * option Main :=
  match welcome m fs with
  | (Ok c, fs) =>
      match Backend_new (get_data_path c) with
      | Some db => let '(r, x) := main_from m lines (started c fs db i n input) in (r, Some x)
      | None => (Panic, None)
      end
  | _ => (Panic, None)
  end.
End startup.

(** ** Turns of the prompt *)

#[export] Instance steady_config {L : CryptoLib} {R : RegexEngine} {SL : SlateLib} {W : WalletData} {D : DerivationLib} {WL : WalletLib}
  {K : KvStore} {N : Type} {B : Brokers N} : Steady (N := N) config.
Proof. done. Qed.
#[export] Hint Resolve steady_config : keeps.
Lemma start_listener_config {L : CryptoLib} {R : RegexEngine} {P : Platform} {E : ConfigEnv} {SL : SlateLib} {W : WalletData} {D : DerivationLib}
  {WL : WalletLib} {LC : LifeCycle} {PL : ProofLib} {ST : Serde TxProof} {SE : Serde EncryptedMessage} {K : KvStore} {J : ContactJson}
  {JT : JsonText} {SC : ScanLib} {SH : ShellLib} {CL : Clap} {N : Type} {B : Brokers N} ch : keeps (N := N) config (start_listener ch).
Proof. unfold start_listener, unlock_default. eauto 60 with keeps. Qed.

Section turns.
Context {L : CryptoLib} {R : RegexEngine} {P : Platform} {E : ConfigEnv} {SL : SlateLib} {W : WalletData} {D : DerivationLib} {WL : WalletLib}
  {LC : LifeCycle} {PL : ProofLib} {ST : Serde TxProof} {SE : Serde EncryptedMessage} {K : KvStore} {J : ContactJson} {JT : JsonText} {SC : ScanLib} {SH : ShellLib} {CL : Clap}
  {N : Type} {B : Brokers N} {T : Terminal}.
Context (checks : bool) (pages : nat).

Definition prompted (plus : str) (x : Main (N := N)) : Main :=
  if bool_decide (plus = []) then x else set_shell (add_out plus (shell x)) x.
(** What a line that is not [exit] leaves, and whether the loop goes on. *)
Definition after_line (command : str) (x : Main (N := N)) : bool * outcome Ending () * Main :=
  let '(r, s) := do_command checks pages command (set_safe false (shell x)) in
  match r with
  | Ok _ => (true, Ok (), snd (remember command (set_shell s x)))
  | Err _ => (true, Ok (), snd (remember command (set_shell (add_out (lit "Error: ") s) x)))
  | Panic => (false, Panic, set_shell s x)
  | Hang => (false, Hang, set_shell s x)
  end.

Lemma prompt_turn plus line lines (x : Main (N := N)) : trim line <> lit "exit" ->
  prompt_loop checks pages plus (Some line :: lines) x =
  let '(go, r, x') := after_line (trim line) (prompted plus x) in
  if go : bool then prompt_loop checks pages plus lines x' else (r, x').
Proof.
  intros He. cbn [prompt_loop]. rewrite (bool_decide_eq_false_2 _ He). unfold prompted, after_line.
  destruct (bool_decide (plus = [])); unfold mbind, stM_bind; cbn; unfold try_; cbn [shell set_shell];
    by destruct (do_command checks pages (trim line) _) as [[[]|e| |] s].
Qed.
Lemma prompt_exit plus line lines (x : Main (N := N)) : trim line = lit "exit" ->
  prompt_loop checks pages plus (Some line :: lines) x = stop_mwcmqs (prompted plus x).
Proof.
  intros He. cbn [prompt_loop]. rewrite (bool_decide_eq_true_2 _ He). unfold prompted.
  by destruct (bool_decide (plus = [])).
Qed.
Lemma prompt_none plus lines (x : Main (N := N)) : prompt_loop checks pages plus (None :: lines) x = (Ok (), prompted plus x).
Proof. cbn [prompt_loop]. unfold prompted. by destruct (bool_decide (plus = [])). Qed.
Lemma prompt_nil plus (x : Main (N := N)) : prompt_loop checks pages plus [] x = (Hang, prompted plus x).
Proof. cbn [prompt_loop]. unfold prompted. by destruct (bool_decide (plus = [])). Qed.

Lemma prompted_history plus (x : Main (N := N)) : history (prompted plus x) = history x.
Proof. unfold prompted. by case_bool_decide. Qed.
Lemma stop_mwcmqs_spec (x : Main (N := N)) :
  let '(r, x') := stop_mwcmqs x in (forall e, r <> Err e) /\ history x' = history x /\ brokers (shell x') = brokers (shell x).
Proof.
  unfold stop_mwcmqs, view, mbind, stM_bind. destruct (is_running ChMwcmqs (shell x)); [|done].
  destruct (brokers (shell x) ChMwcmqs) as [h|]; [|done]. unfold try_, on_net.
  by destruct (broker_stop h (net (shell x))) as [[b|e| |] n].
Qed.
End turns.

(** A line that may be in the history, with what came of it: it is not [exit],
    its command returned, and if it is one of the four commands that decide about
    the flag there is no passphrase in it, nor the words of a recovery that
    succeeded. *)
Definition kept {CL : Clap} (line : str) (r : result ()) : Prop :=
  line <> lit "exit" /\ (r = Ok () \/ exists e, r = Err e) /\
  forall m name args, Parser_parse line = Ok m -> subcommand_name m = Some name -> subcommand_matches m name = Some args ->
    (name ∈ [lit "init"; lit "unlock"; lit "restore"; lit "recover"] -> Parser.value_of args (lit "passphrase") = None) /\
    (name = lit "recover" -> is_Some (values_of args (lit "words")) -> r <> Ok ()).

Section sessions.
Context {L : CryptoLib} {R : RegexEngine} {P : Platform} {E : ConfigEnv} {SL : SlateLib} {W : WalletData} {D : DerivationLib} {WL : WalletLib}
  {LC : LifeCycle} {PL : ProofLib} {ST : Serde TxProof} {SE : Serde EncryptedMessage} {K : KvStore} {J : ContactJson} {JT : JsonText} {SC : ScanLib} {SH : ShellLib} {CL : Clap}
  {N : Type} {B : Brokers N} {T : Terminal}.
Context (checks : bool) (pages : nat).

(** A line that was entered: it was run, and the history was not disabled then. *)
Definition entered (command : str) : Prop :=
  exists s r s', do_command checks pages command s = (r, s') /\ disable_history (config s') = false /\ kept command r.

(** What the flag says of a line. *)
Lemma allowed_kept name args listener r : allowed name args listener (is_ok (r : result ())) = true ->
  (name ∈ [lit "init"; lit "unlock"; lit "restore"; lit "recover"] -> Parser.value_of args (lit "passphrase") = None) /\
  (name = lit "recover" -> is_Some (values_of args (lit "words")) -> r <> Ok ()).
Proof.
  unfold allowed, arg. intros H. split.
  - rewrite !elem_of_cons, elem_of_nil. intros Hn. destruct_or? Hn; subst name; cbn in H.
    1, 3: by apply andb_true_iff in H as [_ H%bool_decide_eq_true].
    + by apply bool_decide_eq_true in H.
    + apply andb_true_iff in H as [[_ H%bool_decide_eq_true]%andb_true_iff _]. done.
  - intros -> Hw ->. cbn in H. rewrite (bool_decide_eq_true_2 _ Hw) in H. by rewrite andb_false_r in H.
Qed.
Lemma allowed_other name args listener succeeded : name ∉ [lit "init"; lit "unlock"; lit "restore"; lit "recover"] ->
  allowed name args listener succeeded = true.
Proof.
  rewrite !elem_of_cons, elem_of_nil. intros Hn. unfold allowed.
  rewrite (bool_decide_eq_false_2 (name = lit "unlock")), (bool_decide_eq_false_2 (name = lit "init")),
    (bool_decide_eq_false_2 (name = lit "restore")), (bool_decide_eq_false_2 (name = lit "recover")) by tauto. done.
Qed.

Lemma after_line_history {Laws : ClapLaws CL} {TL : TerminalLaws T} command (x : Main (N := N)) : command <> lit "exit" ->
  let '(_, _, x') := after_line checks pages command x in
  servers x' = servers x /\ forall e, e ∈ history x' -> e ∈ history x \/ e = command /\ entered command.
Proof.
  intros He. unfold after_line.
  pose proof (fun m name args => do_command_kept checks pages command m name args (set_safe false (shell x))) as H.
  destruct (do_command checks pages command _) as [r s] eqn:Hrun.
  assert (forall s1, (r = Ok () \/ exists e, r = Err e) -> out_is_safe s1 = out_is_safe s -> config s1 = config s ->
    let x' := snd (remember command (set_shell s1 x)) in
    servers x' = servers x /\ forall e, e ∈ history x' -> e ∈ history x \/ e = command /\ entered command) as Hr.
  { intros s1 Hret Hs Hc. unfold remember. cbn [shell set_shell snd history]. rewrite Hs, Hc.
    destruct (out_is_safe s) eqn:Ho; cbn; [|by split; [|left]].
    destruct (disable_history (config s)) eqn:Hdis; cbn; [by split; [|left]|]. split; [done|].
    intros e Hin. apply history_entries in Hin as [?| ->]; [by left|right].
    split; [done|]. exists (set_safe false (shell x)), r, s. split_and!; [done..|]. split_and!; [done..|]. intros m name args Hm Hn Ha.
    eapply allowed_kept. symmetry. by apply (H m name args Hm Hn Ha). }
  destruct r as [[]|e| |]; [apply Hr; eauto..| |]; cbn; split; auto.
Qed.
Lemma prompt_history {Laws : ClapLaws CL} {TL : TerminalLaws T} plus lines : forall (x : Main (N := N)),
  let '(_, x') := prompt_loop checks pages plus lines x in
  forall e, e ∈ history x' -> e ∈ history x \/ exists line, Some line ∈ lines /\ e = trim line /\ entered e.
Proof.
  induction lines as [|[line|] lines IH]; intros x.
  - rewrite prompt_nil. rewrite prompted_history. by left.
  - destruct (decide (trim line = lit "exit")) as [He|He].
    + rewrite prompt_exit by done. pose proof (stop_mwcmqs_spec (prompted plus x)) as Hs.
      destruct (stop_mwcmqs _) as [r x']. destruct Hs as (_ & -> & _). rewrite prompted_history. by left.
    + rewrite prompt_turn by done. pose proof (after_line_history (trim line) (prompted plus x) He) as Ha.
      destruct (after_line _ _ _ _) as [[go r] x1]. destruct Ha as [_ Ha]. rewrite prompted_history in Ha.
      assert (forall e, e ∈ history x1 -> e ∈ history x \/ exists l, Some l ∈ Some line :: lines /\ e = trim l /\ entered e) as H1.
      { intros e Hin. destruct (Ha e Hin) as [?|[-> ?]]; [by left|right]. exists line. split_and!; [by left|done..]. }
      destruct go; [|exact H1]. specialize (IH x1). destruct (prompt_loop _ _ _ _ _) as [r' x2]. intros e Hin.
      destruct (IH e Hin) as [?|(l & Hl & ?)]; [by apply H1|right]. exists l. split; [by right|done].
  - rewrite prompt_none, prompted_history. by left.
Qed.
Lemma prompt_result plus lines : forall (x : Main (N := N)),
  let '(r, _) := prompt_loop checks pages plus lines x in
  match r with
  | Ok _ => None ∈ lines \/ exists line, Some line ∈ lines /\ trim line = lit "exit"
  | Err _ => False
  | _ => True
  end.
Proof.
  induction lines as [|[line|] lines IH]; intros x.
  - by rewrite prompt_nil.
  - destruct (decide (trim line = lit "exit")) as [He|He].
    + rewrite prompt_exit by done. pose proof (stop_mwcmqs_spec (prompted plus x)) as Hs.
      destruct (stop_mwcmqs _) as [[[]|e| |] x']; [|by destruct Hs as [Hs _]; destruct (Hs e)|done..].
      right. exists line. split; [by left|done].
    + rewrite prompt_turn by done. unfold after_line. destruct (do_command checks pages (trim line) _) as [[[]|e| |] s]; [| |done..];
        match goal with |- context [prompt_loop _ _ _ lines ?y] => specialize (IH y) end;
        destruct (prompt_loop _ _ _ lines _) as [[[]|e'| |] x2]; try done;
        (destruct IH as [?|(l & ? & ?)]; [left; by right|right; exists l; split; [by right|done]]).
  - rewrite prompt_none. left. by left.
Qed.
Lemma prompt_prefix plus l1 c l2 : match c with None => True | Some line => trim line = lit "exit" end -> forall (x : Main (N := N)),
  prompt_loop checks pages plus (l1 ++ c :: l2) x = prompt_loop checks pages plus (l1 ++ [c]) x.
Proof.
  intros Hc. induction l1 as [|[line|] l1 IH]; intros x; cbn [app].
  - destruct c; [by rewrite !prompt_exit|by rewrite !prompt_none].
  - destruct (decide (trim line = lit "exit")) as [He|He]; [by rewrite !prompt_exit|].
    rewrite !prompt_turn by done. destruct (after_line _ _ _ _) as [[[] r] x1]; [apply IH|done].
  - by rewrite !prompt_none.
Qed.
Lemma open_wrong (m : ArgMatches) (x : Main (N := N)) e : is_locked (wal (ses (shell x))) = true -> has m "passphrase" = true ->
  fst (unlock (config (shell x)) (default (lit "default") (arg m "account")) (password_prompt (arg m "passphrase")) (ses (shell x))) = Err e ->
  exists x', open_at_start m x = (Err (Exit 1), x') /\ brokers (shell x') = brokers (shell x) /\ net (shell x') = net (shell x) /\ servers x' = servers x.
Proof.
  intros Hl Hp Hw. unfold open_at_start, view, mbind, stM_bind. rewrite Hl, Hp. unfold try_, unlock_with, mbind, stM_bind, get, on_ses.
  destruct (unlock _ _ _ _) as [r s1]. cbn [fst] in Hw. subst r. by eexists.
Qed.
End sessions.

(** ** Properties *)

Import Toy Backtrack ToyPlatform ToySerde ToyMessage ToySlate ToyWallet ToyLib ToyScan ToyConfig ToyLife ToyProof ToyStore ToyJson ToyClap ToyShell.

(** An editor that keeps every line, one after the other. *)
Module ToyTerminal.
#[export] Instance terminal : Terminal := {|
  load_history t := match t with Some t => text_lines t | None => [] end;
  add_history_entry h l := h ++ [l];
  history_text h := Str.join [chr 10] h;
  build_server_config _ _ := true;
  join _ := Hang;
  open_store _ := Some ∅;
|}.
#[export] Instance terminal_laws : TerminalLaws terminal.
Proof. intros h l e. cbn. rewrite elem_of_app, list_elem_of_singleton. tauto. Qed.
Definition at_prompt (x : Session) : Main :=
  {| shell := toy_shell x (fun _ => None) quiet_net; stdin := []; history := []; servers := []; keybase_thread := false |}.
(** In a daemon, with the key of the address. *)
Definition daemon_start (x : Session) : Main :=
  set_shell (set_config (set_address_key (toy_sk 5) toy_config) ∅ (shell (at_prompt x))) (at_prompt x).
End ToyTerminal.
Import ToyTerminal.



(** The end of the prompt.  What comes after [exit], or after the editor
    has given up, is not looked at; the loop only comes to its end by one of the
    two, and no error of a command ends it: it goes on or panics. *)
Theorem prompt_ends {L : CryptoLib} {R : RegexEngine} {P : Platform} {E : ConfigEnv} {SL : SlateLib} {W : WalletData} {D : DerivationLib}
    {WL : WalletLib} {LC : LifeCycle} {PL : ProofLib} {ST : Serde TxProof} {SE : Serde EncryptedMessage} {K : KvStore} {J : ContactJson}
    {JT : JsonText} {SC : ScanLib} {SH : ShellLib} {CL : Clap} {N : Type} {B : Brokers N} {T : Terminal}
    checks pages plus l1 c l2 (x : Main (N := N)) :
  match c with None => True | Some line => trim line = lit "exit" end ->
  let '(r, x') := prompt_loop checks pages plus (l1 ++ c :: l2) x in
  (r, x') = prompt_loop checks pages plus (l1 ++ [c]) x /\
  match r with
  | Ok _ => None ∈ l1 ++ [c] \/ exists line, Some line ∈ l1 ++ [c] /\ trim line = lit "exit"
  | Err _ => False
  | _ => True
  end.
Proof.
  intros Hc. rewrite (prompt_prefix checks pages plus l1 c l2 Hc). pose proof (prompt_result checks pages plus (l1 ++ [c]) x) as H.
  by destruct (prompt_loop _ _ _ _ x) as [r x'].
Qed.

Lemma prompt_ends_witness :
  prompt_loop true 0 [] ([Some (lit "lock")] ++ Some (lit " exit") :: [Some (lit "unlock")]) (at_prompt (open_session None))
  = prompt_loop true 0 [] ([Some (lit "lock")] ++ [Some (lit " exit")]) (at_prompt (open_session None)).
Proof.
  pose proof (prompt_ends true 0 [] [Some (lit "lock")] (Some (lit " exit")) [Some (lit "unlock")] (at_prompt (open_session None)) eq_refl) as T.
  destruct (prompt_loop _ _ _ ([Some (lit "lock")] ++ Some (lit " exit") :: _) _) as [r x']. exact (proj1 T).
Defined.

(** C40: the start of the daemon.  Without the keybase listener and the http
    servers it ends at once, also when the mwcmqs listener has been started: the
    thread of that listener is not waited for, and its slot is all that is left. *)
Theorem daemon_leaves_listener {L : CryptoLib} {R : RegexEngine} {P : Platform} {E : ConfigEnv} {SL : SlateLib} {W : WalletData} {D : DerivationLib}
    {WL : WalletLib} {LC : LifeCycle} {PL : ProofLib} {ST : Serde TxProof} {SE : Serde EncryptedMessage} {K : KvStore} {J : ContactJson}
    {JT : JsonText} {SC : ScanLib} {SH : ShellLib} {CL : Clap} {N : Type} {B : Brokers N} {T : Terminal} h s (x : Main (N := N)) :
  let c := config (shell x) in
  grinbox_listener_auto_start c = true -> keybase_listener_auto_start c = false -> owner_api c = false -> foreign_api c = false ->
  keybase_thread x = false -> servers x = [] ->
  start_listener ChMwcmqs (shell x) = (Ok h, s) ->
  exists x', (auto_start ≫= fun _ => start_apis ≫= fun _ => daemon) x = (Err Returned, x') /\ brokers (shell x') ChMwcmqs = Some h.
Proof.
  intros c Hg Hk Ho Hf Ht Hs Hl. pose proof (start_listener_config ChMwcmqs (shell x)) as Hc. rewrite Hl in Hc. cbn in Hc.
  exists (set_shell (set_broker ChMwcmqs (Some h) s) x).
  unfold auto_start, start_apis, daemon, waited_for, modify, view, mbind, stM_bind. cbn. fold c. rewrite Hg. unfold try_. rewrite Hl. cbn.
  rewrite Hc. fold c. rewrite Hk. cbn. rewrite Hc. fold c. rewrite Ho, Hf. cbn. rewrite Ht, Hs. cbn. split; [done|].
  by rewrite bool_decide_eq_true_2.
Qed.

Lemma daemon_leaves_listener_witness :
  exists x', (auto_start ≫= fun _ => start_apis ≫= fun _ => daemon) (daemon_start (open_session None)) = (Err Returned, x') /\
    brokers (shell x') ChMwcmqs = Some ChMwcmqs.
Proof.
  assert (fst (start_listener ChMwcmqs (shell (daemon_start (open_session None)))) = Ok ChMwcmqs) as Hr by (vm_compute; reflexivity).
  destruct (start_listener ChMwcmqs (shell (daemon_start (open_session None)))) as [r s] eqn:Hs. cbn [fst] in Hr. subst r.
  apply (daemon_leaves_listener (B := toy_brokers) ChMwcmqs s (daemon_start (open_session None))); [vm_compute; reflexivity..|exact Hs].
Defined.

(** The words given with [recover -m] to the process.  Of the words only
    the first reaches the wallet, as clap's [value_of] is the first of several
    values: the line that is run has one word, unless they came as one
    argument. *)
Theorem recover_first_word {L : CryptoLib} {R : RegexEngine} {P : Platform} {E : ConfigEnv} {SL : SlateLib} {W : WalletData} {D : DerivationLib}
    {WL : WalletLib} {LC : LifeCycle} {PL : ProofLib} {ST : Serde TxProof} {SE : Serde EncryptedMessage} {K : KvStore} {J : ContactJson}
    {JT : JsonText} {SC : ScanLib} {SH : ShellLib} {CL : Clap} {N : Type} {B : Brokers N} {T : Terminal} checks pages m recover word words pass (x : Main (N := N)) :
  (forall m n v vs, values_of m n = Some (v :: vs) -> Parser.value_of m n = Some v) ->
  subcommand_matches m (lit "recover") = Some recover -> is_present recover (lit "words") = true ->
  values_of recover (lit "words") = Some (word :: words) ->
  is_present m (lit "passphrase") = true -> arg m "passphrase" = Some pass ->
  let '(r, x') := first_wallet checks pages m x in
  let '(r', s') := do_command checks pages (lit "recover -m " ++ word ++ lit " -p " ++ pass) (add_out (lit "Recovering from mnemonic") (shell x)) in
  ses (shell x') = ses s' /\ config (shell x') = config s' /\
  r = match r' with Ok _ => Ok () | Err _ => Err (Exit 1) | Panic => Panic | Hang => Hang end.
Proof.
  intros Hv Hr Hw Hws Hp Hpass. unfold first_wallet.
  assert (first_choice m x = (Ok (lit "recover"), x)) as Hc by (unfold first_choice, chosen; by rewrite Hr).
  assert (recovery_words (N := N) m = mret word) as Hword by (unfold recovery_words, has, arg; by rewrite Hr, Hw, (Hv _ _ _ _ Hws)).
  unfold mbind, stM_bind. rewrite Hc. unfold has. rewrite Hp, Hpass. cbn [unwrap st_lift].
  repeat match goal with |- context [bool_decide ?X] => let b := eval vm_compute in (bool_decide X) in change (bool_decide X) with b end.
  cbv iota. cbn [tell modify st_modify]. rewrite Hword. cbn [mret stM_ret]. unfold command_or_exit, try_, mbind, stM_bind. cbn [shell set_shell].
  by destruct (do_command checks pages _) as [[[]|e| |] s'].
Qed.

Lemma recover_first_word_witness :
  let m := MkMatches [(lit "passphrase", [lit "pw"])] (Some (lit "recover", MkMatches [(lit "words", [lit "alpha"; lit "beta"])] None)) in
  let '(r, x') := first_wallet true 0 m (at_prompt (locked_session None)) in
  let '(r', s') := do_command true 0 (lit "recover -m alpha -p pw") (add_out (lit "Recovering from mnemonic") (shell (at_prompt (locked_session None)))) in
  ses (shell x') = ses s'.
Proof.
  pose proof (recover_first_word true 0 (MkMatches [(lit "passphrase", [lit "pw"])] (Some (lit "recover", MkMatches [(lit "words", [lit "alpha"; lit "beta"])] None)))
    (MkMatches [(lit "words", [lit "alpha"; lit "beta"])] None) (lit "alpha") [lit "beta"] (lit "pw") (at_prompt (locked_session None))) as T.
  cbv zeta. destruct (first_wallet _ _ _ _) as [r x'].
  change (lit "recover -m " ++ lit "alpha" ++ lit " -p " ++ lit "pw") with (lit "recover -m alpha -p pw") in T.
  destruct (do_command true 0 (lit "recover -m alpha -p pw") _) as [r' s']. refine (proj1 (T _ eq_refl eq_refl eq_refl eq_refl eq_refl)).
  intros m n v vs H. change (values m n = Some (v :: vs)) in H. change (value m n = Some v). unfold value. rewrite H. reflexivity.
Defined.

(** Starts that go no further.  [state] only says whether there is a seed;
    [init] and [recover] are refused when there is one; and a passphrase that
    does not open the wallet ends the program.  In none of these cases has a
    listener or a server been started, and in the first two the wallet has not
    been touched. *)
Theorem startup_exits {L : CryptoLib} {R : RegexEngine} {P : Platform} {E : ConfigEnv} {SL : SlateLib} {W : WalletData} {D : DerivationLib}
    {WL : WalletLib} {LC : LifeCycle} {PL : ProofLib} {ST : Serde TxProof} {SE : Serde EncryptedMessage} {K : KvStore} {J : ContactJson}
    {JT : JsonText} {SC : ScanLib} {SH : ShellLib} {CL : Clap} {N : Type} {B : Brokers N} {T : Terminal} checks pages m (x : Main (N := N)) seed :
  let c := if has m "disable-history" then set_disable_history true (config (shell x)) else config (shell x) in
  seed_exists c (world (inst (ses (shell x)))) = Ok seed ->
  let '(r, x') := startup checks pages m x in
  let refused := chosen m "init" || chosen m "recover" in
  let wrong := exists e, fst (unlock c (default (lit "default") (arg m "account")) (password_prompt (arg m "passphrase")) (ses (shell x))) = Err e in
  (chosen m "state" = true -> r = Err (Exit 0) /\ ses (shell x') = ses (shell x)) /\
  (chosen m "state" = false -> seed = true -> refused = true -> r = Err (Exit 1) /\ ses (shell x') = ses (shell x)) /\
  (chosen m "state" = false -> seed = true -> refused = false -> is_locked (wal (ses (shell x))) = true -> has m "passphrase" = true -> wrong ->
     r = Err (Exit 1)) /\
  (chosen m "state" = true \/
   seed = true /\ (refused = true \/ is_locked (wal (ses (shell x))) = true /\ has m "passphrase" = true /\ wrong) ->
     brokers (shell x') = brokers (shell x) /\ net (shell x') = net (shell x) /\ servers x' = servers x).
Proof.
  intros c Hseed. unfold startup.
  assert (forall A (f : () -> stM Main Ending A), ((if has m "disable-history" then modify (N := N) (fun s => set_config (set_disable_history true (config s)) (files s) s) else mret ()) ≫= f) x
    = f () (set_shell (set_config c (files (shell x)) (shell x)) x)) as Hd.
  { intros A f. unfold c. destruct (has m "disable-history"); [done|]. destruct x as [[] ? ? ? ?]. done. }
  rewrite Hd. clear Hd. unfold tell, view, modify, mbind, stM_bind. cbn [st_modify shell set_shell add_out config set_config ses].
  rewrite Hseed. cbn [st_lift]. destruct (chosen m "state"); [by destruct seed; cbn; split_and!|].
  destruct seed; [|match goal with |- context [match ?t with _ => _ end] => destruct t as [r x'] end; split_and!; intuition discriminate].
  unfold seed_there. destruct (chosen m "init"); [by split_and!|]. destruct (chosen m "recover"); [by split_and!|]. cbn [orb mret stM_ret].
  set (x1 := set_shell _ _). destruct (decide (is_locked (wal (ses (shell x))) = true /\ has m "passphrase" = true)) as [[Hl Hp]|Hn];
    [|match goal with |- context [match ?t with _ => _ end] => destruct t as [r x'] end; split_and!; intuition discriminate].
  pose proof (fun e => open_wrong m x1 e Hl Hp) as Ho. cbn [x1 shell set_shell add_out set_config config ses] in Ho.
  destruct (fst (unlock c _ _ _)) as [u|e| |];
    [match goal with |- context [match ?t with _ => _ end] => destruct t as [r x'] end; split_and!; naive_solver| |
     match goal with |- context [match ?t with _ => _ end] => destruct t as [r x'] end; split_and!; naive_solver..].
  destruct (Ho e eq_refl) as (x' & -> & H1 & H2 & H3). cbn. split_and!; naive_solver.
Qed.


Lemma startup_exits_witness :
  let x := at_prompt (locked_session None) in
  let state := MkMatches [] (Some (lit "state", MkMatches [] None)) in
  let again := MkMatches [] (Some (lit "init", MkMatches [] None)) in
  let wrong := MkMatches [(lit "account", [lit "savings"]); (lit "passphrase", [lit "pw"])] None in
  fst (startup true 0 state x) = Err (Exit 0) /\ fst (startup true 0 again x) = Err (Exit 1) /\ fst (startup true 0 wrong x) = Err (Exit 1).
Proof.
  cbv zeta.
  pose proof (fun m => startup_exits true 0 m (at_prompt (locked_session None)) true) as T. split_and!.
  - specialize (T (MkMatches [] (Some (lit "state", MkMatches [] None))) eq_refl). destruct (startup _ _ _ _) as [r x'].
    destruct T as (T & _). apply T. reflexivity.
  - specialize (T (MkMatches [] (Some (lit "init", MkMatches [] None))) eq_refl). destruct (startup _ _ _ _) as [r x'].
    destruct T as (_ & T & _). apply T; reflexivity.
  - specialize (T (MkMatches [(lit "account", [lit "savings"]); (lit "passphrase", [lit "pw"])] None) eq_refl).
    destruct (startup _ _ _ _) as [r x']. destruct T as (_ & _ & T & _). apply T; [reflexivity..|]. eexists. vm_compute. reflexivity.
Defined.

(** [--disable-history] does not outlive the command [config]: it reads the
    configuration from its file again, where nothing is said of it. *)
Example disable_history_forgotten :
  let quiet := set_shell (set_config (set_disable_history true toy_config) (<[lit "/h/c.toml" := WALLET713_CONFIG_HELP ++ default [] (toml_to_string toy_config)]> ∅)
    (shell (at_prompt (open_session None)))) (at_prompt (open_session None)) in
  history (snd (prompt_loop true 0 [] [Some (lit "address"); None] quiet)) = [] /\
  history (snd (prompt_loop true 0 [] [Some (lit "config"); Some (lit "address"); None] quiet)) = [lit "config"; lit "address"].
Proof. split; vm_compute; reflexivity. Qed.
