(* ===== verification/Executor.v ===== *)
(** * Requests in threads

    [api/handlers/executor.rs]: a request handler runs in a thread of its own,
    and a future is polled until its answer is there.  The steps of the thread
    and of the poll, and what they share, are a step relation; the executor
    polls once, again whenever it was notified, and a finite number of times
    without a reason. *)

From S2P Require Import Prelude Str Errors.
Local Open Scope Z_scope.

(** ** The text of errors *)

(** [filter_escape_symbols]; the loop over chars is the same over bytes, for
    neither ESC nor [m] occurs inside of another char. *)
Definition esc_symbol : ascii := chr 27.
Record Filter : Type := { res : str; in_esc : bool }.
Definition filter_char (st : Filter) (ch : ascii) : Filter :=
  let esc := if Ascii.eqb ch esc_symbol then true else in_esc st in
  let res := if negb esc then res st ++ [ch] else res st in
  {| res := res; in_esc := if Ascii.eqb ch "m" then false else esc |}.
Definition filter_escape_symbols (s : str) : str := res (foldl filter_char {| res := []; in_esc := false |} s).

(** ** Answers *)

Record Response : Type := { status : Z; mime : str; body : str }.
Definition BAD_REQUEST : Z := 400.
Definition APPLICATION_JSON : str := lit "application/json".

Section executor.
(** [err.find_root_cause().to_string()]. *)
Variable root_cause : Error -> str.

Definition error_response (err : Error) : Response :=
  {| status := BAD_REQUEST; mime := APPLICATION_JSON;
     body := lit "{" ++ quoted (lit "error") ++ lit " : " ++ quoted (filter_escape_symbols (root_cause err)) ++ lit " }" |}.
Definition answer (r : result Response) : option Response :=
  match r with
  | Ok b => Some b
  | Err err => Some (error_response err)
  | _ => None
  end.

(** ** The thread and the future *)

(** Where the thread is: still running the handler, done with it, with the flag
    cleared, ended; or unwound by a panic of the handler. *)
Inductive Worker : Type := Running | Returned | Cleared | Finished | Unwound.
(** Where the future is: not being polled, entered, with the task set, waiting
    for the thread to join, ready. *)
Inductive Poller : Type := Idle | Entered | TaskSet | Joining | Ready (r : Response).

Record Exec : Type := {
  worker : Worker;
  poller : Poller;
  running : bool;
  task : bool;            (* [RunningTask] holds the task of the executor *)
  woken : bool;           (* the executor is going to poll *)
  spurious : nat;         (* polls without a reason that are still to come *)
}.
Definition started (n : nat) : Exec :=
  {| worker := Running; poller := Idle; running := true; task := false; woken := true; spurious := n |}.

Definition set_worker (w : Worker) (x : Exec) : Exec :=
  {| worker := w; poller := poller x; running := running x; task := task x; woken := woken x; spurious := spurious x |}.
Definition set_poller (p : Poller) (x : Exec) : Exec :=
  {| worker := worker x; poller := p; running := running x; task := task x; woken := woken x; spurious := spurious x |}.
Definition clear_running (x : Exec) : Exec :=
  {| worker := Cleared; poller := poller x; running := false; task := task x; woken := woken x; spurious := spurious x |}.
Definition notify (x : Exec) : Exec :=
  {| worker := Finished; poller := poller x; running := running x; task := task x; woken := task x || woken x; spurious := spurious x |}.
Definition enter (woken' : bool) (spurious' : nat) (x : Exec) : Exec :=
  {| worker := worker x; poller := Entered; running := running x; task := task x; woken := woken'; spurious := spurious' |}.
Definition set_task (x : Exec) : Exec :=
  {| worker := worker x; poller := TaskSet; running := running x; task := true; woken := woken x; spurious := spurious x |}.

(** One step of the thread or of the future, for a handler with the result
    [handler].  The mutex is held within a step. *)
Inductive step (handler : result Response) : Exec -> Exec -> Prop :=
| worker_returns x : worker x = Running -> is_Some (answer handler) -> step handler x (set_worker Returned x)
| worker_unwinds x : worker x = Running -> handler = Panic -> step handler x (set_worker Unwound x)
| worker_clears x : worker x = Returned -> step handler x (clear_running x)
| worker_notifies x : worker x = Cleared -> step handler x (notify x)
| poll_woken x : poller x = Idle -> woken x = true -> step handler x (enter false (spurious x) x)
| poll_spurious x n : poller x = Idle -> spurious x = S n -> step handler x (enter (woken x) n x)
| poll_task x : poller x = Entered -> step handler x (set_task x)
| poll_not_ready x : poller x = TaskSet -> running x = true -> step handler x (set_poller Idle x)
| poll_join x : poller x = TaskSet -> running x = false -> step handler x (set_poller Joining x)
| poll_ready x r : poller x = Joining -> worker x = Finished -> answer handler = Some r ->
    step handler x (set_poller (Ready r) x).
End executor.

(** ** Runs *)

Section runs.
Context (root_cause : Error -> str) (handler : result Response).
Abbreviation step := (step root_cause handler).

Inductive run : nat -> Exec -> Exec -> Prop :=
| run_nil x : run 0 x x
| run_snoc n x y z : run n x y -> step y z -> run (S n) x z.

(** What holds in every state of a run.  An idle future is going to be polled,
    or the thread will still find its task and notify it. *)
Definition sound (x : Exec) : Prop :=
  match worker x with
  | Running => running x = true
  | Returned => running x = true /\ is_Some (answer root_cause handler)
  | Cleared | Finished => running x = false /\ is_Some (answer root_cause handler)
  | Unwound => running x = true /\ handler = Panic
  end /\
  match poller x with
  | Idle => woken x = true \/ task x = true /\ worker x <> Finished
  | Entered => True
  | TaskSet => task x = true
  | Joining => running x = false
  | Ready r => answer root_cause handler = Some r
  end.

Lemma sound_started n : sound (started n).
Proof. split; [done|]. by left. Qed.

Lemma sound_step x y : sound x -> step x y -> sound y.
Proof.
  intros [Hw Hp] Hs. unfold sound in *.
  destruct Hs as [x Hwk Ha|x Hwk Hh|x Hwk|x Hwk|x Hpk Hwo|x m Hpk Hsp|x Hpk|x Hpk Hru|x Hpk Hru|x r Hpk Hwk Ha];
    destruct x as [w p ru t wo sp]; cbn in *; subst; cbn; try done.
  all: try (split; [done|]; destruct p; try done; naive_solver).
  - split; [tauto|]. destruct p; try done; try naive_solver.
  - split; [done|]. destruct p; try done. destruct Hp as [->|[-> _]]; [rewrite orb_true_r|]; by left.
  - split; [done|]. right. split; [done|]. intros ->. by destruct Hw.
Qed.

Lemma sound_run n m x : run m (started n) x -> sound x.
Proof. intros Hr. remember (started n) as s eqn:E. induction Hr; [subst; apply sound_started | eauto using sound_step]. Qed.

(** Only an answered request, or one whose handler does not return, has no next step. *)
Lemma progress x : sound x ->
  (exists y, step x y) \/ (exists r, poller x = Ready r) \/
  (poller x = Idle /\ answer root_cause handler = None).
Proof.
  intros [Hw Hp]. destruct x as [w p ru t wo sp]. cbn in *. destruct p; cbn in *.
  - destruct wo; [left; eexists; by apply poll_woken|]. destruct sp as [|sp]; [|left; eexists; by eapply poll_spurious].
    destruct Hp as [|[_ Hf]]; [done|]. destruct w; cbn in *; [|left; eexists; by apply worker_clears|left; eexists; by apply worker_notifies|done|].
    + destruct (answer root_cause handler) as [r|] eqn:Ha; [|by right; right]. left. eexists. apply worker_returns; [done|]. by rewrite Ha.
    + right; right. destruct Hw as [_ ->]. done.
  - left. eexists. by apply poll_task.
  - left. destruct ru; eexists; [by apply poll_not_ready | by apply poll_join].
  - subst ru. left. destruct w; try done; try (by destruct Hw as [? _]).
    + eexists. by apply worker_notifies.
    + destruct Hw as [_ [r Ha]]. eexists. by eapply poll_ready.
  - right. left. eauto.
Qed.

(** What every step uses up. *)
Definition measure (x : Exec) : nat :=
  6 * (match worker x with Running => 3 | Returned => 2 | Cleared => 1 | _ => 0 end) +
  (match poller x with Entered => 3 | TaskSet => 2 | Joining => 1 | _ => 0 end) +
  (if woken x then 4 else 0) + 4 * spurious x.

Lemma measure_step x y : step x y -> (measure y < measure x)%nat.
Proof.
  intros Hs. destruct Hs as [x Hwk Ha|x Hwk Hh|x Hwk|x Hwk|x Hpk Hwo|x m Hpk Hsp|x Hpk|x Hpk Hru|x Hpk Hru|x r Hpk Hwk Ha];
    destruct x as [w p ru t wo sp]; unfold measure; cbn in *; subst; cbn; try lia.
  destruct t, wo; cbn; lia.
Qed.

Lemma measure_run m x y : run m x y -> (m + measure y <= measure x)%nat.
Proof. induction 1 as [|m x y z _ IH Hs%measure_step]; lia. Qed.

Lemma ready_answer n m x r : run m (started n) x -> poller x = Ready r -> answer root_cause handler = Some r.
Proof. intros [_ Hp]%sound_run Hr. by rewrite Hr in Hp. Qed.
End runs.

(** ** Filtered texts *)

Lemma filter_plain s : esc_symbol ∉ s -> forall st, in_esc st = false ->
  foldl filter_char st s = {| res := res st ++ s; in_esc := false |}.
Proof.
  induction s as [|c s IH]; intros Hn [r b] Hb; cbn in Hb; subst b; [cbn; by rewrite app_nil_r|].
  apply not_elem_of_cons in Hn as [Hc Hn]. cbn [foldl]. unfold filter_char at 2. cbn [in_esc res].
  rewrite (proj2 (Ascii.eqb_neq c esc_symbol)) by done. cbn [negb].
  replace (if Ascii.eqb c "m" then false else false) with false by (by destruct (Ascii.eqb c "m")).
  rewrite IH by done. cbn. by rewrite <- (assoc_L (++)).
Qed.

Lemma filter_inside s : "m"%char ∉ s -> forall st, in_esc st = true -> foldl filter_char st s = st.
Proof.
  induction s as [|c s IH]; intros Hn [r b] Hb; cbn in Hb; subst b; [done|].
  apply not_elem_of_cons in Hn as [Hc Hn]. cbn [foldl]. unfold filter_char at 2. cbn [in_esc res].
  rewrite (proj2 (Ascii.eqb_neq c "m")) by done. destruct (Ascii.eqb c esc_symbol); cbn [negb]; by apply IH.
Qed.

Lemma filter_escape s : "m"%char ∉ s -> forall st,
  foldl filter_char st (esc_symbol :: s) = {| res := res st; in_esc := true |}.
Proof.
  intros Hn st. cbn [foldl]. unfold filter_char at 2. rewrite Ascii.eqb_refl. cbn [negb].
  replace (if Ascii.eqb esc_symbol "m" then false else true) with true by done. by rewrite filter_inside.
Qed.

Lemma filter_no_escape s : forall st, esc_symbol ∉ res st -> esc_symbol ∉ res (foldl filter_char st s).
Proof.
  induction s as [|c s IH]; intros st Hst; [done|]. cbn [foldl]. apply IH. unfold filter_char. cbn [res].
  destruct (Ascii.eqb_spec c esc_symbol) as [->|Hc]; cbn [negb]; [done|]. destruct (in_esc st); cbn [negb]; [done|].
  rewrite not_elem_of_app, list_elem_of_singleton. split; [done|]. congruence.
Qed.

Lemma filter_prefix rest : forall b r l, res (foldl filter_char {| res := r ++ l; in_esc := b |} rest) =
  r ++ res (foldl filter_char {| res := l; in_esc := b |} rest).
Proof.
  induction rest as [|c rest IH]; intros b r l; [done|]. cbn [foldl]. unfold filter_char at 2 4. cbn [in_esc res].
  rewrite <- IH. destruct (if Ascii.eqb c esc_symbol then true else b); cbn [negb]; by rewrite ?(assoc_L (++)).
Qed.

(** ** Properties *)

(** Colours.  What an error answer says has no escape character; a text
    without one is unchanged; a sequence from an escape character to the next
    [m] is left out and what follows is filtered on its own; and without that
    [m] the rest of the text is lost. *)
Theorem filter_escape_symbols_correct pre seq rest :
  esc_symbol ∉ pre -> "m"%char ∉ seq ->
  filter_escape_symbols pre = pre /\
  filter_escape_symbols (pre ++ (esc_symbol :: seq) ++ "m"%char :: rest) = pre ++ filter_escape_symbols rest /\
  filter_escape_symbols (pre ++ esc_symbol :: seq) = pre /\
  esc_symbol ∉ filter_escape_symbols rest /\
  filter_escape_symbols (filter_escape_symbols rest) = filter_escape_symbols rest.
Proof.
  intros Hp Hq. unfold filter_escape_symbols. assert (esc_symbol ∉ res (foldl filter_char {| res := []; in_esc := false |} rest)) as Hr
    by (apply filter_no_escape; by apply not_elem_of_nil).
  rewrite !foldl_app, !filter_plain by done. cbn [app res]. rewrite filter_escape by done. split_and!; try done.
  cbn [foldl]. unfold filter_char at 2. cbn [in_esc res].
  replace (Ascii.eqb "m" esc_symbol) with false by done. rewrite Ascii.eqb_refl. cbn [negb]. by rewrite <- filter_prefix, app_nil_r.
  by rewrite filter_plain.
Qed.

Lemma filter_escape_symbols_correct_witness :
  filter_escape_symbols (lit "a " ++ (esc_symbol :: lit "[31") ++ "m"%char :: lit "red") = lit "a red".
Proof.
  destruct (filter_escape_symbols_correct (lit "a ") (lit "[31") (lit "red")) as (_ & H & _);
    [apply find_char_None; reflexivity..|]. exact H.
Defined.

(** C26: every request whose handler returns is answered.  However the steps of
    the thread, the polls (those without a reason included) and the
    notification interleave, a run ends, after a number of steps known in
    advance; when nothing more happens the future is ready with the handler's
    answer if it returned one, and not ready if it panicked or hangs, so such a
    request is never answered.  What is answered is always the handler's answer. *)
Theorem request_answered root_cause handler n m x :
  run root_cause handler m (started n) x ->
  (m <= 22 + 4 * n)%nat /\
  (forall r, poller x = Ready r -> answer root_cause handler = Some r) /\
  ((forall y, ~ step root_cause handler x y) ->
   match answer root_cause handler with Some r => poller x = Ready r | None => poller x = Idle end).
Proof.
  intros Hr. split_and!.
  - pose proof (measure_run _ _ _ _ _ Hr) as H. unfold measure at 2 in H. cbn in H. lia.
  - intros r. by eapply ready_answer.
  - intros Hno. destruct (progress root_cause handler x (sound_run _ _ _ _ _ Hr)) as [[y Hy]|[[r Hp]|[Hp Ha]]].
    + by destruct (Hno y).
    + rewrite Hp. by rewrite (ready_answer _ _ _ _ _ r Hr Hp).
    + by rewrite Ha.
Qed.

Definition toy_response : Response := {| status := 200; mime := APPLICATION_JSON; body := lit "true" |}.

Definition toy_final : Exec :=
  {| worker := Finished; poller := Ready toy_response; running := false; task := true; woken := false; spurious := 0 |}.

Lemma request_answered_witness :
  run (fun _ => []) (Ok toy_response) 10 (started 0) toy_final /\ (10 <= 22)%nat /\
  answer (fun _ => []) (Ok toy_response) = Some toy_response.
Proof.
  assert (run (fun _ => []) (Ok toy_response) 10 (started 0) toy_final) as Hr.
  { eapply run_snoc; [|by eapply (poll_ready _ _ (set_poller Joining toy_final) toy_response)].
    eapply run_snoc; [|by apply (poll_join _ _ (set_poller TaskSet toy_final))].
    eapply run_snoc; [|by apply (poll_task _ _ (set_poller Entered toy_final))].
    eapply run_snoc; [|by apply (poll_woken _ _ {| worker := Finished; poller := Idle; running := false; task := true; woken := true; spurious := 0 |})].
    eapply run_snoc; [|by apply (worker_notifies _ _ {| worker := Cleared; poller := Idle; running := false; task := true; woken := false; spurious := 0 |})].
    eapply run_snoc; [|by apply (worker_clears _ _ {| worker := Returned; poller := Idle; running := true; task := true; woken := false; spurious := 0 |})].
    eapply run_snoc; [|apply (worker_returns _ _ {| worker := Running; poller := Idle; running := true; task := true; woken := false; spurious := 0 |}); [reflexivity | by eexists]].
    eapply run_snoc; [|by apply (poll_not_ready _ _ {| worker := Running; poller := TaskSet; running := true; task := true; woken := false; spurious := 0 |})].
    eapply run_snoc; [|by apply (poll_task _ _ {| worker := Running; poller := Entered; running := true; task := false; woken := false; spurious := 0 |})].
    eapply run_snoc; [|by apply (poll_woken _ _ (started 0))]. apply run_nil. }
  destruct (request_answered (fun _ => []) (Ok toy_response) 0 10 toy_final Hr) as (H1 & H2 & _).
  split; [exact Hr|]. split; [exact H1|]. apply H2. reflexivity.
Defined.
