(* ===== verification/Api.v ===== *)
(** * The http interfaces

    [api/auth.rs], [api/router.rs], [api/handlers/owner.rs] and [foreign.rs]:
    who may call, what there is to call, and what each handler does with the
    wallet behind its mutex. *)

From S2P Require Import Prelude Str Errors Regex Crypto Address Message TxProof Config WalletTypes Hasher VerifyProof WalletApi Wallet Json Executor.
Local Open Scope Z_scope.

(** ** Authentication *)

Class HttpLib : Type := {
  to_base64 : str -> str;
  header_to_str : str -> option str;                 (* [HeaderValue::to_str] *)
  verify_slices_are_equal : str -> str -> bool;      (* in constant time *)
}.
Class HttpLaws (H : HttpLib) : Prop := {
  base64_inj s t : to_base64 s = to_base64 t -> s = t;
  slices_equal s t : verify_slices_are_equal s t = true <-> s = t;
}.

Section auth.
Context {H : HttpLib}.

Record BasicAuthMiddleware : Type := { api_basic_auth : option str }.
Definition BasicAuthMiddleware_new (api_basic_auth : option str) : BasicAuthMiddleware :=
  {| api_basic_auth := (fun x => lit "Basic " ++ to_base64 (lit "mwc:" ++ x)) <$> api_basic_auth |}.

(** Whether a request with the header [authorization] goes on to the handlers. *)
Definition authorised (self : BasicAuthMiddleware) (authorization : option str) : result bool :=
  match api_basic_auth self with
  | None => Ok true
  | Some expected =>
      match authorization with
      | None => Ok false
      | Some x => auth ← unwrap (header_to_str x); Ok (verify_slices_are_equal expected auth)
      end
  end.

Definition UNAUTHORIZED : Z := 401.
Definition empty_response (status : Z) : Response := {| status := status; mime := []; body := [] |}.
Definition middleware_call {St} (self : BasicAuthMiddleware) (authorization : option str) (chain : stM St Error Response) :
    stM St Error Response :=
  granted ← st_lift (authorised self authorization);
  if granted : bool then chain else mret (empty_response UNAUTHORIZED).
End auth.

(** ** Routes *)

Inductive Method : Type := GET | POST.
Inductive Endpoint : Type :=
| ERetrieveOutputs | ERetrieveTxs | ERetrieveStoredTx | ENodeHeight | ERetrieveSummaryInfo
| EFinalizeTx | ECancelTx | EPostTx | EIssueSendTx
| EV2Foreign | EReceiveTx | EBuildCoinbase | EReceiveInvoice.
#[export] Instance Method_eq_dec : EqDecision Method.
Proof. solve_decision. Defined.
#[export] Instance Endpoint_eq_dec : EqDecision Endpoint.
Proof. solve_decision. Defined.
Definition Route : Type := Method * str * Endpoint.

Definition build_foreign_api : list Route :=
  [(POST, lit "v2/foreign", EV2Foreign);
   (POST, lit "/v1/wallet/foreign/receive_tx", EReceiveTx);
   (POST, lit "/v1/wallet/foreign/build_coinbase", EBuildCoinbase);
   (POST, lit "/v1/wallet/foreign/receive_invoice", EReceiveInvoice)].
Definition build_owner_api (owner_api_include_foreign : option bool) : list Route :=
  [(GET, lit "/v1/wallet/owner/retrieve_outputs", ERetrieveOutputs);
   (GET, lit "/v1/wallet/owner/retrieve_txs", ERetrieveTxs);
   (GET, lit "/v1/wallet/owner/retrieve_stored_tx", ERetrieveStoredTx);
   (GET, lit "/v1/wallet/owner/node_height", ENodeHeight);
   (GET, lit "/v1/wallet/owner/retrieve_summary_info", ERetrieveSummaryInfo);
   (POST, lit "/v1/wallet/owner/finalize_tx", EFinalizeTx);
   (GET, lit "/v1/wallet/owner/cancel_tx", ECancelTx);
   (POST, lit "/v1/wallet/owner/post_tx", EPostTx);
   (POST, lit "/v1/wallet/owner/issue_send_tx", EIssueSendTx)] ++
  match owner_api_include_foreign with Some true => build_foreign_api | _ => [] end.

(** The owner's interface has the foreign endpoints only if it is told to. *)
Lemma owner_foreign include r : r ∈ build_owner_api include -> snd r ∈ snd <$> build_foreign_api -> include = Some true.
Proof.
  destruct include as [[]|]; [done|..]; unfold build_owner_api; rewrite app_nil_r; intros Hr Hf; exfalso; revert r Hr Hf;
    refine (proj1 (Forall_forall (fun r => snd r ∈ snd <$> build_foreign_api -> False) _) _).
  all: repeat apply Forall_cons_2; try apply Forall_nil_2.
  all: intros Hf; pose proof (bool_decide_eq_true_2 _ Hf) as Hd; discriminate Hd.
Qed.

(** ** What the handlers read and write *)

Inductive IssueSendMethod : Type := MNone | MGrinbox | MKeybase | MHttp | MFile | MMWCMQS.
Record IssueSendBody : Type := {
  method : IssueSendMethod;
  dest : option str;
  isb_amount : Z;                        (* u64 *)
  isb_minimum_confirmations : Z;         (* u64 *)
  isb_max_outputs : Z;                   (* u32 *)
  isb_num_change_outputs : Z;            (* u32 *)
  isb_use_all : bool;
  isb_message : option str;
  isb_version : option Z;                (* u16 *)
}.

(** [serde_json] on the types of the wallet library, and the debug text of an
    error.  [received_slate]: the slate of an answer, to JSON and back through
    its version. *)
Class ApiJson {L : CryptoLib} {SL : SlateLib} {W : WalletData} {D : DerivationLib} {WL : WalletLib} : Type := {
  outputs_text : bool * list OutputCommitMapping -> option str;
  txs_text : bool * list TxLogEntry -> option str;
  stored_tx_text : bool * option Transaction -> option str;
  info_text : WalletInfo -> option str;
  coinbase_text : CbData -> option str;
  versioned_text : Slate -> option str;
  slate_value : Slate -> option Value;
  send_body_of : str -> option IssueSendBody;
  block_fees_of : str -> option BlockFees;
  slate_of : str -> option Slate;
  received_slate : Slate -> option Slate;
  uuid_of_str : str -> option str;
  error_debug : Error -> str;
}.

(** The wallet behind its mutex, the network, the files and the console: each
    line of it by the text it begins with. *)
Record ApiState {L : CryptoLib} {SL : SlateLib} {W : WalletData} {D : DerivationLib} {WL : WalletLib} {N : Type} : Type := {
  ses : Session;
  wallet_held : bool;
  net : N;
  files : Files;
  out : list str;
}.
Arguments ApiState {L SL W D WL} N.

Section handlers.
Context {L : CryptoLib} {R : RegexEngine} {P : Platform} {SL : SlateLib} {W : WalletData} {D : DerivationLib} {WL : WalletLib}
  {LC : LifeCycle} {ST : Serde TxProof} {JT : JsonText} {AJ : ApiJson} {N : Type}.

Abbreviation S_ A := (stM Session Error A).
Abbreviation SC A := (stM (Cell * Session) Error A).
Abbreviation AM A := (stM (ApiState N) Error A).

Definition set_ses (x : Session) (a : ApiState N) : ApiState N :=
  {| ses := x; wallet_held := wallet_held a; net := net a; files := files a; out := out a |}.
Definition set_wallet_held (b : bool) (a : ApiState N) : ApiState N :=
  {| ses := ses a; wallet_held := b; net := net a; files := files a; out := out a |}.
Definition set_net (n : N) (a : ApiState N) : ApiState N :=
  {| ses := ses a; wallet_held := wallet_held a; net := n; files := files a; out := out a |}.
Definition set_files (f : Files) (a : ApiState N) : ApiState N :=
  {| ses := ses a; wallet_held := wallet_held a; net := net a; files := f; out := out a |}.
Definition add_out (l : str) (a : ApiState N) : ApiState N :=
  {| ses := ses a; wallet_held := wallet_held a; net := net a; files := files a; out := out a ++ [l] |}.

Definition on_wallet {A} (m : S_ A) : AM A := fun a => let '(r, x) := m (ses a) in (r, set_ses x a).
Definition on_net {A} (m : stM N Error A) : AM A := fun a => let '(r, n) := m (net a) in (r, set_net n a).
Definition println (l : str) : AM () := st_modify (add_out l).
(** [let wallet = container.lock()?], until the end of the handler; only a
    thread that never ends keeps it. *)
Definition with_lock {A} (m : AM A) : AM A := fun a =>
  if wallet_held a then (Hang, a)
  else match m (set_wallet_held true a) with
       | (Hang, a') => (Hang, a')
       | (r, a') => (r, set_wallet_held false a')
       end.
(** A wallet call on a slate the handler owns: what it becomes. *)
Definition on_slate_cell {A} (x : Slate) (m : SC A) : AM (A * Slate) := fun a =>
  let '(r, (c, s)) := m ({| slate := x; tx_proof := None |}, ses a) in
  (a' ← r; Ok (a', slate c), set_ses s a).

Definition OK : Z := 200.
Definition TEXT_PLAIN : str := lit "text/plain".
Definition json_response (text : str) : Response := {| status := OK; mime := APPLICATION_JSON; body := text |}.
Definition json {A} (e : option A) : AM A := st_lift (ok_or (External (lit "json")) e).
(** An object with one member. *)
Definition error_text (s : string) : str := lit "{" ++ quoted (lit "error") ++ lit ": " ++ quoted (lit s) ++ lit "}".
Definition success_text : str := lit "{" ++ quoted (lit "success") ++ lit ": true}".

(** [trace_state_and_body]: the body must be UTF-8. *)
Definition trace_state_and_body (body : str) : AM () := if utf8_valid body then mret () else st_lift Panic.
(** [String::from_utf8(body.to_vec())?]. *)
Definition from_utf8 (body : str) : AM str :=
  if utf8_valid body then mret body else st_err (External (lit "utf8")).

(** ** The owner's handlers *)

Definition handle_retrieve_outputs (refresh show_spent : option bool) (tx_id : option Z) : AM Response :=
  with_lock (
    tx ← match tx_id with
         | Some _ => '(_, txs) ← on_wallet (Wallet_retrieve_txs false tx_id None); mret (head txs)
         | None => mret None
         end;
    response ← on_wallet (Wallet_retrieve_outputs (default false show_spent) (default true refresh) tx);
    text ← json (outputs_text response);
    mret (json_response text)).

Definition nil_uuid : str := lit "00000000-0000-0000-0000-000000000000".
Definition handle_retrieve_txs (refresh : option bool) (id : option Z) (tx_id : option str) : AM Response :=
  with_lock (
    response ← on_wallet (Wallet_retrieve_txs (default true refresh) id ((fun x => default nil_uuid (uuid_of_str x)) <$> tx_id));
    text ← json (txs_text response);
    mret (json_response text)).

Definition handle_retrieve_stored_tx (id : Z) : AM Response :=
  with_lock (
    '(_, txs) ← on_wallet (Wallet_retrieve_txs true (Some id) None);
    match txs with
    | [tx] =>
        match tx_slate_id tx with
        | None => st_err (Kind ModelNotFound)
        | Some slate_id =>
            stored_tx ← on_wallet (Wallet_get_stored_tx slate_id);
            text ← json (stored_tx_text (confirmed tx, Some stored_tx));
            mret (json_response text)
        end
    | _ => st_err (Kind ModelNotFound)
    end).
(** Not run in a thread of its own; an error becomes an internal server error. *)
Definition retrieve_stored_tx (id : Z) : AM Response :=
  st_match (handle_retrieve_stored_tx id) mret (fun _ => mret (empty_response 500)).

Definition could_not_connect : Response :=
  {| status := OK; mime := TEXT_PLAIN; body := error_text "could not connect to node" |}.
Definition handle_node_height : AM Response :=
  with_lock (
    st_match (on_wallet Wallet_node_height)
      (fun '(height, success) =>
         if success : bool then
           mret {| status := OK; mime := TEXT_PLAIN; body := lit "{" ++ quoted (lit "height") ++ lit ": " ++ to_dec height ++ lit " }" |}
         else mret could_not_connect)
      (fun _ => mret could_not_connect)).

Definition handler_retrieve_summary_info : AM Response :=
  with_lock (
    sum_info ← on_wallet (Wallet_retrieve_summary_info true 10);
    text ← json (info_text sum_info);
    mret (json_response text)).

Definition handle_finalize_tx (body : str) : AM Response :=
  trace_state_and_body body ≫= fun _ =>
  text ← from_utf8 body;
  x ← json (deserialize_upgrade text);
  with_lock (_ ← on_slate_cell x finalize_slate; mret (empty_response OK)).

(** What a failed cancel is answered: by the debug text of its error. *)
Definition cancel_failure (e : Error) : str :=
  let full := lit "error = Err(" ++ error_debug e ++ lit ")" in
  if contains (lit "Transaction ") full && contains (lit " doesn't exist") full then error_text "TransactionDoesntExist"
  else if contains (lit "Transaction ") full && contains (lit " cannot be cancelled") full then error_text "TransactionNotCancellable"
  else error_text "Unknown".
Definition handler_cancel_tx (id : Z) : AM Response :=
  with_lock (
    st_match (on_wallet (cancel id)) (fun _ => mret (json_response success_text))
      (fun e =>
         (if bool_decide (cancel_failure e = error_text "Unknown") then println (lit "Unknown error") else mret ()) ≫= fun _ =>
         mret (json_response (cancel_failure e)))).

Definition handle_post_tx (fluff : option bool) (body : str) : AM Response :=
  trace_state_and_body body ≫= fun _ =>
  text ← from_utf8 body;
  x ← json (deserialize_upgrade text);
  with_lock (on_wallet (Wallet_post_tx (slate_tx x) (default false fluff)) ≫= fun _ => mret (empty_response OK)).

(** *** Sending *)

(** The publishers of the container and the post to a listening wallet. *)
Record Net : Type := {
  mwcmqs_publisher : option (Slate -> Address -> stM N Error ());
  keybase_publisher : option (Slate -> Address -> stM N Error ());
  http_post : str -> Slate -> stM N Error Slate;      (* the slate of its answer *)
  create_ok : str -> bool;                            (* [File::create] *)
}.
Variable container : Net.

Definition selection_strategy (b : IssueSendBody) : str := if isb_use_all b then lit "all" else [].
Definition initiate (b : IssueSendBody) (address : str) : AM Slate :=
  on_wallet (initiate_send_tx (Some address) (isb_amount b) (isb_minimum_confirmations b) (selection_strategy b)
    (isb_num_change_outputs b) (isb_max_outputs b) (isb_message b) None (isb_version b) 1).
Definition lock_outputs (x : Slate) (address : str) : AM () := on_wallet (Wallet_tx_lock_outputs x (Some address) 0).
Definition failed (s : string) : AM str := println (lit "Error") ≫= fun _ => mret (error_text s).

(** The branches for a message queue and for Keybase. *)
Definition send_published (address : result Address) (publisher : option (Slate -> Address -> stM N Error ()))
    (no_publisher no_address : string) (b : IssueSendBody) : AM str :=
  st_match (st_lift address)
    (fun address =>
       match publisher with
       | None => mret (error_text no_publisher)
       | Some post =>
           st_match (initiate b (Address_display address))
             (fun x =>
                st_match (on_net (post x address))
                  (fun _ => lock_outputs x (Address_display address) ≫= fun _ => json (versioned_text x))
                  (fun _ => failed "An error occurred while posting slate."))
             (fun _ => failed "An error occurred while generating slate.")
       end)
    (fun _ => failed no_address).

Definition write_file (path text : str) : AM () := st_modify (fun a => set_files (<[path := text]> (files a)) a).
Definition send_file (destination : str) (b : IssueSendBody) : AM str :=
  if create_ok container destination then
    write_file destination [] ≫= fun _ =>
    st_match (initiate b destination)
      (fun x =>
         text ← json (versioned_text x);
         write_file destination text ≫= fun _ =>
         lock_outputs x destination ≫= fun _ => mret success_text)
      (fun _ => println (lit "error") ≫= fun _ => mret (error_text "error generating slate."))
  else st_err (External (lit "io")).

(** A transaction that could not be delivered is cancelled, if that works. *)
Definition try_cancel (x : Slate) : AM () :=
  st_match (on_wallet (get_id (slate_id x)))
    (fun id => st_match (on_wallet (cancel id)) mret (fun _ => println (lit "Could not cancel failed transaction.")))
    (fun _ => println (lit "Could not cancel failed transaction.")).
Definition send_http (destination : str) (b : IssueSendBody) : AM str :=
  let url := destination ++ lit "/v2/foreign" in
  if url_parse_ok url then
    st_match (initiate b destination)
      (fun x =>
         st_match (on_net (http_post container url x))
           (fun res =>
              x ← json (received_slate res);
              println (lit "slate [" ++ slate_id x ++ lit "] received back") ≫= fun _ =>
              lock_outputs x destination ≫= fun _ =>
              st_match (on_slate_cell x finalize_slate)
                (fun '(_, x) =>
                   println (lit "slate [" ++ slate_id x ++ lit "] finalized successfully") ≫= fun _ => json (versioned_text x))
                (fun _ => failed "An error occured while finalizing slate. See stdout for details.."))
           (fun _ => println (lit "Posting transaction slate") ≫= fun _ => try_cancel x ≫= fun _ => failed "An error occured while contacting destination."))
      (fun _ => failed "An error occurred while generating slate.")
  else mret (error_text "Destination is invalid.").

Definition with_dest (b : IssueSendBody) (k : str -> AM str) : AM str :=
  match dest b with None => mret (error_text "dest was not specified.") | Some d => k d end.

Definition process_handle_issue_send_tx (body : str) : AM str :=
  match send_body_of body with
  | None => mret (error_text "Could not parse send request.")
  | Some b =>
      with_lock (
        match method b with
        | MMWCMQS => with_dest b (fun d => send_published (AMWCMQS <$> MWCMQSAddress_from_str d) (mwcmqs_publisher container)
            "An error occurred sending to a mwcmqs address. Note: mwcmqs must be configured on startup to use with the API."
            "An error occurred while parsing mwcmqs address." b)
        | MKeybase => with_dest b (fun d => send_published (AKeybase <$> KeybaseAddress_from_str d) (keybase_publisher container)
            "An error occurred sending to a keybase address. Note: keybase must be configured on startup to use with the API."
            "An error occurred while parsing keybase address." b)
        | MFile => with_dest b (fun d => send_file d b)
        | MHttp => with_dest b (fun d => send_http d b)
        | MNone | MGrinbox => mret (error_text "This method is not currently supported.")
        end)
  end.
Definition handle_issue_send_tx (body : str) : AM Response :=
  st_match (process_handle_issue_send_tx body) (fun text => mret (json_response text))
    (fun _ => println (lit "Error") ≫= fun _ =>
              mret (json_response (error_text "Could not process send due to problem. See stdout for details."))).

(** ** The foreign handlers *)

Definition rpc (result : Value) : Value :=
  VObject [(lit "id", VNumber 1); (lit "jsonrpc", VString (lit "2.0")); (lit "result", VObject [(lit "Ok", result)])].
Definition version_info : Value :=
  VObject [(lit "foreign_api_version", VNumber 2);
           (lit "supported_slate_versions", VArray [VString (lit "V3"); VString (lit "V2")])].

(** The name given to the sender: the message of the first participant. *)
Definition announce_rpc (x : Slate) : AM str :=
  if (length (participant_data x) <? num_participants x)%nat then
    p ← st_lift (unwrap (head (participant_data x)));
    println (lit "slate [" ++ slate_id x ++ lit "] received") ≫= fun _ =>
    mret (default [] (snd p))
  else mret [].

Definition handle_v2foreign (body : str) : AM Response :=
  trace_state_and_body body ≫= fun _ =>
  text ← from_utf8 body;
  res ← st_lift (unwrap (value_of_text text));
  (if is_null (member (lit "error") res) then mret () else println (lit "Posting transaction slate: Error")) ≫= fun _ =>
  if is_text (lit "check_version") (member (lit "method") res) then
    text ← json (text_of_value (rpc version_info)); mret (json_response text)
  else
    text ← st_lift (unwrap (text_of_value (item 0 (member (lit "params") res))));
    x ← json (deserialize_upgrade text);
    id ← announce_rpc x;
    with_lock (
      w ← on_wallet get_wal;
      '(_, x) ← on_slate_cell x (process_sender_initiated_slate (Some (lit "https://" ++ id)) None None (Some (active_account w)));
      v ← st_lift (unwrap (slate_value x));
      text ← json (text_of_value (rpc v));
      mret (json_response text)).

Definition handle_receive_tx (body : str) : AM Response :=
  trace_state_and_body body ≫= fun _ =>
  text ← from_utf8 body;
  x ← json (deserialize_upgrade text);
  with_lock (
    w ← on_wallet get_wal;
    '(_, x) ← on_slate_cell x (process_sender_initiated_slate None None None (Some (active_account w)));
    text ← json (slate_to_json x);
    mret (json_response text)).

Definition handle_build_coinbase (body : str) : AM Response :=
  trace_state_and_body body ≫= fun _ =>
  block_fees ← json (block_fees_of body);
  with_lock (
    cb_data ← on_wallet (Wallet_build_coinbase block_fees);
    text ← json (coinbase_text cb_data);
    mret (json_response text)).

Definition handle_receive_invoice (body : str) : AM Response :=
  trace_state_and_body body ≫= fun _ =>
  x ← json (slate_of body);
  with_lock (
    '(_, x) ← on_slate_cell x (process_receiver_initiated_slate None);
    text ← json (slate_to_json x);
    mret (json_response text)).

(** ** A request *)

(** The parameters the router has read from the query string, and the body. *)
Record Request : Type := {
  q_refresh : option bool;
  q_show_spent : option bool;
  q_fluff : option bool;
  q_id : option Z;
  q_tx_id : option Z;
  q_tx_uuid : option str;
  q_body : str;
}.

Definition handle (e : Endpoint) (q : Request) : AM Response :=
  let id := default 0 (q_id q) in
  match e with
  | ERetrieveOutputs => handle_retrieve_outputs (q_refresh q) (q_show_spent q) (q_tx_id q)
  | ERetrieveTxs => handle_retrieve_txs (q_refresh q) (q_id q) (q_tx_uuid q)
  | ERetrieveStoredTx => retrieve_stored_tx id
  | ENodeHeight => handle_node_height
  | ERetrieveSummaryInfo => handler_retrieve_summary_info
  | EFinalizeTx => handle_finalize_tx (q_body q)
  | ECancelTx => handler_cancel_tx id
  | EPostTx => handle_post_tx (q_fluff q) (q_body q)
  | EIssueSendTx => handle_issue_send_tx (q_body q)
  | EV2Foreign => handle_v2foreign (q_body q)
  | EReceiveTx => handle_receive_tx (q_body q)
  | EBuildCoinbase => handle_build_coinbase (q_body q)
  | EReceiveInvoice => handle_receive_invoice (q_body q)
  end.
End handlers.

(** ** The wallet's mutex *)

Section lock.
Context {L : CryptoLib} {R : RegexEngine} {P : Platform} {SL : SlateLib} {W : WalletData} {D : DerivationLib} {WL : WalletLib}
  {LC : LifeCycle} {ST : Serde TxProof} {JT : JsonText} {AJ : ApiJson} {N : Type}.
Abbreviation AM A := (stM (ApiState N) Error A).

(** [m] leaves the mutex as it finds it, unless it hangs. *)
Definition releases {A} (m : AM A) : Prop := forall a, let '(r, a') := m a in r <> Hang -> wallet_held a' = wallet_held a.
(** [m] gives no answer while another thread has the mutex. *)
Definition blocked {A} (m : AM A) : Prop := forall a, wallet_held a = true -> forall x, fst (m a) <> Ok x.

Lemma releases_ret {A} (x : A) : releases (mret x).
Proof. intros a. done. Qed.
Lemma releases_lift {A} (r : result A) : releases (st_lift r).
Proof. intros a. done. Qed.
Lemma releases_err {A} e : releases (A := A) (st_err e).
Proof. intros a. done. Qed.
Lemma releases_bind {A B} (m : AM A) (f : A -> AM B) : releases m -> (forall x, releases (f x)) -> releases (m ≫= f).
Proof.
  intros Hm Hf a. unfold mbind, stM_bind. specialize (Hm a). destruct (m a) as [[x|e| |] a1]; [|intros _; by apply Hm|intros _; by apply Hm|done].
  specialize (Hf x a1). destruct (f x a1) as [r a2]. intros Hr. rewrite Hf by done. by apply Hm.
Qed.
Lemma releases_match {A B} (m : AM A) (f : A -> AM B) g :
  releases m -> (forall x, releases (f x)) -> (forall e, releases (g e)) -> releases (st_match m f g).
Proof.
  intros Hm Hf Hg a. unfold st_match. specialize (Hm a). destruct (m a) as [[x|e| |] a1]; [| |intros _; by apply Hm|done].
  - specialize (Hf x a1). destruct (f x a1) as [r a2]. intros Hr. rewrite Hf by done. by apply Hm.
  - specialize (Hg e a1). destruct (g e a1) as [r a2]. intros Hr. rewrite Hg by done. by apply Hm.
Qed.
Lemma releases_lock {A} (m : AM A) : releases (with_lock m).
Proof.
  intros a. unfold with_lock. destruct (wallet_held a) eqn:Ha; [done|]. destruct (m _) as [[x|e| |] a1]; done.
Qed.
Lemma releases_println l : releases (println l).
Proof. intros a. done. Qed.
Lemma releases_trace b : releases (trace_state_and_body b).
Proof. unfold trace_state_and_body. destruct (utf8_valid b); [apply releases_ret | apply releases_lift]. Qed.
Lemma releases_utf8 b : releases (from_utf8 b).
Proof. unfold from_utf8. destruct (utf8_valid b); [apply releases_ret | apply releases_err]. Qed.

Lemma blocked_lock {A} (m : AM A) : blocked (with_lock m).
Proof. intros a Ha x. unfold with_lock. by rewrite Ha. Qed.
Lemma blocked_bind {A B} (m : AM A) (f : A -> AM B) : releases m -> (forall x, blocked (f x)) -> blocked (m ≫= f).
Proof.
  intros Hm Hf a Ha y. unfold mbind, stM_bind. specialize (Hm a). destruct (m a) as [[x|e| |] a1]; try done.
  apply Hf. by rewrite Hm.
Qed.
Lemma blocked_lift {A} (r : result A) : (forall x, r <> Ok x) -> blocked (st_lift r).
Proof. intros Hr a _ x. apply Hr. Qed.
End lock.

Create HintDb api.
#[export] Hint Resolve releases_ret releases_lift releases_err releases_lock releases_println releases_trace releases_utf8 blocked_lock : api.
#[export] Hint Extern 1 (releases (_ ≫= _)) => apply releases_bind; [|intros] : api.
#[export] Hint Extern 1 (releases (st_match _ _ _)) => apply releases_match; [|intros|intros] : api.
#[export] Hint Extern 1 (releases (json _)) => apply releases_lift : api.
#[export] Hint Extern 1 (blocked (_ ≫= _)) => apply blocked_bind; [|intros] : api.
#[export] Hint Extern 2 (releases (if ?b then _ else _)) => destruct b : api.
#[export] Hint Extern 2 (releases (match ?b with _ => _ end)) => destruct b : api.

Section endpoints.
Context {L : CryptoLib} {R : RegexEngine} {P : Platform} {SL : SlateLib} {W : WalletData} {D : DerivationLib} {WL : WalletLib}
  {LC : LifeCycle} {ST : Serde TxProof} {JT : JsonText} {AJ : ApiJson} {N : Type}.
Context (container : Net (N := N)).

Lemma releases_announce x : releases (N := N) (announce_rpc x).
Proof. unfold announce_rpc. eauto 8 with api. Qed.
#[local] Hint Resolve releases_announce : api.

Lemma handle_releases e q : releases (handle container e q).
Proof.
  destruct e; cbn [handle]; unfold handle_retrieve_outputs, handle_retrieve_txs, retrieve_stored_tx, handle_retrieve_stored_tx,
    handle_node_height, handler_retrieve_summary_info, handle_finalize_tx, handler_cancel_tx, handle_post_tx,
    handle_issue_send_tx, process_handle_issue_send_tx, handle_v2foreign, handle_receive_tx, handle_build_coinbase,
    handle_receive_invoice; eauto 20 with api.
Qed.

(** The requests that are answered without the wallet. *)
Definition needs_no_wallet (e : Endpoint) (q : Request) : Prop :=
  match e with
  | EIssueSendTx => send_body_of (q_body q) = None
  | EV2Foreign => exists v, value_of_text (q_body q) = Some v /\ member (lit "method") v = VString (lit "check_version")
  | _ => False
  end.

Lemma handle_blocked e q a r : wallet_held a = true -> fst (handle container e q a) = Ok r -> needs_no_wallet e q.
Proof.
  intros Ha.
  assert (forall m : stM (ApiState N) Error Response, blocked m -> fst (m a) = Ok r -> False) as Hb
    by (intros m Hm Hr; by apply (Hm a Ha r)).
  destruct e; cbn [handle]; try (intros Hr; exfalso; revert Hr; apply Hb;
    unfold handle_retrieve_outputs, handle_retrieve_txs, handle_node_height, handler_retrieve_summary_info, handle_finalize_tx,
      handler_cancel_tx, handle_post_tx, handle_receive_tx, handle_build_coinbase, handle_receive_invoice; by eauto 20 with api).
  - unfold retrieve_stored_tx, handle_retrieve_stored_tx, st_match, with_lock. by rewrite Ha.
  - unfold handle_issue_send_tx, process_handle_issue_send_tx. destruct (send_body_of (q_body q)) eqn:E; [|done].
    unfold st_match, with_lock. by rewrite Ha.
  - unfold handle_v2foreign, trace_state_and_body, from_utf8. destruct (utf8_valid (q_body q)); [|done].
    unfold mbind at 1, stM_bind at 1. cbn [mret stM_ret]. unfold mret, stM_ret. unfold mbind at 1, stM_bind at 1.
    unfold mbind at 1, stM_bind at 1. destruct (value_of_text (q_body q)) as [v|] eqn:Hv; [|done]. cbn [unwrap st_lift].
    destruct (is_text (lit "check_version") (member (lit "method") v)) eqn:E.
    + intros _. exists v. split; [done|]. unfold is_text in E. destruct (member (lit "method") v); try done.
      apply bool_decide_eq_true in E. by subst.
    + intros Hr. exfalso. revert Hr. match goal with |- fst (?m a) = _ -> _ => apply (Hb m) end. eauto 20 with api.
Qed.
(** The requests whose handler never ends, on an open wallet. *)
Lemma handle_hangs e q (a : ApiState N) w :
  wallet_held a = false -> backend (wal (ses a)) = true -> held (inst (ses a)) = false ->
  lc_wallet_inst (world (inst (ses a))) = (inl (), w) -> fst (start_updater_console_thread w) = inl () ->
  e = ERetrieveTxs /\ q_refresh q <> Some false \/ e = ERetrieveStoredTx ->
  exists a', handle container e q a = (Hang, a') /\ wallet_held a' = true.
Proof.
  intros Hw Hb Hi Hlc Hst He.
  assert (forall A id uuid (k : bool * list TxLogEntry -> stM (ApiState N) Error A),
    exists a', with_lock (on_wallet (Wallet_retrieve_txs true id uuid) ≫= k) a = (Hang, a') /\ wallet_held a' = true) as Hhang.
  { intros A id uuid k. destruct (retrieve_txs_hangs id uuid (inst (ses a)) w Hi Hlc Hst) as (s' & Hs' & _).
    unfold with_lock. rewrite Hw. unfold mbind, stM_bind, on_wallet, Wallet_retrieve_txs, with_wallet, get_wallet_instance, mbind, stM_bind, get_wal.
    cbn [ses set_wallet_held]. rewrite Hb. unfold mret, stM_ret, on_instance. rewrite Hs'. cbn. eauto. }
  destruct He as [[-> Hq]| ->]; cbn [handle].
  - unfold handle_retrieve_txs. replace (default true (q_refresh q)) with true by (by destruct (q_refresh q) as [[]|]). apply Hhang.
  - unfold retrieve_stored_tx, st_match, handle_retrieve_stored_tx.
    edestruct (Hhang Response (Some (default 0 (q_id q))) None) as (a' & -> & Ha). eauto.
Qed.
End endpoints.

(** ** Properties *)

Section sending.
Context {L : CryptoLib} {R : RegexEngine} {P : Platform} {SL : SlateLib} {W : WalletData} {D : DerivationLib} {WL : WalletLib}
  {LC : LifeCycle} {ST : Serde TxProof} {JT : JsonText} {AJ : ApiJson} {N : Type}.

(** The branch for a message queue or Keybase, once the slate is made. *)
Lemma send_published_spec (address : Address) post no_publisher no_address b x s1 (a : ApiState N) :
  initiate (N := N) b (Address_display address) a = (Ok x, set_ses s1 a) ->
  let '(r, a') := send_published (Ok address) (Some post) no_publisher no_address b a in
  match post x address (net a) with
  | (Ok _, n) =>
      let '(locked, s2) := Wallet_tx_lock_outputs x (Some (Address_display address)) 0 s1 in
      r = (_ ← locked; ok_or (External (lit "json")) (versioned_text x)) /\ a' = set_ses s2 (set_net n a)
  | (Err _, n) => r = Ok (error_text "An error occurred while posting slate.") /\
      a' = add_out (lit "Error") (set_ses s1 (set_net n a))
  | (Panic, n) => r = Panic /\ a' = set_ses s1 (set_net n a)
  | (Hang, n) => r = Hang /\ a' = set_ses s1 (set_net n a)
  end.
Proof.
  intros Hi. unfold send_published. unfold st_match at 1. cbn [st_lift]. unfold st_match at 1. rewrite Hi.
  unfold st_match, on_net. cbn [net set_ses]. destruct (post x address (net a)) as [[[]|e| |] n]; [|done..].
  unfold mbind, stM_bind, lock_outputs, on_wallet, set_ses, set_net. cbn.
  destruct (Wallet_tx_lock_outputs x (Some (Address_display address)) 0 s1) as [[[]|e| |] s2]; done.
Qed.
End sending.

(** C29: access.  Without a secret every request is served.  With one, a
    request is served exactly when its header is readable and says "Basic" and
    the encoding of "mwc:" and the secret; any other request is refused with
    nothing changed, one with an unreadable header by a panic.  The encoding of
    another secret is refused.  The owner's interface has the endpoints of the
    foreign one only if it is configured to. *)
Theorem api_access {H : HttpLib} {HL : HttpLaws H} {St : Type} secret header (chain : stM St Error Response) (s : St) :
  middleware_call (BasicAuthMiddleware_new None) header chain s = chain s /\
  middleware_call (BasicAuthMiddleware_new (Some secret)) header chain s =
    match header with
    | None => (Ok (empty_response UNAUTHORIZED), s)
    | Some h =>
        match header_to_str h with
        | None => (Panic, s)
        | Some t => if bool_decide (t = lit "Basic " ++ to_base64 (lit "mwc:" ++ secret)) then chain s
                    else (Ok (empty_response UNAUTHORIZED), s)
        end
    end /\
  (forall secret' h, secret' <> secret -> header_to_str h = Some (lit "Basic " ++ to_base64 (lit "mwc:" ++ secret')) ->
     middleware_call (BasicAuthMiddleware_new (Some secret)) (Some h) chain s = (Ok (empty_response UNAUTHORIZED), s)) /\
  (forall include r, r ∈ build_owner_api include -> snd r ∈ snd <$> build_foreign_api -> include = Some true).
Proof.
  assert (Hcall : forall header, middleware_call (BasicAuthMiddleware_new (Some secret)) header chain s =
    match header with
    | None => (Ok (empty_response UNAUTHORIZED), s)
    | Some h =>
        match header_to_str h with
        | None => (Panic, s)
        | Some t => if bool_decide (t = lit "Basic " ++ to_base64 (lit "mwc:" ++ secret)) then chain s
                    else (Ok (empty_response UNAUTHORIZED), s)
        end
    end).
  { intros [h|]; [|done]. unfold middleware_call, authorised, mbind, stM_bind. cbn [BasicAuthMiddleware_new api_basic_auth fmap option_fmap option_map].
    destruct (header_to_str h) as [t|]; [|done]. cbn [unwrap mbind outcome_bind st_lift].
    destruct (verify_slices_are_equal _ _) eqn:E.
    - apply slices_equal in E. by rewrite bool_decide_eq_true_2.
    - rewrite bool_decide_eq_false_2; [done|]. intros ->. rewrite (proj2 (slices_equal _ _)) in E by done. done. }
  split_and!; [done|apply Hcall| |].
  - intros secret' h Hne Hh. rewrite Hcall, Hh, bool_decide_eq_false_2; [done|].
    intros E. apply Hne. apply app_inv_head in E. apply base64_inj in E. by apply app_inv_head in E.
  - apply owner_foreign.
Qed.

Module ToyHttp.
#[export] Instance toy_http : HttpLib := {|
  to_base64 := fun s => s;
  header_to_str s := if forallb visible s then Some s else None;
  verify_slices_are_equal s t := bool_decide (s = t);
|}.
#[export] Instance toy_http_laws : HttpLaws toy_http.
Proof. split; [done|]. intros s t. apply bool_decide_eq_true. Qed.
End ToyHttp.
Import ToyHttp Toy Backtrack ToyPlatform ToySerde ToyMessage ToySlate ToyWallet ToyLib ToyConfig ToyLife ToyProof.

Lemma api_access_witness :
  middleware_call (BasicAuthMiddleware_new (Some (lit "a"))) (Some (lit "Basicmwc:b")) (mret toy_response) tt
    = (Ok (empty_response UNAUTHORIZED), tt) /\
  middleware_call (BasicAuthMiddleware_new None) (Some (lit "x")) (mret toy_response) tt = (Ok toy_response, tt).
Proof.
  destruct (api_access (lit "a") (Some (lit "Basicmwc:b")) (mret toy_response) tt) as (H1 & H2 & _).
  split; [rewrite H2; reflexivity|].
  exact (proj1 (api_access (lit "a") (Some (lit "x")) (mret toy_response) tt)).
Defined.

(** Concrete texts, a network that keeps what is posted, and an open wallet. *)
Module ToyApi.
#[export] Instance toy_json_text : JsonText := {|
  value_of_text s := Some (VString s);
  text_of_value v := match v with VString s => Some s | _ => None end;
|}.
#[export] Instance toy_api_json : ApiJson := {|
  outputs_text x := Some (to_dec (Z.of_nat (length x.2)));
  txs_text x := Some (to_dec (Z.of_nat (length x.2)));
  stored_tx_text x := None;
  info_text x := Some (to_dec (x : Z));
  coinbase_text x := Some (to_dec (x : Z));
  versioned_text := slate_to_json;
  slate_value x := VString <$> slate_to_json x;
  send_body_of s := match s with
    | "s"%char :: d => Some {| method := MMWCMQS; dest := Some d; isb_amount := 5; isb_minimum_confirmations := 1;
        isb_max_outputs := 500; isb_num_change_outputs := 1; isb_use_all := false; isb_message := None; isb_version := None |}
    | _ => None
    end;
  block_fees_of s := Some 0;
  slate_of := deserialize_upgrade;
  received_slate := Some;
  uuid_of_str := Some;
  error_debug _ := [];
|}.
Definition toy_state : ApiState (list (str * Address)) :=
  {| ses := open_session None; wallet_held := false; net := []; files := ∅; out := [] |}.
Definition toy_net (up : bool) : Net :=
  {| mwcmqs_publisher := Some (fun x a n => if up then (Ok (), (slate_id x, a) :: n) else (Err (External (lit "post")), n));
     keybase_publisher := None; http_post _ x n := (Ok x, n); create_ok _ := true |}.
Definition toy_request (body : str) : Request :=
  {| q_refresh := None; q_show_spent := None; q_fluff := None; q_id := None; q_tx_id := None; q_tx_uuid := None; q_body := body |}.
Definition toy_to : MWCMQSAddress :=
  {| public_key_text := key_text (toy_pk 9); domain := lit "mqs.mwc.mw"; port := None |}.
Definition toy_send : IssueSendBody :=
  default {| method := MNone; dest := None; isb_amount := 0; isb_minimum_confirmations := 0; isb_max_outputs := 0;
             isb_num_change_outputs := 0; isb_use_all := false; isb_message := None; isb_version := None |}
    (send_body_of (lit "s" ++ MWCMQSAddress_display toy_to)).
End ToyApi.
Import ToyApi.

(** The wallet's mutex.  A handler that ends, in whatever way, leaves the
    mutex as it found it.  But a request for the transactions that does not
    switch the refresh off, and every request for a stored transaction, hangs
    on an open wallet; from then on every endpoint that needs the wallet gives
    no answer any more. *)
Theorem api_deadlock {L : CryptoLib} {R : RegexEngine} {P : Platform} {SL : SlateLib} {W : WalletData} {D : DerivationLib} {WL : WalletLib}
    {LC : LifeCycle} {ST : Serde TxProof} {JT : JsonText} {AJ : ApiJson} {N : Type} (container : Net (N := N)) e q (a : ApiState N) w :
  (let '(r, a') := handle container e q a in r <> Hang -> wallet_held a' = wallet_held a) /\
  (wallet_held a = false -> backend (wal (ses a)) = true -> held (inst (ses a)) = false ->
   lc_wallet_inst (world (inst (ses a))) = (inl (), w) -> fst (start_updater_console_thread w) = inl () ->
   e = ERetrieveTxs /\ q_refresh q <> Some false \/ e = ERetrieveStoredTx ->
   exists a', handle container e q a = (Hang, a') /\
     forall e' q' r, fst (handle container e' q' a') = Ok r -> needs_no_wallet e' q').
Proof.
  split; [apply handle_releases|]. intros Hw Hb Hi Hlc Hst He.
  destruct (handle_hangs container e q a w Hw Hb Hi Hlc Hst He) as (a' & Ha & Hheld).
  exists a'. split; [done|]. intros e' q' r Hr. by eapply handle_blocked.
Qed.

Lemma api_deadlock_witness :
  exists a, handle (toy_net true) ERetrieveTxs (toy_request []) toy_state = (Hang, a) /\
    forall r, fst (handle (toy_net true) ERetrieveOutputs (toy_request []) a) <> Ok r.
Proof.
  destruct (api_deadlock (toy_net true) ERetrieveTxs (toy_request []) toy_state (world (inst (ses toy_state)))) as [_ H].
  destruct H as (a & Ha & Hb); [reflexivity..|left; split; [reflexivity | discriminate]|].
  exists a. split; [exact Ha|]. intros r Hr. exact (Hb _ _ _ Hr).
Defined.

(** Bodies.  A body that is not UTF-8 makes each of these handlers panic
    before it looks at it, for it is traced first; and by the way requests are
    run in threads such a request is never answered. *)
Theorem bad_body_unanswered {L : CryptoLib} {R : RegexEngine} {P : Platform} {SL : SlateLib} {W : WalletData} {D : DerivationLib} {WL : WalletLib}
    {LC : LifeCycle} {ST : Serde TxProof} {JT : JsonText} {AJ : ApiJson} {N : Type} (container : Net (N := N)) e q (a : ApiState N)
    root_cause n m x :
  e ∈ [EFinalizeTx; EPostTx; EV2Foreign; EReceiveTx; EBuildCoinbase; EReceiveInvoice] -> utf8_valid (q_body q) = false ->
  handle container e q a = (Panic, a) /\
  (Executor.run root_cause (fst (handle container e q a)) m (started n) x -> forall r, poller x <> Ready r).
Proof.
  intros He Hu. assert (handle container e q a = (Panic, a)) as Hp.
  { rewrite !elem_of_cons, elem_of_nil in He. destruct_or? He; subst e; cbn [handle];
      unfold handle_finalize_tx, handle_post_tx, handle_v2foreign, handle_receive_tx, handle_build_coinbase, handle_receive_invoice;
      unfold mbind at 1, stM_bind at 1, trace_state_and_body; by rewrite Hu. }
  split; [done|]. rewrite Hp. intros Hr r Hrd. by pose proof (ready_answer _ _ _ _ _ _ Hr Hrd).
Qed.

Lemma bad_body_unanswered_witness :
  handle (toy_net true) EPostTx (toy_request [chr 255]) toy_state = (Panic, toy_state) /\
  forall r, poller (started 0) <> Ready r.
Proof.
  destruct (bad_body_unanswered (toy_net true) EPostTx (toy_request [chr 255]) toy_state (fun _ => []) 0 0 (started 0)) as [H1 H2].
  - apply list_elem_of_further, list_elem_of_here.
  - reflexivity.
  - split; [exact H1|]. apply H2. apply Executor.run_nil.
Defined.

(** C27: sending through a message queue.  Once the slate is made, its outputs
    are locked exactly when it has been posted: when posting fails nothing is
    locked, and when locking fails the request is answered with a failure
    although the slate has been sent.  The answer has the status 200 in every
    case and the wallet's mutex is free again. *)
Theorem issue_send_correct {L : CryptoLib} {R : RegexEngine} {P : Platform} {SL : SlateLib} {W : WalletData} {D : DerivationLib} {WL : WalletLib}
    {LC : LifeCycle} {ST : Serde TxProof} {JT : JsonText} {AJ : ApiJson} {N : Type} (container : Net (N := N)) text b d to post x s1 (a : ApiState N) :
  send_body_of text = Some b -> method b = MMWCMQS -> dest b = Some d -> MWCMQSAddress_from_str d = Ok to ->
  mwcmqs_publisher container = Some post -> wallet_held a = false ->
  initiate b (MWCMQSAddress_display to) (set_wallet_held true a) = (Ok x, set_ses s1 (set_wallet_held true a)) ->
  let '(r, a') := handle_issue_send_tx container text a in
  match post x (AMWCMQS to) (net a) with
  | (Ok _, n) =>
      let '(locked, s2) := Wallet_tx_lock_outputs x (Some (MWCMQSAddress_display to)) 0 s1 in
      ses a' = s2 /\ net a' = n /\
      match locked with
      | Ok _ => wallet_held a' = false /\ match versioned_text x with
                | Some t => r = Ok (json_response t)
                | None => r = Ok (json_response (error_text "Could not process send due to problem. See stdout for details."))
                end
      | Err _ => wallet_held a' = false /\
          r = Ok (json_response (error_text "Could not process send due to problem. See stdout for details."))
      | _ => forall t, r <> Ok t
      end
  | (Err _, n) => ses a' = s1 /\ net a' = n /\ wallet_held a' = false /\
      r = Ok (json_response (error_text "An error occurred while posting slate."))
  | (_, n) => ses a' = s1 /\ net a' = n /\ forall t, r <> Ok t
  end.
Proof.
  intros Hb Hm Hd Hto Hpub Hw Hi. unfold handle_issue_send_tx, process_handle_issue_send_tx. rewrite Hb, Hm.
  unfold with_dest. rewrite Hd, Hto, Hpub. cbn [fmap outcome_fmap].
  unfold st_match at 1, with_lock. rewrite Hw.
  match goal with |- context [send_published ?ad ?p ?u1 ?u2 b ?s] =>
    pose proof (send_published_spec (AMWCMQS to) post u1 u2 b x s1 (set_wallet_held true a) Hi) as Hs;
    destruct (send_published ad p u1 u2 b s) as [r1 a1] eqn:E end.
  cbn [net set_wallet_held] in Hs. destruct (post x (AMWCMQS to) (net a)) as [[[]|e| |] n].
  - cbn [Address_display] in Hs. destruct (Wallet_tx_lock_outputs x _ 0 s1) as [locked s2]. destruct Hs as [-> ->].
    destruct locked as [[]|e| |]; cbn; [|done..]. destruct (versioned_text x); done.
  - destruct Hs as [-> ->]. done.
  - destruct Hs as [-> ->]. done.
  - destruct Hs as [-> ->]. done.
Qed.

Lemma issue_send_correct_witness :
  let text := lit "s" ++ MWCMQSAddress_display toy_to in
  (let a := snd (handle_issue_send_tx (toy_net true) text toy_state) in
   net a = [(lit "new", AMWCMQS toy_to)] /\ wallet_held a = false) /\
  fst (handle_issue_send_tx (toy_net false) text toy_state)
    = Ok (json_response (error_text "An error occurred while posting slate.")).
Proof.
  intros text. set (s1 := ses (snd (initiate (N := list (str * Address)) toy_send (MWCMQSAddress_display toy_to) (set_wallet_held true toy_state)))).
  assert (initiate toy_send (MWCMQSAddress_display toy_to) (set_wallet_held true toy_state)
    = (Ok (new_slate 5), set_ses s1 (set_wallet_held true toy_state))) as Hi.
  { assert (fst (initiate (N := list (str * Address)) toy_send (MWCMQSAddress_display toy_to) (set_wallet_held true toy_state)) = Ok (new_slate 5))
      as H by (vm_compute; reflexivity).
    subst s1. unfold initiate, on_wallet in *. destruct (initiate_send_tx _ _ _ _ _ _ _ _ _ _ _) as [r s]. cbn [fst snd] in H |- *. by rewrite H. }
  assert (MWCMQSAddress_from_str (MWCMQSAddress_display toy_to) = Ok toy_to) as Hto by (vm_compute; reflexivity).
  assert (fst (Wallet_tx_lock_outputs (new_slate 5) (Some (MWCMQSAddress_display toy_to)) 0 s1) = Ok ()) as Hl by (vm_compute; reflexivity).
  assert (send_body_of text = Some toy_send /\ method toy_send = MMWCMQS /\ dest toy_send = Some (MWCMQSAddress_display toy_to))
    as (Hb & Hm & Hd) by (split; [|split]; vm_compute; reflexivity).
  split.
  - pose proof (issue_send_correct (toy_net true) text toy_send (MWCMQSAddress_display toy_to) toy_to
      (fun x a n => (Ok (), (slate_id x, a) :: n)) (new_slate 5) s1 toy_state Hb Hm Hd Hto eq_refl eq_refl Hi) as T.
    destruct (handle_issue_send_tx (toy_net true) text toy_state) as [r a]. cbn [snd].
    destruct (Wallet_tx_lock_outputs _ _ 0 s1) as [locked s2]. cbn [fst] in Hl. rewrite Hl in T.
    destruct T as (_ & Hn & Hw & _). split; [exact Hn | exact Hw].
  - pose proof (issue_send_correct (toy_net false) text toy_send (MWCMQSAddress_display toy_to) toy_to
      (fun x a n => (Err (External (lit "post")), n)) (new_slate 5) s1 toy_state Hb Hm Hd Hto eq_refl eq_refl Hi) as T.
    destruct (handle_issue_send_tx (toy_net false) text toy_state) as [r a]. apply T.
Defined.
