(* ===== verification/Service.v ===== *)
(** * The http servers in the running process

    [api/router.rs]: the routers [main] starts its servers with, each with its
    middleware and the wallet's container, and the requests they answer beside
    the prompt, over the state the two share. *)

From S2P Require Import Prelude Str Errors Regex Crypto Address Message TxProof AddressBook Config WalletTypes BulkValidate Hasher VerifyProof WalletApi Scan Wallet Broker Json Parser Controller Commands Channels Startup Executor Api.
Local Open Scope Z_scope.

(** ** Gotham *)

(** A request as it arrives. *)
Record HttpRequest : Type := {
  http_method : option Method;        (* other methods are of no route *)
  http_path : str;
  http_query : str;
  http_authorization : option str;
  http_body : str;
}.
(** The router of the library: the endpoint and what is read from the query
    string, or an answer of its own. *)
Class Gotham : Type := select : list Route -> HttpRequest -> (Endpoint * Request) + Response.
Class GothamLaws (G : Gotham) : Prop := select_listed rs r e q : select rs r = inl (e, q) ->
  q_body q = http_body r /\ exists m p, http_method r = Some m /\ (m, p, e) ∈ rs.

Section service.
Context {L : CryptoLib} {R : RegexEngine} {P : Platform} {E : ConfigEnv} {SL : SlateLib} {W : WalletData} {D : DerivationLib} {WL : WalletLib}
  {LC : LifeCycle} {PL : ProofLib} {ST : Serde TxProof} {SE : Serde EncryptedMessage} {K : KvStore} {J : ContactJson} {JT : JsonText} {SC : ScanLib} {SH : ShellLib} {CL : Clap}
  {N : Type} {B : Brokers N} {T : Terminal} {HL : HttpLib} {AJ : ApiJson} {G : Gotham}.
Variable checks : bool.
Variable pages : nat.
Variable http_post_slate : str -> Slate -> stM N Error Slate.    (* the http client of the handlers *)

(** ** The container *)

(** The wallet in it is the one of the process. *)
Record WalletContainer : Type := {
  container_config : Wallet713Config;
  container_mwcmqs : option Handle;
  container_grinbox : option Handle;
  container_keybase : option Handle;
}.
Definition WalletContainer_new (config : Wallet713Config) (mwcmqs grinbox keybase : option Handle) : WalletContainer :=
  {| container_config := config; container_mwcmqs := mwcmqs; container_grinbox := grinbox; container_keybase := keybase |}.
Definition publisher_or (missing : string) (p : option Handle) : result Handle := ok_or (Kind (GenericError (lit missing))) p.
Definition mwcmqs_publisher (c : WalletContainer) : result Handle := publisher_or "missing mwcmqs publisher" (container_mwcmqs c).
Definition _grinbox_publisher (c : WalletContainer) : result Handle := publisher_or "missing mwcmq publisher" (container_grinbox c).
Definition keybase_publisher (c : WalletContainer) : result Handle := publisher_or "missing keybase publisher" (container_keybase c).

Definition posts_of (h : result Handle) : option (Slate -> Address -> stM N Error ()) :=
  match h with Ok h => Some (broker_post h) | _ => None end.
(** What the handlers see of it. *)
Definition net_of (c : WalletContainer) : Api.Net (N := N) :=
  {| Api.mwcmqs_publisher := posts_of (mwcmqs_publisher c); Api.keybase_publisher := posts_of (keybase_publisher c);
     http_post := http_post_slate; create_ok := file_ok |}.

(** ** Routers *)

Record Router : Type := { router_auth : BasicAuthMiddleware; router_state : WalletContainer; router_routes : list Route }.
Definition container_of (slots : Channel -> option Handle) (config : Wallet713Config) : WalletContainer :=
  WalletContainer_new config (slots ChMwcmqs) (slots ChGrinbox) (slots ChKeybase).
Definition build_owner_api_router (slots : Channel -> option Handle) (owner_api_secret : option str)
    (owner_api_include_foreign : option bool) (config : Wallet713Config) : Router :=
  {| router_auth := BasicAuthMiddleware_new owner_api_secret; router_state := container_of slots config;
     router_routes := build_owner_api owner_api_include_foreign |}.
Definition build_foreign_api_router (slots : Channel -> option Handle) (foreign_api_secret : option str) (config : Wallet713Config) : Router :=
  {| router_auth := BasicAuthMiddleware_new foreign_api_secret; router_state := container_of slots config;
     router_routes := build_foreign_api |}.
(** The router a server has been started with. *)
Definition router_of (v : Server) : Router :=
  match serves v with
  | OwnerThread => build_owner_api_router (server_brokers v) (server_secret v) (with_foreign v) (server_config v)
  | _ => build_foreign_api_router (server_brokers v) (server_secret v) (server_config v)
  end.

(** ** The process *)

(** [main]'s state, with the mutex of the wallet. *)
Record Process : Type := { process : Main (N := N); mutex : bool }.
Definition api_state (x : Process) : ApiState N :=
  let s := shell (process x) in
  {| Api.ses := Commands.ses s; wallet_held := mutex x; Api.net := Commands.net s; Api.files := Commands.files s; Api.out := Commands.out s |}.
Definition put_api (a : ApiState N) (x : Process) : Process :=
  let s := shell (process x) in
  {| process := set_shell {| config := config s; Commands.files := Api.files a; Commands.ses := Api.ses a; book := book s; statics := statics s;
                             brokers := brokers s; out_is_safe := out_is_safe s; Commands.net := Api.net a; Commands.out := Api.out a |} (process x);
     mutex := wallet_held a |}.
(** The routes are looked through first; the pipeline runs for the one found. *)
Definition route (r : Router) (req : HttpRequest) : stM (ApiState N) Error Response :=
  match select (router_routes r) req with
  | inl (e, q) => middleware_call (router_auth r) (http_authorization req) (handle (net_of (router_state r)) e q)
  | inr answer => mret answer
  end.
Definition serve (v : Server) (req : HttpRequest) : stM Process Error Response := fun x =>
  let '(r, a) := route (router_of v) req (api_state x) in (r, put_api a x).

(** A line typed while no request has the wallet, a request to one of the
    servers, what a listener's thread does, in any order.  A line is one step:
    a request does not come between the locks of a command. *)
Inductive turn (x : Process) : Process -> Prop :=
| turn_line command : mutex x = false ->
    turn x {| process := snd (after_line checks pages command (process x)); mutex := false |}
| turn_request v req : v ∈ servers (process x) -> turn x (snd (serve v req x))
| turn_thread n w : (mutex x = true -> w = Commands.ses (shell (process x))) ->
    turn x (put_api (Api.set_ses w (Api.set_net n (api_state x))) x).

(** ** What stays as it is *)

Lemma put_same x : put_api (api_state x) x = x.
Proof. destruct x as [[[] ? ? ? ?] ?]. done. Qed.
Lemma after_line_servers command (x : Main (N := N)) : servers (snd (after_line checks pages command x)) = servers x.
Proof.
  unfold after_line, remember. destruct (do_command checks pages command _) as [[[]|e| |] s]; cbn; [|..|done|done];
    by destruct (_ && _).
Qed.
Lemma turn_servers x y : turn x y -> servers (process y) = servers (process x).
Proof.
  intros [command Hm|v req Hv|n w Hw]; [apply after_line_servers| |done]. unfold serve. by destruct (route _ _ _).
Qed.
Lemma turns_servers x y : rtc turn x y -> servers (process y) = servers (process x).
Proof. induction 1 as [|x y z Hs _ IH]; [done|]. rewrite IH. by apply turn_servers. Qed.

(** The servers that are started, from the configuration and the slots of that moment. *)
Definition server_for (c : Wallet713Config) (slots : Channel -> option Handle) (v : Server) : Prop :=
  server_brokers v = slots /\ server_config v = c /\
  match serves v with
  | OwnerThread => owner_api_ c = Some true /\ server_secret v = owner_api_secret c /\ with_foreign v = owner_api_include_foreign c
  | ForeignThread => foreign_api_ c = Some true /\ server_secret v = foreign_api_secret c
  | KeybaseThread => False
  end.
Lemma start_apis_servers (x : Main (N := N)) : servers x = [] -> forall v, v ∈ servers (snd (start_apis x)) ->
  server_for (config (shell x)) (brokers (shell x)) v.
Proof.
  intros Hx v. set (c := config (shell x)).
  assert (forall m : Main (N := N), servers m = [] -> v ∈ servers m -> server_for c (brokers (shell x)) v) as H0
    by (intros m -> Hv; by apply elem_of_nil in Hv).
  unfold start_apis. unfold mbind at 1, stM_bind at 1. unfold view. cbn [fst snd]. fold c.
  destruct (owner_api c || foreign_api c); [|by apply H0].
  unfold mbind at 1, stM_bind at 1.
  assert (let '(r, y) := tls_config c x in servers y = [] /\ config (shell y) = c /\ brokers (shell y) = brokers (shell x)) as Ht.
  { unfold tls_config, tell, modify, mbind, stM_bind. destruct (is_tls_enabled c); [|done]. cbn.
    destruct (unwrap (tls_certificate_file c)); cbn; [|done..]. destruct (unwrap (tls_certificate_key c)); cbn; [|done..].
    by destruct (build_server_config _ _). }
  destruct (tls_config c x) as [[tls|e| |] y]; destruct Ht as (T1 & T2 & T3); [|by apply H0..].
  unfold mbind, stM_bind, tell, modify, start_server, server_for. cbn.
  destruct (owner_api_ c) as [[|]|] eqn:Eo; cbn; [destruct (owner_api_secret c) eqn:Es; cbn|..];
    (destruct (foreign_api_ c) as [[|]|] eqn:Ef; cbn; [destruct (foreign_api_secret c) eqn:Efs; cbn|..]); rewrite ?T1, ?T2, ?T3; cbn; set_solver.
Qed.
End service.

(** ** While a request keeps the wallet *)

Section frozen.
Context {L : CryptoLib} {R : RegexEngine} {P : Platform} {SL : SlateLib} {W : WalletData} {D : DerivationLib} {WL : WalletLib}
  {LC : LifeCycle} {ST : Serde TxProof} {JT : JsonText} {AJ : ApiJson} {N : Type}.
Abbreviation AM A := (stM (ApiState N) Error A).

(** With the mutex taken, [m] at most prints. *)
Definition frozen {A} (m : AM A) : Prop := forall a, wallet_held a = true ->
  let a' := snd (m a) in wallet_held a' = true /\ Api.ses a' = Api.ses a /\ Api.net a' = Api.net a /\ Api.files a' = Api.files a.

Lemma frozen_ret {A} (x : A) : frozen (mret x).
Proof. done. Qed.
Lemma frozen_lift {A} (r : result A) : frozen (st_lift r).
Proof. done. Qed.
Lemma frozen_err {A} e : frozen (A := A) (st_err e).
Proof. done. Qed.
Lemma frozen_println l : frozen (Api.println l).
Proof. done. Qed.
Lemma frozen_lock {A} (m : AM A) : frozen (with_lock m).
Proof. intros a Ha. unfold with_lock. by rewrite Ha. Qed.
Lemma frozen_bind {A B} (m : AM A) (f : A -> AM B) : frozen m -> (forall x, frozen (f x)) -> frozen (m ≫= f).
Proof.
  intros Hm Hf a Ha. unfold mbind, stM_bind. specialize (Hm a Ha). destruct (m a) as [[x|e| |] a1]; [|done..].
  cbn in Hm. destruct Hm as (H1 & <- & <- & <-). by apply Hf.
Qed.
Lemma frozen_match {A B} (m : AM A) (f : A -> AM B) g :
  frozen m -> (forall x, frozen (f x)) -> (forall e, frozen (g e)) -> frozen (st_match m f g).
Proof.
  intros Hm Hf Hg a Ha. unfold st_match. specialize (Hm a Ha). destruct (m a) as [[x|e| |] a1]; [| |done..];
    cbn in Hm; destruct Hm as (H1 & <- & <- & <-); [by apply Hf|by apply Hg].
Qed.
End frozen.

Create HintDb frozen.
#[export] Hint Resolve frozen_ret frozen_lift frozen_err frozen_println frozen_lock : frozen.
#[export] Hint Extern 1 (frozen (_ ≫= _)) => apply frozen_bind; [|intros] : frozen.
#[export] Hint Extern 1 (frozen (st_match _ _ _)) => apply frozen_match; [|intros|intros] : frozen.
#[export] Hint Extern 1 (frozen (json _)) => apply frozen_lift : frozen.
#[export] Hint Extern 2 (frozen (if ?b then _ else _)) => destruct b : frozen.
#[export] Hint Extern 2 (frozen (match ?b with _ => _ end)) => destruct b : frozen.

Section frozen_requests.
Context {L : CryptoLib} {R : RegexEngine} {P : Platform} {SL : SlateLib} {W : WalletData} {D : DerivationLib} {WL : WalletLib}
  {LC : LifeCycle} {ST : Serde TxProof} {JT : JsonText} {AJ : ApiJson} {N : Type} {HL : HttpLib}.

Lemma frozen_announce x : frozen (N := N) (announce_rpc x).
Proof. unfold announce_rpc. eauto 8 with frozen. Qed.
#[local] Hint Resolve frozen_announce : frozen.
Lemma handle_frozen (container : Api.Net (N := N)) e q : frozen (handle container e q).
Proof.
  destruct e; cbn [handle]; unfold handle_retrieve_outputs, handle_retrieve_txs, retrieve_stored_tx, handle_retrieve_stored_tx,
    handle_node_height, handler_retrieve_summary_info, handle_finalize_tx, handler_cancel_tx, handle_post_tx,
    handle_issue_send_tx, process_handle_issue_send_tx, handle_v2foreign, handle_receive_tx, handle_build_coinbase,
    handle_receive_invoice, trace_state_and_body, from_utf8; eauto 20 with frozen.
Qed.
Lemma middleware_frozen auth h (m : stM (ApiState N) Error Response) : frozen m -> frozen (middleware_call auth h m).
Proof. intros Hm. unfold middleware_call. eauto with frozen. Qed.
End frozen_requests.

(** ** Properties *)

Definition foreign_endpoint (e : Endpoint) : bool := bool_decide (e ∈ snd <$> build_foreign_api).
(** The secret a server asks for. *)
Definition secret_for {L : CryptoLib} (c : Wallet713Config) (t : Thread) : option str :=
  match t with OwnerThread => owner_api_secret c | _ => foreign_api_secret c end.

Lemma middleware_refuses {H : HttpLib} {HL : HttpLaws H} {St : Type} secret header (chain : stM St Error Response) (s : St) :
  (forall h t, header = Some h -> header_to_str h = Some t -> t <> lit "Basic " ++ to_base64 (lit "mwc:" ++ secret)) ->
  let '(r, s') := middleware_call (BasicAuthMiddleware_new (Some secret)) header chain s in
  s' = s /\ forall resp, r = Ok resp -> resp = empty_response UNAUTHORIZED.
Proof.
  intros Hh. unfold middleware_call, authorised, mbind, stM_bind, outcome_bind, st_lift. cbn [api_basic_auth BasicAuthMiddleware_new fmap option_fmap option_map].
  destruct header as [h|]; [|by split; [|intros resp [= <-]]]. destruct (header_to_str h) as [t|] eqn:Ht; [|done]. cbn.
  destruct (verify_slices_are_equal _ _) eqn:Hv; [|by split; [|intros resp [= <-]]].
  apply slices_equal in Hv. by destruct (Hh h t eq_refl Ht).
Qed.

(** C10: who is served what.  Whatever is typed and requested after the start,
    every server is one the configuration of the start asks for, with its
    secret; with a secret, a request without the right header is refused, by an
    answer of the middleware or of the router, and changes nothing of the
    process.  A request that reaches a handler reaches one of the server's
    routes with the body it came with: the foreign server has none of the
    owner's, the owner's has the foreign ones only when it is configured to. *)
Theorem service_access {L : CryptoLib} {R : RegexEngine} {P : Platform} {E : ConfigEnv} {SL : SlateLib} {W : WalletData} {D : DerivationLib}
    {WL : WalletLib} {LC : LifeCycle} {PL : ProofLib} {ST : Serde TxProof} {SE : Serde EncryptedMessage} {K : KvStore} {J : ContactJson}
    {JT : JsonText} {SC : ScanLib} {SH : ShellLib} {CL : Clap} {N : Type} {B : Brokers N} {T : Terminal} {H : HttpLib} {HL : HttpLaws H}
    {AJ : ApiJson} {G : Gotham} {GL : GothamLaws G} checks pages post (x0 : Main (N := N)) p v req :
  servers x0 = [] ->
  rtc (turn checks pages post) {| process := snd (start_apis x0); mutex := false |} p -> v ∈ servers (process p) ->
  let c := config (shell x0) in
  let '(r, p') := serve post v req p in
  server_for c (brokers (shell x0)) v /\
  (forall secret, secret_for c (serves v) = Some secret ->
     (forall h t, http_authorization req = Some h -> header_to_str h = Some t -> t <> lit "Basic " ++ to_base64 (lit "mwc:" ++ secret)) ->
     p' = p /\ forall resp, r = Ok resp -> resp = empty_response UNAUTHORIZED \/ select (router_routes (router_of v)) req = inr resp) /\
  match select (router_routes (router_of v)) req with
  | inr resp => r = Ok resp /\ p' = p
  | inl (e, q) => q_body q = http_body req /\
      match serves v with
      | OwnerThread => foreign_endpoint e = true -> owner_api_include_foreign c = Some true
      | _ => foreign_endpoint e = true
      end
  end.
Proof.
  intros Hx Ht Hv. apply turns_servers in Ht. rewrite Ht in Hv. pose proof (start_apis_servers post x0 Hx v Hv) as Hf. clear Ht Hv.
  cbv zeta. unfold serve, route. pose proof Hf as (Hb & Hc & Hs).
  assert (router_auth (router_of v) = BasicAuthMiddleware_new (secret_for (config (shell x0)) (serves v))) as Ha
    by (unfold router_of, secret_for; destruct (serves v); [done|destruct Hs as (_ & -> & _)|destruct Hs as (_ & ->)]; done).
  destruct (select (router_routes (router_of v)) req) as [[e q]|resp] eqn:Hsel.
  - destruct (select_listed _ _ _ _ Hsel) as (Hq & m & path & _ & Hin).
    pose proof (fun secret => middleware_refuses secret (http_authorization req)
      (handle (net_of post (router_state (router_of v))) e q) (api_state p)) as Hr.
    rewrite Ha. destruct (middleware_call _ _ _ (api_state p)) as [r a] eqn:Em. split_and!; [done| |done|].
    + intros secret Hsec Hh. specialize (Hr secret Hh). rewrite Hsec in Em. rewrite Em in Hr. destruct Hr as [-> Hr]. split; [apply put_same|auto].
    + unfold router_of in Hin. destruct (serves v); [done| |by apply bool_decide_eq_true, (list_elem_of_fmap_2' snd _ _ _ Hin)].
      destruct Hs as (_ & _ & <-). intros Hfe%bool_decide_eq_true. exact (owner_foreign _ _ Hin Hfe).
  - cbn. rewrite put_same. split_and!; [done|intros; split; [done|intros ? [= <-]; by right]|done|done].
Qed.

(** A process whose wallet a request keeps. *)
Definition stuck {L : CryptoLib} {SL : SlateLib} {W : WalletData} {D : DerivationLib} {WL : WalletLib} {K : KvStore} {N : Type} {B : Brokers N}
    (x : Session) (p : Process (N := N)) : Prop :=
  mutex p = true /\ Commands.ses (shell (process p)) = x.
Lemma route_stuck {L : CryptoLib} {R : RegexEngine} {P : Platform} {SL : SlateLib} {W : WalletData} {D : DerivationLib} {WL : WalletLib}
    {LC : LifeCycle} {ST : Serde TxProof} {JT : JsonText} {SH : ShellLib} {N : Type} {B : Brokers N} {H : HttpLib}
    {AJ : ApiJson} {G : Gotham} post (r : Router) req : frozen (N := N) (route post r req).
Proof.
  unfold route. destruct (select _ _) as [[e q]|resp]; [|apply frozen_ret]. apply middleware_frozen, handle_frozen.
Qed.
Lemma serve_stuck {L : CryptoLib} {R : RegexEngine} {P : Platform} {SL : SlateLib} {W : WalletData} {D : DerivationLib} {WL : WalletLib}
    {LC : LifeCycle} {ST : Serde TxProof} {JT : JsonText} {SH : ShellLib} {K : KvStore} {N : Type} {B : Brokers N} {H : HttpLib}
    {AJ : ApiJson} {G : Gotham} post v req s (p : Process (N := N)) : stuck s p -> stuck s (snd (serve post v req p)).
Proof.
  intros [Hm Hs]. unfold serve. pose proof (route_stuck post (router_of v) req (api_state p) Hm) as Hf.
  destruct (route _ _ _ _) as [r a]. destruct Hf as (H1 & H2 & _). split; [exact H1|]. cbn in H2 |- *. congruence.
Qed.

(** C11: one request for ever.  On an open wallet a request for the
    transactions that does not switch the refresh off, or for a stored one,
    keeps the wallet and never ends.  From then on, whatever requests come to
    whichever server and whatever the listeners' threads do, the wallet stays
    kept and as it is, and the only requests answered are those that are refused,
    have no route, or need no wallet. *)
Theorem service_stuck {L : CryptoLib} {R : RegexEngine} {P : Platform} {E : ConfigEnv} {SL : SlateLib} {W : WalletData} {D : DerivationLib}
    {WL : WalletLib} {LC : LifeCycle} {PL : ProofLib} {ST : Serde TxProof} {SE : Serde EncryptedMessage} {K : KvStore} {J : ContactJson}
    {JT : JsonText} {SC : ScanLib} {SH : ShellLib} {CL : Clap} {N : Type} {B : Brokers N} {T : Terminal} {H : HttpLib}
    {AJ : ApiJson} {G : Gotham} checks pages post (p : Process (N := N)) v req e q w :
  let s := Commands.ses (shell (process p)) in
  select (router_routes (router_of v)) req = inl (e, q) -> authorised (router_auth (router_of v)) (http_authorization req) = Ok true ->
  e = ERetrieveTxs /\ q_refresh q <> Some false \/ e = ERetrieveStoredTx ->
  mutex p = false -> backend (wal s) = true -> held (inst s) = false ->
  lc_wallet_inst (world (inst s)) = (inl (), w) -> fst (start_updater_console_thread w) = inl () ->
  exists p1, serve post v req p = (Hang, p1) /\
    forall p2, rtc (turn checks pages post) p1 p2 ->
    mutex p2 = true /\ Commands.ses (shell (process p2)) = Commands.ses (shell (process p1)) /\
    forall v' req' r, fst (serve post v' req' p2) = Ok r ->
      r = empty_response UNAUTHORIZED \/
      match select (router_routes (router_of v')) req' with
      | inl (e', q') => needs_no_wallet e' q'
      | inr r' => r = r'
      end.
Proof.
  intros s Hsel Hau He Hm Hb Hi Hlc Hst.
  destruct (handle_hangs (net_of post (router_state (router_of v))) e q (api_state p) w Hm Hb Hi Hlc Hst He) as (a & Ha & Hheld).
  exists (put_api a p). split; [unfold serve, route, middleware_call, mbind, stM_bind, st_lift; rewrite Hsel, Hau, Ha; done|]. intros p2 Hp2.
  assert (stuck (Commands.ses (shell (process (put_api a p)))) p2) as [Hm2 Hs2].
  { set (s1 := Commands.ses (shell (process (put_api a p)))). assert (stuck s1 (put_api a p)) as H1 by done. revert H1. clearbody s1.
    induction Hp2 as [|x y z Hxy _ IH]; [done|]. intros Hx. apply IH.
    destruct Hxy as [command Hf|v1 req1 Hv1|n w1 Hw]; [by rewrite (proj1 Hx) in Hf|by apply serve_stuck|].
    destruct Hx as [Hx1 Hx2]. split; [done|]. cbn. by rewrite Hw. }
  split_and!; [done..|]. intros v' req' r. unfold serve, route. destruct (select _ req') as [[e' q']|r'].
  - unfold middleware_call, mbind, stM_bind, st_lift. destruct (authorised (router_auth (router_of v')) _) as [[|]|er| |]; [|cbn; intros [= <-]; by left|done..].
    intros Hr. right. apply (handle_blocked (net_of post (router_state (router_of v'))) e' q' (api_state p2) r Hm2). revert Hr. by destruct (handle _ e' q' _).
  - cbn. intros [= <-]. by right.
Qed.

(** A send over mwcmqs whose slate is made but not posted. *)
Lemma issue_send_unposted {L : CryptoLib} {R : RegexEngine} {P : Platform} {SL : SlateLib} {W : WalletData} {D : DerivationLib} {WL : WalletLib}
    {LC : LifeCycle} {ST : Serde TxProof} {JT : JsonText} {AJ : ApiJson} {N : Type} (container : Api.Net (N := N)) text b d to post x s1 (a : ApiState N) :
  send_body_of text = Some b -> method b = MMWCMQS -> dest b = Some d -> MWCMQSAddress_from_str d = Ok to ->
  Api.mwcmqs_publisher container = Some post -> wallet_held a = false ->
  initiate b (MWCMQSAddress_display to) (set_wallet_held true a) = (Ok x, Api.set_ses s1 (set_wallet_held true a)) ->
  fst (post x (AMWCMQS to) (Api.net a)) <> Ok () ->
  let '(r, a') := handle_issue_send_tx container text a in
  Api.ses a' = s1 /\ forall resp, r = Ok resp -> resp = json_response (error_text "An error occurred while posting slate.").
Proof.
  intros Hb Hm Hd Hto Hpub Hw Hi Hp. unfold handle_issue_send_tx, process_handle_issue_send_tx. rewrite Hb, Hm.
  unfold with_dest. rewrite Hd, Hto, Hpub. cbn [fmap outcome_fmap]. unfold st_match at 1, with_lock. rewrite Hw.
  match goal with |- context [send_published ?ad ?p ?u1 ?u2 b ?s] =>
    pose proof (send_published_spec (AMWCMQS to) post u1 u2 b x s1 (set_wallet_held true a) Hi) as Hs;
    destruct (send_published ad p u1 u2 b s) as [r1 a1] eqn:E end.
  cbn [Api.net set_wallet_held] in Hs. destruct (post x (AMWCMQS to) (Api.net a)) as [[[]|e| |] n]; [done|..]; destruct Hs as [-> ->].
  - split; [done|]. by intros resp [= <-].
  - done.
  - done.
Qed.

(** C14: the publisher of the start.  A server posts through the broker
    that was in the slot when it was started.  Once that listener has been
    stopped at the prompt and another one started, a send over mwcmqs at the
    http interface makes its slate but cannot post it: whatever the new
    listener's thread does, the answer is a failure and no outputs are locked. *)
Theorem relisten_not_served {L : CryptoLib} {R : RegexEngine} {P : Platform} {E : ConfigEnv} {SL : SlateLib} {W : WalletData} {D : DerivationLib}
    {WL : WalletLib} {LC : LifeCycle} {PL : ProofLib} {ST : Serde TxProof} {SE : Serde EncryptedMessage} {K : KvStore} {J : ContactJson}
    {JT : JsonText} {SC : ScanLib} {SH : ShellLib} {CL : Clap} {N : Type} {B : Brokers N} {BL : BrokerLaws B} {T : Terminal} {H : HttpLib}
    {AJ : ApiJson} {G : Gotham} post c0 n0 n1 h h2 (s s1 s2 : Shell (N := N)) n (p : Process (N := N)) v req q b d to x ses1 :
  broker_new ChMwcmqs c0 n0 = (Ok h, n1) -> slots_ok s -> brokers s ChMwcmqs = Some h -> server_brokers v ChMwcmqs = Some h ->
  stop_on ChMwcmqs s = (Ok (), s1) -> listen_on ChMwcmqs s1 = (Ok (), s2) ->
  brokers s2 ChMwcmqs = Some h2 -> writes h2 (Commands.net s2) n -> shell (process p) = Commands.set_net n s2 -> mutex p = false ->
  select (router_routes (router_of v)) req = inl (EIssueSendTx, q) ->
  authorised (router_auth (router_of v)) (http_authorization req) = Ok true ->
  send_body_of (q_body q) = Some b -> method b = MMWCMQS -> dest b = Some d -> MWCMQSAddress_from_str d = Ok to ->
  initiate b (MWCMQSAddress_display to) (set_wallet_held true (api_state p)) = (Ok x, Api.set_ses ses1 (set_wallet_held true (api_state p))) ->
  let '(r, p') := serve post v req p in
  Commands.ses (shell (process p')) = ses1 /\
  forall resp, r = Ok resp -> resp = json_response (error_text "An error occurred while posting slate.").
Proof.
  intros Hnew Hok Hh Hv Hstop Hlisten Hh2 Hw Hp Hm Hsel Hau Hb Hmq Hd Hto Hi.
  destruct (stopped_out ChMwcmqs h s s1 Hok Hh Hstop) as (Hk & Hend & Hidle & Hothers).
  destruct (replaced_apart ChMwcmqs h s1 s2 Hk Hothers Hidle Hlisten) as [[Hk2 Hap] Hr2].
  destruct (Hw h Hk2) as [_ Hr]. specialize (Hr (Hap _ _ Hh2)).
  assert (broker_running h (Commands.net (shell (process p))) = false) as Hoff by (rewrite Hp; cbn; congruence).
  unfold serve, route, middleware_call, mbind, stM_bind, st_lift. rewrite Hsel, Hau. cbn [handle].
  assert (Api.mwcmqs_publisher (net_of post (router_state (router_of v))) = Some (broker_post h)) as Hpub
    by (unfold net_of, router_of, mwcmqs_publisher; destruct (serves v); cbn; by rewrite Hv).
  pose proof (issue_send_unposted _ _ _ _ _ _ _ _ (api_state p) Hb Hmq Hd Hto Hpub Hm Hi
    (post_closed ChMwcmqs c0 n0 h n1 x (AMWCMQS to) (Commands.net (shell (process p))) Hnew ltac:(done) Hoff)) as Hs.
  by destruct (handle_issue_send_tx _ _ _) as [r a].
Qed.

Import Toy Backtrack ToyPlatform ToySerde ToyMessage ToySlate ToyWallet ToyLib ToyScan ToyConfig ToyLife ToyProof ToyStore ToyJson ToyClap ToyShell Grinbox.ToyProtocol Mwcmqs.ToyMqs Keybase.ToyCli ToyTerminal ToyChannels ToyHttp.
Import ToyApi.

(** A router that compares paths as they are, and a process with an owner's server. *)
Module ToyService.
#[export] Instance toy_gotham : Gotham := fun rs r =>
  match find (fun rt => bool_decide (http_method r = Some rt.1.1 /\ http_path r = rt.1.2)) rs with
  | Some (_, _, e) => inl (e, {| q_refresh := None; q_show_spent := None; q_fluff := None; q_id := None; q_tx_id := None; q_tx_uuid := None;
                                 q_body := http_body r |})
  | None => inr (empty_response 404)
  end.
#[export] Instance toy_gotham_laws : GothamLaws toy_gotham.
Proof.
  intros rs r e q. unfold select, toy_gotham. match goal with |- context [find ?f rs] => destruct (find f rs) as [[[m p] e']|] eqn:Hf end; [|done]. intros [= <- <-]. split; [done|].
  apply find_some in Hf as [Hin [Hm _]%bool_decide_eq_true]. exists m, p. split; [done|by apply list_elem_of_In].
Qed.
Definition owner_config (secret : option str) : Wallet713Config :=
  let c := set_address_key (toy_sk 5) toy_config in
  {| chain := chain c; wallet713_data_path := wallet713_data_path c; Config.keybase_binary := None;
     mwcmq_domain_ := None; mwcmq_port := None; mwcmqs_domain_ := None; mwcmqs_port_ := None;
     grinbox_protocol_unsecure_ := None; grinbox_address_index_ := None; mwc_node_uri_ := None;
     mwc_node_secret_ := None; grinbox_listener_auto_start_ := None; keybase_listener_auto_start_ := None;
     max_auto_accept_invoice := None; default_keybase_ttl := None; owner_api_ := Some true;
     owner_api_address_ := None; owner_api_secret := secret; owner_api_include_foreign := Some false;
     foreign_api_ := None; disable_history_ := None; foreign_api_address_ := None; foreign_api_secret := None;
     tls_certificate_file := None; tls_certificate_key := None; config_home := config_home c; grinbox_address_key := grinbox_address_key c;
     wallet_updater_frequency_sec := None |}.
Definition toy_post (url : str) (x : Slate) : stM toy_world Error Slate := mret x.
Definition main_of (s : Shell (N := toy_world)) : Main :=
  {| shell := s; stdin := []; history := []; servers := []; keybase_thread := false |}.
Definition owner_shell (secret : option str) : Shell (N := toy_world) := Commands.set_config (owner_config secret) ∅ idle_shell.
(** With the servers started. *)
Definition serving (s : Shell (N := toy_world)) : Process := {| process := snd (start_apis (main_of s)); mutex := false |}.
Definition owner_server (s : Shell (N := toy_world)) (secret : option str) : Server :=
  {| serves := OwnerThread; at_address := owner_api_address (config s); server_secret := secret; with_foreign := Some false;
     server_tls := false; server_brokers := brokers s; server_config := config s |}.
Definition get_of (path : string) (header : option str) : HttpRequest :=
  {| http_method := Some GET; http_path := lit path; http_query := []; http_authorization := header; http_body := [] |}.
(** The mwcmqs listener started, begun, stopped, and another one started and begun. *)
Definition slot (s : Shell (N := toy_world)) : Ends := default (keybase_ends 0) (brokers s ChMwcmqs).
Definition begin_mwcmqs (s : Shell (N := toy_world)) : toy_world :=
  match slot s with
  | MWCMQSEnds _ e => snd (at_mwcmqs (mwcmqs_broker e) (Mwcmqs.subscribe (mwcmqs_of e) (Mwcmqs.Received (Some (lit "1"))) []) (Commands.net s))
  | _ => Commands.net s
  end.
Definition first_made : Shell (N := toy_world) := snd (listen_on ChMwcmqs (owner_shell None)).
Definition first_runs : Shell (N := toy_world) := Commands.set_net (begin_mwcmqs first_made) first_made.
Definition first_stopped : Shell (N := toy_world) := snd (stop_on ChMwcmqs first_runs).
Definition second_made : Shell (N := toy_world) := snd (listen_on ChMwcmqs first_stopped).
Definition second_runs : Shell (N := toy_world) := Commands.set_net (begin_mwcmqs second_made) second_made.
Definition send_request : HttpRequest :=
  {| http_method := Some POST; http_path := lit "/v1/wallet/owner/issue_send_tx"; http_query := []; http_authorization := None;
     http_body := lit "s" ++ MWCMQSAddress_display toy_to |}.
End ToyService.
Import ToyService.

Lemma owner_served s secret : owner_api_ (config s) = Some true -> owner_api_secret (config s) = secret ->
  owner_api_include_foreign (config s) = Some false -> foreign_api_ (config s) = None -> tls_certificate_file (config s) = None ->
  owner_server s secret ∈ servers (process (serving s)).
Proof.
  intros Ho Hs Hi Hf Ht. unfold serving, start_apis. cbn [process]. unfold mbind at 1, stM_bind at 1, view at 1. cbn [shell main_of].
  unfold owner_api, foreign_api, tls_config, is_tls_enabled. rewrite Ho, Ht, Hf. cbn. unfold mbind, stM_bind, tell, modify, start_server. cbn.
  rewrite Hs. destruct secret; cbn; rewrite Hi; apply list_elem_of_singleton; reflexivity.
Qed.
Lemma service_access_witness :
  let s := owner_shell (Some (lit "a")) in
  let req := get_of "/v1/wallet/owner/node_height" (Some (lit "Basicmwc:b")) in
  fst (serve toy_post (owner_server s (Some (lit "a"))) req (serving s)) = Ok (empty_response UNAUTHORIZED) /\
  snd (serve toy_post (owner_server s (Some (lit "a"))) req (serving s)) = serving s.
Proof.
  intros s req. split; [vm_compute; reflexivity|].
  assert (owner_server s (Some (lit "a")) ∈ servers (process (serving s))) as Hv by (apply owner_served; reflexivity).
  pose proof (service_access (T := terminal) true 0 toy_post (main_of s) (serving s) (owner_server s (Some (lit "a"))) req eq_refl) as H.
  specialize (H (rtc_refl _ (serving s)) Hv).
  cbv zeta in H. destruct (serve _ _ _ _) as [r p']. destruct H as (_ & H & _).
  destruct (H (lit "a") eq_refl) as [-> _]; [|reflexivity].
  intros h t [= <-] [= <-]. vm_compute. discriminate.
Defined.

Lemma service_stuck_witness :
  let s := owner_shell None in
  exists p1, serve toy_post (owner_server s None) (get_of "/v1/wallet/owner/retrieve_txs" None) (serving s) = (Hang, p1) /\
    forall r, fst (serve toy_post (owner_server s None) (get_of "/v1/wallet/owner/retrieve_outputs" None) p1) = Ok r ->
    r = empty_response UNAUTHORIZED.
Proof.
  intros s. set (v := owner_server s None). set (req := get_of "/v1/wallet/owner/retrieve_txs" None).
  set (q := {| q_refresh := None; q_show_spent := None; q_fluff := None; q_id := None; q_tx_id := None; q_tx_uuid := None; q_body := [] |}).
  destruct (service_stuck (T := terminal) true 0 toy_post (serving s) v req ERetrieveTxs q (world (inst (open_session None)))) as (p1 & H1 & H2);
    [reflexivity|reflexivity|left; split; [done|discriminate]|reflexivity..|].
  exists p1. split; [exact H1|]. intros r Hr. destruct (H2 p1 (rtc_refl _ p1)) as (_ & _ & H3).
  destruct (H3 v (get_of "/v1/wallet/owner/retrieve_outputs" None) r Hr) as [->|H4]; [reflexivity|]. vm_compute in H4. destruct H4.
Defined.

Lemma pair_of {A B} (p : A * B) a : fst p = a -> p = (a, snd p).
Proof. destruct p. by intros <-. Qed.
Lemma slot_full s : bool_decide (is_Some (brokers s ChMwcmqs)) = true -> brokers s ChMwcmqs = Some (slot s).
Proof. unfold slot. intros [h Hh]%bool_decide_eq_true. by rewrite Hh. Qed.
Lemma begin_writes s : writes (B := toy_channels) (slot s) (Commands.net s) (begin_mwcmqs s).
Proof.
  unfold begin_mwcmqs. destruct (slot s) as [a b|a b|a b] eqn:Hs; [intros h' Hk; done| |intros h' Hk; done].
  apply (thread_writes [] no_http). by econstructor.
Qed.
Example second_listens :
  is_running ChMwcmqs first_runs = true /\ is_running ChMwcmqs first_stopped = false /\ is_running ChMwcmqs second_runs = true.
Proof. split_and!; vm_compute; reflexivity. Qed.
Lemma first_slots : slots_ok first_runs.
Proof.
  pose proof (listen_on_moved ChMwcmqs (owner_shell None) idle_slots) as H.
  assert (slots_ok first_made) as H1 by (unfold first_made; destruct (listen_on ChMwcmqs (owner_shell None)); apply H).
  refine (step_slots _ _ (step_thread first_made (slot first_made) _ _ (begin_writes first_made)) H1).
  apply (proj1 H1 ChMwcmqs), slot_full. vm_compute. reflexivity.
Qed.

Lemma relisten_not_served_witness :
  let v := owner_server first_runs None in
  let p := {| process := main_of second_runs; mutex := false |} in
  is_running ChMwcmqs second_runs = true /\
  exists r, fst (serve toy_post v send_request p) = Ok r /\ r = json_response (Api.error_text "An error occurred while posting slate.").
Proof.
  intros v p. split; [vm_compute; reflexivity|].
  set (c := owner_config None). set (m := start_ends [] ChMwcmqs c toy_outside).
  assert (m = (Ok (slot first_runs), snd m)) as Hnew by (apply pair_of; vm_compute; reflexivity).
  assert (stop_on ChMwcmqs first_runs = (Ok (), first_stopped)) as Hstop
    by (apply pair_of; vm_compute; reflexivity).
  assert (listen_on ChMwcmqs first_stopped = (Ok (), second_made)) as Hlisten
    by (apply pair_of; vm_compute; reflexivity).
  assert (brokers first_runs ChMwcmqs = Some (slot first_runs)) as Hs1 by (apply slot_full; vm_compute; reflexivity).
  assert (brokers second_made ChMwcmqs = Some (slot second_made)) as Hs2 by (apply slot_full; vm_compute; reflexivity).
  set (i := initiate (N := toy_world) toy_send (MWCMQSAddress_display toy_to) (set_wallet_held true (api_state p))).
  assert (i = (Ok (new_slate 5), Api.set_ses (Api.ses (snd i)) (set_wallet_held true (api_state p)))) as Hi.
  { assert (fst i = Ok (new_slate 5)) as H by (vm_compute; reflexivity). clear - H. revert H. unfold i, initiate, Api.on_wallet.
    destruct (initiate_send_tx _ _ _ _ _ _ _ _ _ _ _) as [r x]. cbn [fst snd]. intros ->. reflexivity. }
  pose proof (relisten_not_served (BL := toy_channels_laws) (T := terminal) toy_post c toy_outside (snd m) (slot first_runs) (slot second_made)
    first_runs first_stopped second_made (begin_mwcmqs second_made) p v send_request) as H.
  specialize (H {| q_refresh := None; q_show_spent := None; q_fluff := None; q_id := None; q_tx_id := None; q_tx_uuid := None;
                   q_body := http_body send_request |} toy_send (MWCMQSAddress_display toy_to) toy_to (new_slate 5) (Api.ses (snd i))).
  specialize (H Hnew first_slots Hs1 Hs1 Hstop Hlisten Hs2 (begin_writes second_made) eq_refl eq_refl).
  assert (is_ok (fst (serve toy_post v send_request p)) = true) as Hok by (vm_compute; reflexivity).
  assert (select (router_routes (router_of v)) send_request = inl (EIssueSendTx, {| q_refresh := None; q_show_spent := None; q_fluff := None;
    q_id := None; q_tx_id := None; q_tx_uuid := None; q_body := http_body send_request |})) as Hsel by reflexivity.
  specialize (H Hsel eq_refl ltac:(vm_compute; reflexivity) eq_refl ltac:(vm_compute; reflexivity) ltac:(vm_compute; reflexivity) Hi).
  clear - H Hok. destruct (serve toy_post v send_request p) as [[r|e| |] p']; try discriminate Hok.
  exists r. split; [reflexivity|]. exact (proj2 H r eq_refl).
Defined.
