(* ===== verification/Exchange.v ===== *)
(** * A payment between two wallets

    The listener of [broker/grinbox.rs] with the controller of [main.rs] as its
    handler, and the controller's publisher on the listener's own broker: what
    two running wallets make of each other's messages. *)

From S2P Require Import Prelude Str Errors Regex Crypto Address Message TxProof AddressBook Config WalletTypes Hasher VerifyProof WalletApi Wallet Broker Grinbox Controller.
Local Open Scope Z_scope.

Section exchange.
Context {L : CryptoLib} {Laws : CryptoLaws L} {R : RegexEngine} {RL : RegexLaws R} {P : Platform} {SL : SlateLib} {W : WalletData} {D : DerivationLib} {WL : WalletLib}
  {LC : LifeCycle} {PL : ProofLib} {ST : Serde TxProof} {SE : Serde EncryptedMessage} {SQ : Serde ProtocolRequest} {SR : Serde ProtocolResponse}
  {K : KvStore} {J : ContactJson}.

(** ** A listener with its controller *)

(** The controller of a listener and its publisher; what the publisher works on
    is the broker of the listener, lent to it for a call. *)
Abbreviation Peer := (Grinbox (Ctl (Grinbox ()))).

(** The publisher the controller is made with; salt and nonce are random. *)
Definition publisher_of (c : GrinboxPublisher) (salt nonce : str) : Publisher (Grinbox ()) :=
  {| post_slate x to := GrinboxPublisher_post_slate c salt nonce x to |}.

Definition with_net (n : Grinbox ()) (s : Ctl (Grinbox ())) : Ctl (Grinbox ()) :=
  {| ses := ses s; net := n; book := book s; statics := statics s |}.
(** The broker as the publisher sees it: the same sender, nothing sent yet. *)
Definition lent (g : Peer) : Grinbox () :=
  {| inner := inner g; send_ok := send_ok g; frames := []; meta := meta g; printed := []; slept := []; hs := () |}.
(** What the publisher has sent goes out on the listener's connection. *)
Definition lend (g : Peer) : Peer := set_hs (with_net (lent g) (hs g)) g.
Definition collect (g : Peer) : Peer :=
  {| inner := inner g; send_ok := send_ok g; frames := frames g ++ frames (net (hs g)); meta := meta g; printed := printed g;
     slept := slept g; hs := hs g |}.
(** A frame that arrives. *)
Definition peer_on_message (name : str) (c : GrinboxPublisher) (salt nonce frame : str) : stM Peer Error () := fun g =>
  let '(r, g) := client_on_message (H := Controller (Pub := publisher_of c salt nonce) name) c frame (lend g) in (r, collect g).

(** ** What a slate makes of a controller *)

(** The controller's way through a slate that its wallet processes: [b] says
    whether it was complete, [y] is what the wallet makes of it. *)
Lemma on_slate_run {N : Type} {Pub : Publisher N} from t x proof config (s : Ctl N) b y w :
  Address_stripped from = Ok t -> check_from from = Ok () -> (incomplete x = true -> participant_data x <> []) ->
  (forall line, exists c s', process_incoming_slate (statics s) (Some (Address_display from)) config
     (Some (active_account (wal (ses s)))) ({| slate := x; tx_proof := proof |}, said line (ses s)) = (Ok b, (c, s')) /\
     slate c = y /\ wal s' = w) ->
  (b = false -> fst (post_slate y from (net s)) = Ok ()) ->
  exists s', Controller_on_slate from x proof config s = (Ok (), s') /\ wal (ses s') = w /\
    net s' = if b then net s else snd (post_slate y from (net s)).
Proof.
  intros Hs Hc Hp Hproc Hpost. unfold Controller_on_slate. unfold mbind at 1, stM_bind at 1. unfold display_from. rewrite Hs.
  unfold mbind at 1, stM_bind at 1.
  match goal with |- context [announce x ?sh s] => destruct (announce_spec x sh s) as [(_ & Hi & Hd)|(_ & line & Ha)] end;
    [by destruct (Hp Hi)|]. rewrite Ha, message_line_eq. unfold mbind at 1, stM_bind at 1, st_lift at 1. rewrite Hc.
  unfold mbind at 1, stM_bind at 1, on_ses at 1, get_wal, mbind at 1, stM_bind at 1. cbn [ses net book statics wal said mret stM_ret].
  unfold st_match at 1, process at 1. cbn [ses net book statics].
  destruct (Hproc line) as (c & s' & Hpr & Hy & Hw). cbn [wal said]. rewrite Hpr. cbn [mbind outcome_bind].
  destruct b; [rewrite message_line_eq; eexists; split; [reflexivity|done]|].
  specialize (Hpost eq_refl). unfold mbind, stM_bind, st_match, on_net. cbn [ses net book statics]. rewrite Hy.
  destruct (post_slate y from (net s)) as [r n]. cbn in Hpost. subst r. cbn. rewrite ?message_line_eq. cbn. eexists. split; [reflexivity|done].
Qed.

(** An address as a contact is reached under it. *)
Lemma reached a : mq_wf a ->
  (exists t, Address_stripped (AGrinbox (normalise a)) = Ok t) /\ check_from (AGrinbox (normalise a)) = Ok () /\
  GrinboxAddress_from_str (Address_display (AGrinbox (normalise a))) = Ok (normalise a).
Proof.
  intros Hwf. assert (Address_display (AGrinbox (normalise a)) = GrinboxAddress_display a) as Hd by apply normalise_display.
  assert (GrinboxAddress_from_str (GrinboxAddress_display a) = Ok (normalise a)) as Hp.
  { unfold GrinboxAddress_display, GrinboxAddress_from_str, GRINBOX_ADDRESS_REGEX. rewrite mq_display_tail.
    apply mq_roundtrip; auto using scheme_ok_mwcmq. }
  split_and!.
  - destruct (stripped_parse a Hwf) as [(t & Ht & _) _]. exists t. rewrite <- Ht. cbn [Address_stripped]. unfold GrinboxAddress_stripped.
    by rewrite <- Hd.
  - unfold check_from. cbn [address_type]. by rewrite Hd, Hp.
  - by rewrite Hd.
Qed.

Lemma publisher_posts c salt nonce y to dest q text (n : Grinbox ()) :
  GrinboxAddress_from_str (Address_display to) = Ok dest -> inner n = true -> send_ok n = true ->
  slate_request salt nonce y dest (pub_address c) (pub_secret_key c) = Ok q -> to_json q = Some text ->
  GrinboxPublisher_post_slate c salt nonce y to n = (Ok (), add_frame text n).
Proof.
  intros Hto Hi Hok Hq Ht. unfold GrinboxPublisher_post_slate, broker_post_slate, mbind, stM_bind, st_lift, is_running. rewrite Hto, Hi, Hq.
  cbn. rewrite Hi, Ht. cbn. unfold st_map_err, ws_send. by rewrite Hok.
Qed.

(** ** What the wallets bring *)

(** A client has the key of its address. *)
Definition holds (c : GrinboxPublisher) (k : PublicKey) : Prop :=
  from_secret_key (pub_secret_key c) = Some k /\ public_key_text (pub_address c) = key_text k /\ mq_wf (pub_address c).
(** A slate that its text gives back. *)
Definition carried (x : Slate) (text : str) : Prop :=
  slate_to_json x = Some text /\ utf8_valid text = true /\ deserialize_upgrade text = Some x.
(** What the wallet behind [s] makes of a slate [x] from [sender] with a proof
    that verifies, whatever is on the console: [y], complete or not, and [w]. *)
Definition treats (c : GrinboxPublisher) (s : Ctl (Grinbox ())) (sender : GrinboxAddress) (x : Slate) (b : bool) (y : Slate) (w : Wallet) : Prop :=
  (incomplete x = true -> participant_data x <> []) /\
  forall proof dest line, address proof = sender -> verify_extract proof (Some (pub_address c)) = Ok (Some dest, x) ->
  exists c1 s1, process_incoming_slate (statics s) (Some (Address_display (AGrinbox sender))) (Some (pub_config c))
     (Some (active_account (wal (ses s)))) ({| slate := x; tx_proof := Some proof |}, said line (ses s)) = (Ok b, (c1, s1)) /\
     slate c1 = y /\ wal s1 = w.

(** One leg: the message arrives, the wallet treats it, and an incomplete slate
    goes back. *)
Lemma peer_reads {SEL : SerdeLaws EncryptedMessage} {SRL : SerdeLaws ProtocolResponse}
    name sender me A B to x text salt nonce from to' m sig frame salt' nonce' (g : Peer) b y w q posted :
  holds sender A -> holds me B -> public_key_text to = key_text B -> carried x text -> salt <> [] -> nonce <> [] ->
  slate_request salt nonce x to (pub_address sender) (pub_secret_key sender) = Ok (PostSlate from to' m sig) ->
  to_json (ResponseSlate from m sig []) = Some frame ->
  treats me (hs g) (normalise (pub_address sender)) x b y w ->
  (b = false -> inner g = true /\ send_ok g = true /\
     slate_request salt' nonce' y (normalise (pub_address sender)) (pub_address me) (pub_secret_key me) = Ok q /\ to_json q = Some posted) ->
  exists g', peer_on_message name me salt' nonce' frame g = (Ok (), g') /\ wal (ses (hs g')) = w /\
    frames g' = frames g ++ if b then [] else [posted].
Proof.
  intros (Ha & Hka & Hwf) (Hb & Hkb & _) Hto (Hj & Hu & Hd) Hs Hn Hreq Hf [Hp Hproc] Hback.
  destruct (request_read salt nonce x text to A B sender me from to' m sig) as (proof & H1 & H2 & H3); auto.
  destruct (reached (pub_address sender) Hwf) as ((t & Ht) & Hc & Hparse). rewrite <- H2 in *.
  assert (b = false -> GrinboxPublisher_post_slate me salt' nonce' y (AGrinbox (address proof)) (lent g) = (Ok (), add_frame posted (lent g))) as Hpost.
  { intros Hb0. destruct (Hback Hb0) as (Hi & Hok & Hq & Hpo). by apply (publisher_posts _ _ _ _ _ (address proof) q). }
  unfold peer_on_message, client_on_message. rewrite (serde_roundtrip _ _ Hf), H1. unfold handler_call.
  destruct (on_slate_run (Pub := publisher_of me salt' nonce') (AGrinbox (address proof)) t x (Some proof) (Some (pub_config me))
    (hs (lend g)) b y w) as (s' & Hrun & Hw & Hnet); [exact Ht|exact Hc|exact Hp| |intros Hb0; cbn; by rewrite (Hpost Hb0)|].
  { intros line. by apply (Hproc proof to line). }
  cbn [on_slate Controller]. rewrite Hrun. eexists. split; [reflexivity|]. split; [exact Hw|]. cbn. rewrite Hnet.
  destruct b; [done|]. cbn. by rewrite (Hpost eq_refl).
Qed.
End exchange.

(** ** Properties *)

(** C9: a payment between two wallets.  One wallet posts a slate for the other's
    address; the other's listener reads it, its controller gives it to the wallet
    and posts exactly what the wallet makes of it, once, to the address the slate
    came from; the first wallet's listener reads that, its wallet completes the
    payment, and nothing more is sent.  Nothing is asked of the wallets but that
    they treat the slates they are given. *)
Theorem grinbox_exchange {L : CryptoLib} {Laws : CryptoLaws L} {R : RegexEngine} {RL : RegexLaws R} {P : Platform} {SL : SlateLib}
    {W : WalletData} {D : DerivationLib} {WL : WalletLib} {LC : LifeCycle} {PL : ProofLib} {ST : Serde TxProof}
    {SE : Serde EncryptedMessage} {SEL : SerdeLaws EncryptedMessage} {SQ : Serde ProtocolRequest} {SR : Serde ProtocolResponse}
    {SRL : SerdeLaws ProtocolResponse} {K : KvStore} {J : ContactJson}
    na nb a b A B to x tx y ty z wa wb s1 n1 s2 n2 s3 n3 f1 t1 m1 g1 frame1 f2 t2 m2 g2 posted frame2 ga gb :
  holds a A -> holds b B -> public_key_text to = key_text B -> carried x tx -> carried y ty ->
  s1 <> [] -> n1 <> [] -> s2 <> [] -> n2 <> [] ->
  slate_request s1 n1 x to (pub_address a) (pub_secret_key a) = Ok (PostSlate f1 t1 m1 g1) ->
  to_json (ResponseSlate f1 m1 g1 []) = Some frame1 ->
  slate_request s2 n2 y (normalise (pub_address a)) (pub_address b) (pub_secret_key b) = Ok (PostSlate f2 t2 m2 g2) ->
  to_json (PostSlate f2 t2 m2 g2) = Some posted -> to_json (ResponseSlate f2 m2 g2 []) = Some frame2 ->
  inner gb = true -> send_ok gb = true ->
  treats b (hs gb) (normalise (pub_address a)) x false y wb ->
  treats a (hs ga) (normalise (pub_address b)) y true z wa ->
  exists gb' ga',
    peer_on_message nb b s2 n2 frame1 gb = (Ok (), gb') /\ frames gb' = frames gb ++ [posted] /\ wal (ses (hs gb')) = wb /\
    peer_on_message na a s3 n3 frame2 ga = (Ok (), ga') /\ frames ga' = frames ga /\ wal (ses (hs ga')) = wa.
Proof.
  intros Ha Hb Hto Hx Hy Hs1 Hn1 Hs2 Hn2 Hreq1 Hf1 Hreq2 Hpo Hf2 Hi Hok Hbt Hat.
  destruct (peer_reads nb a b A B to x tx s1 n1 f1 t1 m1 g1 frame1 s2 n2 gb false y wb (PostSlate f2 t2 m2 g2) posted)
    as (gb' & H1 & H2 & H3); auto.
  destruct (peer_reads na b a B A (normalise (pub_address a)) y ty s2 n2 f2 t2 m2 g2 frame2 s3 n3 ga true z wa (PostSlate f2 t2 m2 g2) posted)
    as (ga' & H4 & H5 & H6); auto; [apply Ha|done|].
  rewrite app_nil_r in H6. by exists gb', ga'.
Qed.

Import Toy Backtrack ToyPlatform ToySerde ToyMessage ToySlate ToyWallet ToyLib ToyConfig ToyLife ToyProof ToyStore ToyProtocol.

(** Two open wallets that listen. *)
Module ToyExchange.
Definition listening_peer : Grinbox (Ctl (Grinbox ())) :=
  {| inner := true; send_ok := true; frames := []; meta := ConnectionMetadata_new; printed := []; slept := [];
     hs := {| ses := open_session None; net := idle (); book := ∅; statics := {| RECV_ACCOUNT := None; RECV_PASS := None |} |} |}.
Definition answer : Slate := step_slate a_slate.
Definition answer_text : str := default [] (slate_to_json answer).
Definition answer_request : result ProtocolRequest :=
  slate_request (lit "saltsal2") (lit "noncenonce2") answer (normalise toy_from) toy_dest (toy_sk 9).
Definition answer_posted : str := match answer_request with Ok q => default [] (to_json q) | _ => [] end.
Definition answer_frame : str :=
  match answer_request with Ok (PostSlate f _ m s) => default [] (to_json (ResponseSlate f m s [])) | _ => [] end.
End ToyExchange.
Import ToyExchange.

Lemma ran {A B C E} (r : outcome E A * (B * C)) (a : A) (P : B -> C -> Prop) :
  fst r = Ok a -> P (fst (snd r)) (snd (snd r)) -> exists b c, r = (Ok a, (b, c)) /\ P b c.
Proof. destruct r as [r [b c]]. cbn. intros -> HP. eauto. Qed.
Lemma b_treats : treats b_client (hs listening_peer) (normalise toy_from) a_slate false answer (wal (open_session None)).
Proof.
  split; [by intros _|]. intros proof dest line _ _.
  apply (ran _ _ (fun c1 s1 => slate c1 = answer /\ wal s1 = wal (open_session None))); [vm_compute; reflexivity|].
  split; vm_compute; reflexivity.
Qed.
Lemma a_treats : treats a_client (hs listening_peer) (normalise toy_dest) answer true answer (wal (open_session None)).
Proof.
  split; [by intros _|]. intros [] dest line _ _.
  apply (ran _ _ (fun c1 s1 => slate c1 = answer /\ wal s1 = wal (open_session None))); [vm_compute; reflexivity|].
  split; vm_compute; reflexivity.
Qed.

Lemma toy_holds : holds a_client (toy_pk 7) /\ holds b_client (toy_pk 9).
Proof.
  split; (split; [reflexivity|split; [reflexivity|]]); [exact toy_from_wf|].
  split_and!; [by exists (toy_pk 9) | split; [done | by repeat constructor] | done].
Qed.
Lemma toy_carried : carried a_slate a_text /\ carried answer answer_text.
Proof. split; split_and!; vm_compute; reflexivity. Qed.

Lemma grinbox_exchange_witness :
  exists gb ga,
    peer_on_message (lit "b") b_client (lit "saltsal2") (lit "noncenonce2") toy_frame listening_peer = (Ok (), gb) /\
    frames gb = [answer_posted] /\
    peer_on_message (lit "a") a_client [] [] answer_frame listening_peer = (Ok (), ga) /\ frames ga = [].
Proof.
  assert (exists f t m s, toy_request = Ok (PostSlate f t m s) /\ to_json (ResponseSlate f m s []) = Some toy_frame) as (f1 & t1 & m1 & g1 & Hr1 & Hf1).
  { unfold toy_frame. assert (match toy_request with Ok (PostSlate _ _ _ _) => true | _ => false end = true) as E by (vm_compute; reflexivity).
    destruct toy_request as [[| | |]| | |]; try discriminate E. eauto 6. }
  assert (exists f t m s, answer_request = Ok (PostSlate f t m s) /\ to_json (PostSlate f t m s) = Some answer_posted /\
    to_json (ResponseSlate f m s []) = Some answer_frame) as (f2 & t2 & m2 & g2 & Hr2 & Hp2 & Hf2).
  { unfold answer_posted, answer_frame.
    assert (match answer_request with Ok (PostSlate _ _ _ _) => true | _ => false end = true) as E by (vm_compute; reflexivity).
    destruct answer_request as [[| | |]| | |]; try discriminate E. eauto 8. }
  destruct toy_holds as [Ha Hb]. destruct toy_carried as [Hx Hy].
  destruct (grinbox_exchange (lit "a") (lit "b") a_client b_client (toy_pk 7) (toy_pk 9) toy_dest a_slate a_text answer answer_text answer
    (wal (open_session None)) (wal (open_session None)) (lit "saltsalt") (lit "noncenonceno") (lit "saltsal2") (lit "noncenonce2") [] []
    f1 t1 m1 g1 toy_frame f2 t2 m2 g2 answer_posted answer_frame listening_peer listening_peer Ha Hb eq_refl Hx Hy
    ltac:(discriminate) ltac:(discriminate) ltac:(discriminate) ltac:(discriminate) Hr1 Hf1 Hr2 Hp2 Hf2 eq_refl eq_refl b_treats a_treats)
    as (gb & ga & H1 & H2 & _ & H4 & H5 & _).
  exists gb, ga. exact (conj H1 (conj H2 (conj H4 H5))).
Defined.
