(* ===== verification/Console.v ===== *)
(** * The console and the http client's wrapper

    [common/macros.rs] and [common/mod.rs]: the mode the process runs in, the
    macro that prints a message over the prompt or logs it, and [post]. *)

From S2P Require Import Prelude Str.

(** ** The mode *)

Inductive RuntimeMode : Type := Cli | Daemon.
#[export] Instance RuntimeMode_eq_dec : EqDecision RuntimeMode.
Proof. solve_decision. Defined.

(** The process's static, what its standard output has got, which does not
    fail, and its log. *)
Record Console : Type := { RUNTIME_MODE : RuntimeMode; screen : str; log : list str }.
Definition console_new : Console := {| RUNTIME_MODE := Cli; screen := []; log := [] |}.

Definition set_runtime_mode (runtime_mode : RuntimeMode) (c : Console) : Console :=
  {| RUNTIME_MODE := runtime_mode; screen := screen c; log := log c |}.
Definition is_cli (c : Console) : bool := bool_decide (RUNTIME_MODE c = Cli).
(** [main]: what the flag of the command line makes the mode. *)
Definition mode_of (daemon : bool) : RuntimeMode := if daemon then Daemon else Cli.

(** ** Messages *)

Definition PROMPT : str := lit "wallet713> ".
Definition COLORED_PROMPT : str := chr 27 :: lit "[36mwallet713>" ++ chr 27 :: lit "[0m ".

Definition print (s : str) (c : Console) : Console :=
  {| RUNTIME_MODE := RUNTIME_MODE c; screen := screen c ++ s; log := log c |}.
Definition info (s : str) (c : Console) : Console :=
  {| RUNTIME_MODE := RUNTIME_MODE c; screen := screen c; log := log c ++ [s] |}.

(** [cli_message!]: without arguments, or with the text they are formatted to. *)
Definition cli_message (text : option str) (c : Console) : Console :=
  match text with
  | None => if is_cli c then print (chr 13 :: COLORED_PROMPT) c else c
  | Some s =>
      if is_cli c then print (chr 10 :: COLORED_PROMPT) (print s (print [chr 13] c))
      else info s c
  end.
Definition cli_messages (l : list (option str)) (c : Console) : Console := foldl (flip cli_message) c l.

(** ** The http client *)

Section post.
(** [grin_api::client], with requests and errors of its own; what is sent
    changes the state of the network. *)
Context {IN Req N F : Type}.
Variable create_post_request_ex : str -> option str -> option str -> IN -> outcome F Req.
Variable send_request : Req -> stM N F str.

Definition post (url : str) (api_secret basic_auth_key : option str) (input : IN) : stM N F str :=
  req ← st_lift (create_post_request_ex url api_secret basic_auth_key input);
  res ← send_request req;
  mret res.

(** A request that cannot be made is not sent. *)
Lemma post_unsent url secret key x e n :
  create_post_request_ex url secret key x = Err e -> post url secret key x n = (Err e, n).
Proof. unfold post, mbind, stM_bind, st_lift. by intros ->. Qed.
End post.

(** ** What is seen of messages *)

Lemma cli_message_mode t c : RUNTIME_MODE (cli_message t c) = RUNTIME_MODE c.
Proof. destruct t; cbn; by case_match. Qed.

Lemma cli_messages_app l l' c : cli_messages (l ++ l') c = cli_messages l' (cli_messages l c).
Proof. apply foldl_app. Qed.

Lemma cli_messages_mode l c : RUNTIME_MODE (cli_messages l c) = RUNTIME_MODE c.
Proof. revert c. induction l as [|t l IH]; intros c; [done|]. exact (eq_trans (IH _) (cli_message_mode t c)). Qed.

(** What one message puts on the screen of a console with a prompt. *)
Definition shown (t : option str) : str :=
  chr 13 :: match t with None => COLORED_PROMPT | Some s => s ++ chr 10 :: COLORED_PROMPT end.

(** Before a prompt a message erases the line, prints itself and leaves the
    prompt as the last thing on the screen; nothing is logged.  The daemon
    prints nothing, and logs each text once, in order. *)
Theorem messages_seen (daemon : bool) (l : list (option str)) :
  let c := cli_messages l (set_runtime_mode (mode_of daemon) console_new) in
  if daemon then screen c = [] /\ log c = omap id l
  else screen c = concat (shown <$> l) /\ log c = [] /\ (l <> [] -> exists s, screen c = s ++ COLORED_PROMPT).
Proof.
  induction l as [|t l IH] using rev_ind; [by destruct daemon|].
  pose proof (cli_messages_mode l (set_runtime_mode (mode_of daemon) console_new)) as M.
  rewrite cli_messages_app. revert IH M. generalize (cli_messages l (set_runtime_mode (mode_of daemon) console_new)).
  intros c IH M. change (cli_messages [t] c) with (cli_message t c).
  change (RUNTIME_MODE c = mode_of daemon) in M. unfold cli_message, is_cli. rewrite M. destruct daemon; cbn [mode_of].
  - change (bool_decide (Daemon = Cli)) with false. destruct IH as [IHs IHl]. rewrite omap_app, <- IHl.
    destruct t; cbn; by rewrite ?app_nil_r.
  - change (bool_decide (Cli = Cli)) with true. destruct IH as (IHs & IHl & _). rewrite fmap_app, concat_app, <- IHs.
    destruct t as [s|]; cbn -[COLORED_PROMPT]; rewrite app_nil_r; (split; [|split; [exact IHl|]]).
    + by rewrite <- !app_assoc.
    + intros _. exists (((screen c ++ [chr 13]) ++ s) ++ [chr 10]). exact (app_assoc _ [chr 10] _).
    + done.
    + intros _. exists (screen c ++ [chr 13]). exact (app_assoc _ [chr 13] _).
Qed.
